(* ===== verification/_CoqProject ===== *)
-Q . S2P
Prelude.v
Text.v
FatNames.v
FatTable.v
BlockDev.v
FatFs.v
FatDir.v
FatVolume.v
FatFile.v
FatTruncate.v
FatMount.v
FatLeak.v
Descriptors.v
Time.v
Devices.v
DevicesSpec.v
Rtc.v
Paths.v
FatFileApi.v
Context.v
Sched.v
Heap.v
Frames.v
SelfTest.v
Paging.v
PageTree.v
PageWalk.v
PageCheck.v
PageInspect.v
PageMap.v
PageExample.v
MemCtl.v
Stacks.v
Interrupts.v
PageSpace.v
MemBoot.v
Elf.v
ElfLoad.v
Syscalls.v
SyscallSafe.v
SyscallFile.v
Boot.v
KernelMem.v
UserBytes.v
Ahci.v
AhciPrdt.v
Fis.v
AhciCmd.v
AhciTransfer.v
AhciDrive.v
AhciBlock.v
AhciPorts.v
Ulib.v
Edit.v
EditSpec.v
Shell.v
ShellCwd.v
Programs.v
KernelOs.v
UlibSpec.v
Pci.v
PciSpec.v
PciScan.v
E1000.v
E1000Spec.v
Asm.v
BootAsm.v
BootAsmSpec.v
UserAsm.v
SampleOs.v
RustMain.v
