(* ===== verification/Prelude.v ===== *)
(** * A verification library for Bubble OS

    Bubble OS is a small x86-64 kernel in Rust with a few user programs.  It boots through
    multiboot, takes memory over from the loader, finds a SATA disk and a network card on
    the PCI bus, mounts a FAT32 volume, and runs ELF programs in ring 3 that call it
    through [int 0x80].  This library models it as functional programs over explicit
    state and proves what the parts do.

    ** How the code is modelled

    A function of the kernel is a definition of the same name (with the component's name
    in front where Rust's modules kept two of the same name apart).  Its type is
    [kst S A]: from a state [S], the state and a result, or a [fault]: [Panic] (overflow
    and indexing in the debug profile the kernel is built with, [unwrap], [unreachable!]),
    [Undefined] (an access outside of its object) or [Hang] (a loop that outruns its
    fuel).  [Option] results are [option], [?] is [let?], and what a function did before it
    returned [None] stays done.  Integers are [Z]; conversions and shifts that lose bits
    are written out ([wrap]), additions that can overflow are [uadd], [umul], [usub].
    User programs are built in the release profile, where integers wrap.

    Code outside of the repository is a parameter: a class with the operations the code
    calls, and a second class with the documented behaviour the theorems rely on, each with
    an instance to run it on - the disk controller ([HbaDevice], [Controller]), PCI
    functions ([PciBus], [PciFunction]), the network card ([NicDevice]), the chips behind
    the I/O ports ([PortIo], [Board]), the trap into the kernel ([Int80]), Unicode case
    mapping ([UnicodeCase]).  Components meet at such classes too: the FAT driver runs on a
    [BlockDevice], descriptors on [FileSpec] (implemented by the FAT driver in FatFileApi),
    paths on [DirOps], the scheduler on [ProcMemory] and the system calls on [UserMem]
    (both implemented by the memory controller in KernelMem), the file calls on [UserSpec]
    (implemented by page tables and physical bytes in UserBytes), cat on [FileOs]
    (implemented by the kernel's own system calls in KernelOs), and [rust_main] on [Stages]
    (implemented by the initializers of memory, ports and volume in RustMain).

    ** The parts

    Shared: Prelude (outcomes, the state monad, machine integers, byte strings, automation),
    Text (UTF-8, UTF-16, case, [char] predicates).

    File system (src/src/fs): FatNames is fat.rs - on-disk records, long names, 8.3
    aliases; FatTable is FatBuffer; FatFs is every method of FATFileSystem, FATFile and
    FATDirectory in fat_fs.rs, over BlockDev, its view of heap and disk.  FatDir, FatVolume,
    FatFile, FatTruncate and FatLeak hold the theorems: names survive the directory format;
    tables and entries survive the disk; reads and writes act on the byte string that
    [file_bytes] gives a directory entry; growing and shrinking keep contents and the
    allocation table right; no path, failing or not, loses a transfer buffer.  FatMount is
    mounting: it finds what is on the disk, and what was saved is found again.  Descriptors
    and Paths are process.rs's descriptor table and fs.rs's path resolution; FatFileApi
    joins them to the driver.

    Disk (src/src/ahci): Ahci is fis.rs, hba.rs, port.rs and mod.rs down to registers,
    command slots and the bytes of FIS and PRDT.  AhciPrdt shows that the region
    descriptors name exactly the physical bytes of a buffer, AhciCmd that a prepared slot is
    read back by the controller as the command asked for, AhciTransfer that reads and
    writes move the sectors and nothing else - what BlockDev's laws ask of the port, for
    sectors below 2^24, which is all the command encodes.  AhciDrive is a drive to run it
    on, AhciBlock shows that any sequence of requests to the driver is answered as an array
    of sectors would answer it, AhciPorts is the probing.  Fis holds the structures that a
    device sends.

    Memory (src/src/mem): Heap is heap.rs with its headers in memory - live allocations are
    disjoint, and the allocator implements first fit on a list of blocks.  Frames is
    page_frame.rs, simple_page_frame_allocator.rs, pages and entries; Paging is
    page_table.rs, slot_allocator.rs and temp_mapper.rs over physical memory as frames of
    512 words; PageTree and PageWalk carry the proofs, PageCheck is the user pointer check,
    PageInspect the dump of a page's entries, PageMap the effect of [map_to], PageExample a
    memory to evaluate on.  MemCtl is mod.rs and the stack allocator; Stacks, PageSpace and MemBoot show that stacks stay apart, that
    a cloned table is an address space of its own, and that the tables built at boot meet
    every condition the others assume.  SelfTest is test.rs.

    Processes (src/src/scheduling, src/src/time, arch/x86_64): Context is the saved frame, the
    trampoline and [jump]; Sched is scheduling/mod.rs and the timer handler - round robin,
    bounded waiting, no panic, contexts preserved across preemption; Time is time/mod.rs
    and the calendar.

    Programs (src/src/elf, src/src/syscall, src/userspace): Elf and ElfLoad are the loader
    and the argument frame; Syscalls is every handler and the dispatcher, SyscallSafe shows
    that each call reports a result, that bad pointers are refused and that user memory is
    written only where the check allows, SyscallFile what [read], [write], [open] and
    [close] do to the caller's buffer, its descriptors and its file; KernelMem instantiates the lot with the memory
    controller and the FAT volume.  Ulib is the user library, UlibSpec what arguments and
    directory listings look like on the other side; Edit and EditSpec the editor and its
    specification as a text split at the cursor; Shell and ShellCwd the shell and its
    prompt; Programs cat and ls.  KernelOs runs cat on the model of the kernel: through the
    system calls, the page tables, the descriptors and the FAT volume to the console.

    The machine (src/src/io, arch/x86_64, src/src/lib.rs): Devices is the code for the serial
    port, the interrupt controllers, the timer chip and the log, and the chips as their data
    sheets describe them; DevicesSpec what the code makes of them; Rtc the reads of the clock
    chip.  Interrupts is gdt.rs, idt.rs and timer_isr.rs: the stacks on which the kernel is
    entered, the gates, and the timer interrupt with its port accesses, which refines the
    handler of Sched.  Boot is the steps of lib.rs: from the serial line to open interrupts
    ([boot_ready]), and from the mounted volume to the shell.  RustMain is [rust_main] as one
    run of all the steps - line, memory, heap, interrupts, PCI and ACPI, the disk ports, the
    mounted volume, the shell - with its messages; [rust_main_boots] says that it ends with
    the shell ready to be entered by the first timer interrupt.

    Assembly (arch/x86_64/boot, src/userspace): Asm is the part of an x86 processor that the
    assembly of the repository uses, with the page walk of long mode.  BootAsm is header.s,
    boot.s, long_mode.s and kernel_start.asm as programs for it; BootAsmSpec shows that they
    reach [rust_main] in long mode on tables that map the first GiB to itself, or stop with a
    message on a machine that cannot run the kernel.  UserAsm is [_start] of the programs and
    the two samples: what the loader wrote on the stack arrives in [rust_main] of the
    program.  SampleOs runs the sample on the model of the kernel.

    Devices (arch/x86_64/acpi, src/src/net): Pci is the ACPI tables, PCI enumeration and base
    address registers; PciScan and PciSpec show what discovery finds and that sizing a
    register returns its size and restores it.  E1000 and E1000Spec are the network driver
    and its receive ring.

    ** Bounds and fuel

    Loops over a structure recurse on it.  Loops that wait for hardware or follow links
    take fuel and end in [Hang] without: theorems say how much is enough (one more than
    the controller's polls, than the clusters of a chain, than the components of a path,
    than the polls of the clock's update flag, than the longest time the serial
    transmitter is occupied).  Fixed amounts are those of the code or
    follow from it: 128 PRDT entries, each with at most 1025 page pieces
    ([PRDT_CHUNKS]: 4 MiB is 1024 pages, and one more for an unaligned start); page walks
    of depth 4 with [user_tables] over the three levels below; a slot allocation nested
    once in [slot_alloc]; 20 digits for a 64-bit number; a million polls before a command
    is given up ([SPIN_LIMIT]).

    ** Not modelled

    The TLB (translations are those of the tables in memory), huge pages beyond the walk of
    Asm, caches and the compiler's freedom to reorder or hoist plain loads; concurrency
    beyond interrupts, for the kernel runs on one CPU with interrupts masked in handlers,
    and the spin locks around the statics; a timer interrupt in the middle of the boot
    sequence, where scheduling is still off and the handler counts a tick; log messages
    outside of Devices, Interrupts, Boot, RustMain and SelfTest; the heap space of Rust's own
    collections ([Vec], [String], [Arc] are values; the heap model is the allocator, and
    the transfer buffers of the FAT driver are counted in BlockDev).  In [rust_main] the
    components keep their own view of memory, and that memory, the ports and the volume can
    be brought up are hypotheses: [boot_tables_good], AhciPorts and [mount_finds_volume]
    are about those stages.  In Asm the fetch of instructions is not translated: code is a
    list beside memory.  tempshell/shell.s and sample2/main.old.s are not part of the build.
    The encoding of descriptors in the x86_64 crate, Unicode case mapping beyond ASCII,
    [alloc::format!] and the multiboot crate are parameters.  Left out as they have no
    behaviour of their own: module declarations, constructors and clones of structs, the
    wrappers around [Mutex] and pointers, constants that nothing reads. *)

From stdpp Require Export base tactics option list numbers gmap.
From Stdlib Require Export ZArith Lia.

#[global] Open Scope Z_scope.

(** ** Outcomes: what running a piece of kernel code can end in

    The kernel is built in the debug profile (Makefile, [rust_os]), so integer
    overflow and out-of-range indexing panic.  [Undefined] stands for memory
    accesses outside the object they were meant for (raw pointers, DMA into a
    buffer that is too small); [Hang] for a loop that does not end within the
    fuel it is given. *)
Inductive fault : Type :=
| Panic
| Undefined
| Hang.

Inductive outcome (A : Type) : Type :=
| Done (a : A)
| Fault (f : fault).
Arguments Done {A} _.
Arguments Fault {A} _.

#[global] Instance Done_inj {A} : Inj (=) (=) (@Done A).
Proof. by intros x y [= ->]. Qed.

(** A computation over the state [S]; what it did to the state is kept when the
    Rust function returns [None], which is an ordinary value here. *)
Definition kst (S A : Type) : Type := S → outcome (A * S).

Definition kret {S A} (a : A) : kst S A := λ s, Done (a, s).
Definition kbind {S A B} (m : kst S A) (k : A → kst S B) : kst S B := λ s,
  match m s with
  | Done (a, s') => k a s'
  | Fault f => Fault f
  end.
Definition kfault {S A} (f : fault) : kst S A := λ _, Fault f.
Definition kget {S} : kst S S := λ s, Done (s, s).
Definition kput {S} (s : S) : kst S unit := λ _, Done (tt, s).
Definition kgets {S A} (f : S → A) : kst S A := λ s, Done (f s, s).
Definition kmodify {S} (f : S → S) : kst S unit := λ s, Done (tt, f s).

(** Rust's [?] on an [Option]: [None] returns from the function. *)
Definition ktry {S A B} (m : kst S (option A)) (k : A → kst S (option B)) : kst S (option B) :=
  kbind m (λ o, match o with Some a => k a | None => kret None end).

(** Runs a computation of a component on the part of the state it owns. *)
Definition zoom {S T A} (get : S → T) (set : T → S → S) (m : kst T A) : kst S A := λ s,
  match m (get s) with
  | Done (a, t) => Done (a, set t s)
  | Fault f => Fault f
  end.

Declare Scope kernel_scope.
Delimit Scope kernel_scope with kernel.
Notation "'let*' x ':=' m 'in' k" := (kbind m (λ x, k))
  (at level 10, x pattern, m at level 100, k at level 200,
   format "'[v' 'let*'  x  ':='  m  'in' '/' k ']'") : kernel_scope.
Notation "'let?' x ':=' m 'in' k" := (ktry m (λ x, k))
  (at level 10, x pattern, m at level 100, k at level 200,
   format "'[v' 'let?'  x  ':='  m  'in' '/' k ']'") : kernel_scope.
Notation "m ';;*' k" := (kbind m (λ _, k))
  (at level 199, k at level 200, right associativity) : kernel_scope.
#[global] Open Scope kernel_scope.

(** [loop { ... }]: the body either goes on with a new value of its variables
    ([inl]) or leaves the loop with a result ([inr]). *)
Fixpoint loopM {S X R} (fuel : nat) (body : X → kst S (X + R)) (x : X) : kst S R :=
  match fuel with
  | O => kfault Hang
  | Datatypes.S n =>
      let* r := body x in
      match r with
      | inl x' => loopM n body x'
      | inr r => kret r
      end
  end.

(** ** Machine integers *)

Definition usize_bits : Z := 64.
Definition usize_max : Z := 2 ^ 64 - 1.
Definition u32_max : Z := 2 ^ 32 - 1.
Definition isize_max : Z := 2 ^ 63 - 1.

(** [x as u8], [x as u16], ... of a non-negative value. *)
Definition wrap (w z : Z) : Z := z mod 2 ^ w.

(** [checked_add], [checked_mul], [checked_sub] on [usize] (and [u64]). *)
Definition checked_add (a b : Z) : option Z := if a + b <=? usize_max then Some (a + b) else None.
Definition checked_mul (a b : Z) : option Z := if a * b <=? usize_max then Some (a * b) else None.
Definition checked_sub (a b : Z) : option Z := if a <? b then None else Some (a - b).

(** The plain operators, which panic on overflow in the debug profile. *)
Definition or_panic {S A} (o : option A) : kst S A :=
  match o with Some a => kret a | None => kfault Panic end.
Definition uadd {S} (a b : Z) : kst S Z := or_panic (checked_add a b).
Definition umul {S} (a b : Z) : kst S Z := or_panic (checked_mul a b).
Definition usub {S} (a b : Z) : kst S Z := or_panic (checked_sub a b).

(** Reading and writing an array at a [usize] index; out of range there is nothing to
    read, and the callers that write test the bound first. *)
Definition lookupZ {A} (l : list A) (i : Z) : option A :=
  if i <? 0 then None else l !! Z.to_nat i.
Definition insertZ {A} (i : Z) (x : A) (l : list A) : list A :=
  if i <? 0 then l else <[Z.to_nat i := x]> l.

(** Overwrites [l] from [off] on with [xs] (a [copy_nonoverlapping] into a
    buffer that is long enough). *)
Definition splice {A} (l : list A) (off : nat) (xs : list A) : list A :=
  take off l ++ xs ++ drop (off + length xs) l.

(** Little-endian bytes of a [n]-byte integer, and back. *)
Fixpoint le_bytes (n : nat) (z : Z) : list Z :=
  match n with
  | O => []
  | S n => z mod 256 :: le_bytes n (z / 256)
  end.
Fixpoint le_value (bs : list Z) : Z :=
  match bs with
  | [] => 0
  | b :: bs => b + 256 * le_value bs
  end.

Definition is_byte (b : Z) : Prop := 0 ≤ b < 256.
Definition bytes (l : list Z) : Prop := Forall is_byte l.

(** Consecutive chunks of [n] elements. *)
Fixpoint chunks {A} (k n : nat) (l : list A) : list (list A) :=
  match k with
  | O => []
  | S k => take n l :: chunks k n (drop n l)
  end.

(** ** Automation *)

Create HintDb kernel discriminated.
Create Rewrite HintDb kernel.

(** Turns boolean tests of the source into propositions. *)
Ltac bool_to_prop :=
  repeat match goal with
  | H : (_ <? _) = true |- _ => apply Z.ltb_lt in H
  | H : (_ <? _) = false |- _ => apply Z.ltb_ge in H
  | H : (_ <=? _) = true |- _ => apply Z.leb_le in H
  | H : (_ <=? _) = false |- _ => apply Z.leb_gt in H
  | H : (_ =? _) = true |- _ => apply Z.eqb_eq in H
  | H : (_ =? _) = false |- _ => apply Z.eqb_neq in H
  | H : _ || _ = false |- _ => apply orb_false_iff in H; destruct H
  | H : _ && _ = true |- _ => apply andb_true_iff in H; destruct H
  | H : negb _ = true |- _ => apply negb_true_iff in H
  | H : negb _ = false |- _ => apply negb_false_iff in H
  end.

(** Splits the integer comparisons of the goal. *)
Ltac split_tests :=
  repeat match goal with
  | |- context [?a <? ?b] => destruct (Z.ltb_spec a b)
  | |- context [?a <=? ?b] => destruct (Z.leb_spec a b)
  | |- context [?a =? ?b] => destruct (Z.eqb_spec a b)
  end.

(** Unfolds the monad one layer. *)
Ltac kunfold :=
  unfold kbind, ktry, kret, kfault, kget, kput, kgets, kmodify, zoom, or_panic in *.

(** ** Lemmas on the monad *)

Section Monad.
Context {S A B C : Type}.

Lemma kbind_done (m : kst S A) (k : A → kst S B) s a s' :
  m s = Done (a, s') → kbind m k s = k a s'.
Proof. intros H. unfold kbind. by rewrite H. Qed.

Lemma kret_bind (a : A) (k : A → kst S B) s : kbind (kret a) k s = k a s.
Proof. done. Qed.

Lemma kbind_inv (m : kst S A) (k : A → kst S B) s b s'' :
  kbind m k s = Done (b, s'') → ∃ a s', m s = Done (a, s') ∧ k a s' = Done (b, s'').
Proof. unfold kbind. destruct (m s) as [[a s']|]; [eauto | discriminate]. Qed.

Lemma kbind_assoc (m : kst S A) (k : A → kst S B) (h : B → kst S C) s :
  kbind (kbind m k) h s = kbind m (λ a, kbind (k a) h) s.
Proof. unfold kbind. by destruct (m s) as [[a s']|]. Qed.

Lemma ktry_some (m : kst S (option A)) (k : A → kst S (option B)) s a s' :
  m s = Done (Some a, s') → ktry m k s = k a s'.
Proof. intros H. unfold ktry, kbind. by rewrite H. Qed.

Lemma ktry_none (m : kst S (option A)) (k : A → kst S (option B)) s s' :
  m s = Done (None, s') → ktry m k s = Done (None, s').
Proof. intros H. unfold ktry, kbind. by rewrite H. Qed.

Lemma ktry_inv (m : kst S (option A)) (k : A → kst S (option B)) s o s'' :
  ktry m k s = Done (o, s'') →
  ∃ oa s', m s = Done (oa, s') ∧
    match oa with Some a => k a s' = Done (o, s'') | None => o = None ∧ s'' = s' end.
Proof.
  unfold ktry, kbind, kret. destruct (m s) as [[[a|] s']|]; intros; simplify_eq;
    eexists _, _; split; try done; eauto.
Qed.
End Monad.

Lemma loopM_step {S X R} n (body : X → kst S (X + R)) x s :
  loopM (Datatypes.S n) body x s =
    kbind (body x) (λ r, match r with inl x' => loopM n body x' | inr r => kret r end) s.
Proof. reflexivity. Qed.

(** More fuel does not change a result. *)
Lemma loopM_fuel {S X R} n k (body : X → kst S (X + R)) x s r s' :
  loopM n body x s = Done (r, s') → loopM (n + k) body x s = Done (r, s').
Proof.
  revert x s. induction n as [|n IH]; intros x s; [discriminate|].
  rewrite Nat.add_succ_l, !loopM_step. unfold kbind.
  destruct (body x s) as [[[x'|r'] s1]|]; auto.
Qed.

Lemma loopM_fuel_le {S X R} n m (body : X → kst S (X + R)) x s r s' :
  (n ≤ m)%nat → loopM n body x s = Done (r, s') → loopM m body x s = Done (r, s').
Proof. intros H Hl. replace m with (n + (m - n))%nat by lia. by apply loopM_fuel. Qed.

(** ** Lemmas on machine integers *)

Lemma uadd_ok {S} a b (s : S) : a + b ≤ usize_max → uadd a b s = Done (a + b, s).
Proof. intros H. unfold uadd, checked_add. by rewrite (proj2 (Z.leb_le _ _) H). Qed.
Lemma umul_ok {S} a b (s : S) : a * b ≤ usize_max → umul a b s = Done (a * b, s).
Proof. intros H. unfold umul, checked_mul. by rewrite (proj2 (Z.leb_le _ _) H). Qed.
Lemma usub_ok {S} a b (s : S) : b ≤ a → usub a b s = Done (a - b, s).
Proof. intros H. unfold usub, checked_sub. by rewrite (proj2 (Z.ltb_ge _ _) H). Qed.
Lemma uadd_bind {S A} a b (k : Z → kst S A) s : a + b ≤ usize_max → kbind (uadd a b) k s = k (a + b) s.
Proof. intros H. apply kbind_done, uadd_ok, H. Qed.

Lemma wrap_id w z : 0 ≤ z < 2 ^ w → wrap w z = z.
Proof. apply Z.mod_small. Qed.

Lemma wrap_bound w z : 0 ≤ w → 0 ≤ wrap w z < 2 ^ w.
Proof. intros. apply Z.mod_pos_bound. by apply Z.pow_pos_nonneg. Qed.

(** Or-ing a value into the bits a shift left free is adding it. *)
Lemma lor_shiftl_low a b n : 0 ≤ n → 0 ≤ b < 2 ^ n → Z.lor (Z.shiftl a n) b = a * 2 ^ n + b.
Proof.
  intros Hn Hb. rewrite Z.shiftl_mul_pow2 by done. symmetry. apply Z.add_nocarry_lor.
  apply Z.bits_inj'. intros i Hi. rewrite Z.land_spec, Z.bits_0.
  destruct (Z.lt_ge_cases i n).
  - by rewrite Z.mul_pow2_bits_low.
  - rewrite (proj1 (Z.bounded_iff_bits_nonneg n b Hn ltac:(lia))); [|lia|done].
    apply andb_false_r.
Qed.

(** Masking with [2 ^ n - 1]. *)
Lemma land_mask z n : 0 ≤ n → Z.land z (2 ^ n - 1) = z mod 2 ^ n.
Proof. intros. rewrite <-Z.land_ones, Z.ones_equiv by done. f_equal. Qed.

(** ** Lemmas on arrays *)

Section Arrays.
Context {A : Type}.
Implicit Types l : list A.

Lemma lookupZ_nat l (i : nat) : lookupZ l (Z.of_nat i) = l !! i.
Proof. unfold lookupZ. destruct (Z.ltb_spec (Z.of_nat i) 0); [lia|]. by rewrite Nat2Z.id. Qed.

Lemma lookupZ_lt_Some l i : 0 ≤ i < Z.of_nat (length l) → is_Some (lookupZ l i).
Proof.
  intros H. unfold lookupZ. destruct (Z.ltb_spec i 0); [lia|].
  apply lookup_lt_is_Some_2. lia.
Qed.

Lemma length_insertZ l i x : length (insertZ i x l) = length l.
Proof. unfold insertZ. destruct (i <? 0); [done|]. apply length_insert. Qed.

Lemma lookupZ_insertZ_eq l i x :
  0 ≤ i < Z.of_nat (length l) → lookupZ (insertZ i x l) i = Some x.
Proof.
  intros H. unfold lookupZ, insertZ. destruct (Z.ltb_spec i 0); [lia|].
  apply list_lookup_insert_eq. lia.
Qed.

Lemma lookupZ_insertZ_ne l i j x :
  i ≠ j → lookupZ (insertZ i x l) j = lookupZ l j.
Proof.
  intros H. unfold lookupZ, insertZ.
  destruct (Z.ltb_spec j 0), (Z.ltb_spec i 0); try done.
  apply list_lookup_insert_ne. lia.
Qed.

Lemma length_splice l off xs :
  (off + length xs ≤ length l)%nat → length (splice l off xs) = length l.
Proof. intros H. unfold splice. rewrite !length_app, length_take, length_drop. lia. Qed.

Lemma take_splice l off xs : (off ≤ length l)%nat → take off (splice l off xs) = take off l.
Proof. intros H. unfold splice. rewrite take_app_le by (rewrite length_take; lia). rewrite take_take. f_equal. lia. Qed.

Lemma splice_mid l off xs :
  (off + length xs ≤ length l)%nat → take (length xs) (drop off (splice l off xs)) = xs.
Proof.
  intros H. unfold splice. rewrite drop_app_ge by (rewrite length_take; lia).
  rewrite length_take, Nat.min_l, Nat.sub_diag, drop_0, take_app_length; [done|lia].
Qed.

Lemma splice_nil l off : splice l off [] = l.
Proof. unfold splice. simpl. rewrite Nat.add_0_r. apply take_drop. Qed.
End Arrays.

#[export] Hint Rewrite @length_splice @length_insertZ using lia : kernel.

(** ** Little-endian integers *)

Lemma length_le_bytes n z : length (le_bytes n z) = n.
Proof. revert z; induction n; simpl; auto. Qed.

Lemma bytes_le_bytes n z : bytes (le_bytes n z).
Proof.
  revert z. induction n as [|n IH]; intros z; constructor; [|apply IH].
  apply Z.mod_pos_bound. lia.
Qed.

Lemma le_value_bytes n z : 0 ≤ z < 256 ^ Z.of_nat n → le_value (le_bytes n z) = z.
Proof.
  revert z. induction n as [|n IH]; intros z Hz.
  { simpl in *. lia. }
  simpl. rewrite IH.
  - pose proof (Z.div_mod z 256). lia.
  - rewrite Nat2Z.inj_succ, Z.pow_succ_r in Hz by lia.
    split; [apply Z.div_pos; lia | apply Z.div_lt_upper_bound; lia].
Qed.

Lemma le_bytes_value bs : bytes bs → le_bytes (length bs) (le_value bs) = bs.
Proof.
  induction 1 as [|b bs Hb Hbs IH]; [done|]. simpl. unfold is_byte in Hb.
  rewrite Z.mul_comm, Z.mod_add by lia. rewrite Z.div_add by lia.
  rewrite Z.mod_small, Z.div_small by lia. by rewrite Z.add_0_l, IH.
Qed.

Lemma le_value_bound bs : bytes bs → 0 ≤ le_value bs < 256 ^ Z.of_nat (length bs).
Proof.
  induction 1 as [|b bs Hb Hbs IH]; [simpl; lia|].
  unfold is_byte in Hb. cbn [le_value length]. rewrite Nat2Z.inj_succ, Z.pow_succ_r by lia. lia.
Qed.

#[export] Hint Resolve bytes_le_bytes : kernel.
#[export] Hint Rewrite length_le_bytes : kernel.

(** ** Chunks *)

Lemma length_chunks {A} k n (l : list A) : length (chunks k n l) = k.
Proof. revert l; induction k; simpl; auto. Qed.

Lemma concat_chunks {A} k n (l : list A) : length l = (k * n)%nat → concat (chunks k n l) = l.
Proof.
  revert l. induction k as [|k IH]; intros l H; simpl in *.
  { by destruct l. }
  rewrite IH by (rewrite length_drop; lia). apply take_drop.
Qed.

Lemma chunks_concat {A} n (ls : list (list A)) :
  Forall (λ l, length l = n) ls → chunks (length ls) n (concat ls) = ls.
Proof.
  induction 1 as [|l ls Hl _ IH]; [done|]. simpl. subst n.
  rewrite take_app_length, drop_app_length. by f_equal.
Qed.

Lemma Forall_chunks {A} (P : A → Prop) k n l : Forall P l → Forall (Forall P) (chunks k n l).
Proof.
  revert l. induction k as [|k IH]; intros l H; simpl; constructor.
  - by apply Forall_take.
  - apply IH. by apply Forall_drop.
Qed.

(** Blocks of 512 bytes. *)
Lemma length_concat_512 (f : Z → list Z) l :
  (∀ s, length (f s) = 512%nat) → length (concat (map f l)) = (512 * length l)%nat.
Proof. intros Hf. induction l; simpl; [done|]. rewrite length_app, Hf. lia. Qed.

(** ** Finite case analysis *)

Lemma forallb_eq {A} (f g : A → bool) l : (∀ x, f x = g x) → forallb f l = forallb g l.
Proof. intros E. induction l as [|x l IH]; cbn; [done|]. by rewrite E, IH. Qed.

(** A decidable property of a short range of integers, checked by evaluation. *)
Lemma range_check (P : Z → bool) lo n :
  forallb P (seqZ lo n) = true → ∀ z, lo ≤ z < lo + n → P z = true.
Proof.
  intros H z Hz. rewrite forallb_forall in H. apply H.
  apply list_elem_of_In, elem_of_seqZ. lia.
Qed.

Lemma Forall_range (P : Z → Prop) `{∀ z, Decision (P z)} lo n :
  forallb (λ z, bool_decide (P z)) (seqZ lo n) = true → ∀ z, lo ≤ z < lo + n → P z.
Proof.
  intros Hc z Hz. apply (bool_decide_eq_true (P z)).
  exact (range_check (λ z, bool_decide (P z)) lo n Hc z Hz).
Qed.
