(* ===== verification/Text.v ===== *)
(** * Text: the parts of Rust's [str], [char] and UTF-8/UTF-16 that the kernel uses

    A [&str] or [String] is the list of its characters (Unicode scalar values
    as [Z]); a byte string is a list of bytes.  The conversions follow the
    standard library: [core::str::from_utf8] is strict UTF-8,
    [str::encode_utf16] and [char::decode_utf16] use surrogate pairs,
    [trim] and [trim_end] strip the Unicode [White_Space] characters.  Case
    mapping of characters outside ASCII comes from the Unicode tables and is a
    parameter (class [UnicodeCase]); on ASCII it is fixed. *)

From S2P Require Import Prelude.

(** ** Characters *)

Definition is_scalar (c : Z) : bool :=
  ((0 <=? c) && (c <? 0xD800)) || ((0xE000 <=? c) && (c <? 0x110000)).
Definition is_ascii (c : Z) : bool := c <? 128.
Definition str_ok (s : list Z) : Prop := Forall (λ c, is_scalar c = true) s.

Definition ascii_upper (c : Z) : Z := if (97 <=? c) && (c <=? 122) then c - 32 else c.
Definition ascii_lower (c : Z) : Z := if (65 <=? c) && (c <=? 90) then c + 32 else c.

(** [str::eq_ignore_ascii_case]. *)
Definition eq_ignore_ascii_case (a b : list Z) : bool :=
  bool_decide (map ascii_lower a = map ascii_lower b).

(** [char::is_whitespace]: the Unicode property White_Space. *)
Definition is_whitespace (c : Z) : bool :=
  ((9 <=? c) && (c <=? 13)) || (c =? 32) || (c =? 0x85) || (c =? 0xA0) || (c =? 0x1680)
  || ((0x2000 <=? c) && (c <=? 0x200A)) || (c =? 0x2028) || (c =? 0x2029) || (c =? 0x202F)
  || (c =? 0x205F) || (c =? 0x3000).

(** [u8::is_ascii_whitespace]: space, tab, line feed, form feed, return. *)
Definition is_ascii_whitespace (c : Z) : bool :=
  (c =? 32) || (c =? 9) || (c =? 10) || (c =? 12) || (c =? 13).
(** [u8::is_ascii_control]. *)
Definition is_ascii_control (c : Z) : bool := (c <? 32) || (c =? 127).

Fixpoint drop_while {A} (p : A → bool) (l : list A) : list A :=
  match l with
  | [] => []
  | x :: l' => if p x then drop_while p l' else l
  end.
Definition trim_start_by {A} (p : A → bool) (l : list A) : list A := drop_while p l.
Definition trim_end_by {A} (p : A → bool) (l : list A) : list A := rev (drop_while p (rev l)).

Definition trim_end (s : list Z) : list Z := trim_end_by is_whitespace s.
Definition trim (s : list Z) : list Z := trim_end (trim_start_by is_whitespace s).

(** [str::split(c)]: the pieces between occurrences of [c]; there is always at
    least one. *)
Fixpoint split_on (c : Z) (s : list Z) : list (list Z) :=
  match s with
  | [] => [[]]
  | x :: s' =>
      if x =? c then [] :: split_on c s'
      else match split_on c s' with
           | p :: ps => (x :: p) :: ps
           | [] => [[x]]
           end
  end.

(** ** Case mapping *)

Class UnicodeCase : Type := {
  (** [char::to_uppercase] of a non-ASCII character. *)
  upper_nonascii : Z → list Z;
  (** [str::to_lowercase] of a string with a non-ASCII character (the mapping
      of a final sigma depends on its context). *)
  lower_nonascii : list Z → list Z;
}.

Definition to_uppercase `{UnicodeCase} (s : list Z) : list Z :=
  concat (map (λ c, if is_ascii c then [ascii_upper c] else upper_nonascii c) s).
Definition to_lowercase `{UnicodeCase} (s : list Z) : list Z :=
  if forallb is_ascii s then map ascii_lower s else lower_nonascii s.

(** A case mapping to run the model with: characters outside ASCII have no case. *)
Definition ascii_case : UnicodeCase := {| upper_nonascii := λ c, [c]; lower_nonascii := map ascii_lower |}.

(** ** UTF-8 *)

Definition utf8_char (c : Z) : list Z :=
  if c <? 0x80 then [c]
  else if c <? 0x800 then [0xC0 + c / 64; 0x80 + c mod 64]
  else if c <? 0x10000 then [0xE0 + c / 4096; 0x80 + (c / 64) mod 64; 0x80 + c mod 64]
  else [0xF0 + c / 262144; 0x80 + (c / 4096) mod 64; 0x80 + (c / 64) mod 64; 0x80 + c mod 64].

(** [str::as_bytes], [String::into_bytes]. *)
Definition utf8_encode (s : list Z) : list Z := concat (map utf8_char s).
(** [str::len]: the number of bytes. *)
Definition utf8_len (s : list Z) : Z := Z.of_nat (length (utf8_encode s)).

Definition in_range (lo hi b : Z) : bool := (lo <=? b) && (b <=? hi).

(** [core::str::from_utf8]: [None] for anything that is not well-formed UTF-8
    (overlong forms, surrogates, values above 0x10FFFF, truncated sequences). *)
Fixpoint utf8_decode (bs : list Z) : option (list Z) :=
  match bs with
  | [] => Some []
  | b0 :: r0 =>
      if in_range 0 0x7F b0 then s ← utf8_decode r0; Some (b0 :: s)
      else
      match r0 with
      | [] => None
      | b1 :: r1 =>
          if in_range 0xC2 0xDF b0 && in_range 0x80 0xBF b1 then
            s ← utf8_decode r1; Some ((b0 - 0xC0) * 64 + (b1 - 0x80) :: s)
          else
          match r1 with
          | [] => None
          | b2 :: r2 =>
              if in_range 0xE0 0xEF b0
                 && in_range (if b0 =? 0xE0 then 0xA0 else 0x80) (if b0 =? 0xED then 0x9F else 0xBF) b1
                 && in_range 0x80 0xBF b2
              then s ← utf8_decode r2;
                   Some ((b0 - 0xE0) * 4096 + (b1 - 0x80) * 64 + (b2 - 0x80) :: s)
              else
              match r2 with
              | [] => None
              | b3 :: r3 =>
                  if in_range 0xF0 0xF4 b0
                     && in_range (if b0 =? 0xF0 then 0x90 else 0x80) (if b0 =? 0xF4 then 0x8F else 0xBF) b1
                     && in_range 0x80 0xBF b2 && in_range 0x80 0xBF b3
                  then s ← utf8_decode r3;
                       Some ((b0 - 0xF0) * 262144 + (b1 - 0x80) * 4096 + (b2 - 0x80) * 64
                             + (b3 - 0x80) :: s)
                  else None
              end
          end
      end
  end.

(** ** UTF-16 *)

Definition utf16_char (c : Z) : list Z :=
  if c <? 0x10000 then [c]
  else [0xD800 + (c - 0x10000) / 1024; 0xDC00 + (c - 0x10000) mod 1024].
(** [str::encode_utf16]. *)
Definition utf16_encode (s : list Z) : list Z := concat (map utf16_char s).

(** [char::decode_utf16], where the first unpaired surrogate makes the whole
    result [None] (the callers use [char.ok()?]). *)
Fixpoint utf16_decode (us : list Z) : option (list Z) :=
  match us with
  | [] => Some []
  | u :: r =>
      if in_range 0xD800 0xDBFF u then
        match r with
        | v :: r' =>
            if in_range 0xDC00 0xDFFF v then
              s ← utf16_decode r'; Some (0x10000 + (u - 0xD800) * 1024 + (v - 0xDC00) :: s)
            else None
        | [] => None
        end
      else if in_range 0xDC00 0xDFFF u then None
      else s ← utf16_decode r; Some (u :: s)
  end.

(** ** Lemmas *)

Ltac text_tests :=
  unfold in_range, is_scalar, is_ascii in *; bool_to_prop;
  repeat match goal with
  | H : context [?a <? ?b] |- _ => destruct (Z.ltb_spec a b)
  | H : context [?a <=? ?b] |- _ => destruct (Z.leb_spec a b)
  | H : context [?a =? ?b] |- _ => destruct (Z.eqb_spec a b)
  end; split_tests; simpl in *; try lia; try done.

Lemma is_scalar_spec c :
  is_scalar c = true ↔ 0 ≤ c < 0xD800 ∨ 0xE000 ≤ c < 0x110000.
Proof. unfold is_scalar. rewrite orb_true_iff, !andb_true_iff, !Z.leb_le, !Z.ltb_lt. done. Qed.

Lemma in_range_spec lo hi b : in_range lo hi b = true ↔ lo ≤ b ≤ hi.
Proof. unfold in_range. rewrite andb_true_iff, !Z.leb_le. done. Qed.

Lemma in_range_false lo hi b : in_range lo hi b = false ↔ b < lo ∨ hi < b.
Proof. unfold in_range. rewrite andb_false_iff, !Z.leb_gt. lia. Qed.

(** A UTF-16 name decodes to the name it was encoded from. *)
Lemma utf16_decode_encode s : str_ok s → utf16_decode (utf16_encode s) = Some s.
Proof.
  induction 1 as [|c s Hc _ IH]; [done|].
  apply is_scalar_spec in Hc.
  change (utf16_encode (c :: s)) with (utf16_char c ++ utf16_encode s).
  unfold utf16_char. destruct (Z.ltb_spec c 0x10000).
  - simpl. rewrite (proj2 (in_range_false _ _ _)) by lia.
    rewrite (proj2 (in_range_false _ _ _)) by lia. by rewrite IH.
  - pose proof (Z.div_mod (c - 0x10000) 1024).
    pose proof (Z.mod_pos_bound (c - 0x10000) 1024).
    assert (0 ≤ (c - 0x10000) / 1024 < 1024).
    { split; [apply Z.div_pos; lia | apply Z.div_lt_upper_bound; lia]. }
    simpl. rewrite (proj2 (in_range_spec _ _ _)) by lia.
    rewrite (proj2 (in_range_spec _ _ _)) by lia. rewrite IH. simpl.
    do 2 f_equal. lia.
Qed.

Lemma utf16_units s : str_ok s → Forall (λ u, 0 ≤ u < 0x10000) (utf16_encode s).
Proof.
  induction 1 as [|c s Hc _ IH]; [constructor|].
  apply is_scalar_spec in Hc.
  change (utf16_encode (c :: s)) with (utf16_char c ++ utf16_encode s).
  apply Forall_app. split; [|done]. unfold utf16_char.
  destruct (Z.ltb_spec c 0x10000); repeat constructor; try lia.
  - apply Z.add_nonneg_nonneg; [lia|]. apply Z.div_pos; lia.
  - assert ((c - 0x10000) / 1024 < 1024) by (apply Z.div_lt_upper_bound; lia). lia.
  - pose proof (Z.mod_pos_bound (c - 0x10000) 1024). lia.
  - pose proof (Z.mod_pos_bound (c - 0x10000) 1024). lia.
Qed.

(** No unit of a name without NUL is NUL. *)
Lemma utf16_nonzero s :
  str_ok s → Forall (λ c, c ≠ 0) s → Forall (λ u, u ≠ 0) (utf16_encode s).
Proof.
  induction 1 as [|c s Hc _ IH]; intros Hn; inversion Hn; subst; [constructor|].
  change (utf16_encode (c :: s)) with (utf16_char c ++ utf16_encode s).
  apply Forall_app. split; [|auto]. apply is_scalar_spec in Hc.
  unfold utf16_char. destruct (Z.ltb_spec c 0x10000); repeat constructor; try lia.
  - assert (0 ≤ (c - 0x10000) / 1024) by (apply Z.div_pos; lia). lia.
  - pose proof (Z.mod_pos_bound (c - 0x10000) 1024). lia.
Qed.

Lemma utf16_encode_nil s : utf16_encode s = [] → s = [].
Proof.
  destruct s as [|c s]; [done|].
  change (utf16_encode (c :: s)) with (utf16_char c ++ utf16_encode s).
  unfold utf16_char. destruct (c <? 0x10000); discriminate.
Qed.

Lemma utf16_decode_nil us : utf16_decode us = Some [] → us = [].
Proof.
  destruct us as [|u r]; [done|]. cbn.
  destruct (in_range 0xD800 0xDBFF u); [|destruct (in_range _ _ u); [done|];
    destruct (utf16_decode r); discriminate].
  destruct r as [|v r']; [done|]. destruct (in_range _ _ v); [|done].
  destruct (utf16_decode r'); discriminate.
Qed.

(** UTF-8 text decodes to itself. *)
Lemma utf8_decode_encode s : str_ok s → utf8_decode (utf8_encode s) = Some s.
Proof.
  induction 1 as [|c s Hc _ IH]; [done|].
  apply is_scalar_spec in Hc.
  change (utf8_encode (c :: s)) with (utf8_char c ++ utf8_encode s).
  pose proof (Z.div_mod c 64). pose proof (Z.mod_pos_bound c 64).
  pose proof (Z.div_mod (c / 64) 64). pose proof (Z.mod_pos_bound (c / 64) 64).
  pose proof (Z.div_mod (c / 4096) 64). pose proof (Z.mod_pos_bound (c / 4096) 64).
  assert (c / 4096 = c / 64 / 64) by (rewrite Z.div_div by lia; done).
  assert (c / 262144 = c / 4096 / 64) by (rewrite !Z.div_div by lia; done).
  unfold utf8_char.
  destruct (Z.ltb_spec c 0x80); [|destruct (Z.ltb_spec c 0x800);
    [|destruct (Z.ltb_spec c 0x10000)]]; cbn [app utf8_decode].
  - rewrite (proj2 (in_range_spec _ _ _)) by lia. by rewrite IH.
  - rewrite (proj2 (in_range_false 0 _ _)) by lia.
    rewrite !(proj2 (in_range_spec _ _ _)) by lia. simpl. rewrite IH. simpl.
    do 2 f_equal. lia.
  - rewrite (proj2 (in_range_false 0 _ _)) by lia.
    rewrite (proj2 (in_range_false 0xC2 _ _)) by lia. cbn [andb].
    rewrite (proj2 (in_range_spec 0xE0 _ _)) by lia.
    rewrite (proj2 (in_range_spec _ _ (0x80 + c mod 64))) by lia.
    rewrite (proj2 (in_range_spec _ _ _))
      by (destruct (Z.eqb_spec (0xE0 + c / 4096) 0xE0), (Z.eqb_spec (0xE0 + c / 4096) 0xED); lia).
    cbn [andb]. rewrite IH. simpl. do 2 f_equal. lia.
  - rewrite (proj2 (in_range_false 0 _ _)) by lia.
    rewrite (proj2 (in_range_false 0xC2 _ _)) by lia. cbn [andb].
    rewrite (proj2 (in_range_false 0xE0 _ _)) by lia. cbn [andb].
    rewrite (proj2 (in_range_spec 0xF0 _ _)) by lia.
    rewrite (proj2 (in_range_spec _ _ (0x80 + c mod 64))) by lia.
    rewrite (proj2 (in_range_spec _ _ (0x80 + (c / 64) mod 64))) by lia.
    rewrite (proj2 (in_range_spec _ _ _))
      by (destruct (Z.eqb_spec (0xF0 + c / 262144) 0xF0), (Z.eqb_spec (0xF0 + c / 262144) 0xF4); lia).
    cbn [andb]. rewrite IH. simpl. do 2 f_equal. lia.
Qed.

Lemma ascii_lower_upper c : ascii_lower (ascii_upper c) = ascii_lower c.
Proof.
  unfold ascii_lower, ascii_upper.
  destruct (Z.leb_spec 97 c), (Z.leb_spec c 122); simpl; split_tests; simpl; lia.
Qed.

Lemma ascii_upper_ascii c : is_ascii c = true → is_ascii (ascii_upper c) = true.
Proof.
  unfold is_ascii, ascii_upper. rewrite !Z.ltb_lt.
  destruct (Z.leb_spec 97 c), (Z.leb_spec c 122); simpl; lia.
Qed.

Lemma utf8_char_ascii c : is_ascii c = true → utf8_char c = [c].
Proof. unfold is_ascii, utf8_char. intros H. bool_to_prop. destruct (Z.ltb_spec c 0x80); [done|lia]. Qed.

Lemma utf8_encode_ascii s : Forall (λ c, is_ascii c = true) s → utf8_encode s = s.
Proof.
  induction 1 as [|c s Hc _ IH]; [done|].
  change (utf8_encode (c :: s)) with (utf8_char c ++ utf8_encode s).
  by rewrite utf8_char_ascii, IH.
Qed.

(** ASCII bytes are their own text. *)
Lemma utf8_decode_ascii s :
  Forall (λ c, 0 ≤ c < 128) s → utf8_decode s = Some s.
Proof.
  induction 1 as [|c s Hc _ IH]; [done|]. cbn.
  rewrite (proj2 (in_range_spec _ _ _)) by lia. by rewrite IH.
Qed.

Lemma to_uppercase_ascii `{UnicodeCase} s :
  Forall (λ c, is_ascii c = true) s → to_uppercase s = map ascii_upper s.
Proof.
  unfold to_uppercase. induction 1 as [|c s Hc _ IH]; [done|]. simpl. by rewrite Hc, IH.
Qed.

Lemma to_lowercase_ascii `{UnicodeCase} s :
  Forall (λ c, is_ascii c = true) s → to_lowercase s = map ascii_lower s.
Proof.
  intros Hs. unfold to_lowercase. destruct (forallb is_ascii s) eqn:E; [done|].
  rewrite <-not_true_iff_false in E. destruct E. apply forallb_forall.
  intros c Hc. rewrite Forall_forall in Hs. apply Hs. by apply list_elem_of_In.
Qed.

Lemma eq_ignore_ascii_case_refl s : eq_ignore_ascii_case s s = true.
Proof. by apply bool_decide_eq_true. Qed.

Lemma drop_while_none {A} (p : A → bool) l : Forall (λ x, p x = false) l → drop_while p l = l.
Proof. destruct 1 as [|x l Hx _]; [done|]. simpl. by rewrite Hx. Qed.

Lemma drop_while_all {A} (p : A → bool) l l' :
  Forall (λ x, p x = true) l → drop_while p (l ++ l') = drop_while p l'.
Proof. induction 1 as [|x l Hx _ IH]; [done|]. simpl. by rewrite Hx. Qed.

(** Trailing characters that are trimmed, after a text that has none. *)
Lemma trim_end_by_app {A} (p : A → bool) l pad :
  Forall (λ x, p x = false) l → Forall (λ x, p x = true) pad → trim_end_by p (l ++ pad) = l.
Proof.
  intros Hl Hp. unfold trim_end_by. rewrite rev_app_distr.
  rewrite drop_while_all by (apply Forall_rev; done).
  rewrite drop_while_none by (apply Forall_rev; done). apply rev_involutive.
Qed.

Lemma split_on_nonempty c s : split_on c s ≠ [].
Proof. destruct s as [|x s]; simpl; [done|]. destruct (x =? c); [done|]. by destruct (split_on c s). Qed.

Lemma split_on_app c p s : Forall (λ x, x ≠ c) p → split_on c (p ++ c :: s) = p :: split_on c s.
Proof.
  induction 1 as [|x p Hx _ IH]; simpl.
  - by rewrite Z.eqb_refl.
  - rewrite (proj2 (Z.eqb_neq _ _) Hx). by rewrite IH.
Qed.

Lemma split_on_single c p : Forall (λ x, x ≠ c) p → split_on c p = [p].
Proof.
  induction 1 as [|x p Hx _ IH]; simpl; [done|].
  rewrite (proj2 (Z.eqb_neq _ _) Hx). by rewrite IH.
Qed.
