(* ===== verification/FatNames.v ===== *)
(** * FatNames: directory entries, long filenames and 8.3 names (src/src/fs/fat.rs)

    The on-disk records of the FAT driver with their byte layouts
    ([#[repr(C, packed)]], little endian), the long-filename (VFAT) entries,
    the conversion between names and their on-disk forms, and the generation of
    short aliases. *)

From S2P Require Import Prelude Text.

Definition LFN_LAST_ENTRY_FLAG : Z := 0x40.
Definition LFN_SEQUENCE_MASK : Z := 0x3F.
Definition LFN_UNITS_PER_ENTRY : nat := 13.
Definition LFN_MAX_UNITS : nat := 255.
Definition LFN_MAX_ENTRIES : nat :=
  (LFN_MAX_UNITS + LFN_UNITS_PER_ENTRY - 1) / LFN_UNITS_PER_ENTRY.

(** ** Boot sector *)

Record FatBootSector := {
  bootjmp : list Z;
  oem_name : list Z;
  bytes_per_sector : Z;
  sectors_per_cluster : Z;
  reserved_sector_count : Z;
  table_count : Z;
  root_entry_count : Z;
  total_sectors_16 : Z;
  media_type : Z;
  table_size_16 : Z;
  sectors_per_track : Z;
  head_side_count : Z;
  hidden_sector_count : Z;
  total_sectors_32 : Z;
}.

Record Fat32ExtendedBootSector := {
  table_size : Z;
  extended_flags : Z;
  fat_version : Z;
  root_cluster : Z;
  fat_info : Z;
  backup_bs_sector : Z;
  reserved_0 : list Z;
  drive_number : Z;
  reserved_1 : Z;
  boot_signature : Z;
  volume_id : Z;
  volume_label : list Z;
  fat_type_label : list Z;
}.

(** Bytes [off .. off + n] of a buffer, and the little-endian integer there. *)
Definition field (off n : nat) (buf : list Z) : list Z := take n (drop off buf).
Definition le_field (off n : nat) (buf : list Z) : Z := le_value (field off n buf).

(** The packed layouts of the two structures (36 and 54 bytes). *)
Definition boot_sector_of_bytes (b : list Z) : FatBootSector := {|
  bootjmp := field 0 3 b;
  oem_name := field 3 8 b;
  bytes_per_sector := le_field 11 2 b;
  sectors_per_cluster := le_field 13 1 b;
  reserved_sector_count := le_field 14 2 b;
  table_count := le_field 16 1 b;
  root_entry_count := le_field 17 2 b;
  total_sectors_16 := le_field 19 2 b;
  media_type := le_field 21 1 b;
  table_size_16 := le_field 22 2 b;
  sectors_per_track := le_field 24 2 b;
  head_side_count := le_field 26 2 b;
  hidden_sector_count := le_field 28 4 b;
  total_sectors_32 := le_field 32 4 b;
|}.

Definition extended_boot_sector_of_bytes (b : list Z) : Fat32ExtendedBootSector := {|
  table_size := le_field 0 4 b;
  extended_flags := le_field 4 2 b;
  fat_version := le_field 6 2 b;
  root_cluster := le_field 8 4 b;
  fat_info := le_field 12 2 b;
  backup_bs_sector := le_field 14 2 b;
  reserved_0 := field 16 12 b;
  drive_number := le_field 28 1 b;
  reserved_1 := le_field 29 1 b;
  boot_signature := le_field 30 1 b;
  volume_id := le_field 31 4 b;
  volume_label := field 35 11 b;
  fat_type_label := field 46 8 b;
|}.

(** ** Directory entries *)

Record DirectoryEntry := {
  de_name : list Z;
  de_attributes : Z;
  de_reserved : Z;
  de_creation_time_centiseconds : Z;
  de_creation_time : Z;
  de_creation_date : Z;
  de_last_accessed_date : Z;
  de_first_cluster_high : Z;
  de_modified_time : Z;
  de_modified_date : Z;
  de_first_cluster_low : Z;
  de_size : Z;
}.

(** [size_of::<DirectoryEntry>()]. *)
Definition entry_size : Z := 32.

Definition entry_bytes (e : DirectoryEntry) : list Z :=
  de_name e ++ le_bytes 1 (de_attributes e) ++ le_bytes 1 (de_reserved e)
  ++ le_bytes 1 (de_creation_time_centiseconds e) ++ le_bytes 2 (de_creation_time e)
  ++ le_bytes 2 (de_creation_date e) ++ le_bytes 2 (de_last_accessed_date e)
  ++ le_bytes 2 (de_first_cluster_high e) ++ le_bytes 2 (de_modified_time e)
  ++ le_bytes 2 (de_modified_date e) ++ le_bytes 2 (de_first_cluster_low e)
  ++ le_bytes 4 (de_size e).

Definition entry_of_bytes (b : list Z) : DirectoryEntry := {|
  de_name := field 0 11 b;
  de_attributes := le_field 11 1 b;
  de_reserved := le_field 12 1 b;
  de_creation_time_centiseconds := le_field 13 1 b;
  de_creation_time := le_field 14 2 b;
  de_creation_date := le_field 16 2 b;
  de_last_accessed_date := le_field 18 2 b;
  de_first_cluster_high := le_field 20 2 b;
  de_modified_time := le_field 22 2 b;
  de_modified_date := le_field 24 2 b;
  de_first_cluster_low := le_field 26 2 b;
  de_size := le_field 28 4 b;
|}.

(** [self.name[0]]; the array has 11 elements. *)
Definition name_byte0 (e : DirectoryEntry) : Z := default 0 (de_name e !! 0%nat).

Definition is_end_marker (e : DirectoryEntry) : bool := name_byte0 e =? 0x00.
Definition is_deleted (e : DirectoryEntry) : bool := name_byte0 e =? 0xE5.
Definition is_long_filename (e : DirectoryEntry) : bool := Z.land (de_attributes e) 0x3F =? 0x0F.
Definition is_volume_label (e : DirectoryEntry) : bool := negb (Z.land (de_attributes e) 0x08 =? 0).
Definition is_normal_entry (e : DirectoryEntry) : bool :=
  negb (is_end_marker e) && negb (is_deleted e) && negb (is_long_filename e)
  && negb (is_volume_label e).
Definition is_directory (e : DirectoryEntry) : bool :=
  is_normal_entry e && negb (Z.land (de_attributes e) 0x10 =? 0).
Definition is_regular_file (e : DirectoryEntry) : bool :=
  is_normal_entry e && negb (is_directory e).

Definition set_name (n : list Z) (e : DirectoryEntry) : DirectoryEntry := {|
  de_name := n; de_attributes := de_attributes e; de_reserved := de_reserved e;
  de_creation_time_centiseconds := de_creation_time_centiseconds e;
  de_creation_time := de_creation_time e; de_creation_date := de_creation_date e;
  de_last_accessed_date := de_last_accessed_date e;
  de_first_cluster_high := de_first_cluster_high e; de_modified_time := de_modified_time e;
  de_modified_date := de_modified_date e; de_first_cluster_low := de_first_cluster_low e;
  de_size := de_size e |}.

Definition mark_deleted (e : DirectoryEntry) : DirectoryEntry :=
  set_name (<[0%nat := 0xE5]> (de_name e)) e.

Definition get_cluster (e : DirectoryEntry) : Z :=
  Z.lor (wrap 32 (Z.shiftl (de_first_cluster_high e) 16)) (de_first_cluster_low e).

Definition set_cluster (cluster : Z) (e : DirectoryEntry) : DirectoryEntry := {|
  de_name := de_name e; de_attributes := de_attributes e; de_reserved := de_reserved e;
  de_creation_time_centiseconds := de_creation_time_centiseconds e;
  de_creation_time := de_creation_time e; de_creation_date := de_creation_date e;
  de_last_accessed_date := de_last_accessed_date e;
  de_first_cluster_high := wrap 16 (Z.land (Z.shiftr cluster 16) 0xFFFF);
  de_modified_time := de_modified_time e; de_modified_date := de_modified_date e;
  de_first_cluster_low := wrap 16 (Z.land cluster 0xFFFF);
  de_size := de_size e |}.

(** [entry.size = n], for the code that resizes a file. *)
Definition set_size (n : Z) (e : DirectoryEntry) : DirectoryEntry := {|
  de_name := de_name e; de_attributes := de_attributes e; de_reserved := de_reserved e;
  de_creation_time_centiseconds := de_creation_time_centiseconds e;
  de_creation_time := de_creation_time e; de_creation_date := de_creation_date e;
  de_last_accessed_date := de_last_accessed_date e;
  de_first_cluster_high := de_first_cluster_high e; de_modified_time := de_modified_time e;
  de_modified_date := de_modified_date e; de_first_cluster_low := de_first_cluster_low e;
  de_size := n |}.

(** ** Long filename entries *)

Record LongDirectoryEntry := {
  lfn_order : Z;
  lfn_name1 : list Z;
  lfn_attributes : Z;
  lfn_entry_type : Z;
  lfn_entry_checksum : Z;
  lfn_name2 : list Z;
  lfn_first_cluster_low : Z;
  lfn_name3 : list Z;
}.

(** The 13 units of one entry: the chunk, a NUL when it is shorter, then
    0xFFFF. *)
Definition lfn_padded (units : list Z) : list Z :=
  let padded := take 13 units ++ replicate (13 - length units) 0xFFFF in
  if (length units <? LFN_UNITS_PER_ENTRY)%nat then <[length units := 0x0000]> padded else padded.

Definition LongDirectoryEntry_new (sequence : Z) (last : bool) (checksum : Z) (units : list Z)
  : LongDirectoryEntry :=
  let padded := lfn_padded units in
  {| lfn_order := if last then Z.lor sequence LFN_LAST_ENTRY_FLAG else sequence;
     lfn_name1 := concat (map (le_bytes 2) (take 5 padded));
     lfn_attributes := 0x0F;
     lfn_entry_type := 0;
     lfn_entry_checksum := checksum;
     lfn_name2 := concat (map (le_bytes 2) (take 6 (drop 5 padded)));
     lfn_first_cluster_low := 0;
     lfn_name3 := concat (map (le_bytes 2) (take 2 (drop 11 padded))) |}.

Definition lfn_bytes (l : LongDirectoryEntry) : list Z :=
  le_bytes 1 (lfn_order l) ++ lfn_name1 l ++ le_bytes 1 (lfn_attributes l)
  ++ le_bytes 1 (lfn_entry_type l) ++ le_bytes 1 (lfn_entry_checksum l) ++ lfn_name2 l
  ++ le_bytes 2 (lfn_first_cluster_low l) ++ lfn_name3 l.

Definition lfn_of_bytes (b : list Z) : LongDirectoryEntry := {|
  lfn_order := le_field 0 1 b;
  lfn_name1 := field 1 10 b;
  lfn_attributes := le_field 11 1 b;
  lfn_entry_type := le_field 12 1 b;
  lfn_entry_checksum := le_field 13 1 b;
  lfn_name2 := field 14 12 b;
  lfn_first_cluster_low := le_field 26 2 b;
  lfn_name3 := field 28 4 b;
|}.

(** [transmute_copy] between the two 32-byte structures. *)
Definition from_directory_entry (e : DirectoryEntry) : LongDirectoryEntry := lfn_of_bytes (entry_bytes e).
Definition to_directory_entry (l : LongDirectoryEntry) : DirectoryEntry := entry_of_bytes (lfn_bytes l).

Definition lfn_sequence (l : LongDirectoryEntry) : Z := Z.land (lfn_order l) LFN_SEQUENCE_MASK.
Definition lfn_is_last (l : LongDirectoryEntry) : bool :=
  negb (Z.land (lfn_order l) LFN_LAST_ENTRY_FLAG =? 0).

(** [u16::from_le_bytes([a[2 * i], a[2 * i + 1]])]. *)
Definition unit_at (a : list Z) (i : nat) : Z := le_field (2 * i) 2 a.
Definition name_units (l : LongDirectoryEntry) : list Z :=
  map (unit_at (lfn_name1 l)) (seq 0 5) ++ map (unit_at (lfn_name2 l)) (seq 0 6)
  ++ map (unit_at (lfn_name3 l)) (seq 0 2).

(** [u8::rotate_right(1)]. *)
Definition rotate_right1 (b : Z) : Z := Z.lor (Z.shiftr b 1) (wrap 8 (Z.shiftl b 7)).
Definition lfn_checksum (short_name : list Z) : Z :=
  foldl (λ sum byte, wrap 8 (rotate_right1 sum + byte)) 0 short_name.

(** ** Long names *)

Definition is_invalid_long_name_char (c : Z) : bool :=
  (c <? 0x20)
  || existsb (Z.eqb c) [34; 42; 47; 58; 60; 62; 63; 92; 124] (* quote * / : < > ? \ | *).

Definition ends_with (c : Z) (s : list Z) : bool := bool_decide (last s = Some c).

Definition encode_long_filename (filename : list Z) : option (list Z) :=
  if bool_decide (filename = [])
     || bool_decide (filename = [46])
     || bool_decide (filename = [46; 46])
     || ends_with 32 filename
     || ends_with 46 filename
     || existsb is_invalid_long_name_char filename
  then None
  else
    let units := utf16_encode filename in
    if (LFN_MAX_UNITS <? length units)%nat then None else Some units.

(** [units.iter().position(|unit| *unit == 0)]: the units before the first NUL. *)
Fixpoint before_nul (units : list Z) : list Z :=
  match units with
  | [] => []
  | u :: r => if u =? 0x0000 then [] else u :: before_nul r
  end.

Definition decode_long_filename (units : list Z) : option (list Z) :=
  name ← utf16_decode (before_nul units);
  if bool_decide (name = []) then None else Some name.

(** ** Short names *)

Definition is_invalid_short_name_byte (b : Z) : bool :=
  (b <=? 32)
  || existsb (Z.eqb b) [34; 42; 43; 44; 47; 58; 59; 60; 61; 62; 63; 91; 92; 93; 124].

Fixpoint sanitize_loop (component : list Z) (max_len : nat) (acc : list Z) : list Z :=
  match component with
  | [] => acc
  | c :: rest =>
      if (length acc =? max_len)%nat then acc
      else if (c =? 32) || (c =? 46) then sanitize_loop rest max_len acc
      else
        let upper := ascii_upper c in
        let byte := if is_ascii upper && negb (is_invalid_short_name_byte upper) then upper else 95 in
        sanitize_loop rest max_len (acc ++ [byte])
  end.
Definition sanitize_short_component (component : list Z) (max_len : nat) : list Z :=
  sanitize_loop component max_len [].

(** The decimal digits of [remaining], least significant first. *)
Fixpoint alias_digits (fuel : nat) (remaining : Z) : list Z :=
  match fuel with
  | O => []
  | S n => if 0 <? remaining then 48 + remaining mod 10 :: alias_digits n (remaining / 10) else []
  end.

(** [digits] has room for 6 digits and [ext] fits in 3 bytes for every call in
    [generate_short_alias]; the four writes are the slice copies of the
    source, in order. *)
Definition compose_short_alias (base ext : list Z) (tail : Z) : list Z :=
  let digits := alias_digits 6 tail in
  let base_len := Nat.min (length base) (8 - 1 - length digits) in
  let name := replicate 11 32 in
  let name := splice name 0 (take base_len base) in
  let name := splice name base_len [126] in
  let name := splice name (base_len + 1) (rev digits) in
  splice name 8 ext.

(** [filename.rfind('.')]: the text before and after the last dot. *)
Fixpoint rsplit_dot (s : list Z) : option (list Z * list Z) :=
  match s with
  | [] => None
  | x :: s' =>
      match rsplit_dot s' with
      | Some (a, b) => Some (x :: a, b)
      | None => if x =? 46 then Some ([], s') else None
      end
  end.

(** [for tail in tail..tail + n], the first candidate that is not taken. *)
Fixpoint alias_search (n : nat) (tail : Z) (base ext : list Z) (taken : list (list Z))
  : option (list Z) :=
  match n with
  | O => None
  | S n =>
      let candidate := compose_short_alias base ext tail in
      if bool_decide (candidate ∈ taken) then alias_search n (tail + 1) base ext taken
      else Some candidate
  end.

Definition alias_parts (filename : list Z) : list Z * list Z :=
  let '(base, ext) := match rsplit_dot filename with
                      | Some (a, b) => if bool_decide (a = []) then (filename, []) else (a, b)
                      | None => (filename, [])
                      end in
  (sanitize_short_component base 8, sanitize_short_component ext 3).

Definition generate_short_alias (filename : list Z) (taken : list (list Z)) : option (list Z) :=
  let '(base, ext) := alias_parts filename in
  alias_search (Z.to_nat 999999) 1 base ext taken.

(** [filename.splitn(2, '.')]: before the first dot, and after it if there is one. *)
Fixpoint splitn2_dot (s : list Z) : list Z * option (list Z) :=
  match s with
  | [] => ([], None)
  | x :: s' =>
      if x =? 46 then ([], Some s')
      else let '(a, b) := splitn2_dot s' in (x :: a, b)
  end.

Section Names.
Context `{UnicodeCase}.

Definition get_fat_filename (filename : list Z) : option (list Z) :=
  let '(name, ext) := splitn2_dot filename in
  let name := to_uppercase name in
  let ext := to_uppercase (default [] ext) in
  if bool_decide (name = [])
     || (8 <? utf8_len name)
     || (3 <? utf8_len ext)
     || (1 <? length (List.filter (Z.eqb 46) (utf8_encode filename)))%nat
     || negb (forallb is_ascii name)
     || negb (forallb is_ascii ext)
     || existsb is_invalid_short_name_byte (utf8_encode name ++ utf8_encode ext)
  then None
  else
    let filename := replicate 11 32 in
    let filename := splice filename 0 (take 8 (utf8_encode name)) in
    Some (splice filename 8 (take 3 (utf8_encode ext))).

Definition get_filename_from_fat (filename : list Z) : list Z :=
  let name := take 8 filename in
  let ext := take 3 (drop 8 filename) in
  let name := to_lowercase (trim_end (default [] (utf8_decode name))) in
  let ext := to_lowercase (trim_end (default [] (utf8_decode ext))) in
  if bool_decide (ext = []) then name else name ++ [46] ++ ext.
End Names.

(** ** Well-formed records *)

Definition is_u16 (z : Z) : Prop := 0 ≤ z < 2 ^ 16.
Definition is_u32 (z : Z) : Prop := 0 ≤ z < 2 ^ 32.

Record wf_entry (e : DirectoryEntry) : Prop := {
  wf_name_len : length (de_name e) = 11%nat;
  wf_name : bytes (de_name e);
  wf_attributes : is_byte (de_attributes e);
  wf_reserved : is_byte (de_reserved e);
  wf_centiseconds : is_byte (de_creation_time_centiseconds e);
  wf_creation_time : is_u16 (de_creation_time e);
  wf_creation_date : is_u16 (de_creation_date e);
  wf_accessed : is_u16 (de_last_accessed_date e);
  wf_high : is_u16 (de_first_cluster_high e);
  wf_modified_time : is_u16 (de_modified_time e);
  wf_modified_date : is_u16 (de_modified_date e);
  wf_low : is_u16 (de_first_cluster_low e);
  wf_size : is_u32 (de_size e);
}.

Record wf_lfn (l : LongDirectoryEntry) : Prop := {
  wf_order : is_byte (lfn_order l);
  wf_name1 : length (lfn_name1 l) = 10%nat ∧ bytes (lfn_name1 l);
  wf_lattr : is_byte (lfn_attributes l);
  wf_type : is_byte (lfn_entry_type l);
  wf_checksum : is_byte (lfn_entry_checksum l);
  wf_name2 : length (lfn_name2 l) = 12%nat ∧ bytes (lfn_name2 l);
  wf_llow : is_u16 (lfn_first_cluster_low l);
  wf_name3 : length (lfn_name3 l) = 4%nat ∧ bytes (lfn_name3 l);
}.

(** ** Lemmas on fields of a buffer *)

Lemma length_field off n b : (off + n ≤ length b)%nat → length (field off n b) = n.
Proof. intros H. unfold field. rewrite length_take, length_drop. lia. Qed.

Lemma bytes_field off n b : bytes b → bytes (field off n b).
Proof. intros H. unfold field. by apply Forall_take, Forall_drop. Qed.

Lemma field_here n a b : length a = n → field 0 n (a ++ b) = a.
Proof. intros <-. unfold field. rewrite drop_0. apply take_app_length. Qed.

Lemma field_all n a : length a = n → field 0 n a = a.
Proof. intros <-. unfold field. rewrite drop_0. by apply take_ge. Qed.

Lemma field_skip k off n a b :
  length a = k → (k ≤ off)%nat → field off n (a ++ b) = field (off - k) n b.
Proof. intros <- H. unfold field. rewrite drop_app_ge by done. done. Qed.

Lemma field_join off n m b : field off n b ++ field (off + n) m b = field off (n + m) b.
Proof.
  unfold field. rewrite <-drop_drop. generalize (drop off b). intros c.
  destruct (decide (n ≤ length c)%nat).
  - rewrite <-(take_drop n c) at 3. rewrite take_app_add'; [done|]. rewrite length_take. lia.
  - rewrite (drop_ge c n) by lia. rewrite take_nil, app_nil_r, !take_ge; [done|lia|lia].
Qed.

Lemma le_bytes_field off n b :
  bytes b → (off + n ≤ length b)%nat → le_bytes n (le_field off n b) = field off n b.
Proof.
  intros Hb Hl. unfold le_field. rewrite <-(length_field off n b) at 1 by done.
  apply le_bytes_value. by apply bytes_field.
Qed.

Ltac skip_fields :=
  repeat match goal with
  | |- context [field ?o ?n (le_bytes ?n ?z)] => rewrite (field_all n (le_bytes n z)) by apply length_le_bytes
  | |- context [field 0 ?n (le_bytes ?n ?z ++ ?b)] =>
      rewrite (field_here n (le_bytes n z) b) by apply length_le_bytes
  | |- context [field ?o ?n (le_bytes ?m ?z ++ ?b)] =>
      rewrite (field_skip m o n (le_bytes m z) b) by (first [apply length_le_bytes | lia]);
      cbn [Nat.sub]
  | H : length ?a = ?m |- context [field 0 ?m (?a ++ ?b)] => rewrite (field_here m a b H)
  | H : length ?a = ?m |- context [field 0 ?m ?a] => rewrite (field_all m a H)
  | H : length ?a = ?m |- context [field ?o ?n (?a ++ ?b)] =>
      rewrite (field_skip m o n a b H) by lia; cbn [Nat.sub]
  end.

(** An entry written to disk reads back as the same entry. *)
Lemma entry_of_bytes_bytes e : wf_entry e → entry_of_bytes (entry_bytes e) = e.
Proof.
  intros []. unfold entry_of_bytes, entry_bytes, le_field. skip_fields.
  unfold is_byte, is_u16, is_u32 in *.
  rewrite !le_value_bytes by (simpl; lia). by destruct e.
Qed.

Lemma length_entry_bytes e : length (de_name e) = 11%nat → length (entry_bytes e) = 32%nat.
Proof. intros H. unfold entry_bytes. rewrite !length_app, !length_le_bytes. lia. Qed.

Lemma bytes_entry_bytes e : bytes (de_name e) → bytes (entry_bytes e).
Proof. intros H. unfold entry_bytes, bytes in *. rewrite !Forall_app. repeat split; auto using bytes_le_bytes; apply bytes_le_bytes. Qed.

(** Every 32 bytes on disk are the image of the entry they decode to. *)
Lemma entry_bytes_of_bytes b : bytes b → length b = 32%nat → entry_bytes (entry_of_bytes b) = b.
Proof.
  intros Hb Hl. unfold entry_bytes, entry_of_bytes; cbn [de_name de_attributes de_reserved
    de_creation_time_centiseconds de_creation_time de_creation_date de_last_accessed_date
    de_first_cluster_high de_modified_time de_modified_date de_first_cluster_low de_size].
  rewrite !le_bytes_field by (auto; lia).
  rewrite !field_join. by apply field_all.
Qed.

Lemma wf_entry_of_bytes b : bytes b → length b = 32%nat → wf_entry (entry_of_bytes b).
Proof.
  intros Hb Hl.
  assert (Hv : ∀ off n, (off + n ≤ 32)%nat → 0 ≤ le_field off n b < 256 ^ Z.of_nat n).
  { intros off n Hn. unfold le_field. pose proof (le_value_bound (field off n b) (bytes_field _ _ _ Hb)) as Hx.
    by rewrite length_field in Hx by lia. }
  split; cbn; unfold is_byte, is_u16, is_u32; try (apply Hv; lia).
  - apply length_field. lia.
  - by apply bytes_field.
Qed.

Lemma length_lfn_bytes l : wf_lfn l → length (lfn_bytes l) = 32%nat.
Proof. intros [? [] ? ? ? [] ? []]. unfold lfn_bytes. rewrite !length_app, !length_le_bytes. lia. Qed.

Lemma bytes_lfn_bytes l : wf_lfn l → bytes (lfn_bytes l).
Proof.
  intros [? [] ? ? ? [] ? []]. unfold lfn_bytes, bytes in *.
  rewrite !Forall_app. repeat split; auto using bytes_le_bytes; apply bytes_le_bytes.
Qed.

Lemma lfn_of_bytes_bytes l : wf_lfn l → lfn_of_bytes (lfn_bytes l) = l.
Proof.
  intros [? [] ? ? ? [] ? []]. unfold lfn_of_bytes, lfn_bytes, le_field. skip_fields.
  unfold is_byte, is_u16 in *. rewrite !le_value_bytes by (simpl; lia). by destruct l.
Qed.

(** The two views of a 32-byte slot agree: a long-filename entry stored in a
    directory slot is recovered from it. *)
Lemma from_to_directory_entry l : wf_lfn l → from_directory_entry (to_directory_entry l) = l.
Proof.
  intros H. unfold from_directory_entry, to_directory_entry.
  rewrite entry_bytes_of_bytes by auto using length_lfn_bytes, bytes_lfn_bytes.
  by apply lfn_of_bytes_bytes.
Qed.

(** ** Lemmas on the cluster number of an entry *)

Lemma get_cluster_spec e :
  wf_entry e → get_cluster e = de_first_cluster_high e * 2 ^ 16 + de_first_cluster_low e.
Proof.
  intros []. unfold get_cluster, is_u16 in *.
  rewrite wrap_id by (rewrite Z.shiftl_mul_pow2 by lia; lia).
  by apply lor_shiftl_low.
Qed.

Lemma get_set_cluster_low e c : is_u32 c → get_cluster (set_cluster c e) = c.
Proof.
  intros Hc. unfold get_cluster, set_cluster, is_u32 in *; cbn [de_first_cluster_high de_first_cluster_low].
  change 0xFFFF with (2 ^ 16 - 1). rewrite !land_mask by lia.
  rewrite Z.shiftr_div_pow2 by lia.
  assert (0 ≤ c / 2 ^ 16 < 2 ^ 16).
  { split; [apply Z.div_pos; lia | apply Z.div_lt_upper_bound; lia]. }
  unfold wrap. rewrite !Z.mod_mod by lia.
  rewrite (Z.mod_small (c / 2 ^ 16)) by done.
  rewrite Z.mod_small by (rewrite Z.shiftl_mul_pow2 by lia; lia).
  rewrite lor_shiftl_low by (try lia; apply Z.mod_pos_bound; lia).
  rewrite Z.mul_comm. symmetry. apply Z.div_mod. lia.
Qed.

Lemma wf_set_cluster e c : wf_entry e → wf_entry (set_cluster c e).
Proof.
  intros []. split; try done; cbn; unfold is_u16; apply wrap_bound; lia.
Qed.

Lemma wf_set_size e n : wf_entry e → is_u32 n → wf_entry (set_size n e).
Proof. intros [] ?. by split. Qed.

Lemma wf_mark_deleted e : wf_entry e → wf_entry (mark_deleted e).
Proof.
  intros []. split; try done; cbn.
  - by rewrite length_insert.
  - apply Forall_insert; [done|]. unfold is_byte. lia.
Qed.

Lemma mark_deleted_is_deleted e : wf_entry e → is_deleted (mark_deleted e) = true.
Proof.
  intros []. unfold is_deleted, name_byte0, mark_deleted, set_name; cbn [de_name].
  by rewrite list_lookup_insert_eq by lia.
Qed.

#[export] Hint Resolve wf_set_cluster wf_set_size wf_mark_deleted : kernel.

(** ** Lemmas on long filename entries *)

Lemma length_lfn_padded units : (length units ≤ 13)%nat → length (lfn_padded units) = 13%nat.
Proof.
  intros H. unfold lfn_padded.
  assert (length (take 13 units ++ replicate (13 - length units) 0xFFFF) = 13%nat) as Hl.
  { rewrite length_app, length_take, length_replicate. lia. }
  destruct (_ <? _)%nat; [by rewrite length_insert | done].
Qed.

Lemma Forall_lfn_padded units : Forall is_u16 units → Forall is_u16 (lfn_padded units).
Proof.
  intros H. unfold lfn_padded.
  assert (Forall is_u16 (take 13 units ++ replicate (13 - length units) 0xFFFF)).
  { apply Forall_app. split; [by apply Forall_take|]. apply Forall_replicate. unfold is_u16. lia. }
  destruct (_ <? _)%nat; [|done]. apply Forall_insert; [done|]. unfold is_u16. lia.
Qed.

(** The units of a chunk, then NUL and filler when the chunk is short. *)
Lemma lfn_padded_spec units :
  (length units ≤ 13)%nat →
  lfn_padded units =
    if (length units =? 13)%nat then units
    else units ++ 0 :: replicate (12 - length units) 0xFFFF.
Proof.
  intros H. unfold lfn_padded, LFN_UNITS_PER_ENTRY. rewrite take_ge by done.
  destruct (Nat.ltb_spec (length units) 13), (Nat.eqb_spec (length units) 13); try lia.
  - replace (13 - length units)%nat with (S (12 - length units)) by lia. simpl.
    rewrite insert_app_r_alt, Nat.sub_diag by lia. done.
  - replace (13 - length units)%nat with 0%nat by lia. apply app_nil_r.
Qed.

Lemma units_of_le_bytes l n :
  length l = n → Forall is_u16 l → map (unit_at (concat (map (le_bytes 2) l))) (seq 0 n) = l.
Proof.
  intros <- H. induction H as [|u l Hu _ IH]; [done|].
  cbn [length seq map concat]. f_equal.
  - unfold unit_at, le_field. rewrite field_here by apply length_le_bytes.
    apply le_value_bytes. unfold is_u16 in Hu. simpl. lia.
  - rewrite <-IH at 3. rewrite <-seq_shift, map_map. apply map_ext. intros i.
    unfold unit_at, le_field. rewrite (field_skip 2) by (apply length_le_bytes || lia).
    do 2 f_equal. lia.
Qed.

Lemma length_concat_le2 l : length (concat (map (le_bytes 2) l)) = (2 * length l)%nat.
Proof. induction l as [|u l IH]; [done|]. cbn [map concat length]. rewrite length_app, length_le_bytes. lia. Qed.

Lemma bytes_concat_le2 l : bytes (concat (map (le_bytes 2) l)).
Proof.
  induction l as [|u l IH]; [constructor|]. cbn [map concat].
  apply Forall_app. split; [apply bytes_le_bytes | exact IH].
Qed.

(** The units stored in an entry come out as the padded chunk. *)
Lemma name_units_new seq last cs units :
  (length units ≤ 13)%nat → Forall is_u16 units →
  name_units (LongDirectoryEntry_new seq last cs units) = lfn_padded units.
Proof.
  intros Hl Hu. pose proof (length_lfn_padded units Hl) as Hp.
  pose proof (Forall_lfn_padded units Hu) as Hf.
  unfold name_units, LongDirectoryEntry_new; cbn [lfn_name1 lfn_name2 lfn_name3].
  rewrite !units_of_le_bytes; try (rewrite !length_take, ?length_drop; lia);
    try (apply Forall_take; try apply Forall_drop; done).
  rewrite <-(take_drop 5 (lfn_padded units)) at 4. f_equal.
  rewrite <-(take_drop 6 (drop 5 (lfn_padded units))) at 2. f_equal.
  rewrite drop_drop. rewrite take_ge; [done|]. rewrite length_drop. lia.
Qed.

Lemma wf_lfn_new seq last cs units :
  0 ≤ seq < 64 → is_byte cs → (length units ≤ 13)%nat →
  wf_lfn (LongDirectoryEntry_new seq last cs units).
Proof.
  intros Hs Hc Hl. pose proof (length_lfn_padded units Hl).
  split; cbn [lfn_order lfn_name1 lfn_attributes lfn_entry_type lfn_entry_checksum lfn_name2
              lfn_first_cluster_low lfn_name3 LongDirectoryEntry_new]; unfold is_byte, is_u16; try lia.
  - destruct last; [|lia]. revert seq Hs.
    apply (Forall_range (λ s, 0 ≤ Z.lor s LFN_LAST_ENTRY_FLAG < 256) 0 64). by vm_compute.
  - split; [|apply bytes_concat_le2]. rewrite length_concat_le2, length_take. lia.
  - done.
  - split; [|apply bytes_concat_le2]. rewrite length_concat_le2, length_take, length_drop. lia.
  - split; [|apply bytes_concat_le2]. rewrite length_concat_le2, length_take, length_drop. lia.
Qed.

(** What the parser reads off the order byte, and that the slot is neither an
    end marker nor deleted. *)
Lemma lfn_order_new seq last cs units :
  1 ≤ seq < 64 →
  let l := LongDirectoryEntry_new seq last cs units in
  lfn_sequence l = seq ∧ lfn_is_last l = last ∧ lfn_order l ≠ 0 ∧ lfn_order l ≠ 0xE5.
Proof.
  intros Hs. cbv zeta. unfold lfn_sequence, lfn_is_last, LongDirectoryEntry_new; cbn [lfn_order].
  destruct last; revert seq Hs.
  - apply (Forall_range (λ s, Z.land (Z.lor s 0x40) 0x3F = s ∧ negb (Z.land (Z.lor s 0x40) 0x40 =? 0) = true
      ∧ Z.lor s 0x40 ≠ 0 ∧ Z.lor s 0x40 ≠ 0xE5) 1 63). by vm_compute.
  - apply (Forall_range (λ s, Z.land s 0x3F = s ∧ negb (Z.land s 0x40 =? 0) = false
      ∧ s ≠ 0 ∧ s ≠ 0xE5) 1 63). by vm_compute.
Qed.

Lemma to_directory_entry_slot l :
  wf_lfn l → name_byte0 (to_directory_entry l) = lfn_order l
  ∧ de_attributes (to_directory_entry l) = lfn_attributes l.
Proof.
  intros [Ho [H1 B1] Ha ? ? [] ? []]. unfold to_directory_entry, name_byte0, entry_of_bytes;
    cbn [de_name de_attributes]. split.
  - unfold lfn_bytes, field. cbn. unfold is_byte in Ho. rewrite Z.mod_small by lia. done.
  - unfold lfn_bytes, le_field. rewrite (field_skip 1) by (apply length_le_bytes || lia).
    cbn [Nat.sub]. rewrite (field_skip 10) by (done || lia). cbn [Nat.sub].
    rewrite field_here by apply length_le_bytes. apply le_value_bytes. unfold is_byte in Ha. simpl. lia.
Qed.

Lemma lfn_checksum_byte n : is_byte (lfn_checksum n).
Proof.
  unfold lfn_checksum. cut (∀ s, is_byte s → is_byte (foldl (λ sum byte, wrap 8 (rotate_right1 sum + byte)) s n)).
  { intros Hc. apply Hc. unfold is_byte. lia. }
  induction n as [|b n IH]; intros s Hs; [done|]. simpl. apply IH. apply (wrap_bound 8). lia.
Qed.
#[export] Hint Resolve lfn_checksum_byte : kernel.

(** ** Lemmas on reassembling a long name *)

Lemma before_nul_app u r : Forall (λ x, x ≠ 0) u → before_nul (u ++ r) = u ++ before_nul r.
Proof.
  induction 1 as [|x u Hx _ IH]; [done|]. simpl.
  by rewrite (proj2 (Z.eqb_neq _ _) Hx), IH.
Qed.

(** The chunks of a name, in name order, for [chunk_count] entries. *)
Definition lfn_chunk (units : list Z) (i : nat) : list Z := take 13 (drop (13 * i) units).

Lemma concat_padded_chunks k i units :
  Forall (λ x, x ≠ 0) units → (13 * i ≤ length units)%nat →
  (13 * i + length (drop (13 * i) units) ≤ 13 * (i + k))%nat →
  before_nul (concat (map (λ j, lfn_padded (lfn_chunk units j)) (seq i k)))
  = drop (13 * i) units.
Proof.
  intros Hnz. revert i. induction k as [|k IH]; intros i Hi Hk.
  - simpl. rewrite length_drop in Hk. rewrite drop_ge by lia. done.
  - cbn [seq map concat]. unfold lfn_chunk at 1.
    set (c := drop (13 * i) units) in *.
    assert (Forall (λ x, x ≠ 0) c) as Hc by (by apply Forall_drop).
    rewrite lfn_padded_spec by (rewrite length_take; lia). rewrite length_take.
    destruct (Nat.eqb_spec (13 `min` length c) 13) as [E|E].
    + rewrite before_nul_app by (by apply Forall_take).
      unfold c in E, Hk |- *. rewrite length_drop in E, Hk.
      rewrite IH; [| lia | rewrite length_drop; lia].
      replace (13 * S i)%nat with (13 * i + 13)%nat by lia. rewrite <-drop_drop. apply take_drop.
    + rewrite take_ge by lia. rewrite <-app_assoc, before_nul_app by done. simpl.
      apply app_nil_r.
Qed.

(** ** Lemmas on short aliases *)

Lemma length_sanitize component max_len acc :
  (length acc ≤ max_len)%nat → (length (sanitize_loop component max_len acc) ≤ max_len)%nat.
Proof.
  revert acc. induction component as [|c rest IH]; intros acc H; simpl; [done|].
  destruct (Nat.eqb_spec (length acc) max_len); [lia|].
  destruct (_ || _); [by apply IH|]. apply IH. rewrite length_app. simpl. lia.
Qed.

(** A byte a short name may contain. *)
Definition short_byte (b : Z) : Prop := 33 ≤ b < 128 ∧ is_invalid_short_name_byte b = false.

Lemma Forall_sanitize component max_len acc :
  Forall (λ c, 0 ≤ c) component → Forall short_byte acc →
  Forall short_byte (sanitize_loop component max_len acc).
Proof.
  intros Hc. revert acc. induction Hc as [|c rest Hc _ IH]; intros acc H; simpl; [done|].
  destruct (_ =? _)%nat; [done|]. destruct (_ || _); [by apply IH|].
  apply IH. apply Forall_app. split; [done|]. repeat constructor; unfold short_byte.
  all: destruct (is_ascii (ascii_upper c) && negb (is_invalid_short_name_byte (ascii_upper c))) eqn:E;
    [bool_to_prop | first [done | lia]].
  all: unfold is_ascii in *; bool_to_prop; try done.
  unfold is_invalid_short_name_byte in *. apply orb_false_iff in H1 as [H1 _]. bool_to_prop. lia.
Qed.

Fixpoint digits_value (ds : list Z) : Z :=
  match ds with
  | [] => 0
  | d :: ds => (d - 48) + 10 * digits_value ds
  end.

Lemma alias_digits_value fuel t : 0 ≤ t < 10 ^ Z.of_nat fuel → digits_value (alias_digits fuel t) = t.
Proof.
  revert t. induction fuel as [|n IH]; intros t Ht; simpl.
  { simpl in Ht. lia. }
  destruct (Z.ltb_spec 0 t); simpl; [|lia]. rewrite IH.
  - pose proof (Z.div_mod t 10). lia.
  - rewrite Nat2Z.inj_succ, Z.pow_succ_r in Ht by lia.
    split; [apply Z.div_pos; lia | apply Z.div_lt_upper_bound; lia].
Qed.

Lemma length_alias_digits fuel t : (length (alias_digits fuel t) ≤ fuel)%nat.
Proof. revert t. induction fuel as [|n IH]; intros t; simpl; [done|]. destruct (0 <? t); simpl; [specialize (IH (t / 10)); lia | lia]. Qed.

Lemma Forall_alias_digits fuel t : Forall (λ d, 48 ≤ d ≤ 57) (alias_digits fuel t).
Proof.
  revert t. induction fuel as [|n IH]; intros t; simpl; [constructor|].
  destruct (0 <? t); constructor; [|apply IH]. pose proof (Z.mod_pos_bound t 10). lia.
Qed.

Lemma splice_replicate {A} (p q : list A) n x off :
  off = length p → (length q ≤ n)%nat →
  splice (p ++ replicate n x) off q = p ++ q ++ replicate (n - length q) x.
Proof.
  intros -> H. unfold splice. rewrite take_app_length. do 2 f_equal.
  rewrite drop_app_add. by rewrite drop_replicate.
Qed.

(** The layout of an alias: base prefix, tilde, number, blanks, extension. *)
Lemma compose_short_alias_spec base ext t :
  (length ext ≤ 3)%nat →
  let digits := alias_digits 6 t in
  let b := Nat.min (length base) (7 - length digits) in
  compose_short_alias base ext t =
    (take b base ++ 126 :: rev digits ++ replicate (7 - b - length digits) 32)
    ++ ext ++ replicate (3 - length ext) 32.
Proof.
  intros He digits b. unfold compose_short_alias. fold digits.
  change (8 - 1 - length digits)%nat with (7 - length digits)%nat. fold b.
  assert (Hd : (length digits ≤ 6)%nat) by apply length_alias_digits.
  assert (Hb : length (take b base) = b) by (rewrite length_take; lia).
  change (replicate 11 32) with ([] ++ replicate 11 32).
  rewrite (splice_replicate [] (take b base)) by (done || lia). rewrite Hb. cbn [app].
  rewrite (splice_replicate (take b base) [126]) by (done || simpl; lia). cbn [length].
  rewrite app_assoc.
  rewrite (splice_replicate (take b base ++ [126]) (rev digits))
    by (rewrite ?length_app, ?length_rev, ?Hb; simpl; lia).
  rewrite length_rev.
  replace (11 - b - 1 - length digits)%nat with ((7 - b - length digits) + 3)%nat by lia.
  rewrite replicate_add, !app_assoc.
  rewrite splice_replicate by (try done; rewrite !length_app, length_rev, length_replicate, Hb; simpl; lia).
  rewrite <-!app_assoc. simpl. by rewrite <-!app_assoc.
Qed.

Lemma length_compose_short_alias base ext t :
  (length ext ≤ 3)%nat → length (compose_short_alias base ext t) = 11%nat.
Proof.
  intros He. rewrite compose_short_alias_spec by done. cbv zeta.
  pose proof (length_alias_digits 6 t). generalize dependent (alias_digits 6 t). intros digits ?.
  rewrite !length_app, length_take. simpl. rewrite !length_app, length_rev, !length_replicate. lia.
Qed.

(** The byte of an alias at each of its first eight positions. *)
Lemma alias_lookup base ext t i :
  (length ext ≤ 3)%nat → (i < 8)%nat →
  let digits := alias_digits 6 t in
  let b := Nat.min (length base) (7 - length digits) in
  ((b < i)%nat → (i ≤ b + length digits)%nat →
     ∃ d, compose_short_alias base ext t !! i = Some d ∧ 48 ≤ d ≤ 57)
  ∧ (i = b → compose_short_alias base ext t !! i = Some 126)
  ∧ ((b + length digits < i)%nat → compose_short_alias base ext t !! i = Some 32)
  ∧ ((b < i ≤ b + length digits)%nat →
      compose_short_alias base ext t !! i = rev digits !! (i - b - 1)%nat).
Proof.
  intros He Hi digits b. rewrite compose_short_alias_spec by done. fold digits. fold b.
  assert (Hd : (length digits ≤ 6)%nat) by apply length_alias_digits.
  assert (Hb : length (take b base) = b) by (rewrite length_take; lia).
  rewrite lookup_app_l.
  2:{ rewrite length_app, Hb. simpl. rewrite length_app, length_rev, length_replicate. lia. }
  assert (Hdig : (b < i ≤ b + length digits)%nat →
    (take b base ++ 126 :: rev digits ++ replicate (7 - b - length digits) 32) !! i
    = rev digits !! (i - b - 1)%nat).
  { intros Hr. rewrite lookup_app_r, Hb by lia.
    rewrite lookup_cons_ne_0 by lia. replace (pred (i - b)) with (i - b - 1)%nat by lia.
    by rewrite lookup_app_l by (rewrite length_rev; lia). }
  split; [|split; [|split]]; [| | |exact Hdig].
  - intros H1 H2. rewrite Hdig by lia.
    destruct (lookup_lt_is_Some_2 (rev digits) (i - b - 1)) as [d Hd'].
    { rewrite length_rev. lia. }
    exists d. split; [done|]. pose proof (Forall_alias_digits 6 t) as HF.
    apply Forall_rev in HF. by eapply Forall_lookup_1 in HF.
  - intros ->. rewrite lookup_app_r, Hb, Nat.sub_diag by lia. done.
  - intros H. rewrite lookup_app_r, Hb by lia.
    rewrite lookup_cons_ne_0 by lia. replace (pred (i - b)) with (i - b - 1)%nat by lia.
    rewrite lookup_app_r by (rewrite length_rev; lia). rewrite length_rev.
    apply lookup_replicate_2. lia.
Qed.

Lemma alias_digits_pos t : 1 ≤ t → (1 ≤ length (alias_digits 6 t))%nat.
Proof. intros H. simpl. rewrite (proj2 (Z.ltb_lt 0 t)) by lia. simpl. lia. Qed.

(** Two numbers never give the same alias. *)
Lemma compose_short_alias_lt base ext t1 t2 :
  (length ext ≤ 3)%nat →
  (length (alias_digits 6 t1) < length (alias_digits 6 t2))%nat →
  compose_short_alias base ext t1 ≠ compose_short_alias base ext t2.
Proof.
  intros He Hlt E.
  pose proof (length_alias_digits 6 t2).
  set (d1 := length (alias_digits 6 t1)) in *. set (d2 := length (alias_digits 6 t2)) in *.
  set (b1 := Nat.min (length base) (7 - d1)). set (b2 := Nat.min (length base) (7 - d2)).
  destruct (decide (b1 = b2)) as [Hb|Hb].
  - destruct (alias_lookup base ext t1 (b1 + 1 + d1) He ltac:(lia)) as (_ & _ & H1 & _).
    destruct (alias_lookup base ext t2 (b1 + 1 + d1) He ltac:(lia)) as (H2 & _ & _ & _).
    fold d1 in H1. fold d2 in H2. fold b1 in H1. fold b2 in H2.
    destruct H2 as (d & H2 & ?); [lia|lia|]. rewrite <-E, H1 in H2 by lia. simplify_eq. lia.
  - destruct (alias_lookup base ext t1 b1 He ltac:(lia)) as (_ & H1 & _ & _).
    destruct (alias_lookup base ext t2 b1 He ltac:(lia)) as (H2 & _ & _ & _).
    fold d1 in H1. fold d2 in H2. fold b1 in H1. fold b2 in H2.
    destruct H2 as (d & H2 & ?); [lia|lia|]. rewrite <-E, H1 in H2 by done. simplify_eq. lia.
Qed.

Lemma compose_short_alias_inj base ext t1 t2 :
  (length ext ≤ 3)%nat → 1 ≤ t1 ≤ 999999 → 1 ≤ t2 ≤ 999999 →
  compose_short_alias base ext t1 = compose_short_alias base ext t2 → t1 = t2.
Proof.
  intros He Ht1 Ht2 E.
  destruct (lt_eq_lt_dec (length (alias_digits 6 t1)) (length (alias_digits 6 t2))) as [[H|H]|H].
  - by destruct (compose_short_alias_lt base ext t1 t2).
  - assert (alias_digits 6 t1 = alias_digits 6 t2) as Hd.
    + rewrite !compose_short_alias_spec, H in E by done. cbv zeta in E.
      apply app_inv_tail, app_inv_head in E. injection E as E.
      apply app_inv_tail, (f_equal (@rev Z)) in E. rewrite !rev_involutive in E. exact E.
    + rewrite <-(alias_digits_value 6 t1), Hd by (simpl; lia). apply alias_digits_value. simpl. lia.
  - symmetry in E. by destruct (compose_short_alias_lt base ext t2 t1).
Qed.

Lemma alias_search_Some n tail base ext taken a :
  alias_search n tail base ext taken = Some a →
  (a ∉ taken) ∧ (∃ t, tail ≤ t < tail + Z.of_nat n ∧ a = compose_short_alias base ext t).
Proof.
  revert tail. induction n as [|n IH]; intros tail H; [done|]. cbn in H.
  case_bool_decide as Hin.
  - apply IH in H as (? & t & ? & ?). split; [done|]. exists t. split; [lia|done].
  - simplify_eq. split; [done|]. exists tail. split; [lia|done].
Qed.

Lemma alias_search_None n tail base ext taken :
  alias_search n tail base ext taken = None →
  ∀ t, tail ≤ t < tail + Z.of_nat n → compose_short_alias base ext t ∈ taken.
Proof.
  revert tail. induction n as [|n IH]; intros tail H t Ht; [lia|]. cbn in H.
  case_bool_decide as Hin; [|done].
  destruct (decide (t = tail)) as [->|]; [done|]. apply (IH (tail + 1) H). lia.
Qed.

Lemma alias_parts_len filename :
  (length (alias_parts filename).1 ≤ 8)%nat ∧ (length (alias_parts filename).2 ≤ 3)%nat.
Proof.
  unfold alias_parts. destruct (rsplit_dot filename) as [[a b]|]; [case_bool_decide|];
    cbn; split; try apply length_sanitize; simpl; lia.
Qed.

(** a generated alias is a short name no entry of the directory has; there is
    one whenever the directory holds fewer than 999999 names. *)
Theorem generate_short_alias_fresh filename taken :
  Z.of_nat (length taken) < 999999 →
  ∃ alias, generate_short_alias filename taken = Some alias
    ∧ (alias ∉ taken) ∧ length alias = 11%nat.
Proof.
  intros Hlen. unfold generate_short_alias.
  pose proof (alias_parts_len filename) as [_ He].
  destruct (alias_parts filename) as [base ext]. cbn in He.
  destruct (alias_search _ 1 base ext taken) as [a|] eqn:E.
  - apply alias_search_Some in E as (? & t & ? & ->).
    eexists. split; [done|]. split; [done|]. by apply length_compose_short_alias.
  - exfalso. pose proof (alias_search_None _ _ _ _ _ E) as Hall.
    rewrite Z2Nat.id in Hall by lia.
    set (cs := (compose_short_alias base ext) <$> seqZ 1 999999).
    assert (NoDup cs) as Hnd.
    { apply NoDup_fmap_2_strong; [|apply NoDup_seqZ].
      intros x y Hx Hy. apply elem_of_seqZ in Hx, Hy.
      apply compose_short_alias_inj; [done|lia|lia]. }
    assert (cs ⊆ taken) as Hsub.
    { intros a Ha. apply list_elem_of_fmap in Ha as (t & -> & Ht). apply elem_of_seqZ in Ht.
      apply Hall. lia. }
    apply NoDup_submseteq in Hsub; [|done]. apply submseteq_length in Hsub.
    unfold cs in Hsub. rewrite length_fmap, length_seqZ in Hsub. lia.
Qed.

(** ** Lemmas on short names *)

Lemma splitn2_dot_spec s a o :
  splitn2_dot s = (a, o) →
  Forall (λ c, c ≠ 46) a ∧ s = a ++ match o with Some b => 46 :: b | None => [] end.
Proof.
  revert a o. induction s as [|x s IH]; intros a o Hs; cbn in Hs; [by simplify_eq|].
  destruct (Z.eqb_spec x 46) as [->|Hx]; [by simplify_eq|].
  destruct (splitn2_dot s) as [a' o'] eqn:E. simplify_eq.
  destruct (IH _ _ eq_refl) as [? ->]. split; [by constructor|done].
Qed.

(** A byte that may stand in a short name is not trimmed and keeps its place
    under the case conversions. *)
Lemma short_char_not_space c :
  is_ascii c = true → is_invalid_short_name_byte c = false → is_whitespace c = false.
Proof.
  intros Ha Hi. unfold is_ascii in Ha. unfold is_invalid_short_name_byte in Hi.
  apply orb_false_iff in Hi as [Hi _]. bool_to_prop.
  revert c Hi Ha. cut (∀ c, 33 ≤ c < 33 + 95 → is_whitespace c = false); [intros Hc c ??; apply Hc; lia|].
  apply (Forall_range (λ c, is_whitespace c = false)). by vm_compute.
Qed.

(** The printable form of one padded component. *)
Lemma component_roundtrip `{UnicodeCase} s n :
  Forall short_byte s →
  to_lowercase (trim_end (default [] (utf8_decode (s ++ replicate n 32)))) = map ascii_lower s.
Proof.
  intros Hs. rewrite utf8_decode_ascii.
  2:{ apply Forall_app. split; [|apply Forall_replicate; lia].
      eapply Forall_impl; [exact Hs|]. unfold short_byte. simpl. lia. }
  change (default [] (Some (s ++ replicate n 32))) with (s ++ replicate n 32).
  assert (Forall (λ c, is_ascii c = true) s).
  { eapply Forall_impl; [exact Hs|]. intros c [Hc _]. unfold is_ascii. apply Z.ltb_lt. lia. }
  unfold trim_end. rewrite trim_end_by_app.
  - by apply to_lowercase_ascii.
  - rewrite Forall_forall in *. intros c Hc. apply short_char_not_space; [auto|]. by apply Hs.
  - by apply Forall_replicate.
Qed.

Lemma forallb_Forall {A} (p : A → bool) l : forallb p l = true ↔ Forall (λ x, p x = true) l.
Proof.
  rewrite forallb_forall, Forall_forall. split; intros H x Hx; apply H; by apply list_elem_of_In.
Qed.

Lemma existsb_Forall {A} (p : A → bool) l : existsb p l = false ↔ Forall (λ x, p x = false) l.
Proof.
  induction l as [|x l IH]; simpl; [by split|].
  rewrite orb_false_iff, IH, Forall_cons. done.
Qed.

Lemma map_lower_upper s : map ascii_lower (map ascii_upper s) = map ascii_lower s.
Proof. rewrite map_map. apply map_ext, ascii_lower_upper. Qed.


Lemma short_byte_intro c :
  is_ascii c = true → is_invalid_short_name_byte c = false → short_byte c.
Proof.
  intros Ha Hi. split; [|done]. unfold is_ascii in Ha. unfold is_invalid_short_name_byte in Hi.
  apply orb_false_iff in Hi as [Hi _]. bool_to_prop. lia.
Qed.

(** A short name is its two components, each padded with blanks. *)
Definition short_form (N E : list Z) : list Z :=
  (N ++ replicate (8 - length N) 32) ++ E ++ replicate (3 - length E) 32.

Lemma get_fat_filename_inv `{UnicodeCase} f n :
  get_fat_filename f = Some n →
  let N := to_uppercase (splitn2_dot f).1 in
  let E := to_uppercase (default [] (splitn2_dot f).2) in
  N ≠ [] ∧ (length N ≤ 8)%nat ∧ (length E ≤ 3)%nat ∧ Forall short_byte N ∧ Forall short_byte E
  ∧ (length (List.filter (Z.eqb 46) (utf8_encode f)) ≤ 1)%nat
  ∧ n = short_form N E.
Proof.
  unfold get_fat_filename. destruct (splitn2_dot f) as [name ext]. cbn [fst snd].
  set (N := to_uppercase name). set (E := to_uppercase (default [] ext)).
  destruct (_ || _) eqn:T; [done|]. intros Hq. apply (inj Some) in Hq. subst n.
  apply orb_false_iff in T as [T Hinv]. apply orb_false_iff in T as [T HE].
  apply orb_false_iff in T as [T HN]. apply orb_false_iff in T as [T Hdots].
  apply Nat.ltb_ge in Hdots.
  apply orb_false_iff in T as [T HEl]. apply orb_false_iff in T as [T HNl].
  apply bool_decide_eq_false in T. apply negb_false_iff, forallb_Forall in HN, HE.
  unfold utf8_len in HNl, HEl. rewrite utf8_encode_ascii in HNl, HEl by done. bool_to_prop.
  rewrite (utf8_encode_ascii N), (utf8_encode_ascii E) in Hinv |- * by done.
  apply existsb_Forall, Forall_app in Hinv as [HNi HEi].
  assert (Hsb : ∀ s, Forall (λ c, is_ascii c = true) s →
    Forall (λ c, is_invalid_short_name_byte c = false) s → Forall short_byte s).
  { intros s. rewrite !Forall_forall. auto using short_byte_intro. }
  split; [done|]. split; [lia|]. split; [lia|]. split; [auto|]. split; [auto|].
  split; [done|]. rewrite !take_ge by lia. change (replicate 11 32) with ([] ++ replicate 11 32).
  rewrite (splice_replicate [] N) by (done || lia). cbn [app].
  replace (11 - length N)%nat with ((8 - length N) + 3)%nat by lia. rewrite replicate_add, app_assoc.
  apply splice_replicate; [|lia]. rewrite length_app, length_replicate. lia.
Qed.

(** Reading a short name back gives its components in lower case. *)
Lemma short_form_display `{UnicodeCase} N E :
  (length N ≤ 8)%nat → (length E ≤ 3)%nat → Forall short_byte N → Forall short_byte E →
  get_filename_from_fat (short_form N E) =
    map ascii_lower N ++ (if bool_decide (E = []) then [] else 46 :: map ascii_lower E).
Proof.
  intros HN HE HNs HEs. unfold get_filename_from_fat, short_form.
  assert (length (N ++ replicate (8 - length N) 32) = 8%nat) as H8
    by (rewrite length_app, length_replicate; lia).
  rewrite take_app_length', drop_app_length' by done.
  rewrite take_ge by (rewrite length_app, length_replicate; lia).
  rewrite !component_roundtrip by done.
  destruct E as [|c E]; [by rewrite !bool_decide_eq_true_2, app_nil_r by done|].
  by rewrite !bool_decide_eq_false_2 by done.
Qed.

Lemma short_form_shape N E :
  N ≠ [] → (length N ≤ 8)%nat → (length E ≤ 3)%nat → Forall short_byte N → Forall short_byte E →
  length (short_form N E) = 11%nat ∧ bytes (short_form N E)
  ∧ (∃ b, head (short_form N E) = Some b ∧ short_byte b).
Proof.
  intros H0 HN HE HNs HEs. unfold short_form. split; [|split].
  - rewrite !length_app, !length_replicate. lia.
  - assert (Hb : ∀ s, Forall short_byte s → bytes s).
    { intros s Hs. eapply Forall_impl; [exact Hs|]. intros c [Hc _]. unfold is_byte. lia. }
    assert (Hr : ∀ k, bytes (replicate k 32)) by (intros; apply Forall_replicate; unfold is_byte; lia).
    unfold bytes in *. rewrite !Forall_app. auto.
  - destruct N as [|b N]; [done|]. exists b. inversion HNs; subst. done.
Qed.

(** With at most one dot, there is none after the first. *)
Lemma dots_after (a e : list Z) :
  (length (List.filter (Z.eqb 46) (a ++ 46%Z :: e)) ≤ 1)%nat → Forall (λ c, c ≠ 46) e.
Proof.
  rewrite List.filter_app, length_app. cbn [List.filter]. rewrite Z.eqb_refl. cbn [length].
  intros H. assert (length (List.filter (Z.eqb 46) e) = 0%nat) as He by lia. clear H.
  induction e as [|c e IH]; [constructor|]. cbn [List.filter] in He.
  destruct (Z.eqb_spec 46 c); [done|]. constructor; auto.
Qed.

(** creating a file under an ASCII 8.3 name and reading the directory back
    shows that name in lower case; a trailing dot is dropped. *)
Theorem get_fat_filename_display `{UnicodeCase} f n :
  Forall (λ c, 0 ≤ c < 128) f → get_fat_filename f = Some n →
  get_filename_from_fat n = map ascii_lower (if ends_with 46 f then removelast f else f).
Proof.
  intros Hf Hn. apply get_fat_filename_inv in Hn as (H0 & HN & HE & HNs & HEs & Hd & ->).
  rewrite short_form_display by done. rewrite utf8_encode_ascii in Hd.
  2:{ eapply Forall_impl; [exact Hf|]. intros c [_ Hc]. by apply Z.ltb_lt. }
  destruct (splitn2_dot f) as [a o] eqn:Hs. cbn [fst snd] in *. clear H0 HN HE HNs HEs.
  apply splitn2_dot_spec in Hs as [Hdot ->]. apply Forall_app in Hf as [Ha Ho].
  assert (Hup : ∀ s, Forall (λ c, 0 ≤ c < 128) s → to_uppercase s = map ascii_upper s).
  { intros s Hs. apply to_uppercase_ascii. eapply Forall_impl; [exact Hs|].
    intros c [_ Hc]. by apply Z.ltb_lt. }
  rewrite (Hup a), map_lower_upper by done. unfold ends_with.
  destruct o as [[|c e]|].
  - rewrite !bool_decide_eq_true_2 by (done || by rewrite last_snoc).
    by rewrite removelast_last, app_nil_r.
  - change (default [] (Some (c :: e))) with (c :: e).
    rewrite (Hup (c :: e)), map_lower_upper by (by inversion Ho).
    rewrite (bool_decide_eq_false_2 (map ascii_upper (c :: e) = [])) by done.
    rewrite bool_decide_eq_false_2; [by rewrite map_app|].
    intros Hl. apply dots_after in Hd. rewrite last_app_cons, last_cons_cons in Hl.
    apply last_Some_elem_of in Hl. rewrite Forall_forall in Hd. by apply (Hd 46).
  - rewrite bool_decide_eq_true_2 by done. rewrite !app_nil_r.
    rewrite bool_decide_eq_false_2; [done|]. intros Hl. apply last_Some_elem_of in Hl.
    rewrite Forall_forall in Hdot. by apply (Hdot 46).
Qed.

(** ** Witnesses *)

(** "Long file.txt" in a directory that already has LONGFI~1.TXT. *)
Definition sample_long_name : list Z := [76; 111; 110; 103; 32; 102; 105; 108; 101; 46; 116; 120; 116].
Definition sample_taken : list (list Z) := [[76; 79; 78; 71; 70; 73; 126; 49; 84; 88; 84]].

Lemma generate_short_alias_fresh_witness :
  ∃ alias, generate_short_alias sample_long_name sample_taken = Some alias
    ∧ (alias ∉ sample_taken) ∧ length alias = 11%nat.
Proof. apply generate_short_alias_fresh. reflexivity. Defined.

(** "ReadMe.md" is stored as "README  MD " and listed as "readme.md". *)
Lemma get_fat_filename_display_witness :
  @get_filename_from_fat ascii_case [82; 69; 65; 68; 77; 69; 32; 32; 77; 68; 32]
  = [114; 101; 97; 100; 109; 101; 46; 109; 100].
Proof.
  apply (@get_fat_filename_display ascii_case [82; 101; 97; 100; 77; 101; 46; 109; 100]).
  - repeat constructor; discriminate.
  - reflexivity.
Defined.
