(* ===== verification/FatTable.v ===== *)
(** * FatTable: the in-memory file allocation table (FatBuffer in src/src/fs/fat_fs.rs)

    The table is an array of 32-bit entries; cluster [c] of a chain holds the
    number of the next one, or a value of at least 0x0FFFFFF8 at the end.  The
    operations run over the table as their state; the methods that take
    [&self] are functions of it.  Specification side: [chain fat c cs] (the
    clusters [cs] are the chain that starts at [c]), [free_clusters], and
    [link_chain] (the table with a given list of clusters linked up). *)

From S2P Require Import Prelude.

Definition FAT_CLUSTER_FREE : Z := 0x00000000.
Definition FAT_CLUSTER_EOF : Z := 0x0FFFFFFF.

(** [entries] words at the pointer [fat]; every access of the source tests the
    index against [entries] first. *)
Definition FatBuffer : Type := list Z.
Definition entries (fat : FatBuffer) : Z := Z.of_nat (length fat).

Definition next_cluster (fat : FatBuffer) (curr : Z) : option Z :=
  if entries fat <=? curr then None
  else
    next ← lookupZ fat curr;
    if (0x0FFFFFF8 <=? next) || (next =? 0) then None else Some next.

Definition exists_cluster (fat : FatBuffer) (cluster : Z) : bool :=
  match next_cluster fat cluster with Some n => negb (n =? 0) | None => false end.

Definition set_entry (cluster value : Z) : kst FatBuffer (option unit) := λ fat,
  if entries fat <=? cluster then Done (None, fat)
  else Done (Some tt, insertZ cluster value fat).

Definition is_free (fat : FatBuffer) (cluster : Z) : bool :=
  bool_decide (lookupZ fat cluster = Some FAT_CLUSTER_FREE).

(** [for cluster in 2..self.entries]. *)
Definition find_free_cluster (fat : FatBuffer) : option Z :=
  find (is_free fat) (seqZ 2 (entries fat - 2)).

Definition free_chain_body (cluster : Z) : kst FatBuffer (Z + option unit) :=
  let* fat := kget in
  if entries fat <=? cluster then kret (inr None)
  else
    let next := next_cluster fat cluster in
    let* r := set_entry cluster FAT_CLUSTER_FREE in
    match r with
    | None => kret (inr None)
    | Some _ =>
        match next with
        | Some next => kret (inl next)
        | None => kret (inr (Some tt))
        end
    end.

(** One more iteration than there are entries is always enough
    ([free_chain_total]): every iteration that goes on clears an entry. *)
Definition free_chain (cluster : Z) : kst FatBuffer (option unit) := λ fat,
  loopM (S (length fat)) free_chain_body cluster fat.

(** The iterations of [for _ in 0..count] in [allocate_chain]. *)
Fixpoint allocate_chain_loop (count : nat) (first_cluster : Z) (prev_cluster : option Z)
  : kst FatBuffer (option Z) :=
  match count with
  | O => kret (Some first_cluster)
  | S count =>
      let* fat := kget in
      match find_free_cluster fat with
      | None =>
          (if first_cluster =? 0 then kret None else free_chain first_cluster) ;;*
          kret None
      | Some cluster =>
          let* r := set_entry cluster FAT_CLUSTER_EOF in
          match r with
          | None =>
              (if first_cluster =? 0 then kret None else free_chain first_cluster) ;;*
              kret None
          | Some _ =>
              match prev_cluster with
              | Some prev =>
                  let* r := set_entry prev (wrap 32 cluster) in
                  match r with
                  | None =>
                      free_chain first_cluster ;;*
                      set_entry cluster FAT_CLUSTER_FREE ;;*
                      kret None
                  | Some _ => allocate_chain_loop count first_cluster (Some cluster)
                  end
              | None => allocate_chain_loop count cluster (Some cluster)
              end
          end
      end
  end.

Definition allocate_chain (count : Z) : kst FatBuffer (option Z) :=
  if count =? 0 then kret None
  else allocate_chain_loop (Z.to_nat count) 0 None.

(** ** Specification *)

(** [chain fat c cs]: following the table from [c] visits exactly [cs] and ends
    inside the table. *)
Inductive chain (fat : FatBuffer) : Z → list Z → Prop :=
| chain_last c : 0 ≤ c < entries fat → next_cluster fat c = None → chain fat c [c]
| chain_next c n cs : 0 ≤ c < entries fat → next_cluster fat c = Some n → chain fat n cs →
    chain fat c (c :: cs).

(** The clusters the allocator may hand out, in order. *)
Definition free_clusters (fat : FatBuffer) : list Z :=
  List.filter (is_free fat) (seqZ 2 (entries fat - 2)).

(** The table after linking [cs] into a chain. *)
Fixpoint link_chain (cs : list Z) (fat : FatBuffer) : FatBuffer :=
  match cs with
  | [] => fat
  | c :: r => link_chain r (insertZ c (match r with [] => FAT_CLUSTER_EOF | n :: _ => n end) fat)
  end.

(** The table after freeing every cluster of [cs]. *)
Definition clear_all (cs : list Z) (fat : FatBuffer) : FatBuffer :=
  foldl (λ f c, insertZ c FAT_CLUSTER_FREE f) fat cs.

(** ** Lemmas *)

Lemma entries_insertZ i v fat : entries (insertZ i v fat) = entries fat.
Proof. unfold entries. by rewrite length_insertZ. Qed.
#[export] Hint Rewrite entries_insertZ : kernel.

Lemma insertZ_insertZ_eq {A} i (x y : A) l : insertZ i x (insertZ i y l) = insertZ i x l.
Proof. unfold insertZ. destruct (i <? 0); [done|]. apply list_insert_insert_eq. Qed.

Lemma insertZ_insertZ_ne {A} i j (x y : A) l :
  i ≠ j → insertZ i x (insertZ j y l) = insertZ j y (insertZ i x l).
Proof.
  intros H. unfold insertZ. destruct (Z.ltb_spec i 0), (Z.ltb_spec j 0); try done.
  apply list_insert_insert_ne. lia.
Qed.

Lemma lookupZ_insertZ {A} i j (x : A) l :
  0 ≤ i < Z.of_nat (length l) → lookupZ (insertZ i x l) j = if bool_decide (i = j) then Some x else lookupZ l j.
Proof.
  intros H. case_bool_decide as E; [subst; by apply lookupZ_insertZ_eq | by apply lookupZ_insertZ_ne].
Qed.

Lemma list_eq_lookupZ {A} (l k : list A) : (∀ i, lookupZ l i = lookupZ k i) → l = k.
Proof. intros H. apply list_eq. intros i. by rewrite <-!lookupZ_nat, H. Qed.

Lemma set_entry_ok c v fat :
  c < entries fat → set_entry c v fat = Done (Some tt, insertZ c v fat).
Proof. intros H. unfold set_entry. by rewrite (proj2 (Z.leb_gt _ _) H). Qed.

Lemma set_entry_out c v fat : entries fat ≤ c → set_entry c v fat = Done (None, fat).
Proof. intros H. unfold set_entry. by rewrite (proj2 (Z.leb_le _ _) H). Qed.

Lemma next_cluster_insertZ_ne fat c v i : c ≠ i → next_cluster (insertZ c v fat) i = next_cluster fat i.
Proof. intros H. unfold next_cluster. by rewrite entries_insertZ, lookupZ_insertZ_ne. Qed.

Lemma next_cluster_Some fat c n :
  next_cluster fat c = Some n →
  c < entries fat ∧ lookupZ fat c = Some n ∧ n < 0x0FFFFFF8 ∧ n ≠ 0.
Proof.
  unfold next_cluster. destruct (Z.leb_spec (entries fat) c); [done|].
  destruct (lookupZ fat c) as [v|]; simpl; [|done].
  destruct (_ || _) eqn:E; [done|]. intros; simplify_eq. bool_to_prop. auto.
Qed.

Lemma next_cluster_insertZ_eq fat c v :
  0 ≤ c < entries fat →
  next_cluster (insertZ c v fat) c = if (0x0FFFFFF8 <=? v) || (v =? 0) then None else Some v.
Proof.
  intros H. unfold next_cluster. rewrite entries_insertZ.
  rewrite (proj2 (Z.leb_gt _ _) (proj2 H)). by rewrite lookupZ_insertZ_eq.
Qed.

(** *** Chains *)

Lemma chain_head fat c cs : chain fat c cs → ∃ r, cs = c :: r.
Proof. destruct 1; eauto. Qed.

Lemma chain_det fat c cs cs' : chain fat c cs → chain fat c cs' → cs = cs'.
Proof.
  intros H. revert cs'. induction H as [c Hc Hn|c n cs Hc Hn _ IH]; inversion 1; simplify_eq; auto.
  f_equal. auto.
Qed.

Lemma chain_suffix fat c cs d : chain fat c cs → d ∈ cs → ∃ pre suf, cs = pre ++ suf ∧ chain fat d suf.
Proof.
  induction 1 as [c Hc Hn|c n cs Hc Hn Hch IH].
  - intros ->%list_elem_of_singleton. exists [], [c]. split; [done|]. by constructor.
  - intros [->|Hd]%elem_of_cons.
    + exists [], (c :: cs). split; [done|]. by econstructor.
    + destruct (IH Hd) as (pre & suf & -> & Hs). by exists (c :: pre), suf.
Qed.

Lemma chain_NoDup fat c cs : chain fat c cs → NoDup cs.
Proof.
  induction 1 as [c Hc Hn|c n cs Hc Hn Hch IH]; [apply NoDup_singleton|].
  constructor; [|done]. intros Hin. destruct (chain_suffix _ _ _ _ Hch Hin) as (pre & suf & -> & Hs).
  assert (suf = c :: pre ++ suf) as E.
  { eapply chain_det; [exact Hs|]. by econstructor. }
  apply (f_equal length) in E. rewrite length_cons, length_app in E. lia.
Qed.

Lemma chain_range fat c cs : chain fat c cs → Forall (λ d, 0 ≤ d < entries fat) cs.
Proof. induction 1; constructor; auto. Qed.

(** A chain depends only on the entries of its clusters. *)
Lemma chain_frame fat fat' c cs :
  chain fat c cs → entries fat' = entries fat →
  (∀ d, d ∈ cs → lookupZ fat' d = lookupZ fat d) → chain fat' c cs.
Proof.
  intros H He. induction H as [c Hc Hn|c n cs Hc Hn Hch IH]; intros Heq.
  - constructor; [lia|]. unfold next_cluster in *. rewrite He, Heq by set_solver. done.
  - econstructor; [lia| |apply IH; set_solver].
    unfold next_cluster in *. rewrite He, Heq by set_solver. done.
Qed.

Lemma entries_link_chain cs fat : entries (link_chain cs fat) = entries fat.
Proof. revert fat. induction cs as [|c r IH]; intros; simpl; [done|]. by rewrite IH, entries_insertZ. Qed.

Lemma link_chain_other cs fat d : d ∉ cs → lookupZ (link_chain cs fat) d = lookupZ fat d.
Proof.
  revert fat. induction cs as [|c r IH]; intros fat Hd; simpl; [done|].
  rewrite IH by set_solver. apply lookupZ_insertZ_ne. set_solver.
Qed.

Lemma link_chain_snoc pre p c fat :
  c ∉ pre ++ [p] → p ∉ pre →
  insertZ p c (insertZ c FAT_CLUSTER_EOF (link_chain (pre ++ [p]) fat)) = link_chain (pre ++ [p; c]) fat.
Proof.
  revert fat. induction pre as [|a pre IH]; intros fat Hc Hp; cbn [link_chain app].
  - rewrite (insertZ_insertZ_ne p c) by set_solver. by rewrite insertZ_insertZ_eq.
  - rewrite IH by set_solver. by destruct pre.
Qed.

(** The linked clusters are a chain. *)
Lemma chain_link c r fat :
  NoDup (c :: r) → Forall (λ d, 2 ≤ d < entries fat) (c :: r) → entries fat ≤ 0x0FFFFFF8 →
  chain (link_chain (c :: r) fat) c (c :: r).
Proof.
  revert c fat. induction r as [|n r IH]; intros c fat Hnd Hr He; cbn [link_chain].
  - apply Forall_cons in Hr as [Hr _]. constructor; [rewrite entries_insertZ; lia|].
    rewrite next_cluster_insertZ_eq by lia. done.
  - apply Forall_cons in Hr as [Hc Hr]. apply NoDup_cons in Hnd as [Hnin Hnd].
    assert (Forall (λ d, 2 ≤ d < entries (insertZ c n fat)) (n :: r)) as Hr'
      by (by rewrite entries_insertZ).
    assert (Hn : next_cluster (link_chain (n :: r) (insertZ c n fat)) c = Some n).
    { unfold next_cluster. rewrite entries_link_chain, entries_insertZ.
      rewrite (proj2 (Z.leb_gt _ _)) by lia. rewrite link_chain_other by done.
      rewrite lookupZ_insertZ_eq by (unfold entries in *; lia). apply Forall_cons in Hr as [Hn _]. simpl.
      rewrite (proj2 (Z.leb_gt _ _)), (proj2 (Z.eqb_neq _ _)) by lia. done. }
    econstructor; [|exact Hn|].
    + rewrite !entries_link_chain, !entries_insertZ. lia.
    + apply IH; [done|done|by rewrite entries_insertZ].
Qed.

(** *** Freeing *)

Lemma entries_clear_all cs fat : entries (clear_all cs fat) = entries fat.
Proof.
  unfold clear_all. revert fat. induction cs as [|c r IH]; intros; simpl; [done|].
  by rewrite IH, entries_insertZ.
Qed.

Lemma lookup_clear_all cs fat d :
  Forall (λ c, 0 ≤ c < entries fat) cs →
  lookupZ (clear_all cs fat) d = if bool_decide (d ∈ cs) then Some 0 else lookupZ fat d.
Proof.
  unfold clear_all. revert fat. induction cs as [|c r IH]; intros fat Hr; [done|].
  apply Forall_cons in Hr as [Hc Hr]. cbn [foldl].
  rewrite IH by (by rewrite entries_insertZ). rewrite lookupZ_insertZ by done.
  repeat case_bool_decide; set_solver.
Qed.

(** The entries that are in use: the measure of [free_chain]. *)
Definition used (fat : FatBuffer) : nat := length (List.filter (λ v, negb (v =? 0)) fat).

Lemma used_le fat : (used fat ≤ length fat)%nat.
Proof. unfold used. induction fat as [|v l IH]; simpl; [lia|]. destruct (negb _); simpl; lia. Qed.

Lemma used_clear fat c v :
  lookupZ fat c = Some v → v ≠ 0 → S (used (insertZ c 0 fat)) = used fat.
Proof.
  unfold lookupZ, insertZ, used. destruct (c <? 0); [done|]. generalize (Z.to_nat c); clear c.
  induction fat as [|w l IH]; intros [|i] H Hv; simplify_eq/=.
  - apply Z.eqb_neq in Hv. by rewrite Hv.
  - destruct (negb (w =? 0)); simpl; f_equal; by apply IH.
Qed.

Lemma free_chain_body_run c fat :
  free_chain_body c fat =
    if entries fat <=? c then Done (inr None, fat)
    else Done (match next_cluster fat c with Some n => inl n | None => inr (Some tt) end,
               insertZ c 0 fat).
Proof.
  unfold free_chain_body, kbind, kget. destruct (Z.leb_spec (entries fat) c); [done|].
  rewrite set_entry_ok by done. by destruct (next_cluster fat c).
Qed.

(** What freeing may do to a table: clear entries, nothing else. *)
Definition only_clears (fat fat' : FatBuffer) : Prop :=
  entries fat' = entries fat ∧ ∀ i, lookupZ fat' i = lookupZ fat i ∨ lookupZ fat' i = Some 0.

Lemma only_clears_refl fat : only_clears fat fat.
Proof. split; auto. Qed.

Lemma only_clears_insert fat fat' c :
  only_clears (insertZ c 0 fat) fat' → only_clears fat fat'.
Proof.
  intros [He H]. split; [by rewrite He, entries_insertZ|]. intros i.
  destruct (H i) as [Hi|Hi]; [|by right]. rewrite Hi.
  destruct (decide (c = i)) as [->|]; [|rewrite lookupZ_insertZ_ne; auto].
  destruct (lookupZ fat i) as [v|] eqn:E.
  - right. unfold lookupZ, insertZ in *. destruct (i <? 0); [done|].
    apply list_lookup_insert_eq. by eapply lookup_lt_Some.
  - left. unfold lookupZ, insertZ in *. destruct (i <? 0); [done|].
    apply lookup_ge_None in E. apply lookup_ge_None. by rewrite length_insert.
Qed.

Lemma free_chain_loop_total n c fat :
  (used fat < n)%nat →
  ∃ r fat', loopM n free_chain_body c fat = Done (r, fat') ∧ only_clears fat fat'.
Proof.
  revert c fat. induction n as [|n IH]; intros c fat Hn; [lia|].
  rewrite loopM_step. unfold kbind. rewrite free_chain_body_run.
  destruct (_ <=? _). { eexists _, _. split; [done|]. apply only_clears_refl. }
  destruct (next_cluster fat c) as [n'|] eqn:E.
  - apply next_cluster_Some in E as (_ & Hl & _ & Hn0).
    pose proof (used_clear _ _ _ Hl Hn0).
    destruct (IH n' (insertZ c 0 fat)) as (r & fat' & Hr & Hc); [lia|].
    exists r, fat'. split; [done|]. by eapply only_clears_insert.
  - eexists _, _. split; [done|]. eapply only_clears_insert, only_clears_refl.
Qed.

Lemma free_chain_exact_loop n c cs fat :
  chain fat c cs → (length cs ≤ n)%nat →
  loopM n free_chain_body c fat = Done (Some tt, clear_all cs fat).
Proof.
  revert n c fat. induction cs as [|a cs IH]; intros n c fat Hch Hn; [inversion Hch|].
  pose proof (chain_NoDup _ _ _ Hch) as [Ha _]%NoDup_cons.
  destruct n as [|n]; [simpl in Hn; lia|]. rewrite loopM_step. unfold kbind. rewrite free_chain_body_run.
  inversion Hch as [? Hc Hnx|? m ? Hc Hnx Hch']; subst; rewrite (proj2 (Z.leb_gt _ _)) by lia; rewrite Hnx.
  - done.
  - apply IH; [|simpl in Hn; lia]. eapply chain_frame; [done|apply entries_insertZ|].
    intros d Hd. apply lookupZ_insertZ_ne. by intros <-.
Qed.

Lemma chain_length fat c cs : chain fat c cs → (length cs ≤ length fat)%nat.
Proof.
  intros H. pose proof (chain_NoDup _ _ _ H) as Hnd. pose proof (chain_range _ _ _ H) as Hr.
  assert (Hnd' : NoDup (Z.to_nat <$> cs)).
  { apply NoDup_fmap_2_strong; [|done]. intros x y Hx Hy. rewrite Forall_forall in Hr.
    pose proof (Hr x Hx). pose proof (Hr y Hy). lia. }
  rewrite <-(length_fmap Z.to_nat), <-(length_seq (length fat) 0).
  apply submseteq_length, NoDup_submseteq; [done|].
  intros x (y & -> & Hy)%list_elem_of_fmap. rewrite Forall_forall in Hr. specialize (Hr y Hy).
  apply elem_of_seq. unfold entries in Hr. lia.
Qed.

Lemma free_chain_exact fat c cs :
  chain fat c cs → free_chain c fat = Done (Some tt, clear_all cs fat).
Proof.
  intros H. apply free_chain_exact_loop; [done|]. apply chain_length in H. lia.
Qed.

(** *** Allocation *)

Lemma find_filter_head {A} (p : A → bool) l : find p l = head (List.filter p l).
Proof. induction l as [|x l IH]; simpl; [done|]. by destruct (p x). Qed.

Lemma elem_of_free_clusters fat c :
  c ∈ free_clusters fat ↔ 2 ≤ c < entries fat ∧ lookupZ fat c = Some 0.
Proof.
  unfold free_clusters. rewrite list_elem_of_In, filter_In, <-list_elem_of_In, elem_of_seqZ.
  unfold is_free. rewrite bool_decide_eq_true. unfold FAT_CLUSTER_FREE. split; intros [? ?]; split; (done || lia).
Qed.

Lemma NoDup_filter_bool {A} (p : A → bool) l : NoDup l → NoDup (List.filter p l).
Proof. intros H. apply NoDup_ListNoDup in H. apply NoDup_ListNoDup. by apply List.NoDup_filter. Qed.

Lemma NoDup_free_clusters fat : NoDup (free_clusters fat).
Proof. apply NoDup_filter_bool, NoDup_seqZ. Qed.

Lemma link_chain_in_use cs fat c :
  Forall (λ d, 2 ≤ d < entries fat) cs → NoDup cs → c ∈ cs →
  lookupZ (link_chain cs fat) c ≠ Some FAT_CLUSTER_FREE.
Proof.
  revert fat. induction cs as [|a r IH]; intros fat Hr Hnd Hin; [by apply not_elem_of_nil in Hin|].
  apply Forall_cons in Hr as [Ha Hr]. apply NoDup_cons in Hnd as [Har Hnd]. cbn [link_chain].
  apply elem_of_cons in Hin as [->|Hin].
  - rewrite link_chain_other by done. rewrite lookupZ_insertZ_eq by (unfold entries in Ha; lia).
    destruct r as [|b r]; [done|]. apply Forall_cons in Hr as [Hb _]. unfold FAT_CLUSTER_FREE.
    intros [= ->]. lia.
  - apply IH; auto. by rewrite entries_insertZ.
Qed.

Lemma free_clusters_link cs fat :
  Forall (λ d, 2 ≤ d < entries fat) cs → NoDup cs →
  free_clusters (link_chain cs fat) = List.filter (λ c, bool_decide (c ∉ cs)) (free_clusters fat).
Proof.
  intros Hr Hnd. unfold free_clusters. rewrite entries_link_chain.
  generalize (seqZ 2 (entries fat - 2)). induction l as [|c l IH]; [done|]. simpl. rewrite IH.
  assert (is_free (link_chain cs fat) c = is_free fat c && bool_decide (c ∉ cs)) as ->.
  { clear IH. unfold is_free. destruct (decide (c ∈ cs)) as [Hin|Hin].
    - rewrite (bool_decide_eq_false_2 (c ∉ cs)), andb_false_r by auto.
      by apply bool_decide_eq_false_2, link_chain_in_use.
    - rewrite link_chain_other by done. by rewrite (bool_decide_eq_true_2 (c ∉ cs)), andb_true_r. }
  destruct (is_free fat c); simpl; [|done]. by destruct (bool_decide (c ∉ cs)).
Qed.

Lemma filter_true {A} (p : A → bool) l : Forall (λ x, p x = true) l → List.filter p l = l.
Proof. induction 1 as [|x l Hx _ IH]; simpl; [done|]. by rewrite Hx, IH. Qed.

Lemma filter_false {A} (p : A → bool) l : Forall (λ x, p x = false) l → List.filter p l = [].
Proof. induction 1 as [|x l Hx _ IH]; simpl; [done|]. by rewrite Hx. Qed.

Lemma filter_notin_app (l k : list Z) :
  NoDup (l ++ k) → List.filter (λ c, bool_decide (c ∉ l)) (l ++ k) = k.
Proof.
  intros (_ & Hd & _)%NoDup_app. rewrite List.filter_app, filter_false, filter_true; [done| |].
  - apply Forall_forall. intros x Hx. apply bool_decide_eq_true_2. intros Hl. by apply (Hd x).
  - apply Forall_forall. intros x Hx. apply bool_decide_eq_false_2. auto.
Qed.

(** Linking free clusters and freeing them again gives the table back. *)
Lemma clear_link cs fat :
  Forall (λ c, c ∈ free_clusters fat) cs → clear_all cs (link_chain cs fat) = fat.
Proof.
  intros Hcs. apply list_eq_lookupZ. intros i. rewrite lookup_clear_all.
  - case_bool_decide as Hi; [|by apply link_chain_other].
    rewrite Forall_forall in Hcs. specialize (Hcs i Hi). apply elem_of_free_clusters in Hcs as [_ Hz]. done.
  - eapply Forall_impl; [exact Hcs|]. cbn. intros c Hc. apply elem_of_free_clusters in Hc as [Hc _].
    rewrite entries_link_chain. lia.
Qed.

Section Allocation.
Context (fat : FatBuffer) (Hsize : entries fat ≤ 0x0FFFFFF8).

Lemma free_prefix pre : (∃ suf, (free_clusters fat) = pre ++ suf) →
  NoDup pre ∧ Forall (λ c, c ∈ (free_clusters fat)) pre ∧ Forall (λ d, 2 ≤ d < entries fat) pre.
Proof.
  intros [suf Hs]. pose proof (NoDup_free_clusters fat) as Hnd. rewrite Hs in Hnd.
  apply NoDup_app in Hnd as [Hnd _]. split; [done|].
  assert (Forall (λ c, c ∈ (free_clusters fat)) pre) as HF by (apply Forall_forall; rewrite Hs; set_solver).
  split; [done|]. eapply Forall_impl; [exact HF|]. cbn. intros c Hc.
  by apply elem_of_free_clusters in Hc as [Hc _].
Qed.

(** What the search finds once [pre] is taken. *)
Lemma find_free_after pre suf :
  (free_clusters fat) = pre ++ suf → find_free_cluster (link_chain pre fat) = head suf.
Proof.
  intros Hs. destruct (free_prefix pre) as (Hnd & _ & Hr); [eauto|].
  unfold find_free_cluster. rewrite find_filter_head. fold (free_clusters (link_chain pre fat)).
  rewrite free_clusters_link by done. rewrite Hs, filter_notin_app; [done|].
  rewrite <-Hs. apply NoDup_free_clusters.
Qed.

Lemma free_after c r : (∃ suf, (free_clusters fat) = (c :: r) ++ suf) →
  free_chain c (link_chain (c :: r) fat) = Done (Some tt, fat).
Proof.
  intros Hp. destruct (free_prefix (c :: r) Hp) as (Hnd & HF & Hr).
  rewrite (free_chain_exact _ _ (c :: r)) by (by apply chain_link). by rewrite clear_link.
Qed.

(** The loop of [allocate_chain] once [pre ++ [p]] is linked. *)
Lemma allocate_loop_spec n pre p suf first :
  (free_clusters fat) = (pre ++ [p]) ++ suf → head (pre ++ [p]) = Some first →
  allocate_chain_loop n first (Some p) (link_chain (pre ++ [p]) fat) =
    if (n <=? length suf)%nat then Done (Some first, link_chain ((pre ++ [p]) ++ take n suf) fat)
    else Done (None, fat).
Proof.
  revert pre p suf. induction n as [|n IH]; intros pre p suf Hs Hh.
  { simpl. by rewrite take_0, app_nil_r. }
  destruct (free_prefix (pre ++ [p])) as (Hnd & _ & Hr); [eauto|].
  cbn [allocate_chain_loop]. unfold kbind at 1, kget. rewrite (find_free_after _ _ Hs).
  assert (Hfirst : first ∈ pre ++ [p]) by (by apply head_Some_elem_of).
  assert (2 ≤ first) as H2 by (rewrite Forall_forall in Hr; apply Hr in Hfirst; lia).
  destruct suf as [|c suf]; cbn [head].
  - rewrite (proj2 (Z.eqb_neq _ _)) by lia. destruct (pre ++ [p]) as [|c r] eqn:E; [done|].
    simpl in Hh. simplify_eq. unfold kbind. rewrite free_after by eauto. done.
  - assert (Hs' : (free_clusters fat) = (pre ++ [p; c]) ++ suf) by (rewrite Hs, <-!app_assoc; done).
    destruct (free_prefix (pre ++ [p; c])) as (Hnd' & _ & Hr'); [eauto|].
    assert (2 ≤ c < entries fat) as Hc by (rewrite Forall_forall in Hr'; apply Hr'; set_solver).
    assert (2 ≤ p < entries fat) as Hpr by (rewrite Forall_forall in Hr'; apply Hr'; set_solver).
    unfold kbind. rewrite set_entry_ok by (rewrite entries_link_chain; lia).
    rewrite set_entry_ok by (rewrite entries_insertZ, entries_link_chain; lia).
    rewrite wrap_id by lia. apply NoDup_app in Hnd as (_ & Hd & _).
    rewrite link_chain_snoc.
    + change [p; c] with ([p] ++ [c]) in *. rewrite app_assoc in *. rewrite IH with (suf := suf); [|done|].
      * simpl. destruct (n <=? length suf)%nat; [|done]. by rewrite <-!app_assoc.
      * by destruct pre.
    + change [p; c] with ([p] ++ [c]) in Hnd'. rewrite (app_assoc pre [p] [c]) in Hnd'.
      apply NoDup_app in Hnd' as (_ & Hd' & _). intros Hin. apply (Hd' c Hin). set_solver.
    + intros Hin. apply (Hd p Hin). set_solver.
Qed.

Lemma allocate_chain_run n :
  0 < n →
  allocate_chain n fat =
    if n <=? Z.of_nat (length (free_clusters fat))
    then Done (head (free_clusters fat), link_chain (take (Z.to_nat n) (free_clusters fat)) fat)
    else Done (None, fat).
Proof.
  intros Hn. unfold allocate_chain. rewrite (proj2 (Z.eqb_neq _ _)) by lia.
  destruct (Z.to_nat n) as [|k] eqn:Ek; [lia|].
  cbn [allocate_chain_loop]. unfold kbind at 1, kget.
  pose proof (find_free_after [] (free_clusters fat) eq_refl) as Hff. cbn [link_chain] in Hff.
  rewrite Hff. clear Hff.
  destruct (free_clusters fat) as [|c suf] eqn:HF; cbn [head].
  { rewrite (proj2 (Z.leb_gt _ _)) by (simpl; lia). done. }
  destruct (free_prefix [c]) as (_ & _ & Hr); [by exists suf|]. apply Forall_cons in Hr as [Hc _].
  unfold kbind. rewrite set_entry_ok by lia.
  pose proof (allocate_loop_spec k [] c suf c HF eq_refl) as E. cbn [app link_chain] in E.
  rewrite E. cbn [take]. cbn [length].
  destruct (Nat.leb_spec k (length suf)), (Z.leb_spec n (Z.of_nat (S (length suf)))); done || lia.
Qed.
End Allocation.

(** *** Cutting and joining chains *)

Lemma chain_split fat c pre k suf : chain fat c (pre ++ k :: suf) → chain fat k (k :: suf).
Proof.
  revert c. induction pre as [|a pre IH]; intros c Hch.
  - pose proof (chain_head _ _ _ Hch) as [r [= -> ->]]. done.
  - inversion Hch as [|? n ? _ _ Hch']; subst; [|by eapply IH]. by destruct pre.
Qed.

Lemma next_cluster_clear_ne fat cs i :
  Forall (λ c, 0 ≤ c < entries fat) cs → i ∉ cs →
  next_cluster (clear_all cs fat) i = next_cluster fat i.
Proof.
  intros Hr Hi. unfold next_cluster. rewrite entries_clear_all, lookup_clear_all by done.
  by rewrite bool_decide_eq_false_2.
Qed.

(** The first clusters of a chain, once the last of them is marked as the end. *)
Lemma chain_cut fat c pre k suf :
  chain fat c (pre ++ k :: suf) → chain (insertZ k FAT_CLUSTER_EOF fat) c (pre ++ [k]).
Proof.
  revert c. induction pre as [|a pre IH]; intros c Hch.
  - pose proof (chain_head _ _ _ Hch) as [r [= -> ->]]. pose proof (chain_range _ _ _ Hch) as [Hc _]%Forall_cons.
    apply chain_last; [by rewrite entries_insertZ|]. rewrite next_cluster_insertZ_eq by done. done.
  - pose proof (chain_NoDup _ _ _ Hch) as [Ha _]%NoDup_cons.
    inversion Hch as [|? n ? Hr Hn Hch']; subst; [by destruct pre|].
    apply chain_next with n; [by rewrite entries_insertZ| |by apply IH].
    rewrite next_cluster_insertZ_ne; [done|]. intros ->. apply Ha. set_solver.
Qed.

(** Linking the end of a chain to another one. *)
Lemma chain_join fat c pre k d ds :
  chain fat c (pre ++ [k]) → chain fat d ds → ds ## pre ++ [k] → 0 < d < 0x0FFFFFF8 →
  chain (insertZ k d fat) c (pre ++ k :: ds).
Proof.
  intros Hch Hd Hdisj Hdr. revert c Hch Hdisj. induction pre as [|a pre IH]; intros c Hch Hdisj.
  - pose proof (chain_head _ _ _ Hch) as [r [= -> <-]]. pose proof (chain_range _ _ _ Hch) as [Hc _]%Forall_cons.
    apply chain_next with d; [by rewrite entries_insertZ| |].
    + rewrite next_cluster_insertZ_eq by done.
      rewrite (proj2 (Z.leb_gt _ _)), (proj2 (Z.eqb_neq _ _)) by lia. done.
    + eapply chain_frame; [done|apply entries_insertZ|]. intros x Hx. apply lookupZ_insertZ_ne.
      intros <-. apply (Hdisj c Hx). by left.
  - pose proof (chain_NoDup _ _ _ Hch) as [Ha _]%NoDup_cons.
    inversion Hch as [|? n ? Hr Hn Hch']; subst; [by destruct pre|].
    apply chain_next with n; [by rewrite entries_insertZ| |].
    + rewrite next_cluster_insertZ_ne; [done|]. intros ->. apply Ha. set_solver.
    + apply IH; [done|]. intros x Hx Hp. apply (Hdisj x Hx). by right.
Qed.

(** ** Properties *)

(** freeing terminates on every table, cyclic and corrupted ones included,
    within one more step than there are entries, and only ever clears
    entries. *)
Theorem free_chain_total fat c :
  ∃ r fat', free_chain c fat = Done (r, fat') ∧ only_clears fat fat'.
Proof. apply free_chain_loop_total. pose proof (used_le fat). lia. Qed.

(** on a well-formed chain, freeing succeeds, marks every cluster of the
    chain free and changes no other entry. *)
Theorem free_chain_frees_chain fat c cs :
  chain fat c cs →
  ∃ fat', free_chain c fat = Done (Some tt, fat') ∧ entries fat' = entries fat
    ∧ ∀ i, lookupZ fat' i = if bool_decide (i ∈ cs) then Some FAT_CLUSTER_FREE else lookupZ fat i.
Proof.
  intros H. exists (clear_all cs fat). split; [by apply free_chain_exact|].
  split; [apply entries_clear_all|]. intros i. apply lookup_clear_all. by eapply chain_range.
Qed.

(** C14: allocation succeeds exactly when enough clusters are free; it then links
    the first free ones, in order, into a chain, and leaves every other entry
    and every chain of used clusters alone.  When there are too few it leaves
    the table as it was, whatever it had linked before running out. *)
Theorem allocate_chain_spec fat n :
  entries fat ≤ 0x0FFFFFF8 → 0 < n →
  let cs := take (Z.to_nat n) (free_clusters fat) in
  if n <=? Z.of_nat (length (free_clusters fat))
  then ∃ c fat', allocate_chain n fat = Done (Some c, fat')
    ∧ chain fat' c cs ∧ Z.of_nat (length cs) = n ∧ entries fat' = entries fat
    ∧ (∀ i, (i ∉ cs) → lookupZ fat' i = lookupZ fat i)
    ∧ ∀ d ds, chain fat d ds → Forall (λ x, lookupZ fat x ≠ Some FAT_CLUSTER_FREE) ds →
        chain fat' d ds ∧ ds ## cs
  else allocate_chain n fat = Done (None, fat).
Proof.
  intros Hs Hn cs. rewrite allocate_chain_run by done. subst cs.
  destruct (Z.leb_spec n (Z.of_nat (length (free_clusters fat)))) as [Hl|]; [|done].
  set (F := free_clusters fat) in *. set (cs := take _ _).
  assert (∃ suf, F = cs ++ suf) as Hsuf by (eexists; symmetry; apply take_drop).
  destruct (free_prefix fat Hs cs Hsuf) as (Hnd & HF & Hr).
  assert (∃ c r, cs = c :: r ∧ head F = Some c) as (c & r & Hcs & Hh).
  { subst cs. destruct (Z.to_nat n) eqn:E; [lia|]. destruct F; [simpl in Hl; lia|]. simpl. eauto. }
  assert (Hother : ∀ i, i ∉ cs → lookupZ (link_chain cs fat) i = lookupZ fat i)
    by (intros; by apply link_chain_other).
  exists c, (link_chain cs fat). rewrite Hh. repeat split.
  - rewrite Hcs in *. by apply chain_link.
  - subst cs. rewrite length_take. lia.
  - apply entries_link_chain.
  - done.
  - assert (Hdisj : ds ## cs).
    { intros x Hx Hc. rewrite Forall_forall in HF, H0. apply (H0 x Hx).
      by apply (elem_of_free_clusters fat x), HF. }
    eapply chain_frame; [done|apply entries_link_chain|]. intros x Hx. apply Hother.
    intros Hc. by apply (Hdisj x).
  - intros x Hx Hc. rewrite Forall_forall in HF, H0. apply (H0 x Hx).
    by apply (elem_of_free_clusters fat x), HF.
Qed.

(** freeing a chain that was just allocated gives back the same table. *)
Theorem free_allocate_chain fat n c fat' :
  entries fat ≤ 0x0FFFFFF8 → 0 ≤ n →
  allocate_chain n fat = Done (Some c, fat') → free_chain c fat' = Done (Some tt, fat).
Proof.
  intros Hs Hn0 Ha. destruct (decide (n = 0)) as [->|Hn]; [done|].
  rewrite allocate_chain_run in Ha by (done || lia).
  destruct (n <=? _) eqn:Hl; [|done]. bool_to_prop. apply (inj Done), pair_eq in Ha as [Hc <-].
  destruct (Z.to_nat n) as [|k] eqn:E; [lia|]. destruct (free_clusters fat) as [|c' r] eqn:HF; [done|].
  apply (inj Some) in Hc as ->. cbn [take]. apply free_after; [done|]. exists (drop k r).
  rewrite HF. cbn [app]. by rewrite take_drop.
Qed.

(** ** Witnesses: a table of eight entries with one chain 2, 4 *)

Definition small_fat : FatBuffer := [0x0FFFFFF8; 0x0FFFFFFF; 4; 0; 0x0FFFFFFF; 0; 0; 0].

Lemma small_chain : chain small_fat 2 [2; 4].
Proof. apply (chain_next _ 2 4); [done|done|]. by apply chain_last. Qed.

Lemma free_chain_frees_chain_witness :
  ∃ fat', free_chain 2 small_fat = Done (Some tt, fat') ∧ entries fat' = 8
    ∧ ∀ i, lookupZ fat' i = if bool_decide (i ∈ [2; 4]) then Some 0 else lookupZ small_fat i.
Proof. exact (free_chain_frees_chain small_fat 2 [2; 4] small_chain). Defined.

Lemma allocate_chain_spec_witness :
  ∃ c fat', allocate_chain 3 small_fat = Done (Some c, fat') ∧ chain fat' c [3; 5; 6].
Proof.
  destruct (allocate_chain_spec small_fat 3 ltac:(done) ltac:(done)) as (c & fat' & H & Hc & _).
  exists c, fat'. split; [exact H | exact Hc].
Defined.

Lemma free_allocate_chain_witness :
  allocate_chain 2 small_fat = Done (Some 3, insertZ 3 5 (insertZ 5 FAT_CLUSTER_EOF small_fat))
  ∧ free_chain 3 (insertZ 3 5 (insertZ 5 FAT_CLUSTER_EOF small_fat)) = Done (Some tt, small_fat).
Proof.
  split; [reflexivity|].
  apply (free_allocate_chain small_fat 2 3); [done|done|reflexivity].
Defined.
