(* ===== verification/BlockDev.v ===== *)
(** * BlockDev: what the file system uses of the rest of the kernel

    The FAT driver calls the global heap ([alloc]/[dealloc], src/src/mem/heap.rs)
    for its transfer buffers and one AHCI port (src/src/ahci/port.rs) for the
    disk.  [Platform] is that interface; [BlockDevice] states what the driver's
    theorems rely on; [RamDisk] is an implementation with a failure schedule. *)

From S2P Require Import Prelude.

Definition SECTOR_SIZE : Z := 512.

(** The operations, over the state [P] of heap and device.  [heap_alloc n] is
    [alloc(Layout::array::<u8>(n))], [None] for a null pointer; [dev_read] and
    [dev_write] are [send_command] for a READ DMA EXT and a WRITE DMA EXT of a
    run of sectors: the data read, or failure; success or failure. *)
Class Platform (P : Type) := {
  heap_alloc : Z → P → option Z * P;
  heap_free : Z → Z → P → P;
  dev_read : Z → Z → P → option (list Z) * P;
  dev_write : Z → Z → list Z → P → bool * P;
}.

(** The sector ranges on which the port addresses the sector it is asked for:
    the command carries bits 0-23 of the block address (and not 24-31), a
    16-bit count, and at least one sector. *)
Definition addressable (sector count : Z) : Prop :=
  0 ≤ sector ∧ 0 < count < 2 ^ 16 ∧ sector + count ≤ 2 ^ 24.

Class BlockDevice (P : Type) `{Platform P} := {
  (** The 512 bytes stored in each sector. *)
  disk : P → Z → list Z;
  (** The buffers that are allocated: address to size. *)
  live : P → gmap Z Z;
  (** The device answers and the heap has room. *)
  healthy : P → Prop;

  disk_length p s : length (disk p s) = 512%nat;
  disk_bytes p s : bytes (disk p s);

  alloc_disk n p s : disk (heap_alloc n p).2 s = disk p s;
  alloc_live n p a p' : heap_alloc n p = (Some a, p') →
    live p !! a = None ∧ live p' = <[a := n]> (live p);
  alloc_live_null n p p' : heap_alloc n p = (None, p') → live p' = live p;
  alloc_healthy n p : healthy p → ∃ a p', heap_alloc n p = (Some a, p') ∧ healthy p';

  free_disk a n p s : disk (heap_free a n p) s = disk p s;
  free_live a n p : live (heap_free a n p) = delete a (live p);
  free_healthy a n p : healthy p → healthy (heap_free a n p);

  read_disk sector count p s : disk (dev_read sector count p).2 s = disk p s;
  read_live sector count p : live (dev_read sector count p).2 = live p;
  read_length sector count p d p' : dev_read sector count p = (Some d, p') →
    length d = Z.to_nat (512 * count) ∧ bytes d;
  read_data sector count p d p' : addressable sector count →
    dev_read sector count p = (Some d, p') → d = concat (map (disk p) (seqZ sector count));
  read_healthy sector count p : addressable sector count → healthy p →
    ∃ d p', dev_read sector count p = (Some d, p') ∧ healthy p';

  write_live sector count d p : live (dev_write sector count d p).2 = live p;
  write_frame sector count d p s : addressable sector count →
    ¬ (sector ≤ s < sector + count) → disk (dev_write sector count d p).2 s = disk p s;
  write_data sector count d p p' s : addressable sector count →
    length d = Z.to_nat (512 * count) → bytes d → dev_write sector count d p = (true, p') →
    sector ≤ s < sector + count →
    disk p' s = take 512 (drop (Z.to_nat (512 * (s - sector))) d);
  write_healthy sector count d p : addressable sector count → healthy p →
    ∃ p', dev_write sector count d p = (true, p') ∧ healthy p';
}.

(** ** The calls the driver makes *)

(** The address of a heap buffer and the bytes in it; its size is their number. *)
Record Region := {
  reg_addr : Z;
  reg_bytes : list Z;
}.
Definition reg_size (r : Region) : Z := Z.of_nat (length (reg_bytes r)).


Section Calls.
Context {P : Type} `{Platform P}.

Definition alloc (n : Z) : kst P (option Z) := λ p, Done (heap_alloc n p).
Definition dealloc (a n : Z) : kst P unit := λ p, Done (tt, heap_free a n p).

(** [AHCIPort::read] into a buffer of [length buf] bytes: the transfer writes
    512 bytes per sector at the front of the buffer, which must be that
    long. *)
Definition port_read (sector sector_count : Z) (buf : list Z) : kst P (option (list Z)) := λ p,
  if Z.of_nat (length buf) <? 512 * sector_count then Fault Undefined
  else match dev_read sector sector_count p with
       | (Some d, p') => Done (Some (splice buf 0 d), p')
       | (None, p') => Done (None, p')
       end.

(** [AHCIPort::write_sectors] from such a buffer. *)
Definition write_sectors (sector sector_count : Z) (buf : list Z) : kst P bool := λ p,
  if sector_count =? 0 then Done (false, p)
  else if Z.of_nat (length buf) <? 512 * sector_count then Fault Undefined
  else Done (dev_write sector sector_count (take (Z.to_nat (512 * sector_count)) buf) p).
End Calls.

(** ** Runs of sectors *)

Section Runs.
Context {P : Type} `{BlockDevice P}.

(** The bytes of [n] sectors from [s] on. *)
Definition sectors (p : P) (s : Z) (n : nat) : list Z :=
  concat (map (disk p) (seqZ s (Z.of_nat n))).

Lemma length_sectors p s n : length (sectors p s n) = (512 * n)%nat.
Proof.
  unfold sectors. rewrite length_concat_512 by apply disk_length. rewrite length_seqZ. lia.
Qed.

Lemma bytes_sectors p s n : bytes (sectors p s n).
Proof.
  unfold sectors, bytes. apply Forall_concat, Forall_map, Forall_forall.
  intros x _. apply disk_bytes.
Qed.

Lemma sectors_ext p p' s n :
  (∀ x, s ≤ x < s + Z.of_nat n → disk p' x = disk p x) → sectors p' s n = sectors p s n.
Proof.
  intros Hx. unfold sectors. f_equal. apply map_ext_in. intros x Hin.
  apply Hx. apply list_elem_of_In, elem_of_seqZ in Hin. lia.
Qed.

Lemma sectors_S p s n : sectors p s (S n) = disk p s ++ sectors p (s + 1) n.
Proof.
  unfold sectors. rewrite seqZ_cons by lia. cbn [map concat]. do 3 f_equal. f_equal; lia.
Qed.

(** A run is determined by its sectors' contents. *)
Lemma sectors_of_chunks p s n d :
  length d = (512 * n)%nat →
  (∀ x, s ≤ x < s + Z.of_nat n → disk p x = take 512 (drop (Z.to_nat (512 * (x - s))) d)) →
  sectors p s n = d.
Proof.
  revert s d. induction n as [|n IH]; intros s d Hl Hd.
  { destruct d; [done | simpl in Hl; lia]. }
  rewrite sectors_S, (Hd s) by lia.
  rewrite (IH (s + 1) (drop 512 d)).
  - rewrite Z.sub_diag. apply (take_drop 512).
  - rewrite length_drop. lia.
  - intros x Hx. rewrite Hd by lia. rewrite drop_drop. f_equal. f_equal. lia.
Qed.
End Runs.

(** ** A RAM disk with a failure schedule

    Every call that can fail takes one element of [rd_faults]: [true] makes it
    fail.  Writes store bytes; sectors that were never written read as zeros. *)
Record RamDisk := {
  rd_sectors : gmap Z (list Z);
  rd_live : gmap Z Z;
  rd_faults : list bool;
}.

Definition sector_norm (l : list Z) : list Z :=
  take 512 (map (λ b, b mod 256) l ++ replicate 512 0).

Definition rd_disk (p : RamDisk) (s : Z) : list Z := sector_norm (default [] (rd_sectors p !! s)).

(** The next scheduled outcome, and the device after it. *)
Definition rd_tick (p : RamDisk) : bool * RamDisk :=
  (default false (head (rd_faults p)),
   {| rd_sectors := rd_sectors p; rd_live := rd_live p; rd_faults := tail (rd_faults p) |}).

Definition rd_set_live (m : gmap Z Z) (p : RamDisk) : RamDisk :=
  {| rd_sectors := rd_sectors p; rd_live := m; rd_faults := rd_faults p |}.

(** Stores one 512-byte chunk per sector. *)
Fixpoint rd_store (n : nat) (sector : Z) (d : list Z) (m : gmap Z (list Z)) : gmap Z (list Z) :=
  match n with
  | O => m
  | S n => <[sector := take 512 d]> (rd_store n (sector + 1) (drop 512 d) m)
  end.

#[global] Instance RamDisk_platform : Platform RamDisk := {
  heap_alloc n p :=
    let '(fail, p) := rd_tick p in
    if fail then (None, p)
    else let a := fresh (dom (rd_live p)) in (Some a, rd_set_live (<[a := n]> (rd_live p)) p);
  heap_free a n p := rd_set_live (delete a (rd_live p)) p;
  dev_read sector count p :=
    let '(fail, p) := rd_tick p in
    if fail || (count =? 0) then (None, p)
    else (Some (concat (map (rd_disk p) (seqZ sector count))), p);
  dev_write sector count d p :=
    let '(fail, p) := rd_tick p in
    if fail then (false, p)
    else (true, {| rd_sectors := rd_store (Z.to_nat count) sector d (rd_sectors p);
                   rd_live := rd_live p; rd_faults := rd_faults p |});
}.

Definition rd_healthy (p : RamDisk) : Prop := Forall (λ b, b = false) (rd_faults p).

Lemma rd_healthy_tick p :
  rd_healthy p → (rd_tick p).1 = false ∧ rd_healthy (rd_tick p).2.
Proof.
  unfold rd_healthy, rd_tick. destruct (rd_faults p) as [|b l]; simpl; [done|].
  inversion 1; subst. done.
Qed.

Lemma length_sector_norm l : length (sector_norm l) = 512%nat.
Proof. unfold sector_norm. rewrite length_take, length_app, length_replicate. lia. Qed.

Lemma bytes_sector_norm l : bytes (sector_norm l).
Proof.
  apply Forall_take, Forall_app_2.
  - apply Forall_map, Forall_forall. intros b _. apply Z.mod_pos_bound. lia.
  - apply Forall_replicate. unfold is_byte. lia.
Qed.

Lemma sector_norm_id l : bytes l → length l = 512%nat → sector_norm l = l.
Proof.
  intros Hb Hl. unfold sector_norm. rewrite take_app_length' by (by rewrite length_map).
  rewrite <-(map_id l) at 2. apply map_ext_in. intros b Hin.
  unfold bytes in Hb. rewrite Forall_forall in Hb. apply Z.mod_small, Hb. by apply list_elem_of_In.
Qed.

Lemma rd_store_other n sector d m s :
  ¬ (sector ≤ s < sector + Z.of_nat n) → rd_store n sector d m !! s = m !! s.
Proof.
  revert sector d. induction n as [|n IH]; intros sector d Hs; simpl; [done|].
  rewrite lookup_insert_ne by lia. apply IH. lia.
Qed.

Lemma rd_store_in n sector d m s :
  sector ≤ s < sector + Z.of_nat n →
  rd_store n sector d m !! s = Some (take 512 (drop (Z.to_nat (512 * (s - sector))) d)).
Proof.
  revert sector d. induction n as [|n IH]; intros sector d Hs; [lia|]. simpl.
  destruct (decide (sector = s)) as [->|].
  - rewrite lookup_insert_eq, Z.sub_diag. done.
  - rewrite lookup_insert_ne by done. rewrite IH by lia. rewrite drop_drop. do 3 f_equal. lia.
Qed.

#[global] Program Instance RamDisk_device : BlockDevice RamDisk := {
  disk := rd_disk;
  live := rd_live;
  healthy := rd_healthy;
}.
Next Obligation. intros. apply length_sector_norm. Qed.
Next Obligation. intros. apply bytes_sector_norm. Qed.
Next Obligation. intros n p s. cbn. by destruct (default false _). Qed.
Next Obligation.
  intros n p a p' E. cbn in E. destruct (default false _); simplify_eq. split; [|done].
  apply not_elem_of_dom, is_fresh.
Qed.
Next Obligation. intros n p p' E. cbn in E. destruct (default false _); by simplify_eq. Qed.
Next Obligation.
  intros n p [Ht Hh]%rd_healthy_tick. cbn in *. rewrite Ht. by eexists _, _.
Qed.
Next Obligation. done. Qed.
Next Obligation. done. Qed.
Next Obligation. done. Qed.
Next Obligation. intros. cbn. by destruct (_ || _). Qed.
Next Obligation. intros. cbn. by destruct (_ || _). Qed.
Next Obligation.
  intros sector count p d p' E. cbn in E. destruct (_ || _); simplify_eq. split.
  - rewrite length_concat_512 by (intros; apply length_sector_norm). rewrite length_seqZ. lia.
  - apply Forall_concat, Forall_map, Forall_forall. intros. apply bytes_sector_norm.
Qed.
Next Obligation. intros sector count p d p' _ E. cbn in E. destruct (_ || _); by simplify_eq. Qed.
Next Obligation.
  intros sector count p (_ & Hc & _) [Ht Hh]%rd_healthy_tick. cbn in *. rewrite Ht.
  rewrite (proj2 (Z.eqb_neq _ _)) by lia. by eexists _, _.
Qed.
Next Obligation. intros. cbn. by destruct (default false _). Qed.
Next Obligation.
  intros sector count d p s (_ & Hc & _) Hs. cbn. destruct (default false _); [done|]. cbn.
  unfold rd_disk. cbn. rewrite rd_store_other by lia. done.
Qed.
Next Obligation.
  intros sector count d p p' s (_ & Hc & _) Hl Hb E Hs. cbn in E.
  destruct (default false _); simplify_eq. unfold rd_disk. cbn. rewrite rd_store_in by lia.
  apply sector_norm_id; [by apply Forall_take, Forall_drop|]. rewrite length_take, length_drop. lia.
Qed.
Next Obligation.
  intros sector count d p _ [Ht Hh]%rd_healthy_tick. cbn in *. rewrite Ht. by eexists.
Qed.
