(* ===== verification/FatFs.v ===== *)
(** * FatFs: the FAT driver (FATFileSystem in src/src/fs/fat_fs.rs)

    Every method of [FATFileSystem], over a state that holds the platform (heap
    and port), the in-memory table and the two boot-sector records.  Methods
    that return [Option] return an [option] here and keep the state they leave
    behind; [?] is [let?].  Loops that follow cluster chains take their number
    of iterations from [fuel]: a chain with a cycle makes the source loop
    forever, which shows as [Fault Hang].

    [Layout::array::<u8>(n).unwrap()] only fails for more than [isize::MAX]
    bytes, which none of the sizes below reaches (at most 2^48). *)

From S2P Require Import Prelude Text FatNames FatTable BlockDev.

(** Identifies where a directory entry is stored on disk. *)
Record DirectoryEntryLocation := {
  loc_cluster : Z;
  loc_index : Z;
  loc_offset : Z;
}.

Record LocatedDirectoryEntry := {
  led_entry : DirectoryEntry;
  led_location : DirectoryEntryLocation;
  led_name : list Z;
  led_lfn_locations : list DirectoryEntryLocation;
}.

(** The bytes behind [FatBuffer.fat]: the entries, then the fewer than four
    bytes that make no entry. *)
Record FATFileSystem (P : Type) := {
  port : P;
  fat : FatBuffer;
  fat_rest : list Z;
  bs : FatBootSector;
  bs_32 : Fat32ExtendedBootSector;
}.
Arguments port {P} _.
Arguments fat {P} _.
Arguments fat_rest {P} _.
Arguments bs {P} _.
Arguments bs_32 {P} _.

Definition set_port {P} (p : P) (s : FATFileSystem P) : FATFileSystem P :=
  {| port := p; fat := fat s; fat_rest := fat_rest s; bs := bs s; bs_32 := bs_32 s |}.
Definition set_fat {P} (f : FatBuffer) (s : FATFileSystem P) : FATFileSystem P :=
  {| port := port s; fat := f; fat_rest := fat_rest s; bs := bs s; bs_32 := bs_32 s |}.

(** A directory entry with the given name and attributes and all else zero. *)
Definition blank_entry (name : list Z) (attributes high low : Z) : DirectoryEntry := {|
  de_name := name; de_attributes := attributes; de_reserved := 0;
  de_creation_time_centiseconds := 0; de_creation_time := 0; de_creation_date := 0;
  de_last_accessed_date := 0; de_first_cluster_high := high; de_modified_time := 0;
  de_modified_date := 0; de_first_cluster_low := low; de_size := 0 |}.

Definition dot_name (parent : bool) : list Z :=
  let name := <[0%nat := 46]> (replicate 11 32) in
  if parent then <[1%nat := 46]> name else name.
Definition is_dot_name (name : list Z) : bool :=
  bool_decide (name = dot_name false) || bool_decide (name = dot_name true).

Definition directory_entry (name : list Z) (cluster : Z) : DirectoryEntry :=
  set_cluster cluster (blank_entry name 0x10 0 0).

(** ** Decoding directory slots *)

(** The variables of the loop in [parse_directory_entries]. *)
Record lfn_state := {
  lfn_chunks : list (list Z);
  lfn_locations : list DirectoryEntryLocation;
  lfn_expected_sequence : Z;
  lfn_checksum_value : Z;
}.

Definition lfn_reset (st : lfn_state) : lfn_state := {|
  lfn_chunks := []; lfn_locations := []; lfn_expected_sequence := 0;
  lfn_checksum_value := lfn_checksum_value st |}.

(** The branch for a long filename entry. *)
Definition lfn_step (st : lfn_state) (entry : DirectoryEntry) (location : DirectoryEntryLocation)
  : lfn_state :=
  let lfn := from_directory_entry entry in
  let sequence := lfn_sequence lfn in
  let st :=
    if lfn_is_last lfn
    then {| lfn_chunks := []; lfn_locations := [];
            lfn_checksum_value := lfn_entry_checksum lfn;
            lfn_expected_sequence :=
              if (1 <=? sequence) && (sequence <=? Z.of_nat LFN_MAX_ENTRIES) then sequence else 0 |}
    else st in
  if (lfn_expected_sequence st =? 0)
     || negb (sequence =? lfn_expected_sequence st)
     || negb (lfn_entry_checksum lfn =? lfn_checksum_value st)
  then lfn_reset st
  else {| lfn_chunks := lfn_chunks st ++ [name_units lfn];
          lfn_locations := lfn_locations st ++ [location];
          lfn_expected_sequence := lfn_expected_sequence st - 1;
          lfn_checksum_value := lfn_checksum_value st |}.

Section Parse.
Context `{UnicodeCase}.

(** The branch for a short entry. *)
Definition short_step (st : lfn_state) (entry : DirectoryEntry)
    (location : DirectoryEntryLocation) : LocatedDirectoryEntry :=
  let short_name := de_name entry in
  let lfn_complete :=
    (lfn_expected_sequence st =? 0) && negb (bool_decide (lfn_chunks st = []))
    && (lfn_checksum_value st =? lfn_checksum short_name) in
  let long_name :=
    if lfn_complete then decode_long_filename (concat (rev (lfn_chunks st))) else None in
  let '(name, locations) :=
    match long_name with
    | Some name => (name, lfn_locations st)
    | None => (get_filename_from_fat short_name, [])
    end in
  {| led_entry := entry; led_location := location; led_name := name;
     led_lfn_locations := locations |}.

Fixpoint parse_loop (slots : list (DirectoryEntry * DirectoryEntryLocation)) (st : lfn_state)
  : list LocatedDirectoryEntry :=
  match slots with
  | [] => []
  | (entry, location) :: rest =>
      if is_end_marker entry then []
      else if is_deleted entry then parse_loop rest (lfn_reset st)
      else if is_long_filename entry then parse_loop rest (lfn_step st entry location)
      else if is_volume_label entry then parse_loop rest (lfn_reset st)
      else short_step st entry location :: parse_loop rest (lfn_reset st)
  end.

Definition lfn_init : lfn_state := {|
  lfn_chunks := []; lfn_locations := []; lfn_expected_sequence := 0; lfn_checksum_value := 0 |}.

Definition parse_directory_entries (slots : list (DirectoryEntry * DirectoryEntryLocation))
  : list LocatedDirectoryEntry := parse_loop slots lfn_init.

Definition entry_matches (name : list Z) (candidate : LocatedDirectoryEntry) : bool :=
  eq_ignore_ascii_case (led_name candidate) name
  || eq_ignore_ascii_case (get_filename_from_fat (de_name (led_entry candidate))) name.

Definition find_parsed_entry (parsed : list LocatedDirectoryEntry) (name : list Z)
  : option LocatedDirectoryEntry := find (entry_matches name) parsed.

(** The long filename entries of a name, in on-disk order: the last chunk
    first ([for chunk_index in (0..chunk_count).rev()]). *)
Definition lfn_entries_of (units : list Z) (checksum : Z) : list LongDirectoryEntry :=
  let chunk_count := ((length units + LFN_UNITS_PER_ENTRY - 1) / LFN_UNITS_PER_ENTRY)%nat in
  map (λ chunk_index,
    let start := (chunk_index * LFN_UNITS_PER_ENTRY)%nat in
    let stop := Nat.min (start + LFN_UNITS_PER_ENTRY) (length units) in
    LongDirectoryEntry_new (wrap 8 (Z.of_nat (chunk_index + 1)))
      (chunk_index =? chunk_count - 1)%nat checksum (take (stop - start) (drop start units)))
    (rev (seq 0 chunk_count)).

Definition prepare_name_entries (parsed : list LocatedDirectoryEntry) (filename : list Z)
  : option (list Z * list LongDirectoryEntry) :=
  match get_fat_filename filename with
  | Some short_name => Some (short_name, [])
  | None =>
      units ← encode_long_filename filename;
      let taken := map (λ e, de_name (led_entry e)) parsed in
      short_name ← generate_short_alias filename taken;
      Some (short_name, lfn_entries_of units (lfn_checksum short_name))
  end.
End Parse.

(** The free run kept by the first loop of [allocate_directory_slots]: [inr]
    when it reached [needed] slots. *)
Fixpoint find_free_run (needed : nat) (slots : list (DirectoryEntry * DirectoryEntryLocation))
    (past_end : bool) (run : list DirectoryEntryLocation)
  : list DirectoryEntryLocation + list DirectoryEntryLocation :=
  match slots with
  | [] => inl run
  | (entry, location) :: rest =>
      let past_end := past_end || is_end_marker entry in
      if past_end || is_deleted entry then
        let run := run ++ [location] in
        if (length run =? needed)%nat then inr run else find_free_run needed rest past_end run
      else find_free_run needed rest past_end []
  end.

(** The inner [for] of the second loop: pushes the slots of a new cluster until
    the run is long enough. *)
Fixpoint push_slots (needed : nat) (new_cluster : Z) (indices : list nat)
    (run : list DirectoryEntryLocation) : list DirectoryEntryLocation :=
  match indices with
  | [] => run
  | index :: rest =>
      let run := run ++ [{| loc_cluster := new_cluster; loc_index := Z.of_nat index;
                            loc_offset := Z.of_nat index * entry_size |}] in
      if (length run =? needed)%nat then run else push_slots needed new_cluster rest run
  end.

(** The slots of one directory cluster, with their locations. *)
Definition slots_of_cluster (cluster : Z) (bytes : list Z)
  : list (DirectoryEntry * DirectoryEntryLocation) :=
  map (λ index, (entry_of_bytes (field (32 * index) 32 bytes),
                 {| loc_cluster := cluster; loc_index := Z.of_nat index;
                    loc_offset := Z.of_nat index * entry_size |}))
    (seq 0 (length bytes / 32)).

(** ** The driver *)

Section Driver.
Context {P : Type} `{Platform P} `{UnicodeCase} (fuel : nat).

Abbreviation M := (kst (FATFileSystem P)).

(** Calls into the heap, the port and the table. *)
Definition on_port {A} (m : kst P A) : M A := zoom port set_port m.
Definition on_fat {A} (m : kst FatBuffer A) : M A := zoom fat set_fat m.
Definition fat_next (cluster : Z) : M (option Z) := kgets (λ s, next_cluster (fat s) cluster).

(** *** Geometry *)

Definition cluster_size (s : FATFileSystem P) : Z :=
  bytes_per_sector (bs s) * sectors_per_cluster (bs s).

Definition sectors_per_fat (s : FATFileSystem P) : Z :=
  if negb (table_size_16 (bs s) =? 0) then table_size_16 (bs s) else table_size (bs_32 s).

Definition fat_start_sector (s : FATFileSystem P) (table_index : Z) : Z :=
  reserved_sector_count (bs s) + table_index * sectors_per_fat s.

(** [cluster - 2] panics for clusters 0 and 1. *)
Definition get_sector (cluster : Z) : M Z :=
  let* s := kget in
  let first_data_sector :=
    reserved_sector_count (bs s) + table_count (bs s) * table_size (bs_32 s) in
  let* n := usub cluster 2 in
  kret (first_data_sector + n * sectors_per_cluster (bs s)).

(** [size + cluster_size - 1] does not overflow ([size] comes from a 32-bit
    field or is tested against [u32::MAX]); a zero cluster size divides by
    zero. *)
Definition clusters_for_size (size : Z) : M Z :=
  if size =? 0 then kret 0
  else
    let* s := kget in
    if cluster_size s =? 0 then kfault Panic
    else kret ((size + cluster_size s - 1) / cluster_size s).

(** *** Clusters *)

Definition deallocate_region (r : Region) : M unit := on_port (dealloc (reg_addr r) (reg_size r)).

Definition read_cluster (cluster : Z) : M (option Region) :=
  let* dir_sector := get_sector cluster in
  let* s := kget in
  let num_sectors := sectors_per_cluster (bs s) in
  let buffer_size := bytes_per_sector (bs s) * num_sectors in
  let* buffer := on_port (alloc buffer_size) in
  match buffer with
  | None => kfault Panic
  | Some buffer =>
      let zeroed := replicate (Z.to_nat buffer_size) 0 in
      let* r := on_port (port_read dir_sector num_sectors zeroed) in
      match r with
      | None => on_port (dealloc buffer buffer_size) ;;* kret None
      | Some data => kret (Some {| reg_addr := buffer; reg_bytes := data |})
      end
  end.

Definition write_cluster (cluster : Z) (buffer : list Z) : M bool :=
  let* sector := get_sector cluster in
  let* s := kget in
  on_port (write_sectors sector (sectors_per_cluster (bs s)) buffer).

Definition read_directory_internal (dir_cluster : Z) : M (option Region) := read_cluster dir_cluster.

(** Allocates a zeroed cluster-sized buffer, fills it and writes it out:
    [clear_cluster], and [initialize_directory_cluster] with its two
    entries. *)
Definition write_new_cluster (cluster : Z) (fill : list Z → list Z) : M bool :=
  let* s := kget in
  let size := cluster_size s in
  let* buffer := on_port (alloc size) in
  match buffer with
  | None => kret false
  | Some buffer =>
      let contents := fill (replicate (Z.to_nat size) 0) in
      let* status := write_cluster cluster contents in
      on_port (dealloc buffer size) ;;*
      kret status
  end.

Definition clear_cluster (cluster : Z) : M bool := write_new_cluster cluster id.

(** The two 32-byte copies stay inside the buffer only when a cluster has at
    least 64 bytes. *)
Definition initialize_directory_cluster (cluster parent_cluster : Z) : M bool :=
  let* s := kget in
  if cluster_size s <? 2 * entry_size then
    let* buffer := on_port (alloc (cluster_size s)) in
    match buffer with None => kret false | Some _ => kfault Undefined end
  else
    let dot := directory_entry (dot_name false) cluster in
    let dot_dot := directory_entry (dot_name true) parent_cluster in
    write_new_cluster cluster
      (λ b, splice (splice b 0 (entry_bytes dot)) (Z.to_nat entry_size) (entry_bytes dot_dot)).

(** The bytes at [FatBuffer::as_ptr]. *)
Definition fat_bytes (s : FATFileSystem P) : list Z :=
  concat (map (le_bytes 4) (fat s)) ++ fat_rest s.

(** [for table_index in i..i + n], writing every copy of the table. *)
Fixpoint persist_tables (n : nat) (table_index : Z) : M (option unit) :=
  match n with
  | O => kret (Some tt)
  | S n =>
      let* s := kget in
      let* status :=
        on_port (write_sectors (fat_start_sector s table_index) (sectors_per_fat s) (fat_bytes s)) in
      if status then persist_tables n (table_index + 1) else kret None
  end.
Definition persist_fat : M (option unit) :=
  let* s := kget in persist_tables (Z.to_nat (table_count (bs s))) 0.

(** *** Directory entries on disk *)

(** The test both accesses start with: the end of the entry in its cluster. *)
Definition location_end (location : DirectoryEntryLocation) : option Z :=
  expected_offset ← checked_mul (loc_index location) entry_size;
  if negb (expected_offset =? loc_offset location) then None
  else checked_add (loc_offset location) entry_size.

Definition persist_directory_entry (location : DirectoryEntryLocation) (entry : DirectoryEntry)
  : M (option unit) :=
  let? entry_end := kret (location_end location) in
  let? region := read_cluster (loc_cluster location) in
  if reg_size region <? entry_end then deallocate_region region ;;* kret None
  else
    let contents := splice (reg_bytes region) (Z.to_nat (loc_offset location)) (entry_bytes entry) in
    let* status := write_cluster (loc_cluster location) contents in
    deallocate_region region ;;*
    kret (if status then Some tt else None).

Definition read_directory_entry (location : DirectoryEntryLocation) : M (option DirectoryEntry) :=
  let? entry_end := kret (location_end location) in
  let? region := read_cluster (loc_cluster location) in
  if reg_size region <? entry_end then deallocate_region region ;;* kret None
  else
    let entry := entry_of_bytes (field (Z.to_nat (loc_offset location)) 32 (reg_bytes region)) in
    deallocate_region region ;;*
    kret (Some entry).

(** *** Directories *)

(** [String::from("root")]. *)
Definition root_name : list Z := [114; 111; 111; 116].

Definition root : M DirectoryEntry :=
  let* s := kget in
  let cluster := root_cluster (bs_32 s) in
  let* name := or_panic (get_fat_filename root_name) in
  let cluster_high := wrap 16 (Z.land (Z.shiftr cluster 16) 0xFFF) in
  let cluster_low := wrap 16 (Z.land cluster 0xFFFF) in
  kret (blank_entry name 0x10 cluster_high cluster_low).

Definition directory_cluster (dir : DirectoryEntry) : M Z :=
  let cluster := get_cluster dir in
  if cluster =? 0 then let* r := root in kret (get_cluster r) else kret cluster.

Abbreviation slots_t := (list (DirectoryEntry * DirectoryEntryLocation)).

Definition load_slots_body (x : Z * slots_t) : M (Z * slots_t + option (slots_t * Z)) :=
  let '(cluster, slots) := x in
  let* region := read_directory_internal cluster in
  match region with
  | None => kret (inr None)
  | Some region =>
      let slots := slots ++ slots_of_cluster cluster (reg_bytes region) in
      deallocate_region region ;;*
      let* next := fat_next cluster in
      match next with
      | Some next => kret (inl (next, slots))
      | None => kret (inr (Some (slots, cluster)))
      end
  end.

Definition load_directory_slots (first_cluster : Z) : M (option (slots_t * Z)) :=
  loopM fuel load_slots_body (first_cluster, []).

Definition list_directory (dir : DirectoryEntry)
  : M (list LocatedDirectoryEntry * list LocatedDirectoryEntry) :=
  let* cluster := directory_cluster dir in
  let* r := load_directory_slots cluster in
  match r with
  | None => kret ([], [])
  | Some (slots, _) =>
      let parsed := parse_directory_entries slots in
      kret (List.filter (λ p, negb (is_directory (led_entry p)) && is_regular_file (led_entry p)) parsed,
            List.filter (λ p, is_directory (led_entry p)) parsed)
  end.

Definition find_entry_by_name (dir : DirectoryEntry) (name : list Z)
  : M (option LocatedDirectoryEntry) :=
  let* cluster := directory_cluster dir in
  let? r := load_directory_slots cluster in
  kret (find_parsed_entry (parse_directory_entries r.1) name).

Definition append_directory_cluster (last_cluster : Z) : M (option Z) :=
  let? new_cluster := on_fat (allocate_chain 1) in
  let* r := on_fat (set_entry last_cluster (wrap 32 new_cluster)) in
  match r with
  | None => on_fat (free_chain new_cluster) ;;* kret None
  | Some _ =>
      let* persisted := persist_fat in
      let* ok := match persisted with
                 | None => kret false
                 | Some _ => clear_cluster new_cluster
                 end in
      if ok then kret (Some new_cluster)
      else
        on_fat (set_entry last_cluster FAT_CLUSTER_EOF) ;;*
        on_fat (free_chain new_cluster) ;;*
        persist_fat ;;*
        kret None
  end.

Definition extend_body (needed : nat) (x : Z * list DirectoryEntryLocation)
  : M (Z * list DirectoryEntryLocation + option (list DirectoryEntryLocation)) :=
  let '(last_cluster, run) := x in
  if (length run <? needed)%nat then
    let* s := kget in
    let entries_per_cluster := cluster_size s / entry_size in
    let* r := append_directory_cluster last_cluster in
    match r with
    | None => kret (inr None)
    | Some new_cluster =>
        kret (inl (new_cluster,
                   push_slots needed new_cluster (seq 0 (Z.to_nat entries_per_cluster)) run))
    end
  else kret (inr (Some run)).

Definition allocate_directory_slots (dir_cluster : Z) (needed : nat)
  : M (option (list DirectoryEntryLocation)) :=
  let? r := load_directory_slots dir_cluster in
  let '(slots, last_cluster) := r in
  match find_free_run needed slots false [] with
  | inr run => kret (Some run)
  | inl run => loopM fuel (extend_body needed) (last_cluster, run)
  end.

(** [for (lfn, location) in lfn_entries.iter().zip(&locations)]. *)
Fixpoint persist_entries (l : list (DirectoryEntry * DirectoryEntryLocation)) : M (option unit) :=
  match l with
  | [] => kret (Some tt)
  | (entry, location) :: r => let? _ := persist_directory_entry location entry in persist_entries r
  end.

Definition persist_new_entry (dir_cluster : Z) (lfn_entries : list LongDirectoryEntry)
    (entry : DirectoryEntry)
  : M (option (DirectoryEntryLocation * list DirectoryEntryLocation)) :=
  let? locations := allocate_directory_slots dir_cluster (length lfn_entries + 1) in
  let? _ := persist_entries (zip (map to_directory_entry lfn_entries) locations) in
  let? short_location := kret (last locations) in
  let? _ := persist_directory_entry short_location entry in
  kret (Some (short_location, take (length locations - 1) locations)).

Definition create_file (dir : DirectoryEntry) (filename : list Z)
  : M (option LocatedDirectoryEntry) :=
  let* dir_cluster := directory_cluster dir in
  let? r := load_directory_slots dir_cluster in
  let parsed := parse_directory_entries r.1 in
  match find_parsed_entry parsed filename with
  | Some _ => kret None
  | None =>
      let? names := kret (prepare_name_entries parsed filename) in
      let '(short_name, lfn_entries) := names in
      let entry := blank_entry short_name 0x20 0 0 in
      let? locs := persist_new_entry dir_cluster lfn_entries entry in
      let name := if bool_decide (length lfn_entries = 0%nat)
                  then get_filename_from_fat short_name else filename in
      kret (Some {| led_entry := entry; led_location := locs.1; led_name := name;
                    led_lfn_locations := locs.2 |})
  end.

Definition rollback_allocated_chain (cluster : Z) : M unit :=
  on_fat (free_chain cluster) ;;* persist_fat ;;* kret tt.

Definition create_directory (parent : DirectoryEntry) (name : list Z) : M (option unit) :=
  let* parent_cluster := directory_cluster parent in
  let? r := load_directory_slots parent_cluster in
  let parsed := parse_directory_entries r.1 in
  match find_parsed_entry parsed name with
  | Some _ => kret None
  | None =>
      let? names := kret (prepare_name_entries parsed name) in
      let '(short_name, lfn_entries) := names in
      let? cluster := on_fat (allocate_chain 1) in
      let* ok := initialize_directory_cluster cluster parent_cluster in
      if negb ok then on_fat (free_chain cluster) ;;* kret None
      else
        let* persisted := persist_fat in
        match persisted with
        | None => rollback_allocated_chain cluster ;;* kret None
        | Some _ =>
            let entry := directory_entry short_name cluster in
            let* r := persist_new_entry parent_cluster lfn_entries entry in
            match r with
            | None => rollback_allocated_chain cluster ;;* kret None
            | Some _ => kret (Some tt)
            end
        end
  end.

Fixpoint delete_lfn_entries (l : list DirectoryEntryLocation) : M (option unit) :=
  match l with
  | [] => kret (Some tt)
  | location :: r =>
      let? lfn_entry := read_directory_entry location in
      let? _ := persist_directory_entry location (mark_deleted lfn_entry) in
      delete_lfn_entries r
  end.

Definition delete_directory_entry (located : LocatedDirectoryEntry) : M (option unit) :=
  let? _ := delete_lfn_entries (led_lfn_locations located) in
  let first_cluster := get_cluster (led_entry located) in
  let deleted_entry := mark_deleted (led_entry located) in
  let? _ := persist_directory_entry (led_location located) deleted_entry in
  if first_cluster =? 0 then kret (Some tt)
  else
    let? _ := on_fat (free_chain first_cluster) in
    persist_fat ;;* kret (Some tt).

Definition unlink_file (parent : DirectoryEntry) (name : list Z) : M (option unit) :=
  let? file := find_entry_by_name parent name in
  if negb (is_regular_file (led_entry file)) then kret None
  else delete_directory_entry file.

Definition directory_is_empty (dir : DirectoryEntry) : M (option bool) :=
  let* cluster := directory_cluster dir in
  let? r := load_directory_slots cluster in
  kret (Some (forallb (λ e, is_dot_name (de_name (led_entry e))) (parse_directory_entries r.1))).

Definition remove_directory (parent : DirectoryEntry) (name : list Z) : M (option unit) :=
  let? directory := find_entry_by_name parent name in
  if negb (is_directory (led_entry directory))
     || (get_cluster (led_entry directory) =? 0)
     || is_dot_name (de_name (led_entry directory))
  then kret None
  else
    let? empty := directory_is_empty (led_entry directory) in
    if negb empty then kret None else delete_directory_entry directory.

(** *** File contents *)

Definition read_file_body (file_buffer filesize : Z) (x : Z * list Z)
  : M (Z * list Z + option (list Z)) :=
  let '(cluster, acc) := x in
  let bytes_read := Z.of_nat (length acc) in
  if bytes_read <? filesize then
    let* r := read_cluster cluster in
    match r with
    | None => on_port (dealloc file_buffer filesize) ;;* kret (inr None)
    | Some region =>
        let to_append := Z.min (reg_size region) (filesize - bytes_read) in
        let acc := acc ++ take (Z.to_nat to_append) (reg_bytes region) in
        deallocate_region region ;;*
        if Z.of_nat (length acc) =? filesize then kret (inr (Some acc))
        else
          let* next := fat_next cluster in
          match next with
          | Some n => kret (inl (n, acc))
          | None => on_port (dealloc file_buffer filesize) ;;* kret (inr None)
          end
    end
  else kret (inr (Some acc)).

Definition read_file (file : DirectoryEntry) : M (option Region) :=
  if negb (de_attributes file =? 32) then kret None
  else
    let filesize := de_size file in
    if filesize =? 0 then kret (Some {| reg_addr := 0; reg_bytes := [] |})
    else
      let? file_buffer := on_port (alloc filesize) in
      let cluster := get_cluster file in
      if cluster =? 0 then on_port (dealloc file_buffer filesize) ;;* kret None
      else
        let? contents := loopM fuel (read_file_body file_buffer filesize) (cluster, []) in
        kret (Some {| reg_addr := file_buffer; reg_bytes := contents |}).

(** [while cluster_offset >= cluster_size]: the cluster that holds a file
    offset, and the offset in it. *)
Definition seek_body (size : Z) (x : Z * Z) : M (Z * Z + option (Z * Z)) :=
  let '(cluster, cluster_offset) := x in
  if size <=? cluster_offset then
    let* next := fat_next cluster in
    match next with
    | None => kret (inr None)
    | Some next => kret (inl (next, cluster_offset - size))
    end
  else kret (inr (Some (cluster, cluster_offset))).
Definition seek (size cluster offset : Z) : M (option (Z * Z)) :=
  loopM fuel (seek_body size) (cluster, offset).

(** The copy loop of [write_existing_file]; [x] is the cluster, the offset in
    it and the number of bytes written. *)
Definition write_body (size : Z) (data : list Z) (x : Z * Z * Z)
  : M (Z * Z * Z + option Z) :=
  let '(cluster, cluster_offset, bytes_written) := x in
  let len := Z.of_nat (length data) in
  if bytes_written <? len then
    let* r := read_cluster cluster in
    match r with
    | None => kret (inr None)
    | Some region =>
        let writable_bytes := Z.min (len - bytes_written) (size - cluster_offset) in
        let chunk := take (Z.to_nat writable_bytes) (drop (Z.to_nat bytes_written) data) in
        let contents := splice (reg_bytes region) (Z.to_nat cluster_offset) chunk in
        let* status := write_cluster cluster contents in
        deallocate_region region ;;*
        if negb status then kret (inr (if bytes_written =? 0 then None else Some bytes_written))
        else
          let bytes_written := bytes_written + writable_bytes in
          if bytes_written =? len then kret (inr (Some bytes_written))
          else
            let* next := fat_next cluster in
            match next with
            | None => kret (inr None)
            | Some next => kret (inl (next, 0, bytes_written))
            end
    end
  else kret (inr (Some bytes_written)).

Definition write_existing_file (file : DirectoryEntry) (offset : Z) (data : list Z)
  : M (option Z) :=
  if negb (de_attributes file =? 32) then kret None
  else
    let filesize := de_size file in
    let? end_ := kret (checked_add offset (Z.of_nat (length data))) in
    if filesize <? end_ then kret None
    else if bool_decide (data = []) then kret (Some 0)
    else
      let* s := kget in
      let cluster := get_cluster file in
      if cluster =? 0 then kret None
      else
        let? pos := seek (cluster_size s) cluster offset in
        loopM fuel (write_body (cluster_size s) data) (pos, 0).

(** The loop of [zero_file_range]. *)
Definition zero_body (cluster_size size : Z) (x : Z * Z * Z) : M (Z * Z * Z + option unit) :=
  let '(cluster, cluster_offset, bytes_zeroed) := x in
  if bytes_zeroed <? size then
    let* r := read_cluster cluster in
    match r with
    | None => kret (inr None)
    | Some region =>
        let zero_size := Z.min (size - bytes_zeroed) (cluster_size - cluster_offset) in
        let contents :=
          splice (reg_bytes region) (Z.to_nat cluster_offset) (replicate (Z.to_nat zero_size) 0) in
        let* status := write_cluster cluster contents in
        deallocate_region region ;;*
        if negb status then kret (inr None)
        else
          let bytes_zeroed := bytes_zeroed + zero_size in
          if bytes_zeroed =? size then kret (inr (Some tt))
          else
            let* next := fat_next cluster in
            match next with
            | None => kret (inr None)
            | Some next => kret (inl (next, 0, bytes_zeroed))
            end
    end
  else kret (inr (Some tt)).

Definition zero_file_range (first_cluster offset size : Z) : M (option unit) :=
  if size =? 0 then kret (Some tt)
  else
    let* s := kget in
    let? pos := seek (cluster_size s) first_cluster offset in
    loopM fuel (zero_body (cluster_size s) size) (pos, 0).

(** *** Resizing *)

Fixpoint cluster_at (first_cluster : Z) (index : nat) : M (option Z) :=
  match index with
  | O => kret (Some first_cluster)
  | S n => let? next := fat_next first_cluster in cluster_at next n
  end.

(** The functions that take [&mut DirectoryEntry] return it with their
    result. *)
Definition with_entry {A} (file : DirectoryEntry) (m : M A) : M (A * DirectoryEntry) :=
  let* r := m in kret (r, file).

Definition shrink_chain (first_cluster new_size : Z) : M (option unit) :=
  let* s := kget in
  if cluster_size s =? 0 then kfault Panic
  else
    let clusters_to_keep := (new_size + cluster_size s - 1) / cluster_size s in
    let? last_kept_cluster := cluster_at first_cluster (Z.to_nat (clusters_to_keep - 1)) in
    let* first_freed_cluster := fat_next last_kept_cluster in
    let? _ := on_fat (set_entry last_kept_cluster FAT_CLUSTER_EOF) in
    let? _ := match first_freed_cluster with
              | Some c => on_fat (free_chain c)
              | None => kret (Some tt)
              end in
    persist_fat.

Definition shrink_existing_file (file : DirectoryEntry) (location : DirectoryEntryLocation)
    (new_size : Z) : M (option unit * DirectoryEntry) :=
  let first_cluster := get_cluster file in
  if new_size =? 0 then
    let* r := if first_cluster =? 0 then kret (Some tt)
              else let? _ := on_fat (free_chain first_cluster) in persist_fat in
    match r with
    | None => kret (None, file)
    | Some _ =>
        let file := set_size 0 (set_cluster 0 file) in
        with_entry file (persist_directory_entry location file)
    end
  else if first_cluster =? 0 then kret (None, file)
  else
    let* r := shrink_chain first_cluster new_size in
    match r with
    | None => kret (None, file)
    | Some _ =>
        let file := set_size (wrap 32 new_size) file in
        with_entry file (persist_directory_entry location file)
    end.

Definition rollback_growth (file : DirectoryEntry) (old_first_cluster old_cluster_count : Z)
    (new_chain_start : option Z) : M DirectoryEntry :=
  let* file :=
    if old_cluster_count =? 0 then kret (set_cluster old_first_cluster file)
    else
      let* r := cluster_at old_first_cluster (Z.to_nat (old_cluster_count - 1)) in
      match r with
      | Some last_old_cluster => on_fat (set_entry last_old_cluster FAT_CLUSTER_EOF) ;;* kret file
      | None => kret file
      end in
  match new_chain_start with
  | Some c => on_fat (free_chain c) ;;* kret file
  | None => kret file
  end.

(** The first half of [grow_existing_file]: [None] when it returns early,
    else the chain start and the entry with its cluster set. *)
Definition grow_chain (file : DirectoryEntry) (old_cluster_count new_cluster_count : Z)
  : M (option (option Z * DirectoryEntry)) :=
  if old_cluster_count <? new_cluster_count then
    let? start := on_fat (allocate_chain (new_cluster_count - old_cluster_count)) in
    if old_cluster_count =? 0 then kret (Some (Some start, set_cluster start file))
    else
      let? last_old_cluster := cluster_at (get_cluster file) (Z.to_nat (old_cluster_count - 1)) in
      let? _ := on_fat (set_entry last_old_cluster (wrap 32 start)) in
      kret (Some (Some start, file))
  else kret (Some (None, file)).

Definition grow_existing_file (file : DirectoryEntry) (location : DirectoryEntryLocation)
    (old_size new_size : Z) : M (option unit * DirectoryEntry) :=
  let* old_cluster_count := clusters_for_size old_size in
  let* new_cluster_count := clusters_for_size new_size in
  let old_first_cluster := get_cluster file in
  let* grown := grow_chain file old_cluster_count new_cluster_count in
  match grown with
  | None => kret (None, file)
  | Some (new_chain_start, file) =>
      let* zeroed := zero_file_range (get_cluster file) old_size (new_size - old_size) in
      let* ok := match zeroed with None => kret None | Some _ => persist_fat end in
      match ok with
      | None =>
          let* file := rollback_growth file old_first_cluster old_cluster_count new_chain_start in
          kret (None, file)
      | Some _ =>
          let file := set_size (wrap 32 new_size) file in
          with_entry file (persist_directory_entry location file)
      end
  end.

Definition truncate_existing_file (file : DirectoryEntry) (location : DirectoryEntryLocation)
    (new_size : Z) : M (option unit * DirectoryEntry) :=
  let* r := read_directory_entry location in
  match r with
  | None => kret (None, file)
  | Some file =>
      if negb (de_attributes file =? 32) then kret (None, file)
      else
        let old_size := de_size file in
        if u32_max <? new_size then kret (None, file)
        else if new_size =? old_size then kret (Some tt, file)
        else if new_size <? old_size then shrink_existing_file file location new_size
        else grow_existing_file file location old_size new_size
  end.

(** ** The objects handed out: FATFile and FATDirectory

    The weak reference to the file system always upgrades: the root mount
    owns it for the life of the kernel. *)
Record FATFile := {
  file_entry : DirectoryEntry;
  file_name : list Z;
  file_location : DirectoryEntryLocation;
}.
Record FATDirectory := {
  dir_entry : DirectoryEntry;
  dir_name : list Z;
}.

Definition file_of (l : LocatedDirectoryEntry) : FATFile :=
  {| file_entry := led_entry l; file_name := led_name l; file_location := led_location l |}.
Definition dir_of (l : LocatedDirectoryEntry) : FATDirectory :=
  {| dir_entry := led_entry l; dir_name := led_name l |}.

Definition file_size (f : FATFile) : M Z :=
  let* r := read_directory_entry (file_location f) in
  kret (match r with Some e => de_size e | None => de_size (file_entry f) end).

Definition file_read (f : FATFile) : M (option Region) :=
  let? entry := read_directory_entry (file_location f) in
  read_file entry.

Definition file_write (f : FATFile) (offset : Z) (data : list Z) : M (option Z) :=
  let? entry := read_directory_entry (file_location f) in
  let? bytes_written := write_existing_file entry offset data in
  let? _ := persist_directory_entry (file_location f) entry in
  kret (Some bytes_written).

Definition file_truncate (f : FATFile) (size : Z) : M (option unit * FATFile) :=
  let* r := truncate_existing_file (file_entry f) (file_location f) size in
  kret (r.1, {| file_entry := r.2; file_name := file_name f; file_location := file_location f |}).

Definition dir_list_dir (d : FATDirectory) : M (list FATDirectory * list FATFile) :=
  let* r := list_directory (dir_entry d) in
  kret (map dir_of r.2, map file_of r.1).

Definition dir_create_file (d : FATDirectory) (name : list Z) : M (option FATFile) :=
  let? l := create_file (dir_entry d) name in
  kret (Some (file_of l)).
Definition dir_create_directory (d : FATDirectory) (name : list Z) : M (option unit) :=
  create_directory (dir_entry d) name.
Definition dir_unlink_file (d : FATDirectory) (name : list Z) : M (option unit) :=
  unlink_file (dir_entry d) name.
Definition dir_remove_directory (d : FATDirectory) (name : list Z) : M (option unit) :=
  remove_directory (dir_entry d) name.

Definition root_dir : M FATDirectory :=
  let* r := root in kret {| dir_entry := r; dir_name := root_name |}.
End Driver.

(** ** Mounting *)

Section Mount.
Context {P : Type} `{Platform P}.

(** The buffer is not freed on any path. *)
Definition read_boot_sector : kst P (option (FatBootSector * Fat32ExtendedBootSector)) :=
  let* buffer := alloc 512 in
  match buffer with
  | None => kret None
  | Some _ =>
      let? data := port_read 0 1 (replicate 512 0) in
      kret (Some (boot_sector_of_bytes data, extended_boot_sector_of_bytes (drop 36 data)))
  end.

(** The table's entries, and the bytes after them. *)
Definition read_fat (b : FatBootSector) (b32 : Fat32ExtendedBootSector)
  : kst P (option (FatBuffer * list Z)) :=
  let fat_start := reserved_sector_count b in
  let sectors_per_fat :=
    if negb (table_size_16 b =? 0) then table_size_16 b else table_size b32 in
  let fat_size_bytes := sectors_per_fat * bytes_per_sector b in
  let* buffer := alloc fat_size_bytes in
  match buffer with
  | None => kret None
  | Some _ =>
      let? data := port_read fat_start sectors_per_fat (replicate (Z.to_nat fat_size_bytes) 0) in
      let num_fat_entries := Z.to_nat (fat_size_bytes / 4) in
      kret (Some (map le_value (chunks num_fat_entries 4 data), drop (4 * num_fat_entries) data))
  end.

(** [FATFileSystem::new]. *)
Definition mount : kst P (option (FatBuffer * list Z * FatBootSector * Fat32ExtendedBootSector)) :=
  let? b := read_boot_sector in
  let '(b, b32) := b in
  let? f := read_fat b b32 in
  let '(f, rest) := f in
  kret (Some (f, rest, b, b32)).

Definition new_fs (p : P) : outcome (option (FATFileSystem P)) :=
  match mount p with
  | Fault e => Fault e
  | Done (None, _) => Done None
  | Done (Some (f, rest, b, b32), p') =>
      Done (Some {| port := p'; fat := f; fat_rest := rest; bs := b; bs_32 := b32 |})
  end.
End Mount.
