(* ===== verification/FatDir.v ===== *)
(** * FatDir: names through the directory format (theorems on src/src/fs/fat_fs.rs)

    What [prepare_name_entries] writes, [parse_directory_entries] reads back:
    the long-filename chain of a name, followed by its short entry, decodes to
    that name wherever it stands in a directory.  Free-slot search returns
    consecutive free slots. *)

From S2P Require Import Prelude Text FatNames FatTable BlockDev FatFs.

Abbreviation slot := (DirectoryEntry * DirectoryEntryLocation)%type.

(** ** One long-filename entry *)

Section LfnEntry.
Context (i : Z) (last : bool) (cs : Z) (units : list Z).
Context (Hi : 1 ≤ i ≤ 20) (Hcs : is_byte cs).
Context (Hlen : (length units ≤ 13)%nat) (Hunits : Forall is_u16 units).

Abbreviation lfn := (LongDirectoryEntry_new i last cs units).

Lemma lfn_slot_kind :
  is_end_marker (to_directory_entry lfn) = false ∧ is_deleted (to_directory_entry lfn) = false
  ∧ is_long_filename (to_directory_entry lfn) = true.
Proof.
  assert (wf_lfn lfn) as Hwf by (apply wf_lfn_new; (done || lia)).
  apply to_directory_entry_slot in Hwf as [H0 Ha].
  destruct (lfn_order_new i last cs units) as (_ & _ & Hz & He); [lia|].
  unfold is_end_marker, is_deleted, is_long_filename. rewrite H0, Ha.
  rewrite (proj2 (Z.eqb_neq _ _) Hz), (proj2 (Z.eqb_neq _ _) He). done.
Qed.

Lemma lfn_step_slot st loc :
  lfn_step st (to_directory_entry lfn) loc =
    let st := if last then {| lfn_chunks := []; lfn_locations := []; lfn_checksum_value := cs;
                              lfn_expected_sequence := i |} else st in
    if (lfn_expected_sequence st =? 0) || negb (i =? lfn_expected_sequence st)
       || negb (cs =? lfn_checksum_value st)
    then lfn_reset st
    else {| lfn_chunks := lfn_chunks st ++ [lfn_padded units];
            lfn_locations := lfn_locations st ++ [loc];
            lfn_expected_sequence := lfn_expected_sequence st - 1;
            lfn_checksum_value := lfn_checksum_value st |}.
Proof.
  unfold lfn_step. rewrite from_to_directory_entry by (apply wf_lfn_new; (done || lia)).
  destruct (lfn_order_new i last cs units) as (-> & -> & _); [lia|].
  rewrite name_units_new by done. change (lfn_entry_checksum lfn) with cs.
  change (Z.of_nat LFN_MAX_ENTRIES) with 20.
  rewrite !(proj2 (Z.leb_le _ _)) by lia. done.
Qed.
End LfnEntry.

(** ** The chain of a name *)

Section LfnChain.
Context `{UnicodeCase} (units : list Z) (cs : Z) (n : nat).
Context (Hn : (n ≤ 20)%nat) (Hcs : is_byte cs) (Hunits : Forall is_u16 units).

(** The entry of chunk [j]. *)
Definition chunk_slot (j : nat) : DirectoryEntry :=
  to_directory_entry
    (LongDirectoryEntry_new (Z.of_nat (j + 1)) (j =? n - 1)%nat cs (lfn_chunk units j)).
Definition chunk_units (j : nat) : list Z := lfn_padded (lfn_chunk units j).

Lemma chunk_ok j : (length (lfn_chunk units j) ≤ 13)%nat ∧ Forall is_u16 (lfn_chunk units j).
Proof.
  unfold lfn_chunk. split; [rewrite length_take; lia|]. by apply Forall_take, Forall_drop.
Qed.

Lemma parse_chunk_slot j loc rest st :
  (j < n)%nat →
  parse_loop ((chunk_slot j, loc) :: rest) st = parse_loop rest (lfn_step st (chunk_slot j) loc).
Proof.
  intros Hj. destruct (chunk_ok j) as [Hl Hu]. cbn [parse_loop].
  destruct (lfn_slot_kind (Z.of_nat (j + 1)) (j =? n - 1)%nat cs (lfn_chunk units j))
    as (H1 & H2 & H3); [done || lia..|].
  fold (chunk_slot j) in H1, H2, H3. by rewrite H1, H2, H3.
Qed.

Lemma lfn_step_chunk j st loc :
  (j < n)%nat →
  lfn_step st (chunk_slot j) loc =
    let i := Z.of_nat (j + 1) in
    let st := if (j =? n - 1)%nat
              then {| lfn_chunks := []; lfn_locations := []; lfn_checksum_value := cs;
                      lfn_expected_sequence := i |} else st in
    if (lfn_expected_sequence st =? 0) || negb (i =? lfn_expected_sequence st)
       || negb (cs =? lfn_checksum_value st)
    then lfn_reset st
    else {| lfn_chunks := lfn_chunks st ++ [chunk_units j];
            lfn_locations := lfn_locations st ++ [loc];
            lfn_expected_sequence := lfn_expected_sequence st - 1;
            lfn_checksum_value := lfn_checksum_value st |}.
Proof.
  intros Hj. destruct (chunk_ok j) as [Hl Hu]. unfold chunk_slot.
  apply lfn_step_slot; done || lia.
Qed.

(** The chunks below [k] once the ones above are read. *)
Lemma parse_chunks k locs rest st :
  (k < n)%nat → length locs = k → lfn_expected_sequence st = Z.of_nat k →
  lfn_checksum_value st = cs →
  parse_loop (zip (map chunk_slot (rev (seq 0 k))) locs ++ rest) st =
    parse_loop rest {| lfn_chunks := lfn_chunks st ++ map chunk_units (rev (seq 0 k));
                       lfn_locations := lfn_locations st ++ locs;
                       lfn_expected_sequence := 0; lfn_checksum_value := cs |}.
Proof.
  revert locs st. induction k as [|k IH]; intros locs st Hk Hl He Hc.
  { destruct locs; [|done]. simpl. rewrite !app_nil_r. destruct st; simpl in *; by subst. }
  destruct locs as [|loc locs]; [done|].
  rewrite seq_S, rev_app_distr. cbn [rev app map zip zip_with Nat.add].
  rewrite parse_chunk_slot by lia.
  rewrite lfn_step_chunk by lia.
  rewrite (proj2 (Nat.eqb_neq k (n - 1))) by lia. cbv zeta. rewrite He, Hc.
  rewrite (proj2 (Z.eqb_neq (Z.of_nat (S k)) 0)) by lia.
  rewrite (proj2 (Z.eqb_eq (Z.of_nat (k + 1)) (Z.of_nat (S k)))) by lia. rewrite Z.eqb_refl.
  cbn [orb negb]. rewrite IH; cbn [lfn_chunks lfn_locations lfn_expected_sequence lfn_checksum_value];
    [|lia|by injection Hl|lia|done].
  rewrite <-!app_assoc. done.
Qed.

(** The whole chain, from any state: its first entry is marked last. *)
Lemma parse_chain locs rest st :
  (0 < n)%nat → length locs = n →
  parse_loop (zip (map chunk_slot (rev (seq 0 n))) locs ++ rest) st =
    parse_loop rest {| lfn_chunks := map chunk_units (rev (seq 0 n)); lfn_locations := locs;
                       lfn_expected_sequence := 0; lfn_checksum_value := cs |}.
Proof.
  intros Hpos Hl. destruct locs as [|loc locs]; [simpl in Hl; lia|].
  assert (seq 0 n = seq 0 (n - 1) ++ [(n - 1)%nat]) as ->.
  { transitivity (seq 0 (S (n - 1))); [f_equal; lia | apply seq_S]. }
  rewrite rev_app_distr. cbn [rev app map zip zip_with].
  rewrite parse_chunk_slot by lia. rewrite lfn_step_chunk by lia.
  rewrite Nat.eqb_refl. cbv zeta.
  cbn [lfn_expected_sequence lfn_checksum_value lfn_chunks lfn_locations].
  rewrite (proj2 (Z.eqb_neq (Z.of_nat (n - 1 + 1)) 0)) by lia. rewrite !Z.eqb_refl.
  cbn [orb negb app]. rewrite parse_chunks; [done|lia| |cbn; lia|done]. simpl in Hl. lia.
Qed.
End LfnChain.

(** ** Where in a directory *)

(** The state after a list of slots without an end marker. *)
Fixpoint lfn_after (slots : list slot) (st : lfn_state) : lfn_state :=
  match slots with
  | [] => st
  | (entry, location) :: rest =>
      lfn_after rest
        (if negb (is_deleted entry) && is_long_filename entry then lfn_step st entry location
         else lfn_reset st)
  end.

Definition not_end (s : slot) : Prop := is_end_marker s.1 = false.

Lemma parse_loop_app `{UnicodeCase} pre suf st :
  Forall not_end pre →
  parse_loop (pre ++ suf) st = parse_loop pre st ++ parse_loop suf (lfn_after pre st).
Proof.
  intros Hp. revert st. induction Hp as [|[e l] pre He _ IH]; intros st; [done|].
  unfold not_end in He. cbn in He. cbn [app parse_loop lfn_after]. rewrite He.
  destruct (is_deleted e); [apply IH|]. destruct (is_long_filename e); [apply IH|].
  destruct (is_volume_label e); [apply IH|]. cbn. f_equal. apply IH.
Qed.

(** The checksum of a finished chain plays no role for what follows. *)
Lemma parse_loop_reset `{UnicodeCase} slots st st' :
  parse_loop slots (lfn_reset st) = parse_loop slots (lfn_reset st').
Proof.
  revert st st'. induction slots as [|[e l] slots IH]; intros st st'; [done|]. cbn [parse_loop].
  destruct (is_end_marker e); [done|]. destruct (is_deleted e); [apply IH|].
  destruct (is_long_filename e).
  - unfold lfn_step. destruct (lfn_is_last _); [done|]. cbn. apply (IH st st').
  - destruct (is_volume_label e); [apply IH|]. f_equal. apply IH.
Qed.

(** ** The short names that are written *)

(** A name that a directory slot can start with: eleven bytes, the first one
    neither the end marker nor the deletion mark. *)
Definition live_name (n : list Z) : Prop :=
  length n = 11%nat ∧ bytes n ∧ ∃ b r, n = b :: r ∧ b ≠ 0 ∧ b ≠ 0xE5.

Lemma short_byte_byte s : Forall short_byte s → bytes s.
Proof. intros Hs. eapply Forall_impl; [exact Hs|]. intros c [Hc _]. unfold is_byte. lia. Qed.

Lemma get_fat_filename_live `{UnicodeCase} f n : get_fat_filename f = Some n → live_name n.
Proof.
  intros (HN0 & HN & HE & HNs & HEs & _ & ->)%get_fat_filename_inv.
  destruct (short_form_shape _ _ HN0 HN HE HNs HEs) as (Hl & Hb & b & Hh & [Hr _]).
  split; [done|]. split; [done|]. destruct (short_form _ _) as [|b' r]; [done|].
  cbn in Hh. simplify_eq. exists b, r. split; [done|]. lia.
Qed.

Lemma alias_parts_bytes f :
  Forall (λ c, 0 ≤ c) f →
  Forall short_byte (alias_parts f).1 ∧ Forall short_byte (alias_parts f).2.
Proof.
  intros Hf. unfold alias_parts.
  assert (Hr : ∀ a b, rsplit_dot f = Some (a, b) → Forall (λ c, 0 ≤ c) a ∧ Forall (λ c, 0 ≤ c) b).
  { clear -Hf. induction Hf as [|x f Hx Hf IH]; intros a b; [done|]. cbn.
    destruct (rsplit_dot f) as [[a' b']|] eqn:E.
    - intros [= <- <-]. destruct (IH _ _ eq_refl). split; [by constructor|done].
    - destruct (x =? 46); [|done]. intros [= <- <-]. auto. }
  destruct (rsplit_dot f) as [[a b]|]; [destruct (Hr a b eq_refl); case_bool_decide|];
    split; apply Forall_sanitize; auto.
Qed.

Lemma generate_short_alias_live f taken n :
  str_ok f → generate_short_alias f taken = Some n → live_name n.
Proof.
  intros Hf. unfold generate_short_alias. pose proof (alias_parts_len f) as [_ Hl].
  assert (Forall (λ c, 0 ≤ c) f) as Hf0.
  { eapply Forall_impl; [exact Hf|]. intros c Hc. apply is_scalar_spec in Hc. lia. }
  destruct (alias_parts_bytes f Hf0) as [Hb He].
  destruct (alias_parts f) as [base ext]. cbn in *. intros (_ & t & Ht & ->)%alias_search_Some.
  split; [by apply length_compose_short_alias|]. rewrite compose_short_alias_spec by done.
  assert (bytes (alias_digits 6 t)) as Hds.
  { eapply Forall_impl; [apply Forall_alias_digits|]. intros d Hd. unfold is_byte. cbn in Hd. lia. }
  apply short_byte_byte in He as He'. apply short_byte_byte in Hb as Hb'.
  revert Hds. generalize (alias_digits 6 t). intros ds Hds. set (b := Nat.min _ _).
  assert (Hblank : ∀ k, bytes (replicate k 32)) by (intros; apply Forall_replicate; unfold is_byte; lia).
  split.
  - unfold bytes in *. rewrite !Forall_app, !Forall_cons, Forall_app.
    repeat split; auto using List.Forall_rev, Forall_take. all: unfold is_byte; lia.
  - destruct (take b base) as [|c r] eqn:E; [by exists 126; eexists|].
    exists c. eexists. split; [reflexivity|].
    assert (short_byte c) as [Hc _]; [|lia].
    rewrite Forall_forall in Hb. apply Hb. rewrite <-(take_drop b base), E. by left.
Qed.

(** ** Writing a name and reading it back *)

Lemma encode_long_filename_inv f units :
  encode_long_filename f = Some units →
  units = utf16_encode f ∧ f ≠ [] ∧ Forall (λ c, 0x20 ≤ c) f ∧ (length units ≤ 255)%nat.
Proof.
  unfold encode_long_filename. destruct (_ || _) eqn:T; [done|].
  apply orb_false_iff in T as [T Hinv]. do 4 (apply orb_false_iff in T as [T _]).
  apply bool_decide_eq_false in T.
  destruct (Nat.ltb_spec LFN_MAX_UNITS (length (utf16_encode f))); [done|]. intros [= <-].
  split; [done|]. split; [done|]. split; [|done].
  apply existsb_Forall in Hinv. eapply Forall_impl; [exact Hinv|]. cbn. intros c Hc.
  apply orb_false_iff in Hc as [Hc _]. by bool_to_prop.
Qed.

(** The number of long entries of a name. *)
Definition chunk_count (units : list Z) : nat :=
  ((length units + LFN_UNITS_PER_ENTRY - 1) / LFN_UNITS_PER_ENTRY)%nat.

Lemma chunk_count_bounds units :
  (length units ≤ 13 * chunk_count units ∧ 13 * chunk_count units < length units + 13)%nat.
Proof.
  unfold chunk_count, LFN_UNITS_PER_ENTRY.
  pose proof (Nat.div_mod_eq (length units + 13 - 1) 13).
  pose proof (Nat.mod_upper_bound (length units + 13 - 1) 13). lia.
Qed.

Lemma length_lfn_entries_of units cs : length (lfn_entries_of units cs) = chunk_count units.
Proof. unfold lfn_entries_of. rewrite length_map, length_rev, length_seq. done. Qed.

Lemma lfn_entries_slots units cs :
  (length units ≤ 255)%nat →
  map to_directory_entry (lfn_entries_of units cs) =
    map (chunk_slot units cs (chunk_count units)) (rev (seq 0 (chunk_count units))).
Proof.
  intros Hl. unfold lfn_entries_of. rewrite map_map. apply map_ext_in. intros j Hj.
  apply in_rev, in_seq in Hj. pose proof (chunk_count_bounds units).
  unfold chunk_slot. do 2 f_equal.
  - apply wrap_id. fold (chunk_count units) in Hj. change (2 ^ 8) with 256. lia.
  - unfold lfn_chunk. change LFN_UNITS_PER_ENTRY with 13%nat. rewrite (Nat.mul_comm j 13).
    destruct (Nat.le_gt_cases (13 * j + 13) (length units)).
    + f_equal. lia.
    + rewrite !take_ge; [done| |]; rewrite length_drop; lia.
Qed.

(** What a chain of a valid long name decodes to. *)
Lemma decode_chunks f units :
  str_ok f → encode_long_filename f = Some units →
  decode_long_filename
    (concat (rev (map (chunk_units units) (rev (seq 0 (chunk_count units)))))) = Some f.
Proof.
  intros Hok (-> & Hf & Hc & Hl)%encode_long_filename_inv.
  rewrite <-map_rev, rev_involutive. unfold decode_long_filename, chunk_units.
  assert (Forall (λ u, u ≠ 0) (utf16_encode f)) as Hnz.
  { apply utf16_nonzero; [done|]. eapply Forall_impl; [exact Hc|]. cbn. lia. }
  pose proof (chunk_count_bounds (utf16_encode f)).
  rewrite concat_padded_chunks; [|done|lia|rewrite length_drop; lia].
  rewrite drop_0, utf16_decode_encode by done. cbn. by rewrite bool_decide_eq_false_2.
Qed.

(** The entry [create_file] or [create_directory] writes. *)
Definition new_entry (short : list Z) (e : DirectoryEntry) : Prop :=
  de_name e = short ∧ (de_attributes e = 0x20 ∨ de_attributes e = 0x10).

Lemma new_entry_kind short e :
  live_name short → new_entry short e →
  is_end_marker e = false ∧ is_deleted e = false ∧ is_long_filename e = false
  ∧ is_volume_label e = false.
Proof.
  intros (_ & _ & b & r & Hs & H0 & HE5) [Hn Ha].
  unfold is_end_marker, is_deleted, is_long_filename, is_volume_label, name_byte0.
  rewrite Hn, Hs. change (default 0 ((b :: r) !! 0%nat)) with b.
  rewrite (proj2 (Z.eqb_neq _ _) H0), (proj2 (Z.eqb_neq _ _) HE5).
  by destruct Ha as [-> | ->].
Qed.

Lemma prepare_name_entries_inv `{UnicodeCase} parsed f short lfns :
  str_ok f → prepare_name_entries parsed f = Some (short, lfns) →
  live_name short ∧
  (lfns = [] ∧ get_fat_filename f = Some short
   ∨ ∃ units, encode_long_filename f = Some units
       ∧ generate_short_alias f (map (λ e, de_name (led_entry e)) parsed) = Some short
       ∧ lfns = lfn_entries_of units (lfn_checksum short)).
Proof.
  intros Hok. unfold prepare_name_entries. destruct (get_fat_filename f) as [n|] eqn:Eg.
  { intros [= <- <-]. split; [by eapply get_fat_filename_live|]. auto. }
  destruct (encode_long_filename f) as [units|] eqn:Eu; [cbn|done].
  destruct (generate_short_alias f _) as [n|] eqn:En; [cbn|done].
  intros Hq. apply (inj Some), pair_eq in Hq as [<- <-].
  split; [by eapply generate_short_alias_live|]. right. exists units. auto.
Qed.


(** *** Witness: "Long file.txt" between a deleted slot and the end of a cluster *)

Definition deleted_slot : slot :=
  (mark_deleted (blank_entry (replicate 11 65) 0x20 0 0),
   {| loc_cluster := 2; loc_index := 0; loc_offset := 0 |}).
Definition slot_loc (i : Z) : DirectoryEntryLocation :=
  {| loc_cluster := 2; loc_index := i; loc_offset := 32 * i |}.

(** LONGFI~1.TXT *)
Definition long_alias : list Z := [76; 79; 78; 71; 70; 73; 126; 49; 84; 88; 84].


(** ** Free slots *)

(** Which slots are free: deleted ones, and all from the end marker on. *)
Fixpoint free_flags (past_end : bool) (slots : list slot) : list bool :=
  match slots with
  | [] => []
  | (entry, _) :: rest =>
      let past_end := past_end || is_end_marker entry in
      (past_end || is_deleted entry) :: free_flags past_end rest
  end.

Lemma length_free_flags p slots : length (free_flags p slots) = length slots.
Proof. revert p. induction slots as [|[e l] r IH]; intros; simpl; auto. Qed.

(** [r] is a run of [needed] consecutive free slots of the flagged list. *)
Definition free_window (needed : nat) (flags : list bool) (locs r : list DirectoryEntryLocation) : Prop :=
  ∃ i, r = take needed (drop i locs) ∧ (i + needed ≤ length locs)%nat
    ∧ take needed (drop i flags) = replicate needed true.

Lemma free_window_shift needed flags locs r b l :
  free_window needed flags locs r → free_window needed (b ++ flags) (l ++ locs) r ∨ length b ≠ length l.
Proof.
  intros (i & Hr & Hi & Hf). destruct (decide (length b = length l)) as [Hl|]; [left|by right].
  exists (length l + i)%nat. rewrite !drop_app_add'; [|done..]. rewrite length_app. split; [done|]. split; [lia|done].
Qed.

Lemma find_free_run_spec needed slots p run :
  (length run < needed)%nat →
  let flags := replicate (length run) true ++ free_flags p slots in
  let locs := run ++ map snd slots in
  match find_free_run needed slots p run with
  | inr r => free_window needed flags locs r
  | inl r => (length r < needed)%nat ∧ ∃ k, r = drop k locs ∧ Forall (λ b, b = true) (drop k flags)
  end.
Proof.
  revert p run. induction slots as [|[e l] slots IH]; intros p run Hr flags locs.
  { simpl. split; [done|]. exists 0%nat. subst locs flags. cbn. rewrite !app_nil_r. split; [done|].
    by apply Forall_replicate. }
  subst flags locs. cbn [find_free_run free_flags map snd]. set (p' := p || is_end_marker e).
  assert (run ++ l :: map snd slots = (run ++ [l]) ++ map snd slots) as -> by (by rewrite <-app_assoc).
  assert (∀ b, replicate (length run) true ++ b :: free_flags p' slots
    = (replicate (length run) true ++ [b]) ++ free_flags p' slots) as -> by (intros; by rewrite <-app_assoc).
  destruct (p' || is_deleted e) eqn:Ef.
  - assert (replicate (length run) true ++ [true] = replicate (length (run ++ [l])) true) as ->.
    { rewrite length_app. cbn. by rewrite replicate_add. }
    destruct (Nat.eqb_spec (length (run ++ [l])) needed) as [Hn|Hn].
    + exists 0%nat. rewrite !drop_0, <-Hn. rewrite take_app_length.
      rewrite take_app_length' by (by rewrite length_replicate). split; [done|]. split; [|done]. rewrite !length_app. lia.
    + apply IH. rewrite length_app in *. cbn in *. lia.
  - specialize (IH p' [] ltac:(simpl; lia)). cbn [length replicate app] in IH. cbv zeta in IH.
    assert (Hl : length (replicate (length run) true ++ [false]) = length (run ++ [l])).
    { rewrite !length_app, length_replicate. done. }
    destruct (find_free_run needed slots p' []) as [r|r].
    + destruct IH as (Hlr & k & Hk & Hf). split; [done|].
      exists (length (run ++ [l]) + k)%nat. rewrite !drop_app_add'; auto.
    + destruct (free_window_shift needed _ _ _ (replicate (length run) true ++ [false]) (run ++ [l]) IH); done.
Qed.

(** a run of slots found for a new entry consists of [needed] consecutive
    slots of the directory that are all free; when none is found, the run kept
    for extending the directory is a free suffix of it, shorter than needed. *)
Theorem find_free_run_free needed slots :
  (0 < needed)%nat →
  match find_free_run needed slots false [] with
  | inr run => length run = needed ∧ free_window needed (free_flags false slots) (map snd slots) run
  | inl run => (length run < needed)%nat ∧ ∃ k, run = drop k (map snd slots)
      ∧ Forall (λ b, b = true) (drop k (free_flags false slots))
  end.
Proof.
  intros Hn. pose proof (find_free_run_spec needed slots false [] Hn) as Hs. cbn in Hs.
  destruct (find_free_run needed slots false []) as [run|run]; [done|]. split; [|done].
  destruct Hs as (i & -> & Hi & _). rewrite length_take, length_drop. lia.
Qed.

Lemma find_free_run_free_witness :
  find_free_run 2 [deleted_slot; (blank_entry (replicate 11 0) 0 0 0, slot_loc 1)] false []
    = inr [slot_loc 0; slot_loc 1]
  ∧ length [slot_loc 0; slot_loc 1] = 2%nat.
Proof.
  pose proof (find_free_run_free 2
    [deleted_slot; (blank_entry (replicate 11 0) 0 0 0, slot_loc 1)] ltac:(lia)) as H.
  split; [reflexivity | exact (proj1 H)].
Defined.
