(* ===== verification/FatVolume.v ===== *)
(** * FatVolume: clusters and directory entries on a working disk

    [geometry] is what a usable volume satisfies; on such a volume, with a
    healthy platform, reading and writing a cluster act on [cluster_bytes], the
    abstract view of the data area as one byte string per cluster.  [writes]
    says how an operation changed that view. *)

From S2P Require Import Prelude Text FatNames FatTable BlockDev FatFs.

(** A FAT32 volume of 512-byte sectors whose clusters all lie where the port can
    address them, with its table read in. *)
Record geometry {P} (s : FATFileSystem P) : Prop := {
  g_bps : bytes_per_sector (bs s) = 512;
  g_spc : 0 < sectors_per_cluster (bs s) < 256;
  g_reserved : 0 < reserved_sector_count (bs s);
  g_tables : 0 < table_count (bs s) < 256;
  g_table16 : table_size_16 (bs s) = 0;
  g_table : 0 < table_size (bs_32 s) < 2 ^ 16;
  g_entries : entries (fat s) = 128 * table_size (bs_32 s);
  g_rest : fat_rest s = [];
  g_end : reserved_sector_count (bs s) + table_count (bs s) * table_size (bs_32 s)
          + (entries (fat s) - 2) * sectors_per_cluster (bs s) ≤ 2 ^ 24;
}.

Section Volume.
Context {P : Type} `{BlockDevice P}.
Implicit Types s : FATFileSystem P.

Definition data_start s : Z :=
  reserved_sector_count (bs s) + table_count (bs s) * table_size (bs_32 s).
Definition data_sector s (c : Z) : Z := data_start s + (c - 2) * sectors_per_cluster (bs s).

(** The contents of cluster [c]. *)
Definition cluster_bytes s (c : Z) : list Z :=
  sectors (port s) (data_sector s c) (Z.to_nat (sectors_per_cluster (bs s))).

Definition valid s (c : Z) : Prop := 2 ≤ c < entries (fat s).

(** The volume can be used: good geometry, and nothing fails. *)
Definition fs_ok s : Prop := geometry s ∧ healthy (port s).

Definition same_disk (p p' : P) : Prop := ∀ t, disk p' t = disk p t.

(** From [s] to [s'], only the clusters [cs] were written, and together they now
    hold [new]. *)
Record writes s s' (cs : list Z) (new : list Z) : Prop := {
  w_port : ∃ p', s' = set_port p' s;
  w_healthy : healthy (port s');
  w_live : live (port s') = live (port s);
  w_new : concat (map (cluster_bytes s') cs) = new;
  w_other : ∀ c, valid s c → (c ∉ cs) → cluster_bytes s' c = cluster_bytes s c;
  w_low : ∀ t, t < data_start s → disk (port s') t = disk (port s) t;
}.

Lemma length_cluster_bytes s c : geometry s → Z.of_nat (length (cluster_bytes s c)) = cluster_size s.
Proof.
  intros G. unfold cluster_bytes, cluster_size. rewrite length_sectors, (g_bps _ G).
  pose proof (g_spc _ G). lia.
Qed.

Lemma bytes_cluster_bytes s c : bytes (cluster_bytes s c).
Proof. apply bytes_sectors. Qed.

Lemma cluster_size_pos s : geometry s → 512 ≤ cluster_size s.
Proof. intros G. unfold cluster_size. rewrite (g_bps _ G). pose proof (g_spc _ G). lia. Qed.

Lemma geometry_set_port s p : geometry s → geometry (set_port p s).
Proof. intros []. by split. Qed.

Lemma cluster_bytes_ext s p' c :
  same_disk (port s) p' → cluster_bytes (set_port p' s) c = cluster_bytes s c.
Proof. intros Hd. apply sectors_ext. intros x _. apply Hd. Qed.

(** The sectors of a valid cluster can be addressed. *)
Lemma cluster_addressable s c :
  geometry s → valid s c → addressable (data_sector s c) (sectors_per_cluster (bs s)).
Proof.
  intros G [Hc He]. pose proof (g_spc _ G). pose proof (g_end _ G). pose proof (g_reserved _ G).
  pose proof (g_tables _ G). pose proof (g_table _ G). unfold addressable, data_sector, data_start.
  split; [nia|]. split; [lia|]. nia.
Qed.

Lemma get_sector_ok s c : 2 ≤ c → get_sector c s = Done (data_sector s c, s).
Proof. intros Hc. unfold get_sector, kbind, kget. rewrite usub_ok by done. done. Qed.

Lemma read_cluster_ok s c :
  fs_ok s → valid s c →
  ∃ a p', read_cluster c s = Done (Some {| reg_addr := a; reg_bytes := cluster_bytes s c |}, set_port p' s)
    ∧ healthy p' ∧ same_disk (port s) p'
    ∧ live (port s) !! a = None ∧ live p' = <[a := cluster_size s]> (live (port s)).
Proof.
  intros [G Hh] Hv. pose proof (g_spc _ G) as Hspc. pose proof (g_bps _ G) as Hbps.
  pose proof (cluster_addressable s c G Hv) as Hadr.
  unfold read_cluster. rewrite (kbind_done _ _ _ _ _ (get_sector_ok s c ltac:(apply Hv))).
  unfold kbind, kget, on_port, zoom, alloc.
  fold (cluster_size s). destruct (alloc_healthy (cluster_size s) (port s) Hh) as (a & p1 & Ha & Hh1).
  rewrite Ha. cbn [port set_port bs]. destruct (read_healthy _ _ p1 Hadr Hh1) as (d & p2 & Hr & Hh2).
  unfold port_read. rewrite length_replicate.
  rewrite (proj2 (Z.ltb_ge _ _)) by (unfold cluster_size; rewrite Hbps; lia). rewrite Hr.
  pose proof (read_length _ _ _ _ _ Hr) as [Hdl _]. pose proof (read_data _ _ _ _ _ Hadr Hr) as Hd.
  assert (Hdisk1 : same_disk (port s) p1).
  { intros t. pose proof (alloc_disk (cluster_size s) (port s) t) as E. by rewrite Ha in E. }
  assert (Hdisk2 : same_disk p1 p2).
  { intros t. pose proof (read_disk (data_sector s c) (sectors_per_cluster (bs s)) p1 t) as E. by rewrite Hr in E. }
  exists a, p2. split; [|split; [done|split]].
  - unfold kret. do 4 f_equal. unfold splice. rewrite take_0, drop_ge.
    + rewrite app_nil_r. cbn [app]. rewrite Hd. unfold cluster_bytes, sectors. rewrite Z2Nat.id by lia.
      f_equal. apply map_ext. intros t. apply Hdisk1.
    + rewrite length_replicate, Hdl. unfold cluster_size. rewrite Hbps. lia.
  - intros t. by rewrite Hdisk2.
  - apply alloc_live in Ha as [Hn Hl]. split; [done|]. rewrite <-Hl.
    pose proof (read_live (data_sector s c) (sectors_per_cluster (bs s)) p1) as E. by rewrite Hr in E.
Qed.

Lemma deallocate_ok s a d m :
  healthy (port s) → live (port s) = <[a := Z.of_nat (length d)]> m → m !! a = None →
  ∃ p', deallocate_region {| reg_addr := a; reg_bytes := d |} s = Done (tt, set_port p' s)
    ∧ healthy p' ∧ same_disk (port s) p' ∧ live p' = m.
Proof.
  intros Hh Hl Hm. eexists. split; [reflexivity|]. split; [by apply free_healthy|].
  split; [intros t; apply free_disk|]. cbn. rewrite free_live, Hl. by rewrite delete_insert_id.
Qed.

(** Distinct clusters have distinct sectors. *)
Lemma cluster_sectors_disjoint s c c' :
  geometry s → c ≠ c' →
  ∀ t, data_sector s c ≤ t < data_sector s c + sectors_per_cluster (bs s) →
  ¬ (data_sector s c' ≤ t < data_sector s c' + sectors_per_cluster (bs s)).
Proof. intros G Hne t Ht. pose proof (g_spc _ G). unfold data_sector in *. nia. Qed.

Lemma write_cluster_ok s c buf :
  fs_ok s → valid s c → Z.of_nat (length buf) = cluster_size s → bytes buf →
  ∃ s', write_cluster c buf s = Done (true, s') ∧ writes s s' [c] buf.
Proof.
  intros [G Hh] Hv Hl Hb. pose proof (g_spc _ G) as Hspc. pose proof (g_bps _ G) as Hbps.
  pose proof (cluster_addressable s c G Hv) as Hadr. unfold cluster_size in Hl. rewrite Hbps in Hl.
  unfold write_cluster. rewrite (kbind_done _ _ _ _ _ (get_sector_ok s c ltac:(apply Hv))).
  unfold kbind, kget, on_port, zoom, write_sectors.
  rewrite (proj2 (Z.eqb_neq _ _)), (proj2 (Z.ltb_ge _ _)) by lia.
  rewrite take_ge by lia.
  destruct (write_healthy _ _ buf (port s) Hadr Hh) as (p' & Hw & Hh'). rewrite Hw.
  exists (set_port p' s). split; [done|].
  assert (Hframe : ∀ t, ¬ (data_sector s c ≤ t < data_sector s c + sectors_per_cluster (bs s)) →
    disk p' t = disk (port s) t).
  { intros t Ht. pose proof (write_frame _ _ buf (port s) t Hadr Ht) as E. by rewrite Hw in E. }
  split; cbn.
  - by exists p'.
  - done.
  - pose proof (write_live (data_sector s c) (sectors_per_cluster (bs s)) buf (port s)) as E.
    by rewrite Hw in E.
  - rewrite app_nil_r. unfold cluster_bytes. change (data_sector (set_port p' s) c) with (data_sector s c).
    cbn [port bs set_port]. apply sectors_of_chunks; [lia|]. intros x Hx.
    rewrite Z2Nat.id in Hx by lia. eapply write_data; [done|lia|done|exact Hw|done].
  - intros c' Hc' Hne. apply sectors_ext. intros t Ht. cbn. rewrite Z2Nat.id in Ht by lia. apply Hframe.
    apply cluster_sectors_disjoint with c'; [done| |done]. intros ->. apply Hne. by left.
  - intros t Ht. apply Hframe. unfold data_sector, valid in *. nia.
Qed.

(** *** How changes compose *)

Lemma writes_fs_ok s s' cs new : fs_ok s → writes s s' cs new → fs_ok s'.
Proof. intros [G _] [[p' ->] Hh _ _ _ _]. split; [by apply geometry_set_port | done]. Qed.

Lemma writes_fat s s' cs new : writes s s' cs new → fat s' = fat s.
Proof. intros [[p' ->] _ _ _ _ _]. done. Qed.

Lemma writes_refl s cs : healthy (port s) → writes s s cs (concat (map (cluster_bytes s) cs)).
Proof. intros Hh. split; try done. exists (port s). by destruct s. Qed.

(** Buffers allocated before and freed after do not show. *)
Lemma writes_within s p1 s2 p3 cs new :
  same_disk (port s) p1 → writes (set_port p1 s) s2 cs new → same_disk (port s2) p3 →
  healthy p3 → live p3 = live (port s) → writes s (set_port p3 s2) cs new.
Proof.
  intros Hd1 [[p2 ->] Hh _ Hn Ho Hlow] Hd3 Hh3 Hl. split; [by exists p3|done|done| | |].
  - rewrite <-Hn. f_equal. apply map_ext. intros c. by apply cluster_bytes_ext.
  - intros c Hv Hc. rewrite <-(cluster_bytes_ext s p1 c), <-(Ho c) by done. by apply cluster_bytes_ext.
  - intros t Ht. cbn. rewrite (Hd3 t), <-(Hd1 t). by apply Hlow.
Qed.

Lemma writes_cons s s1 s' c cs new1 new :
  writes s s1 [c] new1 → writes s1 s' cs new → valid s c → (c ∉ cs) →
  writes s s' (c :: cs) (new1 ++ new).
Proof.
  intros [[p1 ->] Hh1 Hl1 Hn1 Ho1 Hlow1] [[p' ->] Hh Hl Hn Ho Hlow] Hv Hc. cbn in *.
  rewrite app_nil_r in Hn1. split; [by exists p'|done|cbn; congruence| | |].
  - cbn. f_equal; [|done]. rewrite <-Hn1. by apply (Ho c).
  - intros c' Hv' Hc'. cbn. rewrite <-(Ho1 c') by set_solver. apply (Ho c'); set_solver.
  - intros t Ht. cbn. rewrite <-(Hlow1 t Ht). by apply Hlow.
Qed.

(** *** Directory entries *)

Definition location_ok s (l : DirectoryEntryLocation) : Prop :=
  valid s (loc_cluster l) ∧ 0 ≤ loc_index l ∧ loc_offset l = loc_index l * entry_size
  ∧ loc_offset l + entry_size ≤ cluster_size s.

(** The entry stored at a location. *)
Definition entry_at s (l : DirectoryEntryLocation) : DirectoryEntry :=
  entry_of_bytes (field (Z.to_nat (loc_offset l)) 32 (cluster_bytes s (loc_cluster l))).

Lemma cluster_size_bound s : geometry s → cluster_size s < 2 ^ 17.
Proof. intros G. unfold cluster_size. rewrite (g_bps _ G). pose proof (g_spc _ G). lia. Qed.

Lemma location_end_ok s l :
  geometry s → location_ok s l → location_end l = Some (loc_offset l + entry_size).
Proof.
  intros G (_ & Hi & Ho & He). pose proof (cluster_size_bound s G). unfold entry_size in *.
  unfold location_end, checked_mul, checked_add, usize_max. unfold entry_size.
  rewrite !(proj2 (Z.leb_le _ _)) by lia. cbn [mbind option_bind].
  by rewrite Ho, Z.eqb_refl.
Qed.

Lemma writes_live s s' cs new : writes s s' cs new → live (port s') = live (port s).
Proof. by intros []. Qed.

Lemma read_directory_entry_ok s l :
  fs_ok s → location_ok s l →
  ∃ p', read_directory_entry l s = Done (Some (entry_at s l), set_port p' s)
    ∧ healthy p' ∧ same_disk (port s) p' ∧ live p' = live (port s).
Proof.
  intros Hs Hl. destruct Hs as [G Hh]. unfold read_directory_entry.
  rewrite (ktry_some _ _ _ _ _ (f_equal (λ o, Done (o, s)) (location_end_ok s l G Hl))).
  destruct Hl as (Hv & Hi & Ho & He).
  destruct (read_cluster_ok s _ (conj G Hh) Hv) as (a & p1 & Hr & Hh1 & Hd1 & Hn & Hl1).
  rewrite (ktry_some _ _ _ _ _ Hr). unfold reg_size. cbn [reg_bytes].
  rewrite length_cluster_bytes by done. rewrite (proj2 (Z.ltb_ge _ _)) by lia.
  destruct (deallocate_ok (set_port p1 s) a (cluster_bytes s (loc_cluster l)) (live (port s)))
    as (p2 & Hde & Hh2 & Hd2 & Hl2); [done| |done|].
  { cbn. by rewrite Hl1, length_cluster_bytes. }
  rewrite (kbind_done _ _ _ _ _ Hde). exists p2. split; [done|]. split; [done|].
  split; [|done]. intros t. rewrite (Hd2 t). apply Hd1.
Qed.

Lemma length_splice_Z {A} (l xs : list A) off :
  (off + length xs ≤ length l)%nat → Z.of_nat (length (splice l off xs)) = Z.of_nat (length l).
Proof. intros. by rewrite length_splice. Qed.

Lemma bytes_splice l off xs : bytes l → bytes xs → bytes (splice l off xs).
Proof. intros Hl Hx. unfold splice, bytes. rewrite !Forall_app. auto using Forall_take, Forall_drop. Qed.

(** Read a cluster, change it in memory, write it back and free the buffer: the
    step every update of the driver consists of. *)
Lemma update_cluster s c f :
  fs_ok s → valid s c → Z.of_nat (length (f (cluster_bytes s c))) = cluster_size s →
  bytes (f (cluster_bytes s c)) →
  ∃ r s1 s2 s3, read_cluster c s = Done (Some r, s1) ∧ reg_bytes r = cluster_bytes s c
    ∧ write_cluster c (f (reg_bytes r)) s1 = Done (true, s2)
    ∧ deallocate_region r s2 = Done (tt, s3)
    ∧ writes s s3 [c] (f (cluster_bytes s c)).
Proof.
  intros Hs Hv Hlen Hb. destruct Hs as [G Hh].
  destruct (read_cluster_ok s c (conj G Hh) Hv) as (a & p1 & Hr & Hh1 & Hd1 & Hn & Hl1).
  destruct (write_cluster_ok (set_port p1 s) c (f (cluster_bytes s c))) as (s2 & Hw & Hws).
  { split; [by apply geometry_set_port|done]. } { done. } { done. } { done. }
  destruct (deallocate_ok s2 a (cluster_bytes s c) (live (port s)))
    as (p3 & Hde & Hh3 & Hd3 & Hl3); [apply Hws| |done|].
  { rewrite (w_live _ _ _ _ Hws). cbn. by rewrite Hl1, length_cluster_bytes. }
  eexists _, _, s2, (set_port p3 s2). split; [exact Hr|]. split; [done|]. cbn [reg_bytes].
  split; [exact Hw|]. split; [exact Hde|].
  by eapply writes_within.
Qed.

Lemma persist_directory_entry_ok s l e :
  fs_ok s → location_ok s l → wf_entry e →
  ∃ s', persist_directory_entry l e s = Done (Some tt, s')
    ∧ writes s s' [loc_cluster l]
        (splice (cluster_bytes s (loc_cluster l)) (Z.to_nat (loc_offset l)) (entry_bytes e)).
Proof.
  intros Hs Hl He. assert (G : geometry s) by apply Hs.
  unfold persist_directory_entry.
  rewrite (ktry_some _ _ _ _ _ (f_equal (λ o, Done (o, s)) (location_end_ok s l G Hl))).
  destruct Hl as (Hv & Hi & Ho & Hend). unfold entry_size in *.
  pose proof (length_cluster_bytes s (loc_cluster l) G) as Hlen.
  pose proof (length_entry_bytes e (wf_name_len _ He)) as Hel.
  set (f := λ b, splice b (Z.to_nat (loc_offset l)) (entry_bytes e)).
  destruct (update_cluster s (loc_cluster l) f) as (r & s1 & s2 & s3 & Hr & Hrb & Hw & Hde & Hws);
    [done|done| | |].
  { unfold f. rewrite length_splice_Z; [done|lia]. }
  { apply bytes_splice; [apply bytes_cluster_bytes|]. apply bytes_entry_bytes, He. }
  rewrite (ktry_some _ _ _ _ _ Hr). unfold reg_size. rewrite Hrb, Hlen.
  rewrite (proj2 (Z.ltb_ge _ _)) by lia. unfold f in Hw. rewrite Hrb in Hw.
  rewrite (kbind_done _ _ _ _ _ Hw), (kbind_done _ _ _ _ _ Hde). by exists s3.
Qed.

(** The entry a location holds after it was written. *)
Lemma entry_at_written s s' l e :
  geometry s → location_ok s l → wf_entry e →
  writes s s' [loc_cluster l]
    (splice (cluster_bytes s (loc_cluster l)) (Z.to_nat (loc_offset l)) (entry_bytes e)) →
  entry_at s' l = e.
Proof.
  intros G (Hv & Hi & Ho & Hend) He Hws. unfold entry_size in *.
  pose proof (length_cluster_bytes s (loc_cluster l) G) as Hlen.
  pose proof (length_entry_bytes e (wf_name_len _ He)) as Hel.
  unfold entry_at. destruct Hws as [_ _ _ Hn _ _]. cbn in Hn. rewrite app_nil_r in Hn. rewrite Hn.
  unfold field. rewrite <-Hel at 1. rewrite splice_mid by lia. by apply entry_of_bytes_bytes.
Qed.

(** a directory entry written to a location is read back from it, and no
    other cluster and nothing before the data area changes. *)
Theorem persist_read_directory_entry s l e :
  fs_ok s → location_ok s l → wf_entry e →
  ∃ s' p', persist_directory_entry l e s = Done (Some tt, s')
    ∧ writes s s' [loc_cluster l]
        (splice (cluster_bytes s (loc_cluster l)) (Z.to_nat (loc_offset l)) (entry_bytes e))
    ∧ read_directory_entry l s' = Done (Some e, set_port p' s').
Proof.
  intros Hs Hl He. destruct (persist_directory_entry_ok s l e Hs Hl He) as (s' & Hp & Hw).
  assert (Hok : location_ok s' l) by (by destruct Hw as [[p' ->] _ _ _ _ _]).
  destruct (read_directory_entry_ok s' l) as (p' & Hrd & _); [by eapply writes_fs_ok|done|].
  exists s', p'. split; [done|]. split; [done|]. rewrite Hrd.
  by rewrite (entry_at_written s s' l e (proj1 Hs) Hl He Hw).
Qed.

(** Writing a cluster's own bytes back changes nothing. *)
Lemma writes_noop s s2 s3 cs new c :
  writes s s2 cs new → writes s2 s3 [c] (cluster_bytes s2 c) → Forall (valid s) cs →
  writes s s3 cs new.
Proof.
  intros [[p2 ->] Hh2 Hl2 Hn2 Ho2 Hlow2] [[p3 ->] Hh3 Hl3 Hn3 Ho3 Hlow3] Hv.
  assert (Heq : ∀ c', valid s c' → cluster_bytes (set_port p3 (set_port p2 s)) c' = cluster_bytes (set_port p2 s) c').
  { intros c' Hc'. destruct (decide (c' = c)) as [->|Hne].
    - cbn in Hn3. by rewrite app_nil_r in Hn3.
    - apply Ho3; [done|]. by intros ->%list_elem_of_singleton. }
  split; [by exists p3|done|cbn in *; congruence| | |].
  - rewrite <-Hn2. f_equal. apply map_ext_in. intros c' Hin. apply list_elem_of_In in Hin.
    rewrite Forall_forall in Hv. auto.
  - intros c' Hc' Hin. rewrite (Heq c') by done. by apply Ho2.
  - intros t Ht. rewrite (Hlow3 t) by done. by apply Hlow2.
Qed.

(** A quiet change before does not show. *)
Lemma writes_before s p1 s2 cs new :
  same_disk (port s) p1 → live p1 = live (port s) → writes (set_port p1 s) s2 cs new → writes s s2 cs new.
Proof.
  intros Hd Hl Hw. pose proof Hw as [[p2 ->] Hh Hl2 _ _ _].
  change (set_port p2 (set_port p1 s)) with (set_port p2 (set_port p2 (set_port p1 s))).
  apply writes_within with p1; try done. cbn in *. congruence.
Qed.
(** *** The table on disk *)

Lemma length_fat_bytes s : length (fat_bytes s) = (4 * length (fat s) + length (fat_rest s))%nat.
Proof.
  unfold fat_bytes. rewrite length_app. f_equal.
  induction (fat s) as [|v l IH]; [done|]. cbn [map concat].
  rewrite length_app, IH, length_le_bytes. simpl. lia.
Qed.

Lemma bytes_fat_bytes s : bytes (fat_rest s) → bytes (fat_bytes s).
Proof.
  intros Hr. apply Forall_app_2; [|done]. apply Forall_concat, Forall_map, Forall_forall.
  intros v _. apply bytes_le_bytes.
Qed.

Definition table_len s : nat := Z.to_nat (table_size (bs_32 s)).

Lemma sectors_per_fat_ok s : geometry s → sectors_per_fat s = table_size (bs_32 s).
Proof. intros G. unfold sectors_per_fat. by rewrite (g_table16 _ G). Qed.

(** A write to sectors [a .. a + n] leaves every run outside them alone. *)
Lemma sectors_frame p p' a n x k :
  (∀ t, ¬ (a ≤ t < a + n) → disk p' t = disk p t) →
  x + Z.of_nat k ≤ a ∨ a + n ≤ x → sectors p' x k = sectors p x k.
Proof. intros Hf Hd. apply sectors_ext. intros t Ht. apply Hf. lia. Qed.

(** Writing the tables from number [i] on. *)
Lemma persist_tables_ok n s i :
  fs_ok s → 0 ≤ i → i + Z.of_nat n = table_count (bs s) →
  ∃ p', persist_tables n i s = Done (Some tt, set_port p' s) ∧ healthy p'
    ∧ live p' = live (port s)
    ∧ (∀ t, ¬ (fat_start_sector s i ≤ t < data_start s) → disk p' t = disk (port s) t)
    ∧ ∀ k, i ≤ k < table_count (bs s) → sectors p' (fat_start_sector s k) (table_len s) = fat_bytes s.
Proof.
  revert s i. induction n as [|n IH]; intros s i Hs Hi Hn.
  { exists (port s). destruct Hs as [_ Hh]. repeat split; try done; [by destruct s|]. intros k Hk. lia. }
  destruct Hs as [G Hh]. pose proof (g_table _ G) as Ht. pose proof (g_spc _ G).
  pose proof (g_end _ G) as Hend. pose proof (g_entries _ G) as Hent. pose proof (g_reserved _ G).
  pose proof (sectors_per_fat_ok s G) as Hspf.
  assert (Hlen : length (fat_bytes s) = Z.to_nat (512 * table_size (bs_32 s))).
  { rewrite length_fat_bytes, (g_rest _ G). unfold entries in Hent. simpl. lia. }
  assert (Hadr : addressable (fat_start_sector s i) (sectors_per_fat s)).
  { unfold addressable, fat_start_sector. rewrite Hspf. split; [nia|]. split; [lia|].
    assert (i + 1 ≤ table_count (bs s)) by lia. assert (i * table_size (bs_32 s) + table_size (bs_32 s)
      ≤ table_count (bs s) * table_size (bs_32 s)) by nia.
    assert (0 ≤ (entries (fat s) - 2) * sectors_per_cluster (bs s)) by nia. lia. }
  cbn [persist_tables]. rewrite (kbind_done _ _ _ _ _ eq_refl).
  destruct (write_healthy _ _ (fat_bytes s) (port s) Hadr Hh) as (p1 & Hw & Hh1).
  assert (on_port (write_sectors (fat_start_sector s i) (sectors_per_fat s) (fat_bytes s)) s
    = Done (true, set_port p1 s)) as Hst.
  { unfold on_port, zoom, write_sectors. rewrite Hspf in *.
    rewrite (proj2 (Z.eqb_neq _ _)), (proj2 (Z.ltb_ge _ _)) by lia.
    rewrite take_ge by lia. by rewrite Hw. }
  rewrite (kbind_done _ _ _ _ _ Hst).
  assert (Hfr1 : ∀ t, ¬ (fat_start_sector s i ≤ t < fat_start_sector s i + table_size (bs_32 s)) →
    disk p1 t = disk (port s) t).
  { intros t Hti. rewrite <-Hspf in Hti. pose proof (write_frame _ _ (fat_bytes s) (port s) t Hadr Hti) as E.
    by rewrite Hw in E. }
  assert (Hi1 : sectors p1 (fat_start_sector s i) (table_len s) = fat_bytes s).
  { apply sectors_of_chunks; [unfold table_len; lia|]. intros x Hx. unfold table_len in Hx.
    eapply write_data; [exact Hadr|rewrite Hspf; done|apply bytes_fat_bytes; rewrite (g_rest _ G); constructor|exact Hw|].
    rewrite Hspf. lia. }
  destruct (IH (set_port p1 s) (i + 1)) as (p' & Hp & Hh' & Hl' & Hfr & Htab); cbn [bs set_port];
    [split; [by apply geometry_set_port|done]|lia|lia|].
  change (fat_start_sector (set_port p1 s)) with (fat_start_sector s) in *.
  change (data_start (set_port p1 s)) with (data_start s) in *.
  change (fat_bytes (set_port p1 s)) with (fat_bytes s) in *.
  assert (Hnext : fat_start_sector s (i + 1) = fat_start_sector s i + table_size (bs_32 s)).
  { unfold fat_start_sector. rewrite Hspf. lia. }
  assert (Hle : fat_start_sector s (i + 1) ≤ data_start s).
  { unfold fat_start_sector, data_start. rewrite Hspf. nia. }
  exists p'. split; [done|]. split; [done|]. split; [|split].
  - rewrite Hl'. cbn. pose proof (write_live (fat_start_sector s i) (sectors_per_fat s) (fat_bytes s) (port s)) as E.
    by rewrite Hw in E.
  - intros t Hti. rewrite (Hfr t) by lia. apply Hfr1. lia.
  - intros k Hk. destruct (decide (k = i)) as [->|]; [|apply (Htab k); cbn; lia].
    rewrite <-Hi1. eapply (sectors_frame p1 p' (fat_start_sector s (i + 1)) (data_start s - fat_start_sector s (i + 1))).
    + intros t Hti. apply Hfr. lia.
    + left. unfold table_len. lia.
Qed.

Lemma persist_fat_ok s :
  fs_ok s →
  ∃ p', persist_fat s = Done (Some tt, set_port p' s) ∧ healthy p' ∧ live p' = live (port s)
    ∧ (∀ t, ¬ (reserved_sector_count (bs s) ≤ t < data_start s) → disk p' t = disk (port s) t)
    ∧ ∀ k, 0 ≤ k < table_count (bs s) → sectors p' (fat_start_sector s k) (table_len s) = fat_bytes s.
Proof.
  intros Hs. pose proof (g_tables _ (proj1 Hs)).
  destruct (persist_tables_ok (Z.to_nat (table_count (bs s))) s 0) as (p' & Hp & Hh & Hl & Hf & Ht);
    [done|lia|lia|].
  exists p'. unfold fat_start_sector in Hf at 1. rewrite Z.mul_0_l, Z.add_0_r in Hf. auto.
Qed.

Lemma decode_fat_bytes (f : FatBuffer) :
  Forall is_u32 f → map le_value (chunks (length f) 4 (concat (map (le_bytes 4) f))) = f.
Proof.
  intros Hf. rewrite <-(length_map (le_bytes 4) f), chunks_concat.
  - rewrite map_map. rewrite <-(map_id f) at 2. apply map_ext_in. intros v Hv.
    apply list_elem_of_In in Hv. rewrite Forall_forall in Hf. apply le_value_bytes, Hf, Hv.
  - apply Forall_map, Forall_forall. intros v _. apply length_le_bytes.
Qed.

(** The words of the table that lies in [n] sectors from [t] on. *)
Definition table_words (p : P) (t n : Z) : FatBuffer :=
  map le_value (chunks (Z.to_nat (128 * n)) 4 (sectors p t (Z.to_nat n))).

(** They are the table that was stored there. *)
Lemma table_words_bytes s p : geometry s → Forall is_u32 (fat s) →
  sectors p (reserved_sector_count (bs s)) (table_len s) = fat_bytes s →
  table_words p (reserved_sector_count (bs s)) (table_size (bs_32 s)) = fat s.
Proof.
  intros G Hf E. pose proof (g_entries _ G) as He. unfold entries in He. unfold table_words. fold (table_len s). rewrite E.
  unfold fat_bytes. rewrite (g_rest _ G), app_nil_r, <- He, Nat2Z.id. by apply decode_fat_bytes.
Qed.

(** Reading a table: the words on the disk, and one more buffer in use. *)
Lemma read_fat_ok p b b32 : healthy p → bytes_per_sector b = 512 → table_size_16 b = 0 →
  addressable (reserved_sector_count b) (table_size b32) →
  ∃ a p', read_fat b b32 p = Done (Some (table_words p (reserved_sector_count b) (table_size b32), []), p')
    ∧ healthy p' ∧ same_disk p p' ∧ live p !! a = None ∧ live p' = <[a := 512 * table_size b32]> (live p).
Proof.
  intros Hh Hb H16 Hadr. assert (Hts : 0 < table_size b32) by apply Hadr. set (n := table_size b32 * 512).
  assert (Hn : n / 4 = 128 * table_size b32).
  { unfold n. replace (table_size b32 * 512) with (128 * table_size b32 * 4) by lia. by rewrite Z.div_mul. }
  destruct (alloc_healthy n p Hh) as (a & p1 & Ha & Hh1). destruct (read_healthy _ _ p1 Hadr Hh1) as (d & p2 & Hr & Hh2).
  pose proof (read_length _ _ _ _ _ Hr) as [Hdl _]. pose proof (read_data _ _ _ _ _ Hadr Hr) as Hd.
  assert (Hdisk1 : same_disk p p1) by (intros t; pose proof (alloc_disk n p t) as E; by rewrite Ha in E).
  assert (Hdf : d = sectors p (reserved_sector_count b) (Z.to_nat (table_size b32))).
  { rewrite Hd. unfold sectors. rewrite Z2Nat.id by lia. f_equal. apply map_ext. intros t. apply Hdisk1. }
  exists a, p2. split; [|split; [done|split; [|split]]].
  - unfold read_fat. rewrite H16, Hb. cbn [negb Z.eqb]. fold n.
    rewrite (kbind_done (alloc n) _ p (Some a) p1) by (unfold alloc; by rewrite Ha).
    rewrite (ktry_some (port_read _ _ _) _ p1 d p2).
    + unfold kret. rewrite Hn. do 4 f_equal; [by rewrite Hdf|]. apply drop_ge. lia.
    + unfold port_read. rewrite length_replicate. rewrite (proj2 (Z.ltb_ge _ _)) by (unfold n; lia).
      rewrite Hr. do 3 f_equal. unfold splice. rewrite take_0, drop_ge by (rewrite length_replicate, Hdl; unfold n; lia).
      apply app_nil_r.
  - intros t. pose proof (read_disk (reserved_sector_count b) (table_size b32) p1 t) as E. rewrite Hr in E. rewrite <- Hdisk1. exact E.
  - by apply (alloc_live n p a p1).
  - pose proof (read_live (reserved_sector_count b) (table_size b32) p1) as E. rewrite Hr in E. cbn in E. rewrite E.
    destruct (alloc_live n p a p1 Ha) as [_ ->]. f_equal. unfold n. lia.
Qed.

Lemma table_addressable s : geometry s → addressable (reserved_sector_count (bs s)) (table_size (bs_32 s)).
Proof.
  intros G. pose proof (g_table _ G). pose proof (g_tables _ G). pose proof (g_spc _ G). pose proof (g_end _ G).
  pose proof (g_reserved _ G). pose proof (g_entries _ G). split; [lia|]. split; [lia|]. nia.
Qed.

(** Persisting the table writes every copy of it, so that mounting the volume
    again reads the same table back; sectors outside the tables keep their
    contents. *)
Theorem persist_fat_read_fat s :
  fs_ok s → Forall is_u32 (fat s) →
  ∃ p' p'', persist_fat s = Done (Some tt, set_port p' s)
    ∧ (∀ k, 0 ≤ k < table_count (bs s) → sectors p' (fat_start_sector s k) (table_len s) = fat_bytes s)
    ∧ (∀ t, ¬ (reserved_sector_count (bs s) ≤ t < data_start s) → disk p' t = disk (port s) t)
    ∧ read_fat (bs s) (bs_32 s) p' = Done (Some (fat s, []), p'').
Proof.
  intros Hs Hf. destruct (persist_fat_ok s Hs) as (p' & Hp & Hh & Hl & Hfr & Ht). destruct Hs as [G _].
  destruct (read_fat_ok p' (bs s) (bs_32 s) Hh (g_bps _ G) (g_table16 _ G) (table_addressable s G)) as (a & p2 & Hr & _).
  exists p', p2. split; [done|]. split; [done|]. split; [done|]. rewrite Hr. do 4 f_equal.
  apply table_words_bytes; [done..|]. pose proof (g_tables _ G). rewrite <- (Ht 0) by lia. unfold fat_start_sector. by rewrite Z.mul_0_l, Z.add_0_r.
Qed.
End Volume.

(** ** A sample volume: one table of one sector, one sector per cluster, the
    root directory in cluster 2 and a 600-byte file in clusters 3 and 4 *)

Definition sample_boot : FatBootSector := {|
  bootjmp := [0xEB; 0x58; 0x90]; oem_name := replicate 8 32; bytes_per_sector := 512;
  sectors_per_cluster := 1; reserved_sector_count := 1; table_count := 1; root_entry_count := 0;
  total_sectors_16 := 0; media_type := 0xF8; table_size_16 := 0; sectors_per_track := 0;
  head_side_count := 0; hidden_sector_count := 0; total_sectors_32 := 128 |}.
Definition sample_boot_32 : Fat32ExtendedBootSector := {|
  table_size := 1; extended_flags := 0; fat_version := 0; root_cluster := 2; fat_info := 0;
  backup_bs_sector := 0; reserved_0 := replicate 12 0; drive_number := 0; reserved_1 := 0;
  boot_signature := 0x29; volume_id := 1; volume_label := replicate 11 32;
  fat_type_label := replicate 8 32 |}.

Definition sample_fat : FatBuffer :=
  [0x0FFFFFF8; 0x0FFFFFFF; 0x0FFFFFFF; 4; 0x0FFFFFFF] ++ replicate 123 0.

(** A file of 600 bytes whose chain starts at cluster 3; its entry is the second
    of the root directory, after the label of the volume. *)
Definition sample_file : DirectoryEntry :=
  set_size 600 (set_cluster 3 (blank_entry (replicate 11 65) 0x20 0 0)).
Definition sample_fs : FATFileSystem RamDisk := {|
  port := {| rd_sectors := {[ 2 := entry_bytes (blank_entry (replicate 11 86) 0x08 0 0) ++ entry_bytes sample_file;
                              3 := replicate 512 97; 4 := replicate 88 98 ]};
             rd_live := ∅; rd_faults := [] |};
  fat := sample_fat; fat_rest := []; bs := sample_boot; bs_32 := sample_boot_32 |}.
Definition sample_location : DirectoryEntryLocation :=
  {| loc_cluster := 2; loc_index := 1; loc_offset := 32 |}.

Lemma sample_fs_ok : fs_ok sample_fs.
Proof. split; [|by constructor]. by split. Qed.

Lemma wf_sample_file : wf_entry sample_file.
Proof.
  split; [done|apply Forall_replicate; unfold is_byte; lia|..];
    unfold is_byte, is_u16, is_u32; vm_compute; intuition discriminate.
Qed.

Lemma persist_read_directory_entry_witness :
  ∃ s' p', persist_directory_entry sample_location sample_file sample_fs = Done (Some tt, s')
    ∧ read_directory_entry sample_location s' = Done (Some sample_file, set_port p' s').
Proof.
  destruct (persist_read_directory_entry sample_fs sample_location sample_file) as (s' & p' & H1 & _ & H2).
  - exact sample_fs_ok.
  - repeat split; discriminate.
  - exact wf_sample_file.
  - exists s', p'. split; [exact H1 | exact H2].
Defined.

Lemma persist_fat_read_fat_witness :
  ∃ p' p'', persist_fat sample_fs = Done (Some tt, set_port p' sample_fs)
    ∧ read_fat sample_boot sample_boot_32 p' = Done (Some (sample_fat, []), p'').
Proof.
  destruct (persist_fat_read_fat sample_fs) as (p' & p'' & H1 & _ & _ & H2).
  - exact sample_fs_ok.
  - unfold is_u32. apply Forall_app_2; [|by apply Forall_replicate]. repeat constructor; discriminate.
  - exists p', p''. split; [exact H1 | exact H2].
Defined.
