(* ===== verification/FatFile.v ===== *)
(** * FatFile: contents of files (read_file, write_existing_file, truncation)

    The abstract file of a directory entry is the first [size] bytes of the
    clusters of its chain ([file_bytes]).  Reading returns them, writing splices
    new bytes into them, growing appends zeros, shrinking takes a prefix; each
    leaves every other cluster alone. *)

From S2P Require Import Prelude Text FatNames FatTable BlockDev FatFs FatVolume.

(** ** Splicing across a boundary *)

Section Splice.
Context {A : Type}.
Implicit Types l k d : list A.

Lemma splice_app_l l k o d :
  (o + length d ≤ length l)%nat → splice (l ++ k) o d = splice l o d ++ k.
Proof.
  intros Hl. unfold splice. rewrite take_app_le, drop_app_le by lia. by rewrite <-!app_assoc.
Qed.

Lemma splice_app_cross l k o d :
  (o ≤ length l)%nat → (length l ≤ o + length d)%nat →
  splice (l ++ k) o d = splice l o (take (length l - o) d) ++ splice k 0 (drop (length l - o) d).
Proof.
  intros Ho Hl. unfold splice. rewrite take_app_le by lia. rewrite drop_app_ge by lia.
  rewrite length_take, length_drop, Nat.min_l by lia.
  rewrite (drop_ge l) by lia. rewrite app_nil_r, take_0. cbn [app Nat.add].
  rewrite <-app_assoc. f_equal. rewrite app_assoc, take_drop. f_equal. f_equal. lia.
Qed.

Lemma splice_app_r l k o d : splice (l ++ k) (length l + o) d = l ++ splice k o d.
Proof.
  unfold splice. rewrite take_app_add, <-Nat.add_assoc, drop_app_add. by rewrite <-app_assoc.
Qed.

Lemma take_splice_in l n o d :
  (o + length d ≤ n)%nat → (n ≤ length l)%nat → take n (splice l o d) = splice (take n l) o d.
Proof.
  intros Ho Hn. rewrite <-(take_drop n l) at 1.
  rewrite splice_app_l by (rewrite length_take; lia).
  apply take_app_length'. rewrite length_splice; rewrite length_take; lia.
Qed.
End Splice.

Section Files.
Context {P : Type} `{BlockDevice P} `{UnicodeCase} (fuel : nat).
Implicit Types s : FATFileSystem P.

(** All bytes of a chain. *)
Definition chain_bytes s (cs : list Z) : list Z := concat (map (cluster_bytes s) cs).
Definition file_bytes s (cs : list Z) (size : Z) : list Z := take (Z.to_nat size) (chain_bytes s cs).

(** The clusters of a file: a chain of valid clusters with room for its size. *)
Definition file_chain s (e : DirectoryEntry) (cs : list Z) : Prop :=
  chain (fat s) (get_cluster e) cs ∧ Forall (valid s) cs
  ∧ de_size e ≤ cluster_size s * Z.of_nat (length cs).

Lemma length_chain_bytes s cs :
  geometry s → Z.of_nat (length (chain_bytes s cs)) = cluster_size s * Z.of_nat (length cs).
Proof.
  intros G. unfold chain_bytes. induction cs as [|c cs IH]; cbn; [lia|].
  rewrite length_app, Nat2Z.inj_add, IH, length_cluster_bytes by done. lia.
Qed.

(** Writing elsewhere does not change a chain's bytes. *)
Lemma chain_bytes_other s s' ws new cs :
  writes s s' ws new → Forall (valid s) cs → cs ## ws → chain_bytes s' cs = chain_bytes s cs.
Proof.
  intros Hw Hv Hd. unfold chain_bytes. f_equal. apply map_ext_in. intros c Hin.
  apply list_elem_of_In in Hin. rewrite Forall_forall in Hv. apply Hw; [auto|]. intros Hc. by apply (Hd c).
Qed.

Lemma chain_cons_inv f c cs :
  chain f c cs → ∃ r, cs = c :: r ∧
    ((r = [] ∧ next_cluster f c = None) ∨ ∃ n, next_cluster f c = Some n ∧ chain f n r).
Proof. inversion 1; subst; eexists; split; eauto. Qed.

(** ** Seeking *)

Lemma seek_body_run size c o s :
  seek_body size (c, o) s =
    Done (if size <=? o
          then match next_cluster (fat s) c with None => inr None | Some n => inl (n, o - size) end
          else inr (Some (c, o)), s).
Proof.
  unfold seek_body, fat_next, kgets, kbind, kret. destruct (_ <=? _); [|done].
  by destruct (next_cluster (fat s) c).
Qed.

Lemma seek_ok s size c cs off n :
  0 < size → chain (fat s) c cs → 0 ≤ off < size * Z.of_nat (length cs) → (length cs ≤ n)%nat →
  ∃ pre suf c' o, cs = pre ++ suf ∧ chain (fat s) c' suf ∧ 0 ≤ o < size
    ∧ off = size * Z.of_nat (length pre) + o
    ∧ loopM n (seek_body size) (c, off) s = Done (Some (c', o), s).
Proof.
  intros Hsz. revert c cs off. induction n as [|n IH]; intros c cs off Hch Hoff Hn.
  { destruct cs; [|simpl in Hn; lia]. inversion Hch. }
  rewrite loopM_step. unfold kbind. rewrite seek_body_run.
  destruct (Z.leb_spec size off) as [Hle|Hlt].
  - apply chain_cons_inv in Hch as (r & -> & [[-> Hnx]|(nx & Hnx & Hch)]).
    { simpl in Hoff. lia. }
    rewrite Hnx. cbn [length] in *.
    destruct (IH nx r (off - size)) as (pre & suf & c' & o & -> & Hc & Ho & Hof & Hl); [done|lia|lia|].
    exists (c :: pre), suf, c', o. cbn [length]. repeat split; [done|lia|lia|lia|done].
  - exists [], cs, c, off. repeat split; [done|lia|lia|simpl; lia].
Qed.

(** ** Copying into a chain

    [write_existing_file] and [zero_file_range] share their loop; what they need
    of one iteration is [copy_step]. *)

Section Copy.
Context {R : Type} (body : Z * Z * Z → kst (FATFileSystem P) (Z * Z * Z + option R)).
Context (size : Z) (data : list Z) (result : R).

Abbreviation len := (Z.of_nat (length data)).

Definition copy_step : Prop := ∀ s c o w,
  fs_ok s → cluster_size s = size → valid s c → 0 ≤ o < cluster_size s → 0 ≤ w < len →
  let n := Z.min (len - w) (cluster_size s - o) in
  let chunk := take (Z.to_nat n) (drop (Z.to_nat w) data) in
  ∃ s', writes s s' [c] (splice (cluster_bytes s c) (Z.to_nat o) chunk)
    ∧ body (c, o, w) s =
        Done (if w + n =? len then inr (Some result)
              else match next_cluster (fat s) c with
                   | None => inr None
                   | Some nx => inl (nx, 0, w + n)
                   end, s').

Lemma copy_loop_ok n s c o w cs :
  copy_step → fs_ok s → cluster_size s = size → chain (fat s) c cs → Forall (valid s) cs →
  0 ≤ o < cluster_size s → 0 ≤ w < len → o + (len - w) ≤ cluster_size s * Z.of_nat (length cs) →
  (length cs ≤ n)%nat →
  ∃ s', loopM n body (c, o, w) s = Done (Some result, s')
    ∧ writes s s' cs (splice (chain_bytes s cs) (Z.to_nat o) (drop (Z.to_nat w) data)).
Proof.
  intros Hstep. revert s c o w cs. induction n as [|n IH]; intros s c o w cs Hs Hsz Hch Hv Ho Hw Hroom Hn.
  { destruct cs; [inversion Hch | simpl in Hn; lia]. }
  pose proof (chain_NoDup _ _ _ Hch) as Hnd. assert (G : geometry s) by apply Hs.
  apply chain_cons_inv in Hch as (r & -> & Hch). apply NoDup_cons in Hnd as [Hcr Hnd].
  apply Forall_cons in Hv as [Hc Hv].
  destruct (Hstep s c o w Hs Hsz Hc Ho Hw) as (s1 & Hws & Hb). cbv zeta in Hws, Hb.
  pose proof (length_cluster_bytes s c G) as Hcl.
  rewrite loopM_step, (kbind_done _ _ _ _ _ Hb). unfold chain_bytes. cbn [map concat].
  fold (chain_bytes s r).
  destruct (Z.leb_spec (len - w) (cluster_size s - o)) as [Hfit|Hcross].
  - rewrite Z.min_l in * by done. rewrite (proj2 (Z.eqb_eq _ _)) by lia. exists s1. split; [done|].
    rewrite take_ge in Hws by (rewrite length_drop; lia).
    rewrite splice_app_l by (rewrite length_drop; lia).
    apply writes_cons with s1; [done| |done|done].
    pose proof (writes_fs_ok _ _ _ _ Hs Hws) as Hs1.
    rewrite <-(chain_bytes_other s s1 [c] _ r Hws) by (done || set_solver).
    apply writes_refl, Hs1.
  - rewrite Z.min_r in * by lia. rewrite (proj2 (Z.eqb_neq _ _)) by lia.
    destruct Hch as [[-> _]|(nx & Hnx & Hch)]. { simpl in Hroom. lia. }
    rewrite Hnx. cbn [length] in *.
    pose proof (writes_fs_ok _ _ _ _ Hs Hws) as Hs1. pose proof (writes_fat _ _ _ _ Hws) as Hf1.
    assert (Hcs1 : cluster_size s1 = cluster_size s) by (by destruct Hws as [[p1 ->] _ _ _ _ _]).
    assert (Hv1 : Forall (valid s1) r).
    { unfold valid. rewrite Hf1. exact Hv. }
    destruct (IH s1 nx 0 (w + (cluster_size s - o)) r) as (s' & Hl' & Hw');
      try congruence; rewrite ?Hcs1, ?Hf1; try done; try lia.
    exists s'. split; [done|]. rewrite splice_app_cross by (try rewrite length_drop; lia).
    replace (length (cluster_bytes s c) - Z.to_nat o)%nat with (Z.to_nat (cluster_size s - o)) by lia.
    apply writes_cons with s1; [done| |done|done].
    rewrite drop_drop. replace (Z.to_nat w + Z.to_nat (cluster_size s - o))%nat
      with (Z.to_nat (w + (cluster_size s - o))) by lia.
    by rewrite <-(chain_bytes_other s s1 [c] _ r Hws) by (done || set_solver).
Qed.
End Copy.

Lemma chunk_update s c o (chunk : list Z) :
  fs_ok s → valid s c → 0 ≤ o → o + Z.of_nat (length chunk) ≤ cluster_size s → bytes chunk →
  ∃ r s1 s2 s3, read_cluster c s = Done (Some r, s1)
    ∧ write_cluster c (splice (reg_bytes r) (Z.to_nat o) chunk) s1 = Done (true, s2)
    ∧ deallocate_region r s2 = Done (tt, s3)
    ∧ writes s s3 [c] (splice (cluster_bytes s c) (Z.to_nat o) chunk).
Proof.
  intros Hs Hv Ho Hl Hb. assert (G : geometry s) by apply Hs.
  pose proof (length_cluster_bytes s c G) as Hcl.
  destruct (update_cluster s c (λ b, splice b (Z.to_nat o) chunk)) as (r & s1 & s2 & s3 & E1 & _ & E3 & E4 & E5);
    [done|done| | |].
  { rewrite length_splice_Z; [done|lia]. }
  { apply bytes_splice; [apply bytes_cluster_bytes|done]. }
  by exists r, s1, s2, s3.
Qed.

Lemma length_chunk {A} (data : list A) w n :
  0 ≤ w → 0 ≤ n → w + n ≤ Z.of_nat (length data) →
  Z.of_nat (length (take (Z.to_nat n) (drop (Z.to_nat w) data))) = n.
Proof. intros. rewrite length_take, length_drop. lia. Qed.

Lemma write_body_step size data :
  bytes data → copy_step (write_body size data) size data (Z.of_nat (length data)).
Proof.
  intros Hb s c o w Hs Hsz Hv Ho Hw. cbv zeta. subst size.
  set (n := Z.min _ _). set (chunk := take _ _).
  assert (Z.of_nat (length chunk) = n) as Hcl by (apply length_chunk; lia).
  destruct (chunk_update s c o chunk) as (r & s1 & s2 & s3 & E1 & E2 & E3 & E4);
    [done|done|lia|lia|by apply Forall_take, Forall_drop|].
  exists s3. split; [done|]. unfold write_body.
  rewrite (proj2 (Z.ltb_lt _ _)) by lia. rewrite (kbind_done _ _ _ _ _ E1). fold n chunk.
  rewrite (kbind_done _ _ _ _ _ E2), (kbind_done _ _ _ _ _ E3). cbn [negb].
  destruct (Z.eqb_spec (w + n) (Z.of_nat (length data))) as [E|]; [by rewrite E|].
  unfold fat_next, kgets, kbind. rewrite (writes_fat _ _ _ _ E4). by destruct (next_cluster _ _).
Qed.

Lemma zero_body_step size n :
  0 ≤ n → copy_step (zero_body size n) size (replicate (Z.to_nat n) 0) tt.
Proof.
  intros Hn s c o w Hs Hsz Hv Ho Hw. cbv zeta. subst size.
  rewrite length_replicate, Z2Nat.id in * by done.
  set (k := Z.min _ _). rewrite drop_replicate, take_replicate.
  replace (Z.to_nat k `min` (Z.to_nat n - Z.to_nat w))%nat with (Z.to_nat k) by lia.
  destruct (chunk_update s c o (replicate (Z.to_nat k) 0)) as (r & s1 & s2 & s3 & E1 & E2 & E3 & E4);
    [done|done|lia|rewrite length_replicate; lia|apply Forall_replicate; unfold is_byte; lia|].
  exists s3. split; [done|]. unfold zero_body.
  rewrite (proj2 (Z.ltb_lt _ _)) by lia. rewrite (kbind_done _ _ _ _ _ E1). fold k.
  rewrite (kbind_done _ _ _ _ _ E2), (kbind_done _ _ _ _ _ E3). cbn [negb].
  destruct (w + k =? n); [done|].
  unfold fat_next, kgets, kbind. rewrite (writes_fat _ _ _ _ E4). by destruct (next_cluster _ _).
Qed.

(** ** Writing *)

Lemma writes_extend s s' pre suf new :
  writes s s' suf new → Forall (valid s) pre → pre ## suf →
  writes s s' (pre ++ suf) (chain_bytes s pre ++ new).
Proof.
  intros Hw Hv Hd. pose proof (chain_bytes_other _ _ _ _ _ Hw Hv Hd) as Hpre.
  destruct Hw as [Hp Hh Hl Hn Ho Hlow]. split; [done|done|done| | |done].
  - rewrite map_app, concat_app. unfold chain_bytes in Hpre. by rewrite Hpre, Hn.
  - intros c Hc Hin. apply Ho; [done|]. intros Hc'. apply Hin, elem_of_app. by right.
Qed.

Lemma chain_suffix_disjoint f c pre suf : chain f c (pre ++ suf) → pre ## suf.
Proof. intros Hc. apply chain_NoDup, NoDup_app in Hc as (_ & Hd & _). exact Hd. Qed.

(** Seeking and then copying, as [write_existing_file] and [zero_file_range] do. *)
Lemma seek_copy_ok {R} body data (result : R) s c cs off :
  copy_step body (cluster_size s) data result → fs_ok s →
  chain (fat s) c cs → Forall (valid s) cs → data ≠ [] → 0 ≤ off →
  off + Z.of_nat (length data) ≤ cluster_size s * Z.of_nat (length cs) → (length cs ≤ fuel)%nat →
  ∃ s', ktry (seek fuel (cluster_size s) c off) (λ pos, loopM fuel body (pos, 0)) s = Done (Some result, s')
    ∧ writes s s' cs (splice (chain_bytes s cs) (Z.to_nat off) data).
Proof.
  intros Hstep Hs Hch Hv Hne Hoff Hroom Hfuel. assert (G : geometry s) by apply Hs.
  pose proof (cluster_size_pos s G) as Hpos.
  assert (0 < length data)%nat by (destruct data; [done|simpl; lia]).
  destruct (seek_ok s (cluster_size s) c cs off fuel) as (pre & suf & c' & o & -> & Hch' & Ho & -> & Hseek);
    [lia|done|lia|done|].
  unfold seek. rewrite (ktry_some _ _ _ _ _ Hseek).
  apply Forall_app in Hv as [Hvp Hvs]. rewrite length_app in *.
  destruct (copy_loop_ok body (cluster_size s) data result fuel s c' o 0 suf) as (s' & Hl & Hw);
    try done; try lia.
  exists s'. split; [done|].
  assert (Hpl : Z.of_nat (length (chain_bytes s pre)) = cluster_size s * Z.of_nat (length pre))
    by (by apply length_chain_bytes).
  replace (Z.to_nat (cluster_size s * Z.of_nat (length pre) + o))
    with (length (chain_bytes s pre) + Z.to_nat o)%nat by lia.
  unfold chain_bytes at 1. rewrite map_app, concat_app. fold (chain_bytes s pre) (chain_bytes s suf).
  rewrite splice_app_r. apply writes_extend; [done|done|]. by eapply chain_suffix_disjoint.
Qed.

Lemma file_chain_cluster s e cs : file_chain s e cs → 2 ≤ get_cluster e.
Proof.
  intros (Hch & Hv & _). apply chain_head in Hch as [r ->]. apply Forall_cons in Hv as [[Hc _] _]. done.
Qed.

Lemma write_existing_file_run s e cs off data :
  fs_ok s → de_attributes e = 32 → is_u32 (de_size e) → file_chain s e cs →
  0 ≤ off → off + Z.of_nat (length data) ≤ de_size e → bytes data → (length cs ≤ fuel)%nat →
  ∃ s', write_existing_file fuel e off data s = Done (Some (Z.of_nat (length data)), s')
    ∧ writes s s' cs (splice (chain_bytes s cs) (Z.to_nat off) data).
Proof.
  intros Hs Ha Hsz Hfc Hoff Hend Hb Hfuel. pose proof (file_chain_cluster _ _ _ Hfc) as Hc2.
  destruct Hfc as (Hch & Hv & Hroom). unfold write_existing_file. rewrite Ha. cbn [Z.eqb negb Pos.eqb].
  unfold is_u32 in Hsz. unfold checked_add. rewrite (proj2 (Z.leb_le _ _)) by (unfold usize_max; lia).
  rewrite (ktry_some _ _ _ _ _ eq_refl). rewrite (proj2 (Z.ltb_ge _ _)) by lia.
  case_bool_decide as Hd.
  { subst data. exists s. split; [done|]. rewrite splice_nil. apply writes_refl, Hs. }
  rewrite (kbind_done _ _ _ _ _ eq_refl). rewrite (proj2 (Z.eqb_neq _ _)) by lia.
  apply seek_copy_ok; try done; [by apply write_body_step|lia].
Qed.

(** ** Reading *)

Lemma read_loop_ok n s c cs a size acc :
  fs_ok s → chain (fat s) c cs → Forall (valid s) cs →
  Z.of_nat (length acc) < size → size ≤ Z.of_nat (length acc) + cluster_size s * Z.of_nat (length cs) →
  (length cs ≤ n)%nat →
  ∃ p', loopM n (read_file_body a size) (c, acc) s
      = Done (Some (acc ++ take (Z.to_nat size - length acc) (chain_bytes s cs)), set_port p' s)
    ∧ healthy p' ∧ same_disk (port s) p' ∧ live p' = live (port s).
Proof.
  revert s c cs acc. induction n as [|n IH]; intros s c cs acc Hs Hch Hv Hlt Hroom Hn.
  { destruct cs; [inversion Hch|simpl in Hn; lia]. }
  apply chain_cons_inv in Hch as (r & -> & Hch). apply Forall_cons in Hv as [Hc Hv].
  assert (G : geometry s) by apply Hs.
  destruct (read_cluster_ok s c Hs Hc) as (b & p1 & Hr & Hh1 & Hd1 & Hbn & Hl1).
  pose proof (length_cluster_bytes s c G) as Hcl. pose proof (cluster_size_pos s G).
  rewrite loopM_step. unfold kbind at 1, read_file_body at 1. rewrite (proj2 (Z.ltb_lt _ _)) by done.
  rewrite (kbind_done _ _ _ _ _ Hr). cbn [reg_bytes].
  assert (reg_size {| reg_addr := b; reg_bytes := cluster_bytes s c |} = cluster_size s) as Hrs by exact Hcl.
  rewrite !Hrs.
  destruct (deallocate_ok (set_port p1 s) b (cluster_bytes s c) (live (port s)))
    as (p2 & Hde & Hh2 & Hd2 & Hl2); [done| |done|].
  { cbn. by rewrite Hl1, Hcl. }
  rewrite (kbind_done _ _ _ _ _ Hde). unfold chain_bytes. cbn [map concat]. fold (chain_bytes s r).
  assert (Hd : same_disk (port s) p2) by (intros t; rewrite (Hd2 t); apply Hd1).
  set (k := Z.min (cluster_size s) (size - Z.of_nat (length acc))).
  set (acc' := acc ++ take (Z.to_nat k) (cluster_bytes s c)).
  assert (Hal : Z.of_nat (length acc') = Z.of_nat (length acc) + k).
  { unfold acc'. rewrite length_app, length_take. lia. }
  rewrite Hal. destruct (Z.eqb_spec (Z.of_nat (length acc) + k) size) as [Hfin|Hmore].
  - exists p2. split; [|done]. unfold kret. do 3 f_equal. unfold acc'. f_equal.
    rewrite take_app_le by lia. f_equal. lia.
  - destruct Hch as [[-> _]|(nx & Hnx & Hch)]. { simpl in Hroom. lia. }
    unfold kbind at 1, fat_next, kgets. cbn [fat set_port]. rewrite Hnx. unfold kret.
    cbn [length] in *.
    destruct (IH (set_port p2 s) nx r acc') as (p' & Hl' & Hh' & Hd' & Hlv');
      [split; [by apply geometry_set_port|done]|done|done|lia| |lia|].
    { change (cluster_size (set_port p2 s)) with (cluster_size s). lia. }
    exists p'. split; [|split; [done|split]].
    + etransitivity; [exact Hl'|]. do 3 f_equal.
      replace (Z.to_nat size - length acc')%nat
        with (Z.to_nat size - length acc - length (cluster_bytes s c))%nat by lia. unfold acc'. rewrite <-app_assoc. f_equal.
      rewrite take_app_ge by lia. f_equal; [apply take_ge; lia|].
      assert (chain_bytes (set_port p2 s) r = chain_bytes s r) as ->.
      { unfold chain_bytes. f_equal. apply map_ext. intros. by apply cluster_bytes_ext. }
      done.
    + intros t. rewrite (Hd' t). apply Hd.
    + rewrite Hlv'. done.
Qed.

Lemma read_file_run s e cs :
  fs_ok s → de_attributes e = 32 → 0 < de_size e → file_chain s e cs → (length cs ≤ fuel)%nat →
  ∃ a p', read_file fuel e s
      = Done (Some {| reg_addr := a; reg_bytes := file_bytes s cs (de_size e) |}, set_port p' s)
    ∧ healthy p' ∧ same_disk (port s) p'
    ∧ live (port s) !! a = None ∧ live p' = <[a := de_size e]> (live (port s)).
Proof.
  intros Hs Ha Hsz Hfc Hfuel. pose proof (file_chain_cluster _ _ _ Hfc) as Hc2.
  destruct Hfc as (Hch & Hv & Hroom). unfold read_file. rewrite Ha. cbn [Z.eqb negb Pos.eqb].
  rewrite (proj2 (Z.eqb_neq _ _)) by lia. destruct Hs as [G Hh].
  destruct (alloc_healthy (de_size e) (port s) Hh) as (a & p1 & Hal & Hh1).
  assert (Hd1 : same_disk (port s) p1).
  { intros t. pose proof (alloc_disk (de_size e) (port s) t) as E. by rewrite Hal in E. }
  apply alloc_live in Hal as Hlv. destruct Hlv as [Hna Hlv].
  rewrite (ktry_some (on_port (alloc (de_size e))) _ s a (set_port p1 s))
    by (unfold on_port, zoom, alloc; by rewrite Hal).
  rewrite (proj2 (Z.eqb_neq _ _)) by lia.
  destruct (read_loop_ok fuel (set_port p1 s) (get_cluster e) cs a (de_size e) [])
    as (p' & Hl & Hh' & Hd' & Hlv'); try done.
  { split; [by apply geometry_set_port|done]. }
  rewrite (ktry_some _ _ _ _ _ Hl). exists a, p'. split; [|split; [done|split; [|split; [done|]]]].
  - unfold kret. do 4 f_equal. cbn [app length]. rewrite Nat.sub_0_r. unfold file_bytes. f_equal.
    unfold chain_bytes. f_equal. apply map_ext. intros. by apply cluster_bytes_ext.
  - intros t. rewrite (Hd' t). apply Hd1.
  - by rewrite Hlv'.
Qed.

(** ** Files through their directory entries *)

(** The file object [f] names a regular file with clusters [cs]: its entry is on
    disk where [f] says, outside the clusters of the file. *)
Record regular_file s (f : FATFile) (cs : list Z) : Prop := {
  rf_location : location_ok s (file_location f);
  rf_attributes : de_attributes (entry_at s (file_location f)) = 32;
  rf_chain : file_chain s (entry_at s (file_location f)) cs;
  rf_outside : loc_cluster (file_location f) ∉ cs;
  rf_fuel : (length cs ≤ fuel)%nat;
}.

Lemma wf_entry_at s l : geometry s → location_ok s l → wf_entry (entry_at s l).
Proof.
  intros G (_ & Hi & Ho & He). pose proof (length_cluster_bytes s (loc_cluster l) G).
  unfold entry_size in *. apply wf_entry_of_bytes.
  - apply bytes_field, bytes_cluster_bytes.
  - apply length_field. lia.
Qed.

(** Writing an entry back where it was read changes nothing. *)
Lemma splice_entry_at s l :
  geometry s → location_ok s l →
  splice (cluster_bytes s (loc_cluster l)) (Z.to_nat (loc_offset l)) (entry_bytes (entry_at s l))
  = cluster_bytes s (loc_cluster l).
Proof.
  intros G (_ & Hi & Ho & He). pose proof (length_cluster_bytes s (loc_cluster l) G).
  unfold entry_size in *. unfold entry_at. rewrite entry_bytes_of_bytes.
  - unfold splice. rewrite length_field by lia. unfold field.
    rewrite <-drop_drop, take_drop. apply take_drop.
  - apply bytes_field, bytes_cluster_bytes.
  - apply length_field. lia.
Qed.

Lemma entry_at_ext s s' l :
  cluster_bytes s' (loc_cluster l) = cluster_bytes s (loc_cluster l) → entry_at s' l = entry_at s l.
Proof. intros E. unfold entry_at. by rewrite E. Qed.

(** Reading the entry first, in a state that then differs only in the heap. *)
Lemma with_entry_read {A} s l (k : DirectoryEntry → kst (FATFileSystem P) (option A)) :
  fs_ok s → location_ok s l →
  ∃ p', ktry (read_directory_entry l) k s = k (entry_at s l) (set_port p' s)
    ∧ fs_ok (set_port p' s) ∧ same_disk (port s) p' ∧ live p' = live (port s).
Proof.
  intros Hs Hl. destruct (read_directory_entry_ok s l Hs Hl) as (p' & Hr & Hh & Hd & Hlv).
  exists p'. rewrite (ktry_some _ _ _ _ _ Hr). split; [done|].
  split; [split; [apply geometry_set_port, Hs|done]|done].
Qed.

Lemma file_bytes_ext s p' cs n :
  same_disk (port s) p' → file_bytes (set_port p' s) cs n = file_bytes s cs n.
Proof.
  intros Hd. unfold file_bytes, chain_bytes. do 2 f_equal. apply map_ext. intros. by apply cluster_bytes_ext.
Qed.

Lemma file_read_ok s f cs :
  fs_ok s → regular_file s f cs → 0 < de_size (entry_at s (file_location f)) →
  let size := de_size (entry_at s (file_location f)) in
  ∃ a p', file_read fuel f s
      = Done (Some {| reg_addr := a; reg_bytes := file_bytes s cs size |}, set_port p' s)
    ∧ healthy p' ∧ same_disk (port s) p' ∧ live (port s) !! a = None ∧ live p' = <[a := size]> (live (port s)).
Proof.
  intros Hs [Hl Ha Hc Ho Hf] Hsz size. unfold file_read.
  edestruct (with_entry_read (A := Region) s) as (p1 & -> & Hs1 & Hd1 & Hl1); [done..|].
  destruct (read_file_run (set_port p1 s) (entry_at s (file_location f)) cs)
    as (a & p' & Hr & Hh & Hd & Hn & Hlv); try done.
  exists a, p'. rewrite Hr, file_bytes_ext by done. split; [done|]. split; [done|].
  split; [intros t; rewrite (Hd t); apply Hd1|]. cbn in Hn, Hlv. by rewrite Hl1 in Hn, Hlv.
Qed.

(** reading a regular file returns exactly the bytes its chain holds, up to
    its size, in a new buffer; the disk is not changed and the new buffer is the
    only memory that stays allocated. *)
Theorem file_read_spec s f cs :
  fs_ok s → regular_file s f cs → 0 < de_size (entry_at s (file_location f)) →
  let size := de_size (entry_at s (file_location f)) in
  ∃ a p', file_read fuel f s
      = Done (Some {| reg_addr := a; reg_bytes := file_bytes s cs size |}, set_port p' s)
    ∧ same_disk (port s) p' ∧ live (port s) !! a = None ∧ live p' = <[a := size]> (live (port s)).
Proof.
  intros Hs Hrf Hsz size. destruct (file_read_ok s f cs Hs Hrf Hsz) as (a & p' & Hr & _ & Hd & Hl).
  by exists a, p'.
Qed.

Lemma file_write_run s f cs off data :
  fs_ok s → regular_file s f cs → 0 ≤ off →
  off + Z.of_nat (length data) ≤ de_size (entry_at s (file_location f)) → bytes data →
  ∃ s', file_write fuel f off data s = Done (Some (Z.of_nat (length data)), s')
    ∧ writes s s' cs (splice (chain_bytes s cs) (Z.to_nat off) data).
Proof.
  intros Hs [Hl Ha Hc Ho Hf] Hoff Hend Hb. unfold file_write.
  edestruct (with_entry_read (A := Z) s) as (p1 & -> & Hs1 & Hd1 & Hl1); [done..|].
  set (e := entry_at s (file_location f)) in *. set (l := file_location f) in *.
  assert (G : geometry s) by apply Hs.
  assert (Hwf : wf_entry e) by (by apply wf_entry_at).
  destruct (write_existing_file_run (set_port p1 s) e cs off data) as (s2 & Hw & Hws);
    try done; [apply Hwf|].
  rewrite (ktry_some _ _ _ _ _ Hw). pose proof (writes_fs_ok _ _ _ _ Hs1 Hws) as Hs2.
  assert (Hlc : cluster_bytes s2 (loc_cluster l) = cluster_bytes s (loc_cluster l)).
  { destruct Hws as [_ _ _ _ Hother _]. rewrite (Hother (loc_cluster l)); [|apply Hl|done].
    by apply cluster_bytes_ext. }
  assert (Hl2 : location_ok s2 l) by (by destruct Hws as [[p2 ->] _ _ _ _ _]).
  destruct (persist_directory_entry_ok s2 l e Hs2 Hl2 Hwf) as (s3 & Hp & Hws3).
  rewrite (ktry_some _ _ _ _ _ Hp). exists s3. split; [done|].
  rewrite <-(entry_at_ext s s2 l Hlc : entry_at s2 l = e), splice_entry_at in Hws3 by (done || apply Hs2).
  eapply writes_noop; [|exact Hws3|apply Hc].
  apply writes_before with p1; [done|done|].
  assert (chain_bytes (set_port p1 s) cs = chain_bytes s cs) as <-; [|done].
  unfold chain_bytes. f_equal. apply map_ext. intros. by apply cluster_bytes_ext.
Qed.

(** A write leaves the file regular, with the same clusters and size. *)
Lemma regular_file_writes s s' f cs new :
  regular_file s f cs → writes s s' cs new →
  regular_file s' f cs ∧ entry_at s' (file_location f) = entry_at s (file_location f).
Proof.
  intros [Hl Ha Hc Ho Hf] Hw.
  assert (E : entry_at s' (file_location f) = entry_at s (file_location f)).
  { apply entry_at_ext. destruct Hw as [_ _ _ _ Hother _]. apply Hother; [apply Hl|done]. }
  split; [|done]. pose proof Hw as [[p' ->] _ _ _ _ _]. split; rewrite ?E; done.
Qed.

(** C5: what a write puts into a file is what the next read returns.  A write of
    [data] at [off] inside a regular file succeeds completely; reading then gives
    the old contents with [data] spliced in at [off].  The write changes no
    cluster of another file or directory and leaks no memory. *)
Theorem file_write_read s f cs off data :
  fs_ok s → regular_file s f cs → 0 < de_size (entry_at s (file_location f)) → 0 ≤ off →
  off + Z.of_nat (length data) ≤ de_size (entry_at s (file_location f)) → bytes data →
  let size := de_size (entry_at s (file_location f)) in
  ∃ s' a p', file_write fuel f off data s = Done (Some (Z.of_nat (length data)), s')
    ∧ (∀ c, valid s c → (c ∉ cs) → cluster_bytes s' c = cluster_bytes s c)
    ∧ live (port s') = live (port s)
    ∧ file_read fuel f s'
      = Done (Some {| reg_addr := a; reg_bytes := splice (file_bytes s cs size) (Z.to_nat off) data |},
              set_port p' s').
Proof.
  intros Hs Hrf Hsz Hoff Hend Hb size.
  destruct (file_write_run s f cs off data Hs Hrf Hoff Hend Hb) as (s' & Hw & Hws).
  destruct (regular_file_writes _ _ _ _ _ Hrf Hws) as [Hrf' He].
  assert (G : geometry s) by apply Hs.
  destruct (file_read_ok s' f cs) as (a & p' & Hr & _); [by eapply writes_fs_ok|done|by rewrite He|].
  exists s', a, p'. split; [done|]. split; [apply Hws|]. split; [apply Hws|].
  rewrite Hr, He. fold size. do 4 f_equal. unfold file_bytes.
  assert (chain_bytes s' cs = splice (chain_bytes s cs) (Z.to_nat off) data) as -> by apply Hws.
  destruct Hrf as [_ _ (_ & _ & Hroom) _ _]. fold size in Hroom.
  pose proof (length_chain_bytes s cs G).
  apply take_splice_in; lia.
Qed.
End Files.

(** ** Witnesses on the sample volume *)

Definition sample_handle : FATFile :=
  {| file_entry := sample_file; file_name := replicate 11 97; file_location := sample_location |}.

Lemma sample_entry : entry_at sample_fs sample_location = sample_file.
Proof. by vm_compute. Qed.

Lemma sample_file_chain : chain sample_fat 3 [3; 4].
Proof. apply (chain_next _ 3 4); [done|done|]. by apply chain_last. Qed.

Lemma sample_regular : regular_file 2 sample_fs sample_handle [3; 4].
Proof.
  split; cbn [file_location sample_handle]; rewrite ?sample_entry.
  - repeat split; discriminate.
  - done.
  - split; [exact sample_file_chain|]. split; [repeat constructor; discriminate|done].
  - by apply (bool_decide_eq_false_1 (2 ∈ [3; 4])).
  - done.
Qed.

Lemma file_read_spec_witness :
  ∃ a p', file_read 2 sample_handle sample_fs
    = Done (Some {| reg_addr := a; reg_bytes := file_bytes sample_fs [3; 4] 600 |}, set_port p' sample_fs).
Proof.
  destruct (file_read_spec 2 sample_fs sample_handle [3; 4] sample_fs_ok sample_regular)
    as (a & p' & Hr & _).
  - cbn [file_location sample_handle]. rewrite sample_entry. done.
  - exists a, p'. cbn [file_location sample_handle] in Hr. rewrite sample_entry in Hr. exact Hr.
Defined.

(** Four bytes across the boundary of the two clusters. *)
Lemma file_write_read_witness :
  ∃ s' a p', file_write 2 sample_handle 510 [1; 2; 3; 4] sample_fs = Done (Some 4, s')
    ∧ file_read 2 sample_handle s'
      = Done (Some {| reg_addr := a;
                      reg_bytes := splice (file_bytes sample_fs [3; 4] 600) 510 [1; 2; 3; 4] |},
              set_port p' s').
Proof.
  destruct (file_write_read 2 sample_fs sample_handle [3; 4] 510 [1; 2; 3; 4]
    sample_fs_ok sample_regular) as (s' & a & p' & Hw & _ & _ & Hr).
  - cbn [file_location sample_handle]. by rewrite sample_entry.
  - done.
  - cbn [file_location sample_handle]. by rewrite sample_entry.
  - repeat constructor; discriminate.
  - exists s', a, p'. cbn [file_location sample_handle] in Hr. rewrite sample_entry in Hr.
    split; [exact Hw | exact Hr].
Defined.
