(* ===== verification/FatTruncate.v ===== *)
(** * FatTruncate: changing the size of a file

    Shrinking keeps a prefix of the contents, returns the clusters past it to the
    table and rewrites the entry; growing appends zeros in newly allocated
    clusters.  Both keep the tables on disk equal to the one in memory. *)

From S2P Require Import Prelude Text FatNames FatTable BlockDev FatFs FatVolume FatFile.

Section Truncate.
Context {P : Type} `{BlockDevice P} `{UnicodeCase} (fuel : nat).
Implicit Types s : FATFileSystem P.

Lemma geometry_set_fat s f : geometry s → entries f = entries (fat s) → geometry (set_fat f s).
Proof. intros [] E. split; cbn; rewrite ?E; done. Qed.

(** Every copy of the table on disk is the one in memory. *)
Definition fat_synced s : Prop :=
  ∀ k, 0 ≤ k < table_count (bs s) →
    sectors (port s) (fat_start_sector s k) (table_len s) = fat_bytes s.

(** Clusters lie past the tables. *)
Lemma above_tables s c t :
  geometry s → valid s c → data_sector s c ≤ t → ¬ (reserved_sector_count (bs s) ≤ t < data_start s).
Proof. intros G [Hc _] Ht. pose proof (g_spc _ G). unfold data_sector in Ht. nia. Qed.

(** *** Operations on the table inside the driver *)

Lemma on_fat_done {A} (m : kst FatBuffer A) s a f :
  m (fat s) = Done (a, f) → on_fat m s = Done (a, set_fat f s).
Proof. intros E. unfold on_fat, zoom. by rewrite E. Qed.

Lemma cluster_at_ok s c pre k suf :
  chain (fat s) c (pre ++ k :: suf) → cluster_at c (length pre) s = Done (Some k, s).
Proof.
  revert c. induction pre as [|a pre IH]; intros c Hch.
  - by pose proof (chain_head _ _ _ Hch) as [r [= -> _]].
  - inversion Hch as [|? n ? Hr Hn Hch']; subst; [by destruct pre|]. cbn [length cluster_at].
    unfold ktry, kbind, fat_next, kgets. rewrite Hn. by apply IH.
Qed.

(** The table after a file was cut after cluster [k]. *)
Definition cut_table (f : FatBuffer) (k : Z) (suf : list Z) : FatBuffer :=
  clear_all suf (insertZ k FAT_CLUSTER_EOF f).

Lemma entries_cut_table f k suf : entries (cut_table f k suf) = entries f.
Proof. unfold cut_table. by rewrite entries_clear_all, entries_insertZ. Qed.

Lemma lookup_cut_table f c pre k suf i :
  chain f c (pre ++ k :: suf) →
  lookupZ (cut_table f k suf) i =
    if bool_decide (i ∈ suf) then Some FAT_CLUSTER_FREE
    else if bool_decide (k = i) then Some FAT_CLUSTER_EOF else lookupZ f i.
Proof.
  intros Hch. pose proof (chain_range _ _ _ (chain_split _ _ _ _ _ Hch)) as [Hk Hr]%Forall_cons.
  unfold cut_table. rewrite lookup_clear_all by (by rewrite entries_insertZ).
  case_bool_decide; [done|]. by apply lookupZ_insertZ.
Qed.

Lemma chain_cut_table f c pre k suf :
  chain f c (pre ++ k :: suf) → chain (cut_table f k suf) c (pre ++ [k]).
Proof.
  intros Hch. pose proof (chain_range _ _ _ (chain_split _ _ _ _ _ Hch)) as [Hk Hr]%Forall_cons.
  eapply chain_frame; [by eapply chain_cut|apply entries_clear_all|]. intros d Hd.
  unfold cut_table. rewrite lookup_clear_all by (by rewrite entries_insertZ).
  rewrite bool_decide_eq_false_2; [done|]. intros Hs.
  assert (NoDup (pre ++ [k] ++ suf)) as Hnd by (by eapply chain_NoDup).
  rewrite app_assoc in Hnd. apply NoDup_app in Hnd as (_ & Hdis & _). by apply (Hdis d).
Qed.

(** Freeing what hangs behind [k]. *)
Lemma free_rest s c pre k suf :
  chain (fat s) c (pre ++ k :: suf) →
  match next_cluster (fat s) k with
  | Some n => on_fat (free_chain n)
  | None => kret (Some tt)
  end (set_fat (insertZ k FAT_CLUSTER_EOF (fat s)) s) = Done (Some tt, set_fat (cut_table (fat s) k suf) s).
Proof.
  intros Hch. pose proof (chain_split _ _ _ _ _ Hch) as Hk.
  pose proof (chain_NoDup _ _ _ Hk) as [Hks _]%NoDup_cons.
  apply chain_cons_inv in Hk as (r & [= <-] & [[-> Hn]|(n & Hn & Hs)]); rewrite Hn; [done|].
  change (set_fat (cut_table (fat s) k suf) s)
    with (set_fat (cut_table (fat s) k suf) (set_fat (insertZ k FAT_CLUSTER_EOF (fat s)) s)).
  apply on_fat_done, free_chain_exact. eapply chain_frame; [exact Hs|apply entries_insertZ|].
  intros d Hd. apply lookupZ_insertZ_ne. by intros ->.
Qed.

(** [ceil (n / size)] clusters hold [n] bytes. *)
Lemma ceil_bounds n size :
  0 < size → 0 < n →
  let k := (n + size - 1) / size in 0 < k ∧ size * (k - 1) < n ≤ size * k.
Proof.
  intros Hs Hn k. pose proof (Z.div_mod (n + size - 1) size ltac:(lia)) as E.
  pose proof (Z.mod_pos_bound (n + size - 1) size Hs) as B. fold k in E. split; nia.
Qed.

(** *** What every resizing keeps *)

(** The boot record, on disk and in memory, and a table of 32-bit words. *)
Record boot_kept s s' : Prop := {
  bk_bs : bs s' = bs s;
  bk_bs_32 : bs_32 s' = bs_32 s;
  bk_low : ∀ t, t < reserved_sector_count (bs s) → disk (port s') t = disk (port s) t;
  bk_words : Forall is_u32 (fat s) → Forall is_u32 (fat s');
}.

Lemma boot_kept_trans s1 s2 s3 : boot_kept s1 s2 → boot_kept s2 s3 → boot_kept s1 s3.
Proof.
  intros [B1 C1 L1 W1] [B2 C2 L2 W2]. split; [congruence | congruence | | auto].
  intros t Ht. rewrite L2 by (by rewrite B1). by apply L1.
Qed.

Lemma boot_kept_port s p' : same_disk (port s) p' → boot_kept s (set_port p' s).
Proof. intros Hd. split; [done | done | | done]. intros t _. apply Hd. Qed.

Lemma boot_kept_fat s F : (Forall is_u32 (fat s) → Forall is_u32 F) → boot_kept s (set_fat F s).
Proof. by split. Qed.

Lemma boot_kept_writes s s' cs new : geometry s → writes s s' cs new → boot_kept s s'.
Proof.
  intros G Hw. pose proof Hw as [[p' ->] _ _ _ _ Hlow]. split; [done | done | | done]. intros t Ht. apply Hlow.
  pose proof (g_tables _ G). pose proof (g_table _ G). unfold data_start. nia.
Qed.

Lemma words_insertZ f i v : is_u32 v → Forall is_u32 f → Forall is_u32 (insertZ i v f).
Proof. intros Hv Hf. unfold insertZ. destruct (i <? 0); [done|]. by apply Forall_insert. Qed.

Lemma words_clear_all cs f : Forall is_u32 f → Forall is_u32 (clear_all cs f).
Proof.
  unfold clear_all. revert f. induction cs as [|c cs IH]; intros f Hf; [done|]. apply IH, words_insertZ; [|done].
  unfold is_u32, FAT_CLUSTER_FREE. lia.
Qed.

Lemma words_cut_table f k suf : Forall is_u32 f → Forall is_u32 (cut_table f k suf).
Proof. intros Hf. apply words_clear_all, words_insertZ; [|done]. unfold is_u32, FAT_CLUSTER_EOF. lia. Qed.

Lemma words_link_chain cs f : Forall is_u32 cs → Forall is_u32 f → Forall is_u32 (link_chain cs f).
Proof.
  intros Hcs. revert f. induction Hcs as [|c cs Hc Hcs IH]; intros f Hf; [done|]. apply IH, words_insertZ; [|done].
  destruct Hcs as [|x r Hx _]; [unfold is_u32, FAT_CLUSTER_EOF; lia | done].
Qed.

(** Making a changed table durable. *)
Lemma commit_table s F :
  fs_ok s → entries F = entries (fat s) → (Forall is_u32 (fat s) → Forall is_u32 F) →
  ∃ p', let s' := set_port p' (set_fat F s) in
    persist_fat (set_fat F s) = Done (Some tt, s') ∧ fs_ok s' ∧ fat_synced s' ∧ boot_kept s s'
    ∧ live p' = live (port s) ∧ ∀ x, valid s x → cluster_bytes s' x = cluster_bytes s x.
Proof.
  intros [G Hh] He HF. assert (fs_ok (set_fat F s)) as Hs1 by (split; [by apply geometry_set_fat|done]).
  destruct (persist_fat_ok _ Hs1) as (p' & Hp & Hh' & Hl & Hfr & Ht).
  exists p'. cbv zeta. split; [done|]. split; [split; [by apply geometry_set_port, Hs1|done]|].
  split; [done|]. split; [split; [done | done | | done]; intros t Hti; apply Hfr; cbn; lia|]. split; [done|]. intros x Hx. apply sectors_ext. intros t Hti. apply Hfr.
  apply (above_tables s x t); [done|done|]. pose proof (g_spc _ G). lia.
Qed.

Lemma shrink_chain_ok s c pre k suf new_size :
  fs_ok s → chain (fat s) c (pre ++ k :: suf) → 0 < new_size →
  Z.of_nat (length pre) + 1 = (new_size + cluster_size s - 1) / cluster_size s →
  ∃ p', let s' := set_port p' (set_fat (cut_table (fat s) k suf) s) in
    shrink_chain c new_size s = Done (Some tt, s') ∧ fs_ok s' ∧ fat_synced s' ∧ boot_kept s s'
    ∧ live p' = live (port s) ∧ ∀ x, valid s x → cluster_bytes s' x = cluster_bytes s x.
Proof.
  intros Hs Hch Hn Hlen. assert (G : geometry s) by apply Hs. pose proof (cluster_size_pos s G) as Hcs.
  unfold shrink_chain. rewrite (kbind_done _ _ _ _ _ eq_refl).
  rewrite (proj2 (Z.eqb_neq _ _)) by lia. rewrite <-Hlen, Z.add_simpl_r, Nat2Z.id.
  rewrite (ktry_some _ _ _ _ _ (cluster_at_ok s c pre k suf Hch)).
  unfold fat_next at 1. rewrite (kbind_done _ _ _ _ _ eq_refl).
  pose proof (chain_range _ _ _ (chain_split _ _ _ _ _ Hch)) as [Hk _]%Forall_cons.
  rewrite (ktry_some _ _ _ _ _ (on_fat_done _ s _ _ (set_entry_ok k FAT_CLUSTER_EOF (fat s) ltac:(lia)))).
  rewrite (ktry_some _ _ _ _ _ (free_rest s c pre k suf Hch)).
  apply commit_table; [done | apply entries_cut_table | apply words_cut_table].
Qed.

Lemma fat_synced_writes s s' cs new :
  geometry s → fat_synced s → writes s s' cs new → fat_synced s'.
Proof.
  intros G Hf Hw k Hk. pose proof Hw as [[p' ->] _ _ _ _ Hlow].
  change (fat_bytes (set_port p' s)) with (fat_bytes s). rewrite <-(Hf k Hk).
  apply sectors_ext. intros t Ht. apply Hlow. unfold table_len in Ht. cbn in Ht, Hk.
  pose proof (g_table _ G). unfold fat_start_sector, data_start in *.
  change (sectors_per_fat (set_port p' s)) with (sectors_per_fat s) in *.
  rewrite (sectors_per_fat_ok s G) in *. nia.
Qed.

(** The new entry written over the old one: what the rest of the volume sees. *)
Lemma rewrite_entry s l e :
  fs_ok s → location_ok s l → wf_entry e → fat_synced s →
  ∃ s', persist_directory_entry l e s = Done (Some tt, s')
    ∧ fs_ok s' ∧ fat_synced s' ∧ boot_kept s s' ∧ fat s' = fat s ∧ live (port s') = live (port s)
    ∧ cluster_size s' = cluster_size s ∧ location_ok s' l ∧ entry_at s' l = e
    ∧ ∀ c, valid s c → c ≠ loc_cluster l → cluster_bytes s' c = cluster_bytes s c.
Proof.
  intros Hs Hl He Hsync. destruct (persist_directory_entry_ok s l e Hs Hl He) as (s' & Hp & Hw).
  exists s'. split; [done|]. split; [by eapply writes_fs_ok|].
  split; [by eapply fat_synced_writes; [apply Hs| |]|]. split; [by eapply boot_kept_writes; [apply Hs|]|]. split; [by eapply writes_fat|].
  split; [by eapply writes_live|]. pose proof (entry_at_written s s' l e (proj1 Hs) Hl He Hw) as Hea.
  pose proof Hw as [[p' ->] _ _ _ Ho _]. split; [done|]. split; [done|]. split; [done|].
  intros c Hc Hne. apply Ho; [done|]. by intros ->%list_elem_of_singleton.
Qed.

Lemma set_size_cluster e n : get_cluster (set_size n e) = get_cluster e.
Proof. done. Qed.

Lemma file_bytes_take s s' kept rest n size :
  geometry s → (∀ c, c ∈ kept → cluster_bytes s' c = cluster_bytes s c) → 0 ≤ n ≤ size →
  n ≤ cluster_size s * Z.of_nat (length kept) →
  file_bytes s' kept n = take (Z.to_nat n) (file_bytes s (kept ++ rest) size).
Proof.
  intros G Heq Hn Hroom. unfold file_bytes. rewrite take_take, Nat.min_l by lia.
  pose proof (length_chain_bytes s kept G).
  unfold chain_bytes at 2. rewrite map_app, concat_app. fold (chain_bytes s kept).
  rewrite take_app_le by lia. f_equal. unfold chain_bytes. f_equal. apply map_ext_in.
  intros c Hc. by apply Heq, list_elem_of_In.
Qed.

(** What resizing the file [f] from [s] leaves behind: the entry [e'] in its
    place, the table on disk, no cluster of anything else changed, no memory
    lost. *)
Record resized s s' (f : FATFile) (cs : list Z) (e' : DirectoryEntry) : Prop := {
  rs_ok : fs_ok s';
  rs_synced : fat_synced s';
  rs_kept : boot_kept s s';
  rs_entry : entry_at s' (file_location f) = e';
  rs_live : live (port s') = live (port s);
  rs_entries : entries (fat s') = entries (fat s);
  rs_other : ∀ c, valid s c → (c ∉ cs) → c ≠ loc_cluster (file_location f) →
    cluster_bytes s' c = cluster_bytes s c;
}.

(** The run of the code: the table is cut, then the entry rewritten. *)
Lemma file_truncate_shrink_run s f pre k suf n :
  fs_ok s → regular_file fuel s f (pre ++ k :: suf) →
  let e := entry_at s (file_location f) in
  0 < n < de_size e →
  Z.of_nat (length pre) + 1 = (n + cluster_size s - 1) / cluster_size s →
  ∃ s', file_truncate fuel f n s
      = Done ((Some tt, {| file_entry := set_size n e; file_name := file_name f;
                           file_location := file_location f |}), s')
    ∧ resized s s' f [] (set_size n e) ∧ fat s' = cut_table (fat s) k suf
    ∧ cluster_size s' = cluster_size s ∧ location_ok s' (file_location f).
Proof.
  intros Hs Hrf e Hn Hlen. pose proof Hrf as [Hl Ha Hc Ho Hf]. fold e in Ha, Hc.
  assert (G : geometry s) by apply Hs. pose proof (file_chain_cluster _ _ _ Hc) as Hc2.
  destruct Hc as (Hch & Hv & Hroom). pose proof (wf_entry_at s _ G Hl) as Hwf. fold e in Hwf.
  pose proof (wf_size _ Hwf) as Hu. unfold is_u32 in Hu.
  unfold file_truncate, truncate_existing_file.
  destruct (read_directory_entry_ok s _ Hs Hl) as (p1 & Hr & Hh1 & Hd1 & Hl1). fold e in Hr.
  unfold kbind at 1. rewrite (kbind_done _ _ _ _ _ Hr), Ha. cbn [Z.eqb negb Pos.eqb].
  rewrite (proj2 (Z.ltb_ge _ _)) by (unfold u32_max; lia).
  rewrite (proj2 (Z.eqb_neq _ _)), (proj2 (Z.ltb_lt _ _)) by lia.
  unfold shrink_existing_file. rewrite (proj2 (Z.eqb_neq _ _)) by lia.
  rewrite (proj2 (Z.eqb_neq _ _)) by lia.
  set (s1 := set_port p1 s) in *.
  assert (Hs1 : fs_ok s1) by (split; [by apply geometry_set_port|done]).
  destruct (shrink_chain_ok s1 (get_cluster e) pre k suf n) as (p2 & Hsh & Hs2 & Hsync2 & Hk2 & Hl2 & Hcb2);
    [done|done|lia|done|]. cbv zeta in *. set (s2 := set_port p2 _) in *.
  rewrite (kbind_done _ _ _ _ _ Hsh). rewrite (wrap_id 32) by lia.
  assert (Hent : entries (fat s2) = entries (fat s)) by apply entries_cut_table.
  destruct (rewrite_entry s2 (file_location f) (set_size n e))
    as (s3 & Hp & Hs3 & Hsync3 & Hk3 & Hf3 & Hl3 & Hcs3 & Hloc3 & He3 & Hcb3);
    [done| |apply wf_set_size; [done|unfold is_u32; lia]|done|].
  { destruct Hl as (Hlv & Hrest). split; [|exact Hrest]. unfold valid. by rewrite Hent. }
  unfold with_entry. rewrite (kbind_done _ _ _ _ _ Hp). exists s3. split; [done|]. split; [split|]; try done.
  - eapply boot_kept_trans; [by apply (boot_kept_port s p1)|]. by eapply boot_kept_trans.
  - rewrite Hl3. cbn in Hl2 |- *. congruence.
  - by rewrite Hf3.
  - intros c Hvc _ Hne. rewrite (Hcb3 c); [|unfold valid; by rewrite Hent|done].
    rewrite (Hcb2 c) by done. by apply cluster_bytes_ext.
Qed.

(** C33: truncating a file to a smaller, positive size succeeds and keeps exactly
    the first [n] bytes.  The file keeps the clusters these need, the clusters
    behind them are free in the table (in memory and on disk), every other table
    entry is as it was and no other cluster changes. *)
Theorem file_truncate_shrink s f pre k suf n :
  fs_ok s → regular_file fuel s f (pre ++ k :: suf) →
  let e := entry_at s (file_location f) in
  0 < n < de_size e →
  Z.of_nat (length pre) + 1 = (n + cluster_size s - 1) / cluster_size s →
  ∃ s', file_truncate fuel f n s
      = Done ((Some tt, {| file_entry := set_size n e; file_name := file_name f;
                           file_location := file_location f |}), s')
    ∧ resized s s' f [] (set_size n e)
    ∧ regular_file fuel s' f (pre ++ [k])
    ∧ file_bytes s' (pre ++ [k]) n = take (Z.to_nat n) (file_bytes s (pre ++ k :: suf) (de_size e))
    ∧ ∀ i, lookupZ (fat s') i =
        if bool_decide (i ∈ suf) then Some FAT_CLUSTER_FREE
        else if bool_decide (k = i) then Some FAT_CLUSTER_EOF else lookupZ (fat s) i.
Proof.
  intros Hs Hrf e Hn Hlen. destruct (file_truncate_shrink_run s f pre k suf n Hs Hrf Hn Hlen) as (s' & Hrun & Hres & Hfat & Hcs & Hloc).
  exists s'. split; [exact Hrun|]. split; [done|]. pose proof Hrf as [Hl Ha (Hch & Hv & Hroom) Ho Hf]. fold e in Ha, Hch, Hroom.
  assert (G : geometry s) by apply Hs. pose proof (rs_entry _ _ _ _ _ Hres) as He.
  destruct (ceil_bounds n (cluster_size s)) as [_ Hceil]; [pose proof (cluster_size_pos s G); lia|lia|].
  rewrite <-Hlen in Hceil.
  assert (Hkept : Forall (valid s) (pre ++ [k])).
  { apply Forall_app in Hv as [Hvp Hvk]. apply Forall_cons in Hvk as [Hvk _]. apply Forall_app. auto. }
  assert (Hkl : n ≤ cluster_size s * Z.of_nat (length (pre ++ [k]))).
  { rewrite length_app. cbn. lia. }
  split; [split|split].
  - done.
  - by rewrite He.
  - rewrite He. split; [rewrite Hfat; by apply chain_cut_table|]. cbn [de_size set_size]. rewrite Hcs.
    split; [|done]. unfold valid. rewrite (rs_entries _ _ _ _ _ Hres). exact Hkept.
  - intros Hin. apply Ho. set_solver.
  - rewrite length_app in *. cbn in *. lia.
  - replace (pre ++ k :: suf) with ((pre ++ [k]) ++ suf) by (by rewrite <-app_assoc).
    apply file_bytes_take; [done| |lia|done]. intros c Hin. apply Hres.
    + rewrite Forall_forall in Hkept. auto.
    + set_solver.
    + intros ->. apply Ho. set_solver.
  - intros i. rewrite Hfat. by eapply lookup_cut_table.
Qed.

(** truncating a file to zero bytes succeeds: its entry then has no cluster
    and size zero, all its clusters are free in the table, and nothing else
    changes. *)
Theorem file_truncate_zero s f cs :
  fs_ok s → regular_file fuel s f cs →
  let e := entry_at s (file_location f) in
  0 < de_size e →
  ∃ s', file_truncate fuel f 0 s
      = Done ((Some tt, {| file_entry := set_size 0 (set_cluster 0 e); file_name := file_name f;
                           file_location := file_location f |}), s')
    ∧ resized s s' f [] (set_size 0 (set_cluster 0 e))
    ∧ ∀ i, lookupZ (fat s') i = if bool_decide (i ∈ cs) then Some FAT_CLUSTER_FREE else lookupZ (fat s) i.
Proof.
  intros Hs Hrf e Hn. pose proof Hrf as [Hl Ha Hc Ho Hf]. fold e in Ha, Hc.
  assert (G : geometry s) by apply Hs. pose proof (file_chain_cluster _ _ _ Hc) as Hc2.
  destruct Hc as (Hch & Hv & Hroom). pose proof (wf_entry_at s _ G Hl) as Hwf. fold e in Hwf.
  unfold file_truncate, truncate_existing_file.
  destruct (read_directory_entry_ok s _ Hs Hl) as (p1 & Hr & Hh1 & Hd1 & Hl1). fold e in Hr.
  unfold kbind at 1. rewrite (kbind_done _ _ _ _ _ Hr), Ha, Z.eqb_refl. cbn [negb].
  rewrite (proj2 (Z.ltb_ge u32_max 0)) by (unfold u32_max; lia).
  rewrite (proj2 (Z.eqb_neq 0 _)), (proj2 (Z.ltb_lt 0 _)) by lia.
  unfold shrink_existing_file. rewrite Z.eqb_refl. rewrite (proj2 (Z.eqb_neq _ _)) by lia.
  set (s1 := set_port p1 s) in *.
  assert (Hs1 : fs_ok s1) by (split; [by apply geometry_set_port|done]).
  destruct (commit_table s1 (clear_all cs (fat s))) as (p2 & Hp2 & Hs2 & Hsync2 & Hk2 & Hl2 & Hcb2);
    [done|apply entries_clear_all|apply words_clear_all|]. cbv zeta in *. set (s2 := set_port p2 _) in *.
  assert (ktry (on_fat (free_chain (get_cluster e))) (λ _, persist_fat) s1 = Done (Some tt, s2)) as Hfree.
  { rewrite (ktry_some _ _ _ _ _ (on_fat_done _ s1 _ _ (free_chain_exact _ _ _ Hch))). exact Hp2. }
  rewrite (kbind_done _ _ _ _ _ Hfree).
  assert (Hent : entries (fat s2) = entries (fat s)) by apply entries_clear_all.
  destruct (rewrite_entry s2 (file_location f) (set_size 0 (set_cluster 0 e)))
    as (s3 & Hp & Hs3 & Hsync3 & Hk3 & Hf3 & Hl3 & Hcs3 & Hloc3 & He3 & Hcb3);
    [done| |apply wf_set_size; [by apply wf_set_cluster|unfold is_u32; lia]|done|].
  { destruct Hl as (Hlv & Hrest). split; [|exact Hrest]. unfold valid. by rewrite Hent. }
  unfold with_entry. rewrite (kbind_done _ _ _ _ _ Hp). exists s3. split; [done|].
  split; [split; try done|].
  - eapply boot_kept_trans; [by apply (boot_kept_port s p1)|]. by eapply boot_kept_trans.
  - rewrite Hl3. cbn in Hl2 |- *. congruence.
  - by rewrite Hf3.
  - intros c Hvc _ Hne. rewrite (Hcb3 c); [|unfold valid; by rewrite Hent|done].
    rewrite (Hcb2 c) by done. by apply cluster_bytes_ext.
  - intros i. rewrite Hf3. apply lookup_clear_all. by eapply chain_range.
Qed.

(** *** Growing *)

(** The clusters a file gets when it grows by [k] clusters. *)
Definition new_clusters s (k : Z) : list Z := take (Z.to_nat k) (free_clusters (fat s)).

(** The clusters [cs] of the file, all in use, as many as its size needs. *)
Record grow_ready s (e : DirectoryEntry) (cs : list Z) : Prop := {
  gr_chain : cs = [] ∨ chain (fat s) (get_cluster e) cs;
  gr_valid : Forall (valid s) cs;
  gr_used : Forall (λ c, lookupZ (fat s) c ≠ Some FAT_CLUSTER_FREE) cs;
}.

Lemma new_clusters_fresh s k cs :
  Forall (λ c, lookupZ (fat s) c ≠ Some FAT_CLUSTER_FREE) cs → new_clusters s k ## cs.
Proof.
  intros Hu c Hc Hin. rewrite Forall_forall in Hu. apply (Hu c Hin).
  apply (elem_of_free_clusters (fat s) c). unfold new_clusters in Hc.
  rewrite <-(take_drop (Z.to_nat k) (free_clusters (fat s))). apply elem_of_app. by left.
Qed.

Lemma new_clusters_valid s k : Forall (valid s) (new_clusters s k).
Proof.
  apply Forall_take, Forall_forall. intros c Hc. by apply elem_of_free_clusters in Hc as [Hc _].
Qed.

Lemma entries_small s : geometry s → entries (fat s) ≤ 0x0FFFFFF8.
Proof. intros G. rewrite (g_entries _ G). pose proof (g_table _ G). lia. Qed.

(** Taking [k] clusters: the table with the new chain in it. *)
Lemma allocate_new s k : geometry s → 0 < k ≤ Z.of_nat (length (free_clusters (fat s))) →
  let L := link_chain (new_clusters s k) (fat s) in
  ∃ c r, new_clusters s k = c :: r ∧ valid s c ∧ allocate_chain k (fat s) = Done (Some c, L)
    ∧ entries L = entries (fat s) ∧ chain L c (new_clusters s k) ∧ (Forall is_u32 (fat s) → Forall is_u32 L)
    ∧ (∀ i, (i ∉ new_clusters s k) → lookupZ L i = lookupZ (fat s) i)
    ∧ Forall (λ x, lookupZ L x ≠ Some FAT_CLUSTER_FREE) (new_clusters s k).
Proof.
  intros G Hk L. pose proof (entries_small s G) as Hsmall. pose proof (new_clusters_valid s k) as Hnv.
  assert (Ha : allocate_chain k (fat s) = Done (head (new_clusters s k), L)).
  { rewrite allocate_chain_run by lia. rewrite (proj2 (Z.leb_le _ _)) by lia. unfold L, new_clusters.
    do 2 f_equal. destruct (Z.to_nat k) eqn:E; [lia|]. by destruct (free_clusters (fat s)). }
  assert (Hne : ∃ c r, new_clusters s k = c :: r).
  { unfold new_clusters. destruct (Z.to_nat k) eqn:E; [lia|].
    destruct (free_clusters (fat s)); [simpl in Hk; lia|]. simpl. eauto. }
  destruct Hne as (c & r & Hcr). exists c, r.
  assert (Hnd : NoDup (new_clusters s k)).
  { pose proof (NoDup_free_clusters (fat s)) as Hnd. rewrite <-(take_drop (Z.to_nat k)) in Hnd.
    by apply NoDup_app in Hnd as [Hnd _]. }
  split_and!.
  - done.
  - rewrite Hcr in Hnv. by apply Forall_cons in Hnv as [Hc _].
  - by rewrite Ha, Hcr.
  - apply entries_link_chain.
  - unfold L. rewrite Hcr in *. by apply chain_link.
  - apply words_link_chain. eapply Forall_impl; [exact Hnv|]. unfold valid, is_u32. intros x Hx. lia.
  - intros i Hi. by apply link_chain_other.
  - apply Forall_forall. intros x Hx. by apply link_chain_in_use.
Qed.

Lemma grow_chain_ok s e cs new_count :
  geometry s → grow_ready s e cs →
  let k := new_count - Z.of_nat (length cs) in
  0 ≤ k ≤ Z.of_nat (length (free_clusters (fat s))) → 0 < new_count →
  ∃ start F e', grow_chain e (Z.of_nat (length cs)) new_count s = Done (Some (start, e'), set_fat F s)
    ∧ entries F = entries (fat s) ∧ (Forall is_u32 (fat s) → Forall is_u32 F)
    ∧ chain F (get_cluster e') (cs ++ new_clusters s k)
    ∧ (∀ i, (i ∉ cs ++ new_clusters s k) → lookupZ F i = lookupZ (fat s) i)
    ∧ Forall (λ c, lookupZ F c ≠ Some FAT_CLUSTER_FREE) (cs ++ new_clusters s k)
    ∧ (e' = e ∨ cs = [] ∧ e' = set_cluster (get_cluster e') e).
Proof.
  intros G [Hch Hv Hu] k Hk Hpos. pose proof (entries_small s G) as Hsmall.
  unfold grow_chain. destruct (Z.ltb_spec (Z.of_nat (length cs)) new_count) as [Hlt|Hge].
  2:{ assert (k = 0) as -> by lia. destruct Hch as [->|Hch]; [simpl in Hge; lia|].
      exists None, (fat s), e. unfold new_clusters. rewrite take_0, app_nil_r.
      split; [by destruct s|]. repeat (split; [done|]). by left. }
  fold k. pose proof (new_clusters_fresh s k cs Hu) as Hfresh.
  destruct (allocate_new s k G ltac:(lia)) as (c & r & Hcr & Hc & Ha & HL & Hnew & HLw & Hother & HLu).
  rewrite (ktry_some _ _ _ _ _ (on_fat_done _ s _ _ Ha)). set (L := link_chain _ _) in *. unfold valid in Hc.
  destruct Hch as [->|Hch].
  - cbn [length]. exists (Some c), L, (set_cluster c e). cbn [app]. rewrite get_set_cluster_low by (unfold is_u32; lia).
    do 6 (split; [done|]). by right.
  - destruct (exists_last (l := cs)) as (pre & l & ->). { intros ->. inversion Hch. }
    rewrite length_app in *. cbn [length] in *. rewrite (proj2 (Z.eqb_neq _ _)) by lia.
    replace (Z.to_nat (Z.of_nat (length pre + 1) - 1)) with (length pre) by lia.
    assert (Hold : chain L (get_cluster e) (pre ++ [l])).
    { eapply chain_frame; [exact Hch|done|]. intros d Hd. apply Hother. intros Hin. by apply (Hfresh d). }
    rewrite (ktry_some _ _ _ _ _ (cluster_at_ok (set_fat L s) (get_cluster e) pre l [] Hold)).
    assert (Hl : 2 ≤ l < entries (fat s)).
    { apply Forall_app in Hv as [_ Hvl]. by apply Forall_cons in Hvl as [Hvl _]. }
    rewrite (ktry_some _ _ _ _ _ (on_fat_done _ (set_fat L s) _ _ (set_entry_ok l (wrap 32 c) L ltac:(lia)))).
    rewrite wrap_id by lia. exists (Some c), (insertZ l c L), e. split; [done|].
    split; [by rewrite entries_insertZ|]. split; [intros Hw; apply words_insertZ; [unfold is_u32; lia | auto]|].
    rewrite <-app_assoc. cbn [app]. split; [|split; [|split; [|by left]]].
    + apply chain_join; [done|done|done|lia].
    + intros i Hi. rewrite lookupZ_insertZ_ne, Hother; [done|set_solver|set_solver].
    + apply Forall_forall. intros x Hx. rewrite lookupZ_insertZ by (unfold entries in HL, Hl; lia).
      case_bool_decide; [unfold FAT_CLUSTER_FREE; intros [= ?]; lia|].
      destruct (decide (x ∈ new_clusters s k)) as [Hin|Hin].
      * rewrite Forall_forall in HLu. auto.
      * rewrite Hother by done. rewrite Forall_forall in Hu. apply Hu. set_solver.
Qed.

(** The number of clusters [size] bytes take. *)
Definition clusters_needed s (size : Z) : Z :=
  if size =? 0 then 0 else (size + cluster_size s - 1) / cluster_size s.

Lemma clusters_for_size_ok s size :
  geometry s → clusters_for_size size s = Done (clusters_needed s size, s).
Proof.
  intros G. pose proof (cluster_size_pos s G). unfold clusters_for_size, clusters_needed.
  destruct (size =? 0); [done|]. rewrite (kbind_done _ _ _ _ _ eq_refl).
  by rewrite (proj2 (Z.eqb_neq _ _)) by lia.
Qed.

Lemma clusters_needed_bounds s size :
  geometry s → 0 ≤ size →
  size ≤ cluster_size s * clusters_needed s size
  ∧ (0 < size → cluster_size s * (clusters_needed s size - 1) < size ∧ 0 < clusters_needed s size).
Proof.
  intros G Hn. pose proof (cluster_size_pos s G). unfold clusters_needed.
  destruct (Z.eqb_spec size 0); [lia|]. destruct (ceil_bounds size (cluster_size s)); lia.
Qed.

Lemma clusters_needed_mono s a b :
  geometry s → 0 ≤ a ≤ b → clusters_needed s a ≤ clusters_needed s b.
Proof.
  intros G Hab. pose proof (cluster_size_pos s G). unfold clusters_needed.
  destruct (Z.eqb_spec a 0), (Z.eqb_spec b 0); try lia.
  - apply Z.div_pos; lia.
  - apply Z.div_le_mono; lia.
Qed.

(** Zeroing the part of a chain behind the first [old] bytes. *)
Lemma zero_tail (x : list Z) (old n : nat) :
  (old ≤ n)%nat → (n ≤ length x)%nat →
  take n (splice x old (replicate (n - old) 0)) = take old x ++ replicate (n - old) 0.
Proof.
  intros Ho Hn. unfold splice. rewrite app_assoc. apply take_app_length'.
  rewrite length_app, length_take, length_replicate. lia.
Qed.

Lemma zero_range_ok s c cs old n :
  fs_ok s → chain (fat s) c cs → Forall (valid s) cs → 0 ≤ old < n →
  n ≤ cluster_size s * Z.of_nat (length cs) → (length cs ≤ fuel)%nat →
  ∃ s', zero_file_range fuel c old (n - old) s = Done (Some tt, s')
    ∧ writes s s' cs (splice (chain_bytes s cs) (Z.to_nat old) (replicate (Z.to_nat (n - old)) 0)).
Proof.
  intros Hs Hch Hv Ho Hroom Hf. unfold zero_file_range. rewrite (proj2 (Z.eqb_neq _ _)) by lia.
  rewrite (kbind_done _ _ _ _ _ eq_refl).
  apply seek_copy_ok; try done.
  - apply zero_body_step. lia.
  - destruct (Z.to_nat (n - old)) eqn:E; [lia|done].
  - lia.
  - rewrite length_replicate. lia.
Qed.

(** The middle of [grow_existing_file]: the table grown, the new range zeroed and
    the table written out. *)
Lemma grow_middle_ok s F c all old n :
  fs_ok s → entries F = entries (fat s) → (Forall is_u32 (fat s) → Forall is_u32 F) → chain F c all → Forall (valid s) all → 0 ≤ old < n →
  n ≤ cluster_size s * Z.of_nat (length all) → (length all ≤ fuel)%nat →
  ∃ s', kbind (zero_file_range fuel c old (n - old))
          (λ z, match z with None => kret None | Some _ => persist_fat end) (set_fat F s) = Done (Some tt, s')
    ∧ fs_ok s' ∧ fat_synced s' ∧ boot_kept s s' ∧ fat s' = F ∧ bs s' = bs s ∧ bs_32 s' = bs_32 s
    ∧ live (port s') = live (port s)
    ∧ take (Z.to_nat n) (chain_bytes s' all)
      = take (Z.to_nat old) (chain_bytes s all) ++ replicate (Z.to_nat (n - old)) 0
    ∧ ∀ x, valid s x → (x ∉ all) → cluster_bytes s' x = cluster_bytes s x.
Proof.
  intros [G Hh] He HF Hch Hv Ho Hroom Hf. set (s1 := set_fat F s).
  assert (Hs1 : fs_ok s1) by (split; [by apply geometry_set_fat|done]).
  assert (Hv1 : Forall (valid s1) all) by (unfold valid; cbn; by rewrite He).
  destruct (zero_range_ok s1 c all old n) as (s2 & Hz & Hw); try done.
  rewrite (kbind_done _ _ _ _ _ Hz). pose proof (writes_fs_ok _ _ _ _ Hs1 Hw) as Hs2.
  pose proof (writes_fat _ _ _ _ Hw) as Hf2.
  destruct (commit_table s2 (fat s2) Hs2 eq_refl (λ x, x)) as (p' & Hp & Hs3 & Hsync & Hk3 & Hl & Hcb).
  assert (set_fat (fat s2) s2 = s2) as Hid by (by destruct s2). rewrite Hid in *.
  cbv zeta in *. exists (set_port p' s2). split; [done|]. split; [done|]. split; [done|].
  split; [eapply boot_kept_trans; [by apply boot_kept_fat|]; eapply boot_kept_trans; [by eapply boot_kept_writes; [apply Hs1|] | exact Hk3]|].
  split; [done|]. pose proof Hw as [[p2 ->] _ Hl2 Hn2 Ho2 _]. split; [done|]. split; [done|].
  split; [cbn in *; congruence|]. split.
  - assert (chain_bytes (set_port p' (set_port p2 s1)) all = chain_bytes (set_port p2 s1) all) as ->.
    { unfold chain_bytes. f_equal. apply map_ext_in. intros x Hx. apply Hcb.
      apply list_elem_of_In in Hx. rewrite Forall_forall in Hv1. exact (Hv1 x Hx). }
    unfold chain_bytes in *. rewrite Hn2. replace (Z.to_nat (n - old)) with (Z.to_nat n - Z.to_nat old)%nat by lia.
    pose proof (length_chain_bytes s all G) as Hlen. unfold chain_bytes in Hlen.
    apply zero_tail; [lia|]. change (cluster_bytes s1) with (cluster_bytes s). lia.
  - intros x Hx Hin. assert (valid s1 x) by (unfold valid; cbn; by rewrite He).
    rewrite (Hcb x) by done. by apply Ho2.
Qed.

(** All clusters of the file [f] with clusters [cs] once it has [n] bytes. *)
Definition grown_clusters s (cs : list Z) (n : Z) : list Z :=
  cs ++ new_clusters s (clusters_needed s n - Z.of_nat (length cs)).

(** What growing [f] to [n] bytes needs: its entry on disk, outside the free
    clusters; its clusters [cs] in use and as many as its size takes; a larger
    32-bit size; and enough free clusters. *)
Record grow_pre s (f : FATFile) (cs : list Z) (n : Z) : Prop := {
  gp_location : location_ok s (file_location f);
  gp_attributes : de_attributes (entry_at s (file_location f)) = 32;
  gp_ready : grow_ready s (entry_at s (file_location f)) cs;
  gp_count : Z.of_nat (length cs) = clusters_needed s (de_size (entry_at s (file_location f)));
  gp_outside : loc_cluster (file_location f) ∉ cs;
  gp_dir_used : lookupZ (fat s) (loc_cluster (file_location f)) ≠ Some FAT_CLUSTER_FREE;
  gp_size : de_size (entry_at s (file_location f)) < n ≤ u32_max;
  gp_fuel : clusters_needed s n ≤ Z.of_nat fuel;
  gp_free : clusters_needed s n - Z.of_nat (length cs) ≤ Z.of_nat (length (free_clusters (fat s)));
}.

Lemma grown_facts s f cs n :
  geometry s → grow_pre s f cs n →
  let e := entry_at s (file_location f) in
  let all := grown_clusters s cs n in
  wf_entry e ∧ 0 ≤ de_size e ∧ Z.of_nat (length cs) ≤ clusters_needed s n ∧ 0 < clusters_needed s n
  ∧ n ≤ cluster_size s * clusters_needed s n ∧ de_size e ≤ cluster_size s * Z.of_nat (length cs)
  ∧ Z.of_nat (length all) = clusters_needed s n ∧ Forall (valid s) all
  ∧ (loc_cluster (file_location f) ∉ all).
Proof.
  intros G [Hl Ha Hready Hcount Hlc Hlcu Hn Hfuel Hfree]. cbv zeta.
  pose proof (wf_entry_at s _ G Hl) as Hwf. set (e := entry_at s (file_location f)) in *.
  pose proof (wf_size _ Hwf) as Hu. unfold is_u32 in Hu.
  pose proof (clusters_needed_mono s (de_size e) n G ltac:(lia)) as Hmono.
  destruct (clusters_needed_bounds s n G ltac:(lia)) as [Hroom Hpos]. destruct Hpos as [_ Hpos]; [lia|].
  destruct (clusters_needed_bounds s (de_size e) G ltac:(lia)) as [Hroom0 _].
  unfold grown_clusters. set (k := clusters_needed s n - Z.of_nat (length cs)) in *.
  split; [done|]. split; [lia|]. split; [lia|]. split; [done|]. split; [done|]. split; [lia|].
  split; [|split].
  - unfold new_clusters. rewrite length_app, length_take. lia.
  - apply Forall_app. split; [apply Hready|apply new_clusters_valid].
  - intros [Hin|Hin]%elem_of_app; [done|].
    apply (new_clusters_fresh s k [loc_cluster (file_location f)]) in Hin; [|by apply Forall_singleton].
    apply Hin. by left.
Qed.

(** Growing up to the point where the entry is written back, in state [s2]. *)
Lemma grow_to_entry s f cs n :
  fs_ok s → grow_pre s f cs n →
  let e := entry_at s (file_location f) in
  let all := grown_clusters s cs n in
  ∃ s2 e1, file_truncate fuel f n s =
      kbind (with_entry (set_size n e1) (persist_directory_entry (file_location f) (set_size n e1)))
        (λ r, kret (r.1, {| file_entry := r.2; file_name := file_name f; file_location := file_location f |})) s2
    ∧ fs_ok s2 ∧ fat_synced s2 ∧ boot_kept s s2 ∧ entries (fat s2) = entries (fat s) ∧ cluster_size s2 = cluster_size s
    ∧ live (port s2) = live (port s) ∧ chain (fat s2) (get_cluster e1) all
    ∧ (∀ i, (i ∉ all) → lookupZ (fat s2) i = lookupZ (fat s) i)
    ∧ Forall (λ c, lookupZ (fat s2) c ≠ Some FAT_CLUSTER_FREE) all
    ∧ wf_entry e1 ∧ de_attributes e1 = 32
    ∧ take (Z.to_nat n) (chain_bytes s2 all)
      = take (Z.to_nat (de_size e)) (chain_bytes s all) ++ replicate (Z.to_nat (n - de_size e)) 0
    ∧ ∀ x, valid s x → (x ∉ all) → cluster_bytes s2 x = cluster_bytes s x.
Proof.
  intros Hs Hpre e all. assert (G : geometry s) by apply Hs.
  destruct (grown_facts s f cs n G Hpre) as (Hwf & Hsz0 & Hmono & Hpos & Hroom & _ & Hall & Hallv & _).
  fold e in Hwf, Hsz0. fold all in Hall, Hallv. destruct Hpre as [Hl Ha Hready Hcount Hlc _ Hn Hfuel Hfree].
  fold e in Ha, Hready, Hcount, Hn. set (k := clusters_needed s n - Z.of_nat (length cs)) in *.
  destruct (read_directory_entry_ok s _ Hs Hl) as (p1 & Hr & Hh1 & Hd1 & Hl1). fold e in Hr.
  set (s1 := set_port p1 s) in *.
  assert (Hs1 : fs_ok s1) by (split; [by apply geometry_set_port|done]).
  assert (Hready1 : grow_ready s1 e cs) by (by destruct Hready).
  destruct (grow_chain_ok s1 e cs (clusters_needed s n)) as (start & F & e1 & Hg & HF & HFw & HchF & Hoth & Huse & He1);
    [apply Hs1|done|cbn; fold k; lia|lia|].
  change (cs ++ new_clusters s1 (clusters_needed s n - Z.of_nat (length cs))) with all in HchF, Hoth, Huse.
  destruct (grow_middle_ok s1 F (get_cluster e1) all (de_size e) n)
    as (s2 & Hm & Hs2 & Hsync2 & Hk2 & Hf2 & Hb2 & Hb32 & Hl2 & Hc2 & Hcb2); try done; try lia.
  { change (cluster_size s1) with (cluster_size s). rewrite Hall. lia. }
  exists s2, e1. split.
  { unfold file_truncate, truncate_existing_file. unfold kbind at 1. rewrite (kbind_done _ _ _ _ _ Hr), Ha, Z.eqb_refl.
    cbn [negb]. rewrite (proj2 (Z.ltb_ge u32_max n)) by lia.
    rewrite (proj2 (Z.eqb_neq n _)), (proj2 (Z.ltb_ge n _)) by lia. unfold grow_existing_file.
    rewrite !(kbind_done _ _ _ _ _ (clusters_for_size_ok s1 _ (proj1 Hs1))).
    change (clusters_needed s1) with (clusters_needed s). rewrite <-Hcount.
    rewrite (kbind_done _ _ _ _ _ Hg). rewrite <-kbind_assoc, (kbind_done _ _ _ _ _ Hm).
    rewrite (wrap_id 32) by (unfold u32_max in Hn; lia). done. }
  split; [done|]. split; [done|]. split; [eapply boot_kept_trans; [by apply (boot_kept_port s p1) | done]|].
  split; [by rewrite Hf2|]. split; [unfold cluster_size; by rewrite Hb2|].
  split; [cbn in Hl2; congruence|]. rewrite Hf2. split; [done|]. split; [done|]. split; [done|].
  split; [destruct He1 as [->|[_ ->]]; [done|by apply wf_set_cluster]|].
  split; [destruct He1 as [->|[_ ->]]; done|]. split.
  - rewrite Hc2. do 2 f_equal. unfold chain_bytes. f_equal. apply map_ext. intros. by apply cluster_bytes_ext.
  - intros x Hx Hin. rewrite (Hcb2 x) by done. by apply cluster_bytes_ext.
Qed.

Lemma file_truncate_grow_ok s f cs n :
  fs_ok s → grow_pre s f cs n →
  let e := entry_at s (file_location f) in
  let all := grown_clusters s cs n in
  ∃ s' e', file_truncate fuel f n s
      = Done ((Some tt, {| file_entry := e'; file_name := file_name f;
                           file_location := file_location f |}), s')
    ∧ de_size e' = n ∧ resized s s' f all e' ∧ regular_file fuel s' f all
    ∧ file_bytes s' all n = file_bytes s cs (de_size e) ++ replicate (Z.to_nat (n - de_size e)) 0
    ∧ (∀ i, (i ∉ all) → lookupZ (fat s') i = lookupZ (fat s) i)
    ∧ Forall (λ c, lookupZ (fat s') c ≠ Some FAT_CLUSTER_FREE) all
    ∧ Z.of_nat (length all) = clusters_needed s n ∧ cluster_size s' = cluster_size s.
Proof.
  intros Hs Hpre e all. assert (G : geometry s) by apply Hs.
  destruct (grown_facts s f cs n G Hpre) as (Hwf & Hsz0 & Hmono & Hpos & Hroom & Hroom0 & Hall & Hallv & Hlcall).
  destruct (grow_to_entry s f cs n Hs Hpre)
    as (s2 & e1 & Hrun & Hs2 & Hsync2 & Hk2 & Hent & Hcs2 & Hl2 & Hch & Hoth & Huse & Hwf1 & Ha1 & Hc2 & Hcb2).
  fold e in Hwf, Hsz0, Hroom0, Hc2. fold all in Hall, Hallv, Hlcall, Hch, Hoth, Huse, Hc2, Hcb2.
  destruct Hpre as [Hl _ _ _ _ _ Hn Hfuel _]. fold e in Hn.
  destruct (rewrite_entry s2 (file_location f) (set_size n e1))
    as (s3 & Hp & Hs3 & Hsync3 & Hk3 & Hf3 & Hl3 & Hcs3 & Hloc3 & He3 & Hcb3);
    [done| |apply wf_set_size; [done|unfold is_u32, u32_max in *; lia]|done|].
  { destruct Hl as (Hlv & Hrest). split; [unfold valid; by rewrite Hent|]. by rewrite Hcs2. }
  unfold with_entry in Hrun. rewrite kbind_assoc, (kbind_done _ _ _ _ _ Hp) in Hrun.
  exists s3, (set_size n e1). split; [exact Hrun|]. split; [done|].
  assert (Hv3 : ∀ x, valid s x → valid s2 x) by (intros x; unfold valid; by rewrite Hent).
  split; [split; try done|split; [split|split; [|split; [|split; [|split]]]]].
  - by eapply boot_kept_trans.
  - congruence.
  - by rewrite Hf3.
  - intros c Hvc Hin Hne. rewrite (Hcb3 c) by auto. auto.
  - done.
  - by rewrite He3.
  - rewrite He3. split; [by rewrite Hf3|]. cbn [de_size set_size]. rewrite Hcs3, Hcs2, Hall.
    split; [|done]. unfold valid. rewrite Hf3, Hent. exact Hallv.
  - done.
  - lia.
  - unfold file_bytes.
    assert (chain_bytes s3 all = chain_bytes s2 all) as ->.
    { unfold chain_bytes. f_equal. apply map_ext_in. intros c Hin. apply list_elem_of_In in Hin.
      rewrite Forall_forall in Hallv. apply Hcb3; [auto|]. by intros ->. }
    rewrite Hc2. f_equal. unfold all, grown_clusters, chain_bytes. rewrite map_app, concat_app.
    apply take_app_le. pose proof (length_chain_bytes s cs G). unfold chain_bytes in *. lia.
  - intros i Hi. rewrite Hf3. auto.
  - by rewrite Hf3.
  - done.
  - by rewrite Hcs3.
Qed.

(** C6: enlarging a file succeeds when enough clusters are free, and appends
    zeros: the contents are the old ones followed by [n - size] zero bytes.  The
    file gets the first free clusters, linked behind its own; no table entry and
    no cluster of anything else changes, and the tables on disk follow. *)
Theorem file_truncate_grow s f cs n :
  fs_ok s → grow_pre s f cs n →
  let e := entry_at s (file_location f) in
  let all := grown_clusters s cs n in
  ∃ s' e', file_truncate fuel f n s
      = Done ((Some tt, {| file_entry := e'; file_name := file_name f;
                           file_location := file_location f |}), s')
    ∧ de_size e' = n ∧ resized s s' f all e' ∧ regular_file fuel s' f all
    ∧ file_bytes s' all n = file_bytes s cs (de_size e) ++ replicate (Z.to_nat (n - de_size e)) 0
    ∧ ∀ i, (i ∉ all) → lookupZ (fat s') i = lookupZ (fat s) i.
Proof.
  intros Hs Hpre e all. destruct (file_truncate_grow_ok s f cs n Hs Hpre)
    as (s' & e' & Hr & Hsz & Hres & Hrf & Hb & Hoth & _).
  exists s', e'. by repeat (split; [assumption|]).
Qed.
End Truncate.

(** ** Witnesses on the sample volume *)

(** From 600 bytes to 100: cluster 4 is freed. *)
Lemma file_truncate_shrink_witness :
  ∃ s', file_truncate 2 sample_handle 100 sample_fs
      = Done ((Some tt, {| file_entry := set_size 100 sample_file; file_name := file_name sample_handle;
                           file_location := sample_location |}), s')
    ∧ file_bytes s' [3] 100 = take 100 (file_bytes sample_fs [3; 4] 600).
Proof.
  destruct (file_truncate_shrink 2 sample_fs sample_handle [] 3 [4] 100
    sample_fs_ok sample_regular) as (s' & Ht & _ & _ & Hb & _).
  - cbn [file_location sample_handle]. by rewrite sample_entry.
  - done.
  - cbn [file_location sample_handle] in Ht, Hb. rewrite sample_entry in Ht, Hb.
    exists s'. split; [exact Ht | exact Hb].
Defined.

Lemma file_truncate_zero_witness :
  ∃ s', file_truncate 2 sample_handle 0 sample_fs
      = Done ((Some tt, {| file_entry := set_size 0 (set_cluster 0 sample_file);
                           file_name := file_name sample_handle; file_location := sample_location |}), s')
    ∧ ∀ i, lookupZ (fat s') i = if bool_decide (i ∈ [3; 4]) then Some 0 else lookupZ sample_fat i.
Proof.
  destruct (file_truncate_zero 2 sample_fs sample_handle [3; 4] sample_fs_ok sample_regular)
    as (s' & Ht & _ & Hf).
  - cbn [file_location sample_handle]. by rewrite sample_entry.
  - cbn [file_location sample_handle] in Ht. rewrite sample_entry in Ht.
    exists s'. split; [exact Ht | exact Hf].
Defined.

(** From 600 bytes to 1100: cluster 5 is taken. *)
Lemma file_truncate_grow_witness :
  ∃ s' e', file_truncate 3 sample_handle 1100 sample_fs
      = Done ((Some tt, {| file_entry := e'; file_name := file_name sample_handle;
                           file_location := sample_location |}), s')
    ∧ file_bytes s' [3; 4; 5] 1100 = file_bytes sample_fs [3; 4] 600 ++ replicate 500 0.
Proof.
  destruct (file_truncate_grow 3 sample_fs sample_handle [3; 4] 1100 sample_fs_ok)
    as (s' & e' & Ht & _ & _ & _ & Hb & _).
  - split; cbn [file_location sample_handle]; rewrite ?sample_entry.
    + repeat split; discriminate.
    + done.
    + split; [right; exact sample_file_chain|repeat constructor; discriminate|repeat constructor; discriminate].
    + reflexivity.
    + exact (rf_outside _ _ _ _ sample_regular).
    + discriminate.
    + split; [done|discriminate].
    + discriminate.
    + vm_compute. discriminate.
  - cbn [file_location sample_handle] in Ht, Hb. rewrite sample_entry in Hb.
    exists s', e'. split; [exact Ht | exact Hb].
Defined.
