(* ===== verification/FatMount.v ===== *)
(** * FatMount: mounting a volume (src/src/fs/fat_fs.rs, src/src/fs/mod.rs)

    [volume_on p] is the file system that lies on the disk of [p].  Mounting finds it,
    and what a program wrote is found again when the volume is mounted anew. *)

From S2P Require Import Prelude Text FatNames FatTable BlockDev FatFs FatVolume FatFile FatTruncate.

(** ** [fs::init] *)

Section Init.
Context {P : Type} `{Platform P} `{UnicodeCase}.

(** The file system and its root directory, as the statics hold them. *)
Definition fs_init (p : P) : outcome (FATDirectory * FATFileSystem P) :=
  match new_fs p with
  | Done (Some fs) => root_dir fs
  | Done None => Fault Panic
  | Fault e => Fault e
  end.
End Init.

Section Mount.
Context {P : Type} `{BlockDevice P} `{UnicodeCase}.
Implicit Types (p : P) (s : FATFileSystem P).

Definition disk_boot p : FatBootSector := boot_sector_of_bytes (disk p 0).
Definition disk_boot_32 p : Fat32ExtendedBootSector := extended_boot_sector_of_bytes (drop 36 (disk p 0)).

Definition volume_on p : FATFileSystem P :=
  {| port := p; fat := table_words p (reserved_sector_count (disk_boot p)) (table_size (disk_boot_32 p)); fat_rest := [];
     bs := disk_boot p; bs_32 := disk_boot_32 p |}.

Lemma read_boot_sector_ok p : healthy p →
  ∃ a p', read_boot_sector p = Done (Some (disk_boot p, disk_boot_32 p), p')
    ∧ healthy p' ∧ same_disk p p' ∧ live p !! a = None ∧ live p' = <[a := 512]> (live p).
Proof.
  intros Hh. assert (Hadr : addressable 0 1) by (unfold addressable; lia).
  destruct (alloc_healthy 512 p Hh) as (a & p1 & Ha & Hh1). destruct (read_healthy 0 1 p1 Hadr Hh1) as (d & p2 & Hr & Hh2).
  pose proof (read_length _ _ _ _ _ Hr) as [Hdl _]. pose proof (read_data _ _ _ _ _ Hadr Hr) as Hd. rewrite seqZ_cons in Hd by lia. cbn in Hd. rewrite app_nil_r in Hd.
  assert (Hdisk1 : same_disk p p1) by (intros t; pose proof (alloc_disk 512 p t) as E; by rewrite Ha in E).
  exists a, p2. split; [|split; [done|split; [|split]]].
  - unfold read_boot_sector. rewrite (kbind_done (alloc 512) _ p (Some a) p1) by (unfold alloc; by rewrite Ha).
    rewrite (ktry_some (port_read _ _ _) _ p1 (disk p 0) p2); [done|].
    unfold port_read. rewrite length_replicate. rewrite (proj2 (Z.ltb_ge _ _)) by lia. rewrite Hr. do 3 f_equal.
    unfold splice. rewrite take_0, drop_ge by (rewrite length_replicate, Hdl; lia). rewrite app_nil_r. cbn [app]. rewrite Hd. apply Hdisk1.
  - intros t. pose proof (read_disk 0 1 p1 t) as E. rewrite Hr in E. rewrite <- Hdisk1. exact E.
  - by apply (alloc_live 512 p a p1).
  - pose proof (read_live 0 1 p1) as E. rewrite Hr in E. cbn in E. rewrite E. apply (alloc_live 512 p a p1 Ha).
Qed.

Lemma table_words_same p p' t n : same_disk p p' → table_words p' t n = table_words p t n.
Proof. intros E. unfold table_words. do 2 f_equal. apply sectors_ext. intros x _. apply E. Qed.

Lemma new_fs_run p : healthy p → geometry (volume_on p) →
  ∃ a1 a2 p', new_fs p = Done (Some (set_port p' (volume_on p))) ∧ healthy p' ∧ same_disk p p'
    ∧ live p !! a1 = None ∧ live p !! a2 = None ∧ a1 ≠ a2
    ∧ live p' = <[a2 := 512 * table_size (disk_boot_32 p)]> (<[a1 := 512]> (live p)).
Proof.
  intros Hh G. destruct (read_boot_sector_ok p Hh) as (a1 & p1 & E1 & Hh1 & D1 & N1 & L1).
  destruct (read_fat_ok p1 (disk_boot p) (disk_boot_32 p) Hh1 (g_bps _ G) (g_table16 _ G) (table_addressable _ G)) as (a2 & p2 & E2 & Hh2 & D2 & N2 & L2).
  rewrite L1 in N2, L2. exists a1, a2, p2. split; [|split; [done|split]].
  - unfold new_fs, mount. rewrite (ktry_some _ _ _ _ _ E1), (ktry_some _ _ _ _ _ E2). by rewrite (table_words_same p p1).
  - intros t. by rewrite D2.
  - apply lookup_insert_None in N2 as [N2 Hne]. by split_and!.
Qed.

(** The two halves of the root's cluster. *)
Lemma split_root_cluster c name : 0 ≤ c < 2 ^ 28 →
  get_cluster (blank_entry name 0x10 (wrap 16 (Z.land (Z.shiftr c 16) 0xFFF)) (wrap 16 (Z.land c 0xFFFF))) = c.
Proof.
  intros Hc. assert (E : Z.land (Z.shiftr c 16) 0xFFF = Z.land (Z.shiftr c 16) 0xFFFF).
  { assert (0 ≤ c / 2 ^ 16 < 2 ^ 12) by (split; [apply Z.div_pos; lia | apply Z.div_lt_upper_bound; lia]).
    change 0xFFF with (Z.ones 12). change 0xFFFF with (Z.ones 16). rewrite !Z.land_ones, Z.shiftr_div_pow2 by lia. by rewrite !Z.mod_small by lia. }
  rewrite E. apply (get_set_cluster_low (blank_entry name 0x10 0 0) c). unfold is_u32. lia.
Qed.

(** C30: Mounting finds the volume: on a disk that works and holds a FAT32 volume of
    512-byte sectors, [fs::init] does not panic; the file system has the geometry of
    the boot record and the words of the first table, nothing on the disk changes,
    the root directory starts in the cluster that the record names, and two buffers
    are in use for good - the table, and the sector of the boot record. *)
Theorem mount_finds_volume p : healthy p → geometry (volume_on p) → 0 ≤ root_cluster (disk_boot_32 p) < 2 ^ 28 →
  ∃ d s a1 a2, fs_init p = Done (d, s) ∧ (∃ p', s = set_port p' (volume_on p)) ∧ fs_ok s ∧ same_disk p (port s)
    ∧ get_cluster (dir_entry d) = root_cluster (disk_boot_32 p)
    ∧ live p !! a1 = None ∧ live p !! a2 = None ∧ a1 ≠ a2
    ∧ live (port s) = <[a2 := 512 * table_size (disk_boot_32 p)]> (<[a1 := 512]> (live p)).
Proof.
  intros Hh G Hr. destruct (new_fs_run p Hh G) as (a1 & a2 & p' & E & Hh' & D & N1 & N2 & Hne & L).
  unfold fs_init. rewrite E.
  assert (En : get_fat_filename root_name = Some [82; 79; 79; 84; 32; 32; 32; 32; 32; 32; 32]) by (vm_compute; reflexivity).
  unfold root_dir, root. rewrite En.
  eexists _, _, a1, a2. split; [reflexivity|]. split; [by eexists|]. split; [by split; [apply geometry_set_port|]|].
  split_and!; try done. by apply split_root_cluster.
Qed.

(** ** Mounting again *)

(** The disk says the same as memory. *)
Record durable s : Prop := {
  du_boot : disk_boot (port s) = bs s;
  du_boot_32 : disk_boot_32 (port s) = bs_32 s;
  du_table : fat_synced s;
  du_words : Forall is_u32 (fat s);
}.

Lemma volume_on_durable s : geometry s → durable s → volume_on (port s) = s.
Proof.
  intros G [Hb H32 Ht Hw]. unfold volume_on. rewrite Hb, H32, (table_words_bytes s); [|done|done|].
  - pose proof (g_rest _ G) as Hr. destruct s. cbn in *. by rewrite Hr.
  - pose proof (g_tables _ G). rewrite <- (Ht 0) by lia. unfold fat_start_sector. by rewrite Z.mul_0_l, Z.add_0_r.
Qed.

Lemma durable_kept s s' : geometry s → durable s → boot_kept s s' → fat_synced s' → durable s'.
Proof.
  intros G [Hb H32 _ Hw] [Kb K32 Kl Kw] Hs. pose proof (g_reserved _ G). split; [| | done | auto].
  - unfold disk_boot in *. by rewrite Kl, Kb by lia.
  - unfold disk_boot_32 in *. by rewrite Kl, K32 by lia.
Qed.

Lemma durable_writes s s' cs new : geometry s → durable s → writes s s' cs new → durable s'.
Proof. intros G Hd Hw. eapply durable_kept; [done..|by eapply boot_kept_writes|]. by eapply fat_synced_writes; [|apply Hd|]. Qed.

(** The same volume, seen through another port. *)
Lemma remount_run s : fs_ok s → durable s →
  ∃ p', new_fs (port s) = Done (Some (set_port p' s)) ∧ fs_ok (set_port p' s) ∧ same_disk (port s) p'.
Proof.
  intros [G Hh] Hd. pose proof (volume_on_durable s G Hd) as E.
  destruct (new_fs_run (port s)) as (_ & _ & p' & En & Hh' & Hs & _); [done | by rewrite E |]. rewrite E in En.
  exists p'. split; [done|]. split; [|done]. by split; [apply geometry_set_port|].
Qed.

Lemma entry_at_port s p' l : same_disk (port s) p' → entry_at (set_port p' s) l = entry_at s l.
Proof. intros Hd. apply entry_at_ext. by apply cluster_bytes_ext. Qed.

Lemma regular_file_port fuel s p' f cs : same_disk (port s) p' → regular_file fuel s f cs → regular_file fuel (set_port p' s) f cs.
Proof. intros Hd [Hl Ha Hc Ho Hf]. by split; rewrite ?entry_at_port. Qed.

(** C1: What was saved survives a reboot.  On a volume whose disk agrees with memory, a
    file is enlarged to [n] bytes and [data] is written into it at [off]; then the
    kernel stops, and the disk is mounted again: it mounts, with the same table, and
    the file reads as its old contents, zeros up to [n] bytes, and [data] spliced in
    at [off]; and the disk agrees with memory again. *)
Theorem saved_file_survives fuel s f cs n off data :
  fs_ok s → durable s → grow_pre fuel s f cs n → 0 ≤ off → off + Z.of_nat (length data) ≤ n → bytes data →
  let size := de_size (entry_at s (file_location f)) in
  ∃ f' s1 s2 s3 a p', file_truncate fuel f n s = Done ((Some tt, f'), s1)
    ∧ file_write fuel f' off data s1 = Done (Some (Z.of_nat (length data)), s2)
    ∧ new_fs (port s2) = Done (Some s3) ∧ fs_ok s3 ∧ fat s3 = fat s1 ∧ durable s3
    ∧ file_read fuel f' s3
      = Done (Some {| reg_addr := a;
                      reg_bytes := splice (file_bytes s cs size ++ replicate (Z.to_nat (n - size)) 0) (Z.to_nat off) data |},
              set_port p' s3).
Proof.
  intros Hs Hd Hpre Ho Hend Hb size. assert (G : geometry s) by apply Hs.
  destruct (file_truncate_grow_ok fuel s f cs n Hs Hpre) as (s1 & e' & E1 & Hsz & Hres & Hrf & Hfb & _).
  set (all := grown_clusters s cs n) in *. set (f' := {| file_entry := e'; file_name := _; file_location := _ |}) in *.
  pose proof (rs_ok _ _ _ _ _ Hres) as Hs1. pose proof (rs_entry _ _ _ _ _ Hres) as He1.
  assert (Hd1 : durable s1) by (by eapply durable_kept; [| |apply Hres|apply Hres]).
  assert (Hrf' : regular_file fuel s1 f' all) by (by destruct Hrf).
  destruct (file_write_run fuel s1 f' all off data Hs1 Hrf') as (s2 & E2 & Hw); [done | change (file_location f') with (file_location f); by rewrite He1, Hsz | done |].
  destruct (regular_file_writes fuel _ _ _ _ _ Hrf' Hw) as [Hrf2 He2]. pose proof (writes_fs_ok _ _ _ _ Hs1 Hw) as Hs2.
  assert (Hd2 : durable s2) by (by eapply durable_writes; [apply Hs1| |]).
  destruct (remount_run s2 Hs2 Hd2) as (p3 & E3 & Hs3 & Hdisk).
  pose proof (regular_file_port fuel s2 p3 f' all Hdisk Hrf2) as Hrf3.
  assert (He3 : entry_at (set_port p3 s2) (file_location f') = e') by (rewrite (entry_at_port s2) by done; by rewrite He2).
  destruct (file_read_ok fuel (set_port p3 s2) f' all Hs3 Hrf3) as (a & p4 & E4 & _).
  { rewrite He3, Hsz. destruct (grown_facts fuel s f cs n G Hpre) as (_ & ? & _). destruct Hpre as [_ _ _ _ _ _ Hn _ _]. lia. }
  exists f', s1, s2, (set_port p3 s2), a, p4. split_and!; [done | done | done | done | | |].
  - by destruct Hw as [[p2 ->] _ _ _ _ _].
  - eapply durable_kept; [apply Hs2 | done | by apply boot_kept_port |]. intros k Hk. etransitivity; [|exact (du_table _ Hd2 k Hk)]. by apply sectors_ext.
  - rewrite E4, He3, Hsz. do 4 f_equal. rewrite file_bytes_ext by done. fold size in Hfb. rewrite <- Hfb. unfold file_bytes.
    assert (chain_bytes s2 all = splice (chain_bytes s1 all) (Z.to_nat off) data) as -> by apply Hw.
    destruct Hrf as [_ _ (_ & _ & Hroom) _ _]. rewrite He1, Hsz in Hroom. pose proof (length_chain_bytes s1 all (proj1 Hs1)).
    apply take_splice_in; lia.
Qed.
End Mount.

(** ** The sample volume with its boot record and table on the disk *)

Definition sample_boot_sector : list Z :=
  [0xEB; 0x58; 0x90] ++ replicate 8 32 ++ [0; 2; 1; 1; 0; 1; 0; 0; 0; 0; 0xF8] ++ replicate 10 0 ++ [128; 0; 0; 0]
  ++ [1; 0; 0; 0; 0; 0; 0; 0; 2] ++ replicate 21 0 ++ [0x29; 1; 0; 0; 0] ++ replicate 19 32.

Definition stored_disk : RamDisk :=
  {| rd_sectors := <[0 := sample_boot_sector]> (<[1 := concat (map (le_bytes 4) sample_fat)]> (rd_sectors (port sample_fs)));
     rd_live := ∅; rd_faults := [] |}.
Definition stored_fs : FATFileSystem RamDisk := set_port stored_disk sample_fs.

Lemma stored_fs_ok : fs_ok stored_fs.
Proof. split; [|by constructor]. by split. Qed.

Lemma sample_words : Forall is_u32 sample_fat.
Proof. unfold is_u32. apply Forall_app_2; [|by apply Forall_replicate]. repeat constructor; discriminate. Qed.

Lemma stored_durable : durable stored_fs.
Proof.
  split; [by vm_compute | by vm_compute | | exact sample_words].
  intros k Hk. cbn in Hk. assert (k = 0) as -> by lia. by vm_compute.
Qed.

Lemma stored_entry : entry_at stored_fs sample_location = sample_file.
Proof. by vm_compute. Qed.

#[local] Existing Instance ascii_case.

Lemma mount_finds_volume_witness :
  ∃ d s, fs_init stored_disk = Done (d, s) ∧ fat s = sample_fat ∧ get_cluster (dir_entry d) = 2.
Proof.
  assert (Ev : volume_on stored_disk = stored_fs) by (apply (volume_on_durable stored_fs); [apply stored_fs_ok | apply stored_durable]).
  destruct (mount_finds_volume stored_disk) as (d & s & a1 & a2 & E & (p' & Es) & _ & _ & Hr & _).
  - constructor.
  - rewrite Ev. apply stored_fs_ok.
  - vm_compute. split; [discriminate | reflexivity].
  - exists d, s. split; [exact E|]. split; [rewrite Es, Ev; reflexivity | rewrite Hr; vm_compute; reflexivity].
Defined.

(** From 600 bytes to 1100, and four bytes across the old end. *)
Lemma saved_file_survives_witness :
  ∃ f' s1 s2 s3, file_truncate 3 sample_handle 1100 stored_fs = Done ((Some tt, f'), s1)
    ∧ file_write 3 f' 598 [1; 2; 3; 4] s1 = Done (Some 4, s2) ∧ new_fs (port s2) = Done (Some s3).
Proof.
  destruct (saved_file_survives 3 stored_fs sample_handle [3; 4] 1100 598 [1; 2; 3; 4] stored_fs_ok stored_durable)
    as (f' & s1 & s2 & s3 & _ & _ & E1 & E2 & E3 & _).
  - split; cbn [file_location sample_handle]; rewrite ?stored_entry.
    + repeat split; discriminate.
    + done.
    + split; [right; exact sample_file_chain|repeat constructor; discriminate|repeat constructor; discriminate].
    + reflexivity.
    + exact (rf_outside _ _ _ _ sample_regular).
    + discriminate.
    + split; [done|discriminate].
    + discriminate.
    + vm_compute. discriminate.
  - lia.
  - cbn. lia.
  - repeat constructor; discriminate.
  - exists f', s1, s2, s3. split; [exact E1|]. split; [exact E2 | exact E3].
Defined.
