(* ===== verification/FatLeak.v ===== *)
(** * FatLeak: heap buffers of the driver on every path

    The driver allocates a buffer for each transfer with raw [alloc] and frees it
    by hand.  Here the whole driver is shown to return every buffer, whatever
    fails: [keeps m] says that a run of [m] that returns leaves the set of live
    buffers as it was.  The rules below follow the structure of the code. *)

From S2P Require Import Prelude Text FatNames FatTable BlockDev FatFs.

Section Leak.
Context {P : Type} `{BlockDevice P} `{UnicodeCase} (fuel : nat).
Implicit Types s : FATFileSystem P.

Abbreviation M := (kst (FATFileSystem P)).

Definition keeps {A} (m : M A) : Prop :=
  ∀ s a s', m s = Done (a, s') → live (port s') = live (port s).

(** [m] frees the buffer at [addr], and keeps all others. *)
Definition frees {A} (addr : Z) (m : M A) : Prop :=
  ∀ s a s' n L, live (port s) = <[addr := n]> L → L !! addr = None →
    m s = Done (a, s') → live (port s') = L.

(** ** Rules *)

Lemma keeps_ret {A} (a : A) : keeps (kret a).
Proof. by intros s a' s' [= <- <-]. Qed.

Lemma keeps_fault {A} f : keeps (A := A) (kfault f).
Proof. done. Qed.

Lemma keeps_get : keeps kget.
Proof. by intros s a' s' [= <- <-]. Qed.

Lemma keeps_gets {A} (f : FATFileSystem P → A) : keeps (kgets f).
Proof. by intros s a' s' [= <- <-]. Qed.

Lemma keeps_bind {A B} (m : M A) (k : A → M B) : keeps m → (∀ a, keeps (k a)) → keeps (kbind m k).
Proof.
  intros Hm Hk s b s' (a & s1 & E1 & E2)%kbind_inv. rewrite (Hk _ _ _ _ E2). by eapply Hm.
Qed.

Lemma keeps_try {A B} (m : M (option A)) (k : A → M (option B)) :
  keeps m → (∀ a, keeps (k a)) → keeps (ktry m k).
Proof. intros Hm Hk. apply keeps_bind; [done|]. intros [a|]; [apply Hk|apply keeps_ret]. Qed.

Lemma keeps_loop {X R} n (body : X → M (X + R)) x : (∀ x, keeps (body x)) → keeps (loopM n body x).
Proof.
  intros Hb. revert x. induction n as [|n IH]; intros x; [done|].
  apply (keeps_bind (body x)); [done|]. intros [x'|r]; [apply IH|apply keeps_ret].
Qed.

Lemma keeps_or_panic {A} (o : option A) : keeps (or_panic o).
Proof. destruct o; [apply keeps_ret|apply keeps_fault]. Qed.

Lemma keeps_on_fat {A} (m : kst FatBuffer A) : keeps (on_fat m).
Proof.
  intros s a s' E. unfold on_fat, zoom in E. destruct (m (fat s)) as [[b f]|]; [|done].
  injection E as <- <-. done.
Qed.

Lemma frees_bind {A B} addr (m : M A) (k : A → M B) :
  keeps m → (∀ a, frees addr (k a)) → frees addr (kbind m k).
Proof.
  intros Hm Hk s b s' n L Hl Hn (a & s1 & E1 & E2)%kbind_inv.
  eapply Hk; [|exact Hn|exact E2]. rewrite (Hm _ _ _ E1). exact Hl.
Qed.

Lemma frees_then {A B} addr (m : M A) (k : A → M B) :
  frees addr m → (∀ a, keeps (k a)) → frees addr (kbind m k).
Proof.
  intros Hm Hk s b s' n L Hl Hn (a & s1 & E1 & E2)%kbind_inv.
  rewrite (Hk _ _ _ _ E2). by eapply Hm.
Qed.

Lemma frees_fault {A} addr f : frees (A := A) addr (kfault f).
Proof. done. Qed.

Lemma frees_dealloc addr size : frees addr (on_port (dealloc addr size)).
Proof.
  intros s a s' n L Hl Hn [= <- <-]. cbn. rewrite free_live, Hl. by apply delete_insert_id.
Qed.

Lemma keeps_alloc {A} size (k : option Z → M A) :
  keeps (k None) → (∀ a, frees a (k (Some a))) → keeps (kbind (on_port (alloc size)) k).
Proof.
  intros Hn Hs s b s' (a & s1 & E1 & E2)%kbind_inv. unfold on_port, zoom, alloc in E1.
  destruct (heap_alloc size (port s)) as [[x|] p1] eqn:Ea; injection E1 as <- <-.
  - apply alloc_live in Ea as [Hx Hl]. eapply Hs; [|exact Hx|exact E2]. exact Hl.
  - rewrite (Hn _ _ _ E2). by eapply alloc_live_null.
Qed.

Lemma keeps_port_read sector count buf : keeps (on_port (port_read sector count buf)).
Proof.
  intros s a s' E. unfold on_port, zoom, port_read in E.
  destruct (Z.of_nat (length buf) <? 512 * count); [done|].
  pose proof (read_live sector count (port s)) as Hl.
  by destruct (dev_read sector count (port s)) as [[d|] p1]; injection E as <- <-.
Qed.

Lemma keeps_write_sectors sector count buf : keeps (on_port (write_sectors sector count buf)).
Proof.
  intros s a s' E. unfold on_port, zoom, write_sectors in E.
  destruct (count =? 0). { by injection E as <- <-. }
  destruct (Z.of_nat (length buf) <? 512 * count); [done|].
  set (d := take _ buf) in E. pose proof (write_live sector count d (port s)) as Hl.
  destruct (dev_write sector count d (port s)) as [b p1]. by injection E as <- <-.
Qed.

Create HintDb leak.
#[local] Hint Resolve keeps_ret keeps_fault keeps_get keeps_gets keeps_on_fat keeps_or_panic
  keeps_port_read keeps_write_sectors frees_dealloc frees_fault : leak.

(** ** The driver *)

Lemma keeps_get_sector c : keeps (get_sector c).
Proof.
  apply keeps_bind; [apply keeps_get|]. intros s. apply keeps_bind; [apply keeps_or_panic|].
  intros n. apply keeps_ret.
Qed.
#[local] Hint Resolve keeps_get_sector : leak.

(** What a cluster read does to the heap. *)
Lemma read_cluster_live c s o s' :
  read_cluster c s = Done (o, s') →
  match o with
  | None => live (port s') = live (port s)
  | Some r => ∃ n, live (port s') = <[reg_addr r := n]> (live (port s)) ∧ live (port s) !! reg_addr r = None
  end.
Proof.
  unfold read_cluster. intros (x & s1 & E1 & E)%kbind_inv. apply keeps_get_sector in E1 as L1.
  rewrite <-L1. clear L1 E1. apply kbind_inv in E as (? & ? & [= <- <-] & E).
  apply kbind_inv in E as (b & s2 & E1 & E). unfold on_port at 1, zoom, alloc in E1.
  destruct (heap_alloc _ (port s1)) as [[a|] p1] eqn:Ea; injection E1 as <- <-; [|done].
  apply alloc_live in Ea as [Hf Hl].
  apply kbind_inv in E as (d & s3 & E1 & E). apply keeps_port_read in E1 as L3. cbn in L3.
  destruct d as [d|].
  - injection E as <- <-. cbn. eexists. rewrite L3. eauto.
  - apply kbind_inv in E as (? & ? & E2 & [= <- <-]).
    eapply frees_dealloc; [|exact Hf|exact E2]. rewrite L3. exact Hl.
Qed.

(** A cluster is read into a new buffer, which the rest has to free. *)
Lemma keeps_read_cluster {A} c (k : option Region → M A) :
  keeps (k None) → (∀ r, frees (reg_addr r) (k (Some r))) → keeps (kbind (read_cluster c) k).
Proof.
  intros Hn Hs s b s' (o & s1 & E1 & E2)%kbind_inv. apply read_cluster_live in E1.
  destruct o as [r|]; [destruct E1 as (n & Hl & Hf); by eapply Hs|].
  by rewrite (Hn _ _ _ E2).
Qed.

Lemma keeps_try_read_cluster {A} c (k : Region → M (option A)) :
  (∀ r, frees (reg_addr r) (k r)) → keeps (ktry (read_cluster c) k).
Proof. intros Hs. apply keeps_read_cluster; [apply keeps_ret|done]. Qed.

Lemma frees_region r : frees (reg_addr r) (deallocate_region r).
Proof. apply frees_dealloc. Qed.

(** Follows the syntax of a method. *)
Ltac leak :=
  repeat match goal with
  | |- keeps (if ?b then _ else _) => destruct b
  | |- keeps (match ?x with _ => _ end) => destruct x
  | |- frees _ (if ?b then _ else _) => destruct b
  | |- frees _ (match ?x with _ => _ end) => destruct x
  | |- keeps (ktry (read_cluster _) _) => apply keeps_try_read_cluster; intros ?
  | |- keeps (kbind (read_cluster _) _) => apply keeps_read_cluster; [|intros ?]
  | |- frees _ (kbind (deallocate_region _) _) => apply frees_then; [apply frees_region|intros ?]
  | |- keeps (kbind (on_port (alloc _)) _) => apply keeps_alloc; [|intros ?]
  | |- keeps (kbind _ _) => apply keeps_bind; [|intros ?]
  | |- keeps (ktry _ _) => apply keeps_try; [|intros ?]
  | |- keeps (loopM _ _ _) => apply keeps_loop; intros ?
  | |- keeps _ => solve [eauto with leak nocore]
  | |- frees _ (kbind (on_port (dealloc _ _)) _) => apply frees_then; [apply frees_dealloc|intros ?]
  | |- frees _ (kbind _ _) => apply frees_bind; [|intros ?]
  | |- frees _ _ => solve [eauto with leak nocore]
  end.

Lemma keeps_write_cluster c b : keeps (write_cluster c b).
Proof. unfold write_cluster. leak. Qed.
#[local] Hint Resolve keeps_write_cluster : leak.

Lemma keeps_write_new_cluster c f : keeps (write_new_cluster c f).
Proof. unfold write_new_cluster. leak. Qed.

Lemma keeps_persist_fat : keeps persist_fat.
Proof.
  unfold persist_fat. apply keeps_bind; [apply keeps_get|]. intros s. generalize 0.
  induction (Z.to_nat (table_count (bs s))) as [|n IH]; intros i; cbn; leak.
Qed.

Lemma keeps_persist_directory_entry l e : keeps (persist_directory_entry l e).
Proof. unfold persist_directory_entry. leak. Qed.

Lemma keeps_read_directory_entry l : keeps (read_directory_entry l).
Proof. unfold read_directory_entry. leak. Qed.

Lemma keeps_load_directory_slots c : keeps (load_directory_slots fuel c).
Proof.
  unfold load_directory_slots. apply keeps_loop. intros [cluster slots].
  unfold load_slots_body, read_directory_internal, fat_next. leak.
Qed.
#[local] Hint Resolve keeps_write_new_cluster keeps_persist_fat keeps_persist_directory_entry
  keeps_read_directory_entry keeps_load_directory_slots : leak.

Lemma keeps_directory_cluster d : keeps (directory_cluster d).
Proof. unfold directory_cluster, root. leak. Qed.
#[local] Hint Resolve keeps_directory_cluster : leak.

Lemma keeps_find_entry_by_name d n : keeps (find_entry_by_name fuel d n).
Proof. unfold find_entry_by_name. leak. Qed.

Lemma keeps_append_directory_cluster c : keeps (append_directory_cluster c).
Proof. unfold append_directory_cluster, clear_cluster. leak. Qed.
#[local] Hint Resolve keeps_find_entry_by_name keeps_append_directory_cluster : leak.

Lemma keeps_allocate_directory_slots c n : keeps (allocate_directory_slots fuel c n).
Proof.
  unfold allocate_directory_slots. leak. unfold extend_body. leak.
Qed.
#[local] Hint Resolve keeps_allocate_directory_slots : leak.

Lemma keeps_persist_entries l : keeps (persist_entries l).
Proof. induction l as [|[e loc] l IH]; cbn; leak. Qed.
#[local] Hint Resolve keeps_persist_entries : leak.

Lemma keeps_persist_new_entry c l e : keeps (persist_new_entry fuel c l e).
Proof. unfold persist_new_entry. leak. Qed.
#[local] Hint Resolve keeps_persist_new_entry : leak.

Lemma keeps_create_file d n : keeps (create_file fuel d n).
Proof. unfold create_file. leak. Qed.

Lemma keeps_create_directory d n : keeps (create_directory fuel d n).
Proof. unfold create_directory, initialize_directory_cluster, rollback_allocated_chain. leak. Qed.

Lemma keeps_delete_lfn_entries l : keeps (delete_lfn_entries l).
Proof. induction l as [|loc l IH]; cbn; leak. Qed.
#[local] Hint Resolve keeps_delete_lfn_entries : leak.

Lemma keeps_delete_directory_entry l : keeps (delete_directory_entry l).
Proof. unfold delete_directory_entry. leak. Qed.
#[local] Hint Resolve keeps_delete_directory_entry : leak.

Lemma keeps_unlink_file d n : keeps (unlink_file fuel d n).
Proof. unfold unlink_file. leak. Qed.

Lemma keeps_remove_directory d n : keeps (remove_directory fuel d n).
Proof. unfold remove_directory, directory_is_empty. leak. Qed.

Lemma keeps_list_directory d : keeps (list_directory fuel d).
Proof. unfold list_directory. leak. Qed.

Lemma keeps_seek size c o : keeps (seek fuel size c o).
Proof. unfold seek. leak. unfold seek_body, fat_next. leak. Qed.
#[local] Hint Resolve keeps_seek : leak.

Lemma keeps_write_existing_file e o d : keeps (write_existing_file fuel e o d).
Proof. unfold write_existing_file. leak. unfold write_body, fat_next. leak. Qed.

Lemma keeps_zero_file_range c o n : keeps (zero_file_range fuel c o n).
Proof. unfold zero_file_range. leak. unfold zero_body, fat_next. leak. Qed.
#[local] Hint Resolve keeps_write_existing_file keeps_zero_file_range : leak.

Lemma keeps_cluster_at c i : keeps (cluster_at c i).
Proof. revert c. induction i as [|i IH]; intros c; cbn; unfold fat_next; leak. Qed.
#[local] Hint Resolve keeps_cluster_at : leak.

Lemma keeps_truncate_existing_file e l n : keeps (truncate_existing_file fuel e l n).
Proof.
  unfold truncate_existing_file, shrink_existing_file, shrink_chain, grow_existing_file, grow_chain,
    rollback_growth, clusters_for_size, with_entry, fat_next. leak.
Qed.

(** ** Reading a file: the one operation that hands out a buffer *)

(** The loop owns the file buffer [fb]; it frees it exactly when it fails. *)
Lemma read_loop_live n fb size x s o s' m L :
  live (port s) = <[fb := m]> L → L !! fb = None →
  loopM n (read_file_body fb size) x s = Done (o, s') →
  live (port s') = if o then <[fb := m]> L else L.
Proof.
  intros Hl Hfb. revert x s Hl. induction n as [|n IH]; intros [c acc] s Hl; [done|].
  rewrite loopM_step. intros (r & s1 & E1 & E2)%kbind_inv. unfold read_file_body in E1.
  destruct (_ <? _). 2:{ injection E1 as <- <-. by injection E2 as <- <-. }
  apply kbind_inv in E1 as (o1 & s2 & Er & E1). apply read_cluster_live in Er.
  destruct o1 as [reg|].
  - destruct Er as (k & Hlr & Hfr). apply kbind_inv in E1 as (? & s3 & Ed & E1).
    assert (Hl3 : live (port s3) = <[fb := m]> L).
    { rewrite <-Hl. eapply frees_region; [exact Hlr|exact Hfr|exact Ed]. }
    destruct (_ =? size). { injection E1 as <- <-. by injection E2 as <- <-. }
    apply kbind_inv in E1 as (nx & ? & [= <- <-] & E1).
    destruct (next_cluster (fat s3) c) as [nx|].
    + injection E1 as <- <-. by eapply IH.
    + apply kbind_inv in E1 as (? & s4 & Ed2 & [= <- <-]). injection E2 as <- <-.
      by eapply frees_dealloc.
  - apply kbind_inv in E1 as (? & s4 & Ed2 & [= <- <-]). injection E2 as <- <-.
    eapply frees_dealloc; [by rewrite Er|done|done].
Qed.

Lemma read_file_live e s o s' :
  read_file fuel e s = Done (o, s') →
  match o with
  | None => live (port s') = live (port s)
  | Some r => live (port s') = live (port s) ∧ reg_bytes r = []
      ∨ ∃ n, live (port s') = <[reg_addr r := n]> (live (port s)) ∧ live (port s) !! reg_addr r = None
  end.
Proof.
  unfold read_file. destruct (negb _). { by intros [= <- <-]. }
  destruct (_ =? 0). { intros [= <- <-]. by left. }
  intros (a & s1 & E1 & E)%ktry_inv. unfold on_port, zoom, alloc in E1.
  destruct (heap_alloc _ (port s)) as [[fb|] p1] eqn:Ea; injection E1 as <- <-.
  2:{ destruct E as [-> ->]. by eapply alloc_live_null. }
  apply alloc_live in Ea as [Hf Hl]. destruct (_ =? 0).
  { apply kbind_inv in E as (? & ? & Ed & [= <- <-]).
    eapply frees_dealloc; [|exact Hf|exact Ed]. exact Hl. }
  apply ktry_inv in E as (oc & s2 & El & E).
  assert (Hl2 := read_loop_live _ _ _ _ _ _ _ _ _ (Hl : live (port (set_port p1 s)) = _) Hf El).
  destruct oc as [contents|].
  - injection E as <- <-. right. eexists. cbn. eauto.
  - by destruct E as [-> ->].
Qed.

End Leak.
