(* ===== verification/Descriptors.v ===== *)
(** * Descriptors: the file descriptor table of a process (src/src/scheduling/process.rs)

    The [File] trait of src/src/fs/fs.rs is the class [FileOps]: the operations
    of a file object, over a state [S] that holds all file objects, which
    descriptors share ([Arc<RwLock<dyn File>>]) and name by a handle [F].
    [FileSpec] is what a client may rely on: while [holds s f c], the file [f]
    has the contents [c].  The descriptor operations are those of [Process], over
    the table and [S]; their theorems are proved against [FileSpec]. *)

From S2P Require Import Prelude BlockDev.

(** ** The File trait *)

Class FileOps (S F : Type) := {
  f_size : F → kst S Z;
  f_read : F → kst S (option Region);
  f_write : F → Z → list Z → kst S (option Z);
  f_truncate : F → Z → kst S (option unit);
  (** [dealloc] of a region that [f_read] returned. *)
  f_free : Region → kst S unit;
}.

Class FileSpec (S F : Type) `{FileOps S F} := {
  (** The file is in good order and has these contents. *)
  holds : S → F → list Z → Prop;
  (** It may grow to this size. *)
  may_grow : S → F → Z → Prop;
  size_law s f c : holds s f c →
    ∃ s', f_size f s = Done (Z.of_nat (length c), s') ∧ holds s' f c
      ∧ ∀ n, may_grow s f n → may_grow s' f n;
  read_law s f c : holds s f c →
    ∃ r s', f_read f s = Done (Some r, s') ∧ reg_bytes r = c ∧ holds s' f c;
  write_law s f c off d : holds s f c → bytes d → 0 ≤ off → off + Z.of_nat (length d) ≤ Z.of_nat (length c) →
    ∃ s', f_write f off d s = Done (Some (Z.of_nat (length d)), s')
      ∧ holds s' f (splice c (Z.to_nat off) d);
  grow_law s f c n : holds s f c → may_grow s f n → Z.of_nat (length c) < n →
    ∃ s', f_truncate f n s = Done (Some tt, s')
      ∧ holds s' f (c ++ replicate (Z.to_nat n - length c) 0);
  free_law s f c r : holds s f c → ∃ s', f_free r s = Done (tt, s') ∧ holds s' f c;
  bytes_law s f c : holds s f c → bytes c;
}.

(** ** Descriptors *)

Record OpenFile (F : Type) := {
  of_file : F;
  of_offset : Z;
  of_readable : bool;
  of_writable : bool;
}.
Arguments of_file {F} _.
Arguments of_offset {F} _.
Arguments of_readable {F} _.
Arguments of_writable {F} _.

Inductive FileDescriptor (F : Type) :=
| Stdin
| Stdout
| Stderr
| FileFd (f : OpenFile F).
Arguments Stdin {F}.
Arguments Stdout {F}.
Arguments Stderr {F}.
Arguments FileFd {F} _.

Abbreviation fd_table F := (list (option (FileDescriptor F))).

Definition set_offset {F} (n : Z) (o : OpenFile F) : OpenFile F :=
  {| of_file := of_file o; of_offset := n; of_readable := of_readable o; of_writable := of_writable o |}.

Section Table.
Context {F : Type}.
Implicit Types t : fd_table F.

Definition standard_fd_table : fd_table F := [Some Stdin; Some Stdout; Some Stderr].

(** [for fd in fd..self.fd_table.len()]: the first free index of the rest. *)
Fixpoint first_free (rest : fd_table F) (fd : nat) : option nat :=
  match rest with
  | [] => None
  | None :: _ => Some fd
  | Some _ :: rest => first_free rest (S fd)
  end.

Definition open_file (file : F) (readable writable : bool) (t : fd_table F) : nat * fd_table F :=
  let descriptor :=
    Some (FileFd {| of_file := file; of_offset := 0; of_readable := readable; of_writable := writable |}) in
  match first_free (drop 3 t) 3 with
  | Some fd => (fd, <[fd := descriptor]> t)
  | None => (length t, t ++ [descriptor])
  end.

Definition close_fd (fd : nat) (t : fd_table F) : bool * fd_table F :=
  if (fd <? 3)%nat || (length t <=? fd)%nat then (false, t) else (true, <[fd := None]> t).

Definition get_fd (fd : nat) (t : fd_table F) : option (FileDescriptor F) := mjoin (t !! fd).
End Table.

Section Io.
Context {S F : Type} `{FileOps S F}.

(** The descriptor operations run over the table and the files. *)
Definition fdm (A : Type) : Type := kst (fd_table F * S) A.
Definition lift {A} (m : kst S A) : fdm A := zoom snd (λ s x, (x.1, s)) m.
(** Writes an [OpenFile] back into its slot. *)
Definition set_fd (fd : nat) (o : OpenFile F) : fdm unit :=
  kmodify (λ x, (<[fd := Some (FileFd o)]> x.1, x.2)).

Definition free_file_region (r : Region) : fdm unit :=
  if reg_size r =? 0 then kret tt else lift (f_free r).

Definition read_fd (fd : nat) (size : Z) : fdm (option (list Z)) :=
  let? descriptor := kgets (λ x, get_fd fd x.1) in
  match descriptor with
  | FileFd open_file =>
      if negb (of_readable open_file) then kret None
      else
        let? file_region := lift (f_read (of_file open_file)) in
        let file_bytes := reg_bytes file_region in
        let len := Z.of_nat (length file_bytes) in
        if len <=? of_offset open_file then
          free_file_region file_region ;;* kret (Some [])
        else
          let requested_end := default len (checked_add (of_offset open_file) size) in
          let end_ := Z.min requested_end len in
          let bytes := take (Z.to_nat (end_ - of_offset open_file))
                            (drop (Z.to_nat (of_offset open_file)) file_bytes) in
          set_fd fd (set_offset end_ open_file) ;;*
          free_file_region file_region ;;*
          kret (Some bytes)
  | _ => kret None
  end.

(** [open_file.offset += bytes_written] panics on overflow. *)
Definition write_fd (fd : nat) (data : list Z) : fdm (option Z) :=
  let? descriptor := kgets (λ x, get_fd fd x.1) in
  match descriptor with
  | FileFd open_file =>
      if negb (of_writable open_file) then kret None
      else
        let? write_end := kret (checked_add (of_offset open_file) (Z.of_nat (length data))) in
        let* size := lift (f_size (of_file open_file)) in
        let? _ := if size <? write_end then lift (f_truncate (of_file open_file) write_end)
                  else kret (Some tt) in
        let? bytes_written := lift (f_write (of_file open_file) (of_offset open_file) data) in
        let* offset := uadd (of_offset open_file) bytes_written in
        set_fd fd (set_offset offset open_file) ;;*
        kret (Some bytes_written)
  | _ => kret None
  end.

Definition truncate_fd (fd : nat) (size : Z) : fdm (option unit) :=
  let? descriptor := kgets (λ x, get_fd fd x.1) in
  match descriptor with
  | FileFd open_file =>
      if negb (of_writable open_file) then kret None
      else
        let? _ := lift (f_truncate (of_file open_file) size) in
        (if size <? of_offset open_file then set_fd fd (set_offset size open_file) else kret tt) ;;*
        kret (Some tt)
  | _ => kret None
  end.
End Io.

(** ** The table *)

Section TableProps.
Context {F : Type}.
Implicit Types t : fd_table F.

Lemma first_free_spec t k fd :
  first_free t k = Some fd →
  ∃ i, fd = (k + i)%nat ∧ t !! i = Some None ∧ ∀ j, (j < i)%nat → ∃ d, t !! j = Some (Some d).
Proof.
  revert k. induction t as [|[d|] t IH]; intros k; [done| |].
  - intros (i & -> & Hi & Hlt)%IH. exists (S i). split; [lia|]. split; [done|].
    intros [|j] Hj; [by exists d|]. apply Hlt. lia.
  - intros [= <-]. exists 0%nat. split; [lia|]. split; [done|]. intros j Hj. lia.
Qed.

Lemma first_free_None t k j : first_free t k = None → (j < length t)%nat → ∃ d, t !! j = Some (Some d).
Proof.
  revert k j. induction t as [|[d|] t IH]; intros k [|j] Hf Hj; try done; simpl in *; try lia.
  - by exists d.
  - apply (IH (S k)); [done|lia].
Qed.

(** opening a file returns the smallest descriptor from 3 on that is not in
    use, which then names the file at offset 0; every other descriptor keeps its
    meaning. *)
Theorem open_file_lowest file r w t :
  (3 ≤ length t)%nat →
  let '(fd, t') := open_file file r w t in
  (3 ≤ fd)%nat ∧ get_fd fd t = None
  ∧ (∀ j, (3 ≤ j < fd)%nat → is_Some (get_fd j t))
  ∧ get_fd fd t' = Some (FileFd {| of_file := file; of_offset := 0; of_readable := r; of_writable := w |})
  ∧ (∀ j, j ≠ fd → get_fd j t' = get_fd j t).
Proof.
  intros Hlen. unfold open_file, get_fd. set (d := Some _).
  destruct (first_free (drop 3 t) 3) as [fd|] eqn:E.
  - apply first_free_spec in E as (i & -> & Hi & Hlt). rewrite lookup_drop in Hi.
    split; [lia|]. split; [by rewrite Hi|]. split; [|split].
    + intros j Hj. destruct (Hlt (j - 3)%nat ltac:(lia)) as [x Hx]. rewrite lookup_drop in Hx.
      replace (3 + (j - 3))%nat with j in Hx by lia. rewrite Hx. by eexists.
    + rewrite list_lookup_insert_eq; [done|]. by eapply lookup_lt_Some.
    + intros j Hj. by rewrite list_lookup_insert_ne.
  - split; [done|]. split; [by rewrite (proj2 (lookup_ge_None t (length t)))|]. split; [|split].
    + intros j Hj. destruct (first_free_None (drop 3 t) 3 (j - 3) E) as [x Hx]; [rewrite length_drop; lia|].
      rewrite lookup_drop in Hx. replace (3 + (j - 3))%nat with j in Hx by lia. rewrite Hx. by eexists.
    + by rewrite lookup_app_r, Nat.sub_diag.
    + intros j Hj. destruct (decide (j < length t)%nat); [by rewrite lookup_app_l|].
      rewrite lookup_app_r by lia. rewrite (proj2 (lookup_ge_None t j)) by lia.
      by destruct (j - length t)%nat eqn:?; [lia|].
Qed.
End TableProps.

Lemma open_file_lowest_witness :
  open_file 7 true true [Some Stdin; Some Stdout; Some Stderr; None; Some Stdout] =
    (3%nat, [Some Stdin; Some Stdout; Some Stderr;
       Some (FileFd {| of_file := 7; of_offset := 0; of_readable := true; of_writable := true |}); Some Stdout])
  ∧ (3 ≤ 3)%nat.
Proof.
  pose proof (open_file_lowest 7 true true [Some Stdin; Some Stdout; Some Stderr; None; Some Stdout]
    ltac:(simpl; lia)) as H.
  split; [reflexivity | exact (proj1 H)].
Defined.

(** ** The standard streams *)

Section Streams.
Context {S F : Type} `{FileOps S F}.
Implicit Types t : fd_table F.

(** One operation on a process's descriptors. *)
Inductive fd_step : fd_table F * S → fd_table F * S → Prop :=
| step_open file r w t s : fd_step (t, s) ((open_file file r w t).2, s)
| step_close fd t s : fd_step (t, s) ((close_fd fd t).2, s)
| step_read fd n x r x' : read_fd fd n x = Done (r, x') → fd_step x x'
| step_write fd d x r x' : write_fd fd d x = Done (r, x') → fd_step x x'
| step_truncate fd n x r x' : truncate_fd fd n x = Done (r, x') → fd_step x x'.

Definition std_streams t : Prop := take 3 t = standard_fd_table.

(** [m] keeps the standard streams where they are. *)
Definition keeps_std {A} (m : fdm (S := S) (F := F) A) : Prop :=
  ∀ x r x', std_streams x.1 → m x = Done (r, x') → std_streams x'.1.

Lemma keeps_std_ret {A} (a : A) : keeps_std (kret a).
Proof. by intros x r x' Hx [= <- <-]. Qed.

Lemma keeps_std_bind {A B} (m : fdm A) (k : A → fdm B) :
  keeps_std m → (∀ a, keeps_std (k a)) → keeps_std (kbind m k).
Proof. intros Hm Hk x r x' Hx (a & x1 & E1 & E2)%kbind_inv. eapply Hk; [|done]. by eapply Hm. Qed.

Lemma keeps_std_try {A B} (m : fdm (option A)) (k : A → fdm (option B)) :
  keeps_std m → (∀ a, keeps_std (k a)) → keeps_std (ktry m k).
Proof. intros Hm Hk. apply keeps_std_bind; [done|]. intros [a|]; [apply Hk|apply keeps_std_ret]. Qed.

Lemma keeps_std_lift {A} (m : kst S A) : keeps_std (lift m).
Proof.
  intros [t s] r x' Hx E. unfold lift, zoom in E. cbn in E. destruct (m s) as [[a s']|]; [|done].
  injection E as <- <-. done.
Qed.

Lemma std_streams_insert t fd d : std_streams t → (3 ≤ fd)%nat → std_streams (<[fd := d]> t).
Proof. intros Ht Hfd. unfold std_streams. by rewrite take_insert_ge by lia. Qed.

Lemma keeps_std_set_fd fd o : (3 ≤ fd)%nat → keeps_std (set_fd fd o).
Proof. intros Hfd x r x' Hx [= <- <-]. by apply std_streams_insert. Qed.

Lemma keeps_std_free r : keeps_std (free_file_region r).
Proof. unfold free_file_region. destruct (_ =? _); [apply keeps_std_ret|apply keeps_std_lift]. Qed.

(** A descriptor that names a file is not one of the first three. *)
Lemma std_file_fd t fd o : std_streams t → get_fd fd t = Some (FileFd o) → (3 ≤ fd)%nat.
Proof.
  intros Ht Hfd. destruct (decide (3 ≤ fd)%nat) as [|Hlt]; [done|]. exfalso.
  unfold get_fd in Hfd. assert (t !! fd = take 3 t !! fd) as E by (rewrite lookup_take_lt by lia; done).
  rewrite E, Ht in Hfd. destruct fd as [|[|[|fd]]]; [discriminate Hfd..|lia].
Qed.

Lemma keeps_std_get_fd {A} fd (k : FileDescriptor F → fdm (option A)) :
  (∀ o, (3 ≤ fd)%nat → keeps_std (k (FileFd o))) → (∀ d, (∀ o, d ≠ FileFd o) → keeps_std (k d)) →
  keeps_std (ktry (kgets (λ x, get_fd fd x.1)) k).
Proof.
  intros Hf Ho x r x' Hx (od & x1 & [= <- <-] & E)%ktry_inv.
  destruct (get_fd fd x.1) as [d|] eqn:Ed; [|by destruct E as [-> ->]].
  destruct d as [| | |o]; [refine (Ho _ _ _ _ _ Hx E); intros o; discriminate..|].
  refine (Hf o _ _ _ _ Hx E). by eapply std_file_fd.
Qed.

Ltac std :=
  repeat match goal with
  | |- keeps_std (if ?b then _ else _) => destruct b
  | |- keeps_std (match ?x with _ => _ end) => destruct x
  | |- keeps_std (kbind _ _) => apply keeps_std_bind; [|intros ?]
  | |- keeps_std (ktry _ _) => apply keeps_std_try; [|intros ?]
  | |- keeps_std (lift _) => apply keeps_std_lift
  | |- keeps_std (free_file_region _) => apply keeps_std_free
  | |- keeps_std (set_fd _ _) => by apply keeps_std_set_fd
  | |- keeps_std (kret _) => apply keeps_std_ret
  | |- keeps_std (kfault _) => done
  end.

Lemma fd_step_std x x' : fd_step x x' → std_streams x.1 → std_streams x'.1.
Proof.
  intros [file r w t s|fd t s|fd n y r y' E|fd d y r y' E|fd n y r y' E] Hx; cbn [fst] in *.
  - unfold open_file. destruct (first_free (drop 3 t) 3) as [fd|] eqn:E; cbn [snd].
    + apply first_free_spec in E as (i & -> & _). apply std_streams_insert; [done|lia].
    + unfold std_streams. rewrite take_app_le; [done|].
      pose proof (f_equal length Hx) as Hl. rewrite length_take in Hl. cbn [length standard_fd_table] in Hl. lia.
  - unfold close_fd. destruct (_ || _) eqn:E; [done|]. cbn [snd].
    apply orb_false_iff in E as [E _]. apply Nat.ltb_ge in E. by apply std_streams_insert.
  - revert Hx E. apply (fun H => H y r y'). unfold read_fd.
    apply keeps_std_get_fd; intros d Hd; std; by destruct (Hd f).
  - revert Hx E. apply (fun H => H y r y'). unfold write_fd.
    apply keeps_std_get_fd; intros o Hd; unfold uadd, or_panic; std; by destruct (Hd f).
  - revert Hx E. apply (fun H => H y r y'). unfold truncate_fd.
    apply keeps_std_get_fd; intros d Hd; std; by destruct (Hd f).
Qed.

(** descriptors 0, 1 and 2 are the standard streams for the whole life of a
    process, whatever files it opens, closes, reads, writes or truncates and
    whatever the file system answers. *)
Theorem standard_streams_invariant s x :
  rtc fd_step (standard_fd_table, s) x →
  get_fd 0 x.1 = Some Stdin ∧ get_fd 1 x.1 = Some Stdout ∧ get_fd 2 x.1 = Some Stderr.
Proof.
  intros Hr. assert (std_streams x.1) as Hx.
  { assert (std_streams (standard_fd_table, s).1) as H0 by done. revert H0.
    induction Hr as [|x y z Hxy _ IH]; [done|]. intros Hx. apply IH. by eapply fd_step_std. }
  unfold get_fd. assert (Hj : ∀ j, (j < 3)%nat → x.1 !! j = standard_fd_table !! j).
  { intros j Hj. rewrite <-Hx. by rewrite lookup_take_lt. }
  rewrite !Hj by lia. done.
Qed.
End Streams.

(** ** Reading and writing through a descriptor *)

Section Contents.
Context {S F : Type} `{FileSpec S F}.
Implicit Types t : fd_table F.

Lemma lift_done {A} (m : kst S A) t s a s' : m s = Done (a, s') → lift m (t, s) = Done (a, (t, s')).
Proof. intros E. unfold lift, zoom. cbn. by rewrite E. Qed.

Lemma free_file_region_ok r t s f c :
  holds s f c → ∃ s', free_file_region r (t, s) = Done (tt, (t, s')) ∧ holds s' f c.
Proof.
  intros Hh. unfold free_file_region. destruct (_ =? _); [by exists s|].
  destruct (free_law s f c r Hh) as (s' & E & Hh'). exists s'. split; [by apply lift_done|done].
Qed.

(** Descriptor [fd] reads file [f], readable, from [off] on. *)
Definition reads_at t (fd : nat) (f : F) (off : Z) : Prop :=
  ∃ o, get_fd fd t = Some (FileFd o) ∧ of_file o = f ∧ of_offset o = off ∧ of_readable o = true.

Lemma get_fd_insert t fd o d :
  get_fd fd t = Some (FileFd o) → get_fd fd (<[fd := Some d]> t) = Some d.
Proof.
  unfold get_fd. intros E. rewrite list_lookup_insert_eq; [done|].
  destruct (t !! fd) eqn:El; [|done]. by eapply lookup_lt_Some.
Qed.

(** One read returns the bytes at the offset and moves it past them; the other
    descriptors are as they were. *)
Lemma read_fd_run t s fd o size c :
  holds s (of_file o) c → get_fd fd t = Some (FileFd o) → of_readable o = true →
  0 ≤ of_offset o → 0 ≤ size → Z.of_nat (length c) ≤ usize_max →
  let end_ := Z.max (of_offset o) (Z.min (of_offset o + size) (Z.of_nat (length c))) in
  ∃ t' s', read_fd fd size (t, s)
      = Done (Some (take (Z.to_nat size) (drop (Z.to_nat (of_offset o)) c)), (t', s'))
    ∧ holds s' (of_file o) c ∧ get_fd fd t' = Some (FileFd (set_offset end_ o))
    ∧ ∀ j, j ≠ fd → get_fd j t' = get_fd j t.
Proof.
  intros Hh Ho Hr Hoff0 Hsize Hlen end_.
  unfold read_fd. rewrite (ktry_some _ _ _ (FileFd o) (t, s)) by (unfold kgets; cbn; by rewrite Ho).
  rewrite Hr. cbn [negb]. destruct (read_law s (of_file o) c Hh) as (r & s1 & E1 & Hc & Hh1).
  rewrite (ktry_some _ _ _ _ _ (lift_done _ t s _ _ E1)). rewrite Hc.
  destruct (Z.leb_spec (Z.of_nat (length c)) (of_offset o)) as [Hend|Hin].
  - destruct (free_file_region_ok r t s1 (of_file o) c Hh1) as (s2 & E2 & Hh2).
    rewrite (kbind_done _ _ _ _ _ E2). exists t, s2. rewrite drop_ge by lia. rewrite take_nil.
    split_and!; [done | done | | done]. rewrite Ho. do 2 f_equal.
    destruct o as [f off r' w]. unfold set_offset. cbn in *. f_equal. lia.
  - set (e := Z.min (default _ _) _).
    assert (He : e = Z.min (of_offset o + size) (Z.of_nat (length c))).
    { unfold e, checked_add. destruct (Z.leb_spec (of_offset o + size) usize_max); cbn; lia. }
    rewrite (kbind_done _ _ _ _ (<[fd := Some (FileFd (set_offset e o))]> t, s1)) by done.
    destruct (free_file_region_ok r (<[fd := Some (FileFd (set_offset e o))]> t) s1 (of_file o) c Hh1)
      as (s2 & E2 & Hh2).
    rewrite (kbind_done _ _ _ _ _ E2). eexists _, s2. split_and!; [|done| |].
    + unfold kret. do 3 f_equal. rewrite He. destruct (Z.min_spec (of_offset o + size) (Z.of_nat (length c))) as [[? ->]|[? ->]].
      * f_equal. lia.
      * rewrite !take_ge; [done| |]; rewrite length_drop; lia.
    + replace end_ with e by lia. by eapply get_fd_insert.
    + intros j Hj. unfold get_fd. by rewrite list_lookup_insert_ne.
Qed.

Lemma read_fd_ok t s fd f off size c :
  holds s f c → reads_at t fd f off → 0 ≤ off → 0 ≤ size → Z.of_nat (length c) ≤ usize_max →
  ∃ t' s', read_fd fd size (t, s)
      = Done (Some (take (Z.to_nat size) (drop (Z.to_nat off) c)), (t', s'))
    ∧ holds s' f c ∧ reads_at t' fd f (Z.max off (Z.min (off + size) (Z.of_nat (length c)))).
Proof.
  intros Hh (o & Ho & <- & <- & Hr) Hoff Hsize Hlen.
  destruct (read_fd_run t s fd o size c Hh Ho Hr Hoff Hsize Hlen) as (t' & s' & E & Hh' & Hg & _).
  exists t', s'. split; [done|]. split; [done|]. by eexists.
Qed.

(** A program that reads a descriptor again and again. *)
Fixpoint read_many (fd : nat) (sizes : list Z) : fdm (S := S) (F := F) (option (list (list Z))) :=
  match sizes with
  | [] => kret (Some [])
  | n :: sizes =>
      let? chunk := read_fd fd n in
      let? chunks := read_many fd sizes in
      kret (Some (chunk :: chunks))
  end.

(** reads of any sizes, one after the other, deliver the contents of the file
    in order and without gaps: their results together are the bytes from the
    starting offset on, as many as were asked for and are there. *)
Theorem read_many_in_order t s fd f off sizes c :
  holds s f c → reads_at t fd f off → 0 ≤ off → Forall (λ n, 0 ≤ n) sizes →
  Z.of_nat (length c) ≤ usize_max →
  ∃ chunks t' s', read_many fd sizes (t, s) = Done (Some chunks, (t', s'))
    ∧ concat chunks = take (Z.to_nat (foldr Z.add 0 sizes)) (drop (Z.to_nat off) c)
    ∧ holds s' f c.
Proof.
  intros Hh Hr Hoff Hs Hlen. revert t s off Hh Hr Hoff.
  induction Hs as [|n sizes Hn Hs IH]; intros t s off Hh Hr Hoff.
  { exists [], t, s. cbn. by rewrite take_0. }
  destruct (read_fd_ok t s fd f off n c Hh Hr Hoff Hn Hlen) as (t1 & s1 & E1 & Hh1 & Hr1).
  destruct (IH t1 s1 _ Hh1 Hr1) as (chunks & t2 & s2 & E2 & Hc & Hh2); [lia|].
  cbn [read_many]. rewrite (ktry_some _ _ _ _ _ E1), (ktry_some _ _ _ _ _ E2).
  eexists _, t2, s2. split; [done|]. split; [|done]. cbn [concat foldr]. rewrite Hc.
  assert (0 ≤ foldr Z.add 0 sizes) as Hsum.
  { clear -Hs. induction Hs; cbn; lia. }
  rewrite Z2Nat.inj_add by lia. rewrite <-take_take_drop, drop_drop. f_equal.
  destruct (Z.le_gt_cases (Z.of_nat (length c)) (off + n)).
  - rewrite !drop_ge by lia. by rewrite !take_nil.
  - do 2 f_equal. lia.
Qed.

(** A write puts all its bytes at the descriptor's offset, enlarging the file with
    zeros first when it has to, and moves the offset past them. *)
Lemma write_fd_ok t s fd o d c :
  holds s (of_file o) c → get_fd fd t = Some (FileFd o) → of_writable o = true →
  0 ≤ of_offset o → of_offset o + Z.of_nat (length d) ≤ usize_max → bytes d →
  (of_offset o + Z.of_nat (length d) ≤ Z.of_nat (length c)
   ∨ may_grow s (of_file o) (of_offset o + Z.of_nat (length d))) →
  let end_ := (Z.to_nat (of_offset o) + length d)%nat in
  ∃ s', write_fd fd d (t, s)
      = Done (Some (Z.of_nat (length d)),
              (<[fd := Some (FileFd (set_offset (of_offset o + Z.of_nat (length d)) o))]> t, s'))
    ∧ holds s' (of_file o) (splice (c ++ replicate (end_ - length c) 0) (Z.to_nat (of_offset o)) d).
Proof.
  intros Hh Hfd Hw Hoff Hmax Hb Hgrow end_. unfold write_fd.
  rewrite (ktry_some _ _ _ (FileFd o) (t, s)) by (unfold kgets; cbn; by rewrite Hfd).
  rewrite Hw. cbn [negb]. unfold checked_add. rewrite (proj2 (Z.leb_le _ _)) by done.
  rewrite (ktry_some _ _ _ _ _ eq_refl).
  destruct (size_law s (of_file o) c Hh) as (s1 & E1 & Hh1 & Hg1).
  rewrite (kbind_done _ _ _ _ _ (lift_done _ t s _ _ E1)).
  set (m := if _ <? _ then _ else _).
  assert (∃ s2, m (t, s1) = Done (Some tt, (t, s2))
    ∧ holds s2 (of_file o) (c ++ replicate (end_ - length c) 0)) as (s2 & E2 & Hh2).
  { unfold m. destruct (Z.ltb_spec (Z.of_nat (length c)) (of_offset o + Z.of_nat (length d))) as [Hlt|Hge].
    - destruct Hgrow as [|Hg]; [lia|]. apply Hg1 in Hg.
      destruct (grow_law s1 (of_file o) c _ Hh1 Hg Hlt) as (s2 & E2 & Hh2).
      exists s2. split; [by apply lift_done|]. replace end_ with (Z.to_nat (of_offset o + Z.of_nat (length d))) by lia.
      done.
    - exists s1. split; [done|]. replace (end_ - length c)%nat with 0%nat by lia. cbn. by rewrite app_nil_r. }
  rewrite (ktry_some _ _ _ _ _ E2).
  destruct (write_law s2 (of_file o) _ (of_offset o) d Hh2 Hb Hoff) as (s3 & E3 & Hh3).
  { rewrite length_app, length_replicate. lia. }
  rewrite (ktry_some _ _ _ _ _ (lift_done _ t s2 _ _ E3)).
  rewrite (kbind_done _ _ _ _ _ (uadd_ok _ _ (t, s3) Hmax)). exists s3. done.
Qed.

(** a write through a descriptor succeeds completely, moves the offset past
    what it wrote and puts its bytes at the old offset, enlarging the file with
    zeros up to there first when it is shorter; whoever reads the file through
    another descriptor sees exactly that. *)
Theorem write_fd_read_back t s fd fd2 o d c off2 size :
  holds s (of_file o) c → get_fd fd t = Some (FileFd o) → of_writable o = true →
  0 ≤ of_offset o → of_offset o + Z.of_nat (length d) ≤ usize_max → bytes d →
  (of_offset o + Z.of_nat (length d) ≤ Z.of_nat (length c)
   ∨ may_grow s (of_file o) (of_offset o + Z.of_nat (length d))) →
  fd2 ≠ fd → reads_at t fd2 (of_file o) off2 → 0 ≤ off2 → 0 ≤ size → Z.of_nat (length c) ≤ usize_max →
  let end_ := (Z.to_nat (of_offset o) + length d)%nat in
  let c' := splice (c ++ replicate (end_ - length c) 0) (Z.to_nat (of_offset o)) d in
  ∃ t' s' x, write_fd fd d (t, s) = Done (Some (Z.of_nat (length d)), (t', s'))
    ∧ get_fd fd t' = Some (FileFd (set_offset (of_offset o + Z.of_nat (length d)) o))
    ∧ read_fd fd2 size (t', s') = Done (Some (take (Z.to_nat size) (drop (Z.to_nat off2) c')), x).
Proof.
  intros Hh Hfd Hw Hoff Hmax Hb Hgrow Hne Hr Hoff2 Hsize Hlen end_ c'.
  destruct (write_fd_ok t s fd o d c Hh Hfd Hw Hoff Hmax Hb Hgrow) as (s' & E & Hh').
  set (o' := set_offset _ o) in *.
  assert (Hr' : reads_at (<[fd := Some (FileFd o')]> t) fd2 (of_file o) off2).
  { destruct Hr as (o2 & Ho2 & Hrest). exists o2. split; [|done]. unfold get_fd in *.
    by rewrite list_lookup_insert_ne. }
  destruct (read_fd_ok _ s' fd2 (of_file o) off2 size c' Hh' Hr' Hoff2 Hsize) as (t2 & s2 & E2 & _).
  { unfold c'. rewrite length_splice; rewrite length_app, length_replicate; unfold usize_max in *; lia. }
  exists (<[fd := Some (FileFd o')]> t), s', (t2, s2). split; [done|]. split; [|done].
  by eapply get_fd_insert.
Qed.
End Contents.
