(* ===== verification/Time.v ===== *)
(** * Time: clocks, sleeping and the RTC (src/src/time/mod.rs, arch/x86_64/rtc.rs)

    The tick counter and the boot time are the state of the clocks.  The CMOS
    registers come from the hardware: a snapshot of the date registers is an
    argument, and the sequence of snapshots the double read sees is a list.
    [days_from_civil] is compared with the calendar itself, [next_day]. *)

From S2P Require Import Prelude.

Definition PIT_HZ : Z := 100.
Definition NANOSECONDS_PER_SECOND : Z := 1000000000.
Definition NANOSECONDS_PER_TICK : Z := NANOSECONDS_PER_SECOND / PIT_HZ.

Record Timespec := {
  tv_sec : Z;
  tv_nsec : Z;
}.

(** The statics of the module. *)
Record clocks := {
  TICKS : Z;
  BOOT_UNIX_SECONDS : Z;
}.

(** [fetch_add] on an [AtomicU64] wraps. *)
Definition tick : kst clocks unit :=
  kmodify (λ c, {| TICKS := wrap 64 (TICKS c + 1); BOOT_UNIX_SECONDS := BOOT_UNIX_SECONDS c |}).
Definition current_ticks : kst clocks Z := kgets TICKS.

Definition monotonic_ns : kst clocks Z :=
  let* t := current_ticks in umul t NANOSECONDS_PER_TICK.

(** [x as i64] of a [u64]. *)
Definition as_i64 (z : Z) : Z := if z <? 2 ^ 63 then z else z - 2 ^ 64.

Definition monotonic_timespec : kst clocks Timespec :=
  let* ns := monotonic_ns in
  kret {| tv_sec := as_i64 (ns / NANOSECONDS_PER_SECOND);
          tv_nsec := as_i64 (ns mod NANOSECONDS_PER_SECOND) |}.

Definition realtime_timespec : kst clocks Timespec :=
  let* boot_seconds := kgets BOOT_UNIX_SECONDS in
  let* ns := monotonic_ns in
  let* sec := uadd boot_seconds (ns / NANOSECONDS_PER_SECOND) in
  kret {| tv_sec := as_i64 sec; tv_nsec := as_i64 (ns mod NANOSECONDS_PER_SECOND) |}.

Definition div_ceil (a b : Z) : Z := if a mod b =? 0 then a / b else a / b + 1.

Definition duration_to_ticks (seconds nanoseconds : Z) : option Z :=
  ns ← checked_mul seconds NANOSECONDS_PER_SECOND;
  total_ns ← checked_add ns nanoseconds;
  Some (div_ceil total_ns NANOSECONDS_PER_TICK).

(** ** The RTC *)

Record RtcDateTime := {
  seconds : Z;
  minutes : Z;
  hours : Z;
  day : Z;
  month : Z;
  year : Z;
}.

#[global] Instance RtcDateTime_eq_dec : EqDecision RtcDateTime.
Proof. solve_decision. Defined.

Definition RTC_MODE_BINARY : Z := 0x04.
Definition RTC_MODE_24_HOUR : Z := 0x02.
Definition RTC_HOUR_PM_FLAG : Z := 0x80.

Definition bcd_to_binary (value : Z) : Z := Z.land value 0x0F + Z.shiftr value 4 * 10.

(** [day_of_year] is unsigned: it panics below zero (day 0 of March). *)
Definition days_from_civil {S} (year month day : Z) : kst S Z :=
  let adjusted_year := if month <=? 2 then year - 1 else year in
  let era := adjusted_year / 400 in
  let year_of_era := adjusted_year - era * 400 in
  let month_shifted := if 2 <? month then month - 3 else month + 9 in
  let* day_of_year := usub ((153 * month_shifted + 2) / 5 + day) 1 in
  let day_of_era := year_of_era * 365 + year_of_era / 4 - year_of_era / 100 + day_of_year in
  kret (era * 146097 + day_of_era - 719468).

(** The double read: the first snapshot that equals its predecessor; [Hang] when
    the given snapshots run out. *)
Fixpoint stable_read {S} (datetime : RtcDateTime) (reads : list RtcDateTime) : kst S RtcDateTime :=
  match reads with
  | [] => kfault Hang
  | second_read :: reads =>
      if bool_decide (second_read = datetime) then kret datetime else stable_read second_read reads
  end.

(** The BCD and 12-hour conversions. *)
Definition decode_bcd (status_b : Z) (d : RtcDateTime) : RtcDateTime :=
  if Z.land status_b RTC_MODE_BINARY =? 0
  then {| seconds := bcd_to_binary (seconds d);
          minutes := bcd_to_binary (minutes d);
          hours := Z.lor (bcd_to_binary (Z.land (hours d) 0x7F)) (Z.land (hours d) RTC_HOUR_PM_FLAG);
          day := bcd_to_binary (day d);
          month := bcd_to_binary (month d);
          year := bcd_to_binary (year d) |}
  else d.

Definition decode_hours (status_b : Z) (d : RtcDateTime) : RtcDateTime :=
  if (Z.land status_b RTC_MODE_24_HOUR =? 0) && negb (Z.land (hours d) RTC_HOUR_PM_FLAG =? 0)
  then {| seconds := seconds d; minutes := minutes d;
          hours := (Z.land (hours d) 0x7F + 12) mod 24;
          day := day d; month := month d; year := year d |}
  else d.

Definition datetime_to_unix {S} (d : RtcDateTime) : kst S Z :=
  let* days := days_from_civil (2000 + year d) (month d) (day d) in
  let days := wrap 64 days in
  let* a := umul days 86400 in
  let* b := uadd a (hours d * 3600) in
  let* c := uadd b (minutes d * 60) in
  uadd c (seconds d).

Definition read_unix_time {S} (first : RtcDateTime) (reads : list RtcDateTime) (status_b : Z) : kst S Z :=
  let* datetime := stable_read first reads in
  datetime_to_unix (decode_hours status_b (decode_bcd status_b datetime)).

(** [time::init]. *)
Definition init (first : RtcDateTime) (reads : list RtcDateTime) (status_b : Z) : kst clocks unit :=
  let* unix_seconds := read_unix_time first reads status_b in
  kmodify (λ c, {| TICKS := TICKS c; BOOT_UNIX_SECONDS := unix_seconds |}).

(** ** The calendar *)

Definition leap (y : Z) : bool := (y mod 4 =? 0) && (negb (y mod 100 =? 0) || (y mod 400 =? 0)).

Definition days_in_month (y m : Z) : Z :=
  if m =? 2 then (if leap y then 29 else 28)
  else if (m =? 4) || (m =? 6) || (m =? 9) || (m =? 11) then 30 else 31.

Record date := {
  date_year : Z;
  date_month : Z;
  date_day : Z;
}.

Definition next_day (d : date) : date :=
  let '{| date_year := y; date_month := m; date_day := k |} := d in
  if k <? days_in_month y m then {| date_year := y; date_month := m; date_day := k + 1 |}
  else if m <? 12 then {| date_year := y; date_month := m + 1; date_day := 1 |}
  else {| date_year := y + 1; date_month := 1; date_day := 1 |}.

Definition epoch : date := {| date_year := 1970; date_month := 1; date_day := 1 |}.

Definition valid_date (d : date) : Prop :=
  1 ≤ date_month d ≤ 12 ∧ 1 ≤ date_day d ≤ days_in_month (date_year d) (date_month d).

(** ** Lemmas *)

Ltac Zify.zify_post_hook ::= Z.to_euclidean_division_equations.

(** [days_from_civil] without the split into eras. *)
Definition civil (y m d : Z) : Z :=
  let y' := if m <=? 2 then y - 1 else y in
  let ms := if 2 <? m then m - 3 else m + 9 in
  365 * y' + y' / 4 - y' / 100 + y' / 400 + ((153 * ms + 2) / 5 + d - 1) - 719468.

Lemma days_from_civil_civil {S} y m d (s : S) :
  1 ≤ m ≤ 12 → 1 ≤ d ≤ 31 → days_from_civil y m d s = Done (civil y m d, s).
Proof.
  intros Hm Hd. unfold days_from_civil. set (y' := if m <=? 2 then _ else _).
  set (ms := if 2 <? m then _ else _).
  assert (0 ≤ ms ≤ 11) as Hms by (unfold ms; destruct (2 <? m) eqn:E; bool_to_prop; lia).
  rewrite (kbind_done _ _ _ _ _ (usub_ok ((153 * ms + 2) / 5 + d) 1 s ltac:(lia))).
  unfold kret, civil. fold y' ms. do 2 f_equal. lia.
Qed.

Lemma leap_spec y : leap y = true ↔ (y mod 4 = 0 ∧ (y mod 100 ≠ 0 ∨ y mod 400 = 0)).
Proof.
  unfold leap. rewrite andb_true_iff, orb_true_iff, negb_true_iff, Z.eqb_eq, Z.eqb_neq, Z.eqb_eq. done.
Qed.

(** The length of February, as a difference of leap-day counts. *)
Lemma leap_count y :
  y / 4 - y / 100 + y / 400 = (y - 1) / 4 - (y - 1) / 100 + (y - 1) / 400 + (if leap y then 1 else 0).
Proof.
  destruct (leap y) eqn:E.
  - apply leap_spec in E. lia.
  - assert (¬ (y mod 4 = 0 ∧ (y mod 100 ≠ 0 ∨ y mod 400 = 0))) as E' by (rewrite <-leap_spec; congruence).
    lia.
Qed.

Lemma month_cases (P : Z → Prop) m :
  1 ≤ m ≤ 12 → P 1 → P 2 → P 3 → P 4 → P 5 → P 6 → P 7 → P 8 → P 9 → P 10 → P 11 → P 12 → P m.
Proof.
  intros Hm. intros.
  assert (m = 1 ∨ m = 2 ∨ m = 3 ∨ m = 4 ∨ m = 5 ∨ m = 6 ∨ m = 7 ∨ m = 8 ∨ m = 9 ∨ m = 10 ∨ m = 11 ∨ m = 12)
    as Hc by lia.
  repeat destruct Hc as [->|Hc]; subst; done.
Qed.

Lemma days_in_month_bounds y m : 28 ≤ days_in_month y m ≤ 31.
Proof.
  unfold days_in_month. destruct (m =? 2); [destruct (leap y); lia|].
  destruct ((m =? 4) || (m =? 6) || (m =? 9) || (m =? 11)); lia.
Qed.

(** The first day of the next month follows the last day of this one. *)
Lemma civil_next_month y m :
  1 ≤ m < 12 → civil y (m + 1) 1 = civil y m (days_in_month y m) + 1.
Proof.
  intros Hm. destruct (decide (m = 2)) as [->|].
  - pose proof (leap_count y) as E. unfold civil, days_in_month.
    change (2 + 1 <=? 2) with false. change (2 <? 2 + 1) with true. change (2 <=? 2) with true.
    change (2 <? 2) with false. change (2 =? 2) with true. cbv iota. destruct (leap y); lia.
  - unfold civil. assert ((m + 1 <=? 2) = (m <=? 2)) as -> by (destruct (Z.leb_spec (m + 1) 2), (Z.leb_spec m 2); lia).
    assert ((2 <? m + 1) = (2 <? m)) as -> by (destruct (Z.ltb_spec 2 (m + 1)), (Z.ltb_spec 2 m); lia).
    assert (Hdim : days_in_month y m = (153 * (if 2 <? m then m + 1 - 3 else m + 1 + 9) + 2) / 5
      - (153 * (if 2 <? m then m - 3 else m + 9) + 2) / 5).
    { revert n. pattern m. apply month_cases; [lia|..]; intros Hne; done. }
    rewrite Hdim. lia.
Qed.

Lemma civil_next_year y : civil (y + 1) 1 1 = civil y 12 31 + 1.
Proof.
  unfold civil. change (1 <=? 2) with true. change (2 <? 1) with false. change (12 <=? 2) with false.
  change (2 <? 12) with true. cbv iota. replace (y + 1 - 1) with y by lia. lia.
Qed.

Lemma civil_next_day d :
  valid_date d →
  valid_date (next_day d)
  ∧ civil (date_year (next_day d)) (date_month (next_day d)) (date_day (next_day d))
    = civil (date_year d) (date_month d) (date_day d) + 1.
Proof.
  destruct d as [y m k]. unfold valid_date, next_day. cbn [date_year date_month date_day]. intros [Hm Hk].
  destruct (Z.ltb_spec k (days_in_month y m)); [|destruct (Z.ltb_spec m 12)];
    cbn [date_year date_month date_day].
  - split; [lia|]. unfold civil. lia.
  - split; [pose proof (days_in_month_bounds y (m + 1)); lia|].
    replace k with (days_in_month y m) by lia. apply civil_next_month. lia.
  - assert (m = 12) as -> by lia. split; [cbn; lia|].
    replace k with 31 by (unfold days_in_month in *; cbn in *; lia). apply civil_next_year.
Qed.

(** ** Properties *)

(** [days_from_civil] counts days: of the [n]-th day after 1 January 1970 in
    the Gregorian calendar, month lengths and leap years included, it returns
    [n]. *)
Theorem days_from_civil_counts {S} n (s : S) :
  let d := Nat.iter n next_day epoch in
  days_from_civil (date_year d) (date_month d) (date_day d) s = Done (Z.of_nat n, s).
Proof.
  cbv zeta.
  assert (valid_date (Nat.iter n next_day epoch)
    ∧ civil (date_year (Nat.iter n next_day epoch)) (date_month (Nat.iter n next_day epoch))
        (date_day (Nat.iter n next_day epoch)) = Z.of_nat n) as [[Hm Hd] Hc].
  { induction n as [|n [Hv Hc]]; [by repeat split|].
    apply civil_next_day in Hv as [Hv' Hc']. rewrite Nat.iter_succ. split; [done|].
    rewrite Hc', Hc. lia. }
  pose proof (days_in_month_bounds (date_year (Nat.iter n next_day epoch)) (date_month (Nat.iter n next_day epoch))).
  rewrite days_from_civil_civil by lia. by rewrite Hc.
Qed.

(** A sleep spans the smallest number of ticks that is not shorter than the
    requested time; the conversion fails only when the time in nanoseconds does
    not fit 64 bits. *)
Lemma duration_to_ticks_ok sec ns :
  0 ≤ sec → 0 ≤ ns →
  match duration_to_ticks sec ns with
  | Some t => (t - 1) * NANOSECONDS_PER_TICK < sec * NANOSECONDS_PER_SECOND + ns ≤ t * NANOSECONDS_PER_TICK
      ∧ 0 ≤ t
  | None => usize_max < sec * NANOSECONDS_PER_SECOND + ns
  end.
Proof.
  intros Hs Hn. unfold duration_to_ticks, checked_mul, checked_add, NANOSECONDS_PER_SECOND.
  destruct (Z.leb_spec (sec * 1000000000) usize_max) as [H1|H1]; cbn [mbind option_bind]; [|lia].
  destruct (Z.leb_spec (sec * 1000000000 + ns) usize_max) as [H2|H2]; cbn [mbind option_bind]; [|lia].
  unfold div_ceil. change NANOSECONDS_PER_TICK with 10000000.
  destruct (Z.eqb_spec ((sec * 1000000000 + ns) mod 10000000) 0); lia.
Qed.

(** *** Sleeping, against real time *)

(** The tick count [r] nanoseconds after the timer started. *)
Definition ticks_at (r : Z) : Z := r / NANOSECONDS_PER_TICK.

(** The deadline [nanosleep] computes when it is called at time [r]. *)
Definition sleep_deadline (r sec ns : Z) : option Z :=
  t ← duration_to_ticks sec ns; Some (ticks_at r + t).

(** a process that sleeps for a duration and is woken when the tick counter
    reaches its deadline has slept for more than the duration less one tick, and
    one tick after the duration has passed the deadline is reached. *)
Theorem sleep_bounds r sec ns deadline r' :
  0 ≤ r → 0 ≤ sec → 0 ≤ ns → sleep_deadline r sec ns = Some deadline →
  let duration := sec * NANOSECONDS_PER_SECOND + ns in
  (deadline ≤ ticks_at r' → duration - NANOSECONDS_PER_TICK < r' - r)
  ∧ (r + duration + NANOSECONDS_PER_TICK ≤ r' → deadline ≤ ticks_at r').
Proof.
  intros Hr Hs Hn. unfold sleep_deadline.
  assert (Hspec := duration_to_ticks_ok sec ns Hs Hn).
  destruct (duration_to_ticks sec ns) as [t|]; [|done]. cbn. intros [= <-].
  unfold ticks_at in *. change NANOSECONDS_PER_TICK with 10000000 in *. unfold NANOSECONDS_PER_SECOND in *. lia.
Qed.

Lemma sleep_bounds_witness :
  sleep_deadline 5 1 0 = Some 100
  ∧ (100 ≤ ticks_at 1000000000 → 1000000000 - NANOSECONDS_PER_TICK < 1000000000 - 5).
Proof.
  split; [reflexivity|].
  exact (proj1 (sleep_bounds 5 1 0 100 1000000000 ltac:(lia) ltac:(lia) ltac:(lia) eq_refl)).
Defined.

(** A sleep can end before the requested time has passed: called just before
    a tick, a sleep of one whole tick is over one nanosecond later. *)
Theorem sleep_can_wake_early :
  ∃ r r' deadline, sleep_deadline r 0 NANOSECONDS_PER_TICK = Some deadline
    ∧ deadline ≤ ticks_at r' ∧ r' - r < NANOSECONDS_PER_TICK.
Proof. exists 9999999, 10000000, 1. by vm_compute. Qed.

(** *** The RTC's 12-hour clock *)

(** The hour of the day that "[h] AM" or "[h] PM" names. *)
Definition hour_of_day (h : Z) (pm : bool) : Z := (h mod 12) + (if pm then 12 else 0).

(** A BCD byte of a number below 100. *)
Definition to_bcd (n : Z) : Z := 16 * (n / 10) + n mod 10.

Definition rtc_hours (status_b raw : Z) : Z :=
  hours (decode_hours status_b (decode_bcd status_b
    {| seconds := 0; minutes := 0; hours := raw; day := 1; month := 1; year := 0 |})).

(** the hour registers are decoded correctly in all four modes: 24-hour or
    12-hour, binary or BCD.  The exceptions are 12 AM and 12 PM on a 12-hour
    clock, which come out as 12 and 0. *)
Theorem rtc_hours_decoded binary :
  let mode := if binary : bool then RTC_MODE_BINARY else 0 in
  let enc n := if binary then n else to_bcd n in
  (∀ h, 0 ≤ h < 24 → rtc_hours (mode + RTC_MODE_24_HOUR) (enc h) = h)
  ∧ (∀ h, 1 ≤ h < 12 → rtc_hours mode (enc h) = hour_of_day h false
       ∧ rtc_hours mode (enc h + RTC_HOUR_PM_FLAG) = hour_of_day h true)
  ∧ rtc_hours mode (enc 12) = 12 ∧ rtc_hours mode (enc 12 + RTC_HOUR_PM_FLAG) = 0.
Proof.
  cbv zeta. split; [|split].
  - destruct binary.
    + apply (Forall_range (λ h, rtc_hours (RTC_MODE_BINARY + RTC_MODE_24_HOUR) h = h) 0 24). by vm_compute.
    + apply (Forall_range (λ h, rtc_hours (0 + RTC_MODE_24_HOUR) (to_bcd h) = h) 0 24). by vm_compute.
  - destruct binary.
    + apply (Forall_range (λ h, rtc_hours RTC_MODE_BINARY h = hour_of_day h false
        ∧ rtc_hours RTC_MODE_BINARY (h + RTC_HOUR_PM_FLAG) = hour_of_day h true) 1 11). by vm_compute.
    + apply (Forall_range (λ h, rtc_hours 0 (to_bcd h) = hour_of_day h false
        ∧ rtc_hours 0 (to_bcd h + RTC_HOUR_PM_FLAG) = hour_of_day h true) 1 11). by vm_compute.
  - by destruct binary.
Qed.
