(* ===== verification/Devices.v ===== *)
(** * Devices: the serial port, the interrupt controllers and the timer chip

    (src/src/io/io.rs, io/serial.rs, io/log.rs, arch/x86_64/pit.rs and [remap_pic] of
    arch/x86_64/idt.rs).  The code talks to the chips through ports, the class
    [PortIo].  [Board] says what stands behind the ports: a 16550 UART, two 8259A
    interrupt controllers, channel 0 of an 8254 and a real-time clock, each as its data
    sheet describes the registers the code uses. *)

From Stdlib Require Import Ascii String.
From S2P Require Import Prelude.

Class PortIo (S : Type) := {
  outb : Z → Z → kst S unit;
  inb : Z → kst S Z;
}.

(** ** The log *)

Module Log.
Inductive LogType := OK | MEM | PCI | FS | ROOTFS | ETH | HBA | AHCI | SCHED | SYS | EXCEPTION | ERR | FAILED.

(** The characters of a text. *)
Definition text (s : string) : list Z := map (λ a, Z.of_nat (nat_of_ascii a)) (list_ascii_of_string s).

Definition label (t : LogType) : list Z :=
  match t with
  | OK => text "OK"
  | MEM => text "MEM"
  | PCI => text "PCI"
  | FS => text "FS"
  | ROOTFS => text "ROOTFS"
  | ETH => text "ETH"
  | HBA => text "HBA"
  | AHCI => text "AHCI"
  | SCHED => text "SCHED"
  | SYS => text "SYS"
  | EXCEPTION => text "EXCEPTION"
  | ERR => text "ERR"
  | FAILED => text "FAILED"
  end.

(** What [log_write] puts on the line. *)
Definition line (t : LogType) (message : list Z) : list Z := text "[ " ++ label t ++ text " ] " ++ message ++ [10].

(** A [u64] as the formatter prints it; twenty digits are enough. *)
Fixpoint digits (fuel : nat) (n : Z) : list Z :=
  match fuel with
  | O => []
  | S fuel => (if n / 10 =? 0 then [] else digits fuel (n / 10)) ++ [48 + n mod 10]
  end.
Definition decimal (n : Z) : list Z := digits 20 n.

(** [{:x}] and [{:X}] of a [u64]. *)
Fixpoint hex_digits (upper : bool) (fuel : nat) (n : Z) : list Z :=
  match fuel with
  | O => []
  | S fuel =>
      let d := n mod 16 in
      (if n / 16 =? 0 then [] else hex_digits upper fuel (n / 16)) ++ [if d <? 10 then 48 + d else (if upper then 55 else 87) + d]
  end.
Definition hex (upper : bool) (n : Z) : list Z := hex_digits upper 16 n.
End Log.

Section Code.
Context {S : Type} `{PortIo S}.
Abbreviation io := (kst S).

(** ** The serial port *)

Definition PORT : Z := 0x3F8.

Definition serial_received : io bool := let* v := inb (PORT + 5) in kret (negb (Z.land v 0x01 =? 0)).
Definition is_transmit_empty : io bool := let* v := inb (PORT + 5) in kret (negb (Z.land v 0x20 =? 0)).

(** [while !ready() {}]; [fuel] bounds the wait. *)
Definition wait_for (fuel : nat) (ready : io bool) : io unit :=
  loopM fuel (λ _, let* b := ready in kret (if (b : bool) then inr tt else inl tt)) tt.

Definition read_serial (fuel : nat) : io Z := wait_for fuel serial_received ;;* inb PORT.
Definition write_serial (fuel : nat) (char : Z) : io unit := wait_for fuel is_transmit_empty ;;* outb PORT char.
(** [char as u8] keeps the low byte. *)
Fixpoint serial_write_str (fuel : nat) (text : list Z) : io unit :=
  match text with
  | [] => kret tt
  | char :: text => write_serial fuel (wrap 8 char) ;;* serial_write_str fuel text
  end.

(** [message] is what the standard library's formatter makes of the arguments. *)
Definition log_write (fuel : nat) (t : Log.LogType) (message : list Z) : io unit :=
  serial_write_str fuel (Log.text "[ " ++ Log.label t ++ Log.text " ] ") ;;*
  serial_write_str fuel message ;;*
  serial_write_str fuel [10].

Definition serial_broken : list Z := Log.text "Serial port is not working correctly".

Definition serial_init (fuel : nat) : io unit :=
  outb (PORT + 1) 0x00 ;;*
  outb (PORT + 3) 0x80 ;;*
  outb (PORT + 0) 0x03 ;;*
  outb (PORT + 1) 0x00 ;;*
  outb (PORT + 3) 0x03 ;;*
  outb (PORT + 2) 0xC7 ;;*
  outb (PORT + 4) 0x0B ;;*
  outb (PORT + 4) 0x1E ;;*
  outb (PORT + 0) 0xAE ;;*
  let* echo := inb (PORT + 0) in
  if negb (echo =? 0xAE) then log_write fuel Log.ERR serial_broken
  else outb (PORT + 4) 0x0F.

(** ** The interrupt controllers *)

Definition remap_pic : io unit :=
  outb 0x20 0x11 ;;*
  outb 0xA0 0x11 ;;*
  outb 0x21 0x20 ;;*
  outb 0xA1 0x28 ;;*
  outb 0x21 0x04 ;;*
  outb 0xA1 0x02 ;;*
  outb 0x21 0x01 ;;*
  outb 0xA1 0x01 ;;*
  outb 0x21 0x00 ;;*
  outb 0xA1 0x00.

Definition unmask_irq (irq : Z) : io unit :=
  let* mask := inb 0x21 in outb 0x21 (Z.ldiff mask (Z.shiftl 1 irq)).

Definition end_of_interrupt (irq : Z) : io unit :=
  (if 8 <=? irq then outb 0xA0 0x20 else kret tt) ;;* outb 0x20 0x20.

(** ** The timer *)

Definition PIT_FREQUENCY : Z := 1193182.
Definition PIT_HZ : Z := 100.
Definition PIT_CMD_PORT : Z := 0x43.
Definition PIT_CH0_PORT : Z := 0x40.

Definition init_pit (fuel : nat) : io unit :=
  let divisor := PIT_FREQUENCY / PIT_HZ in
  log_write fuel Log.OK (Log.text "Initialized PIT, divisor: " ++ Log.decimal divisor) ;;*
  outb PIT_CMD_PORT 0x36 ;;*
  outb PIT_CH0_PORT (wrap 8 (Z.land divisor 0xFF)) ;;*
  outb PIT_CH0_PORT (wrap 8 (Z.shiftr divisor 8)) ;;*
  unmask_irq 0.
End Code.

(** ** The chips *)

(** A 16550.  [u_rx] is what has arrived and was not read; [u_sent] what has left;
    [u_busy] how often the status says that the transmitter is occupied, and
    [u_delays] the same for the bytes to come. *)
Record uart := {
  u_divisor : Z;
  u_ier : Z;
  u_fcr : Z;
  u_lcr : Z;
  u_mcr : Z;
  u_rx : list Z;
  u_sent : list Z;
  u_busy : nat;
  u_delays : list nat;
}.

Definition u_dlab (u : uart) : bool := Z.testbit (u_lcr u) 7.
Definition u_loop (u : uart) : bool := Z.testbit (u_mcr u) 4.

Definition set_divisor (d : Z) (u : uart) : uart :=
  {| u_divisor := d; u_ier := u_ier u; u_fcr := u_fcr u; u_lcr := u_lcr u; u_mcr := u_mcr u; u_rx := u_rx u; u_sent := u_sent u;
     u_busy := u_busy u; u_delays := u_delays u |}.
Definition set_control (ier fcr lcr mcr : Z) (u : uart) : uart :=
  {| u_divisor := u_divisor u; u_ier := ier; u_fcr := fcr; u_lcr := lcr; u_mcr := mcr; u_rx := u_rx u; u_sent := u_sent u;
     u_busy := u_busy u; u_delays := u_delays u |}.
Definition set_lines (rx sent : list Z) (busy : nat) (delays : list nat) (u : uart) : uart :=
  {| u_divisor := u_divisor u; u_ier := u_ier u; u_fcr := u_fcr u; u_lcr := u_lcr u; u_mcr := u_mcr u; u_rx := rx; u_sent := sent;
     u_busy := busy; u_delays := delays |}.

(** A byte for the transmitter is lost while it is occupied; in loopback mode it
    arrives at the receiver. *)
Definition uart_send (v : Z) (u : uart) : uart :=
  if u_loop u then set_lines (u_rx u ++ [v]) (u_sent u) (u_busy u) (u_delays u) u
  else if (u_busy u =? 0)%nat then set_lines (u_rx u) (u_sent u ++ [v]) (hd 0%nat (u_delays u)) (tl (u_delays u)) u
  else u.

Definition uart_write (reg v : Z) (u : uart) : uart :=
  if reg =? 0 then
    if u_dlab u then set_divisor (u_divisor u / 256 * 256 + v) u else uart_send v u
  else if reg =? 1 then
    if u_dlab u then set_divisor (v * 256 + u_divisor u mod 256) u else set_control v (u_fcr u) (u_lcr u) (u_mcr u) u
  else if reg =? 2 then
    (* bit 1 clears the receiver's queue *)
    let u := set_control (u_ier u) v (u_lcr u) (u_mcr u) u in
    if Z.testbit v 1 then set_lines [] (u_sent u) (u_busy u) (u_delays u) u else u
  else if reg =? 3 then set_control (u_ier u) (u_fcr u) v (u_mcr u) u
  else if reg =? 4 then set_control (u_ier u) (u_fcr u) (u_lcr u) v u
  else u.

(** The data register and the line status; the code reads no other. *)
Definition uart_read (reg : Z) (u : uart) : Z * uart :=
  if (reg =? 0) && negb (u_dlab u) then (hd 0 (u_rx u), set_lines (tl (u_rx u)) (u_sent u) (u_busy u) (u_delays u) u)
  else if reg =? 5 then
    ((if (length (u_rx u) =? 0)%nat then 0 else 1) + (if (u_busy u =? 0)%nat then 0x20 else 0),
     set_lines (u_rx u) (u_sent u) (pred (u_busy u)) (u_delays u) u)
  else (0, u).

(** An 8259A: the initialization word it waits for, if any. *)
Record pic := {
  p_wait : option nat;
  p_offset : Z;
  p_cascade : Z;
  p_8086 : bool;
  p_mask : Z;
  p_service : list Z;
}.

(** Bit 4 of a command starts the initialization; 0x20 ends the interrupt of highest
    priority.  [p_service] lists the interrupts in service, the highest first. *)
Definition pic_command (v : Z) (p : pic) : pic :=
  if Z.testbit v 4 then
    {| p_wait := Some 2%nat; p_offset := p_offset p; p_cascade := p_cascade p; p_8086 := false; p_mask := 0; p_service := [] |}
  else if v =? 0x20 then
    {| p_wait := p_wait p; p_offset := p_offset p; p_cascade := p_cascade p; p_8086 := p_8086 p; p_mask := p_mask p;
       p_service := tl (p_service p) |}
  else p.

Definition pic_data (v : Z) (p : pic) : pic :=
  match p_wait p with
  | Some 2%nat =>
      {| p_wait := Some 3%nat; p_offset := Z.land v 0xF8; p_cascade := p_cascade p; p_8086 := p_8086 p; p_mask := p_mask p;
         p_service := p_service p |}
  | Some 3%nat =>
      {| p_wait := Some 4%nat; p_offset := p_offset p; p_cascade := v; p_8086 := p_8086 p; p_mask := p_mask p;
         p_service := p_service p |}
  | Some _ =>
      {| p_wait := None; p_offset := p_offset p; p_cascade := p_cascade p; p_8086 := Z.testbit v 0; p_mask := p_mask p;
         p_service := p_service p |}
  | None =>
      {| p_wait := None; p_offset := p_offset p; p_cascade := p_cascade p; p_8086 := p_8086 p; p_mask := v;
         p_service := p_service p |}
  end.

(** Channel 0 of an 8254: its mode, the low byte that waits for the high one, and the
    value it reloads. *)
Record pit := {
  t_mode : Z;
  t_low : option Z;
  t_reload : Z;
}.

Definition pit_command (v : Z) (t : pit) : pit :=
  if Z.land v 0xF0 =? 0x30 then {| t_mode := Z.land (Z.shiftr v 1) 7; t_low := None; t_reload := t_reload t |} else t.
Definition pit_data (v : Z) (t : pit) : pit :=
  match t_low t with
  | None => {| t_mode := t_mode t; t_low := Some v; t_reload := t_reload t |}
  | Some low => {| t_mode := t_mode t; t_low := None; t_reload := v * 256 + low |}
  end.

(** The CMOS chip of the real-time clock: the register that is selected, and how often
    status A says that an update goes on. *)
Record cmos := {
  cm_selected : Z;
  cm_busy : nat;
  cm_register : Z → Z;
}.

Record board := {
  serial : uart;
  master : pic;
  slave : pic;
  timer : pit;
  clock : cmos;
}.

Definition board_write (port v : Z) (b : board) : board :=
  if (PORT <=? port) && (port <? PORT + 8) then
    {| serial := uart_write (port - PORT) v (serial b); master := master b; slave := slave b; timer := timer b; clock := clock b |}
  else if port =? 0x20 then {| serial := serial b; master := pic_command v (master b); slave := slave b; timer := timer b; clock := clock b |}
  else if port =? 0x21 then {| serial := serial b; master := pic_data v (master b); slave := slave b; timer := timer b; clock := clock b |}
  else if port =? 0xA0 then {| serial := serial b; master := master b; slave := pic_command v (slave b); timer := timer b; clock := clock b |}
  else if port =? 0xA1 then {| serial := serial b; master := master b; slave := pic_data v (slave b); timer := timer b; clock := clock b |}
  else if port =? 0x43 then {| serial := serial b; master := master b; slave := slave b; timer := pit_command v (timer b); clock := clock b |}
  else if port =? 0x40 then {| serial := serial b; master := master b; slave := slave b; timer := pit_data v (timer b); clock := clock b |}
  else if port =? 0x70 then
    {| serial := serial b; master := master b; slave := slave b; timer := timer b;
       clock := {| cm_selected := v; cm_busy := cm_busy (clock b); cm_register := cm_register (clock b) |} |}
  else b.

Definition board_read (port : Z) (b : board) : Z * board :=
  if (PORT <=? port) && (port <? PORT + 8) then
    let '(v, u) := uart_read (port - PORT) (serial b) in
    (v, {| serial := u; master := master b; slave := slave b; timer := timer b; clock := clock b |})
  else if port =? 0x21 then (p_mask (master b), b)
  else if port =? 0xA1 then (p_mask (slave b), b)
  else if port =? 0x71 then
    if cm_selected (clock b) =? 0x0A then
      ((if (cm_busy (clock b) =? 0)%nat then 0x26 else 0xA6),
       {| serial := serial b; master := master b; slave := slave b; timer := timer b;
          clock := {| cm_selected := cm_selected (clock b); cm_busy := pred (cm_busy (clock b)); cm_register := cm_register (clock b) |} |})
    else (cm_register (clock b) (cm_selected (clock b)), b)
  else (0, b).

(** What the code relies on: the chips behind the ports. *)
Class Board (S : Type) `{PortIo S} := {
  chips : S → board;
  board_out s port v : ∃ s', outb port v s = Done (tt, s') ∧ chips s' = board_write port v (chips s);
  board_in s port : ∃ s', inb port s = Done ((board_read port (chips s)).1, s') ∧ chips s' = (board_read port (chips s)).2;
}.

#[global] Instance board_ports : PortIo board := {
  outb port v b := Done (tt, board_write port v b);
  inb port b := Done (board_read port b);
}.
#[global] Program Instance board_board : Board board := { chips b := b }.
Next Obligation. intros b port v. by eexists. Qed.
Next Obligation. intros b port. eexists. split; [|done]. cbn. by destruct (board_read port b). Qed.
