(* ===== verification/DevicesSpec.v ===== *)
(** * DevicesSpec: what the code makes of the serial port, the interrupt controllers
    and the timer, against [Board]. *)

From Stdlib Require Import String.
From S2P Require Import Prelude Devices.

Section Spec.
Context {S : Type} `{Board S}.
Implicit Types s : S.

(** ** Sequences of port writes *)

Fixpoint write_all (l : list (Z * Z)) (b : board) : board :=
  match l with [] => b | (port, v) :: l => write_all l (board_write port v b) end.

Lemma out_then {A} (k : kst S A) port v l s :
  (∀ s', chips s' = board_write port v (chips s) → ∃ a s'', k s' = Done (a, s'') ∧ chips s'' = write_all l (chips s')) →
  ∃ a s'', (outb port v ;;* k) s = Done (a, s'') ∧ chips s'' = write_all ((port, v) :: l) (chips s).
Proof.
  intros Hk. destruct (board_out s port v) as (s1 & E & C). destruct (Hk s1 C) as (a & s2 & E2 & C2).
  exists a, s2. rewrite (kbind_done _ _ _ _ _ E). split; [done|]. by rewrite C2, C.
Qed.

Lemma out_last port v s : ∃ a s'', outb port v s = Done (a, s'') ∧ chips s'' = write_all [(port, v)] (chips s).
Proof. destruct (board_out s port v) as (s1 & E & C). by exists tt, s1. Qed.
End Spec.

(** Runs the port writes of a program. *)
Ltac ports := repeat (eapply out_then; intros ? _); apply out_last.

Section Theorems.
Context {S : Type} `{Board S}.
Implicit Types s : S.

(** ** The interrupt controllers *)

(** The vector at which an interrupt line arrives. *)
Definition irq_vector (b : board) (irq : Z) : Z :=
  if irq <? 8 then p_offset (master b) + irq else p_offset (slave b) + (irq - 8).

Definition pic_ready (offset cascade : Z) : pic :=
  {| p_wait := None; p_offset := offset; p_cascade := cascade; p_8086 := true; p_mask := 0; p_service := [] |}.

Lemma remap_pic_run s : ∃ s', remap_pic s = Done (tt, s') ∧
  chips s' = {| serial := serial (chips s); master := pic_ready 0x20 4; slave := pic_ready 0x28 2; timer := timer (chips s); clock := clock (chips s) |}.
Proof.
  assert (∃ a s', remap_pic s = Done (a, s') ∧ chips s' = write_all
    [(0x20, 0x11); (0xA0, 0x11); (0x21, 0x20); (0xA1, 0x28); (0x21, 4); (0xA1, 2); (0x21, 1); (0xA1, 1); (0x21, 0); (0xA1, 0)] (chips s))
    as ([] & s' & E & C) by (unfold remap_pic; ports).
  exists s'. split; [done|]. rewrite C. done.
Qed.

(** Whatever the controllers did before, [remap_pic] leaves them with line [irq] at
    vector 0x20 + [irq], clear of the exceptions of the CPU, every line open. *)
Theorem remap_pic_vectors s : ∃ s', remap_pic s = Done (tt, s') ∧ ∀ irq, 0 ≤ irq < 16 →
  irq_vector (chips s') irq = 0x20 + irq
  ∧ Z.testbit (p_mask (if irq <? 8 then master (chips s') else slave (chips s'))) (irq mod 8) = false.
Proof.
  destruct (remap_pic_run s) as (s' & E & C). exists s'. split; [done|]. intros irq Hi. rewrite C. unfold irq_vector. cbn.
  destruct (Z.ltb_spec irq 8); cbn; rewrite Z.bits_0; split; [lia | done | lia | done].
Qed.

(** The end of an interrupt is told to every controller that serves it: both for
    the lines of the slave. *)
Theorem end_of_interrupt_spec irq s : ∃ s', end_of_interrupt irq s = Done (tt, s') ∧
  p_service (master (chips s')) = tl (p_service (master (chips s)))
  ∧ p_service (slave (chips s')) = (if 8 <=? irq then tl (p_service (slave (chips s))) else p_service (slave (chips s)))
  ∧ p_mask (master (chips s')) = p_mask (master (chips s)) ∧ p_offset (master (chips s')) = p_offset (master (chips s)).
Proof.
  assert (∃ a s', end_of_interrupt irq s = Done (a, s') ∧
    chips s' = write_all ((if 8 <=? irq then [(0xA0, 0x20)] else []) ++ [(0x20, 0x20)]) (chips s)) as ([] & s' & E & C).
  { unfold end_of_interrupt. destruct (8 <=? irq); cbv iota; [cbn [app]; ports|]. cbn [app]. unfold kbind, kret. apply out_last. }
  exists s'. split; [done|]. rewrite C. by destruct (8 <=? irq).
Qed.

(** ** The serial port *)

(** Ready to send: 8 data bits, no loopback, and [fuel] looks at the status are
    enough for every byte. *)
Record line_ready (fuel : nat) (u : uart) : Prop := {
  lr_dlab : u_dlab u = false;
  lr_loop : u_loop u = false;
  lr_busy : (u_busy u < fuel)%nat;
  lr_delays : Forall (λ n, (n < fuel)%nat) (u_delays u);
}.

Definition with_serial (u : uart) (b : board) : board :=
  {| serial := u; master := master b; slave := slave b; timer := timer b; clock := clock b |}.
Definition set_busy (n : nat) (u : uart) : uart := set_lines (u_rx u) (u_sent u) n (u_delays u) u.

Lemma serial_write reg v b : 0 ≤ reg < 8 → board_write (PORT + reg) v b = with_serial (uart_write reg v (serial b)) b.
Proof.
  intros Hr. unfold board_write. rewrite (proj2 (Z.leb_le PORT _)), (proj2 (Z.ltb_lt _ (PORT + 8))) by lia. cbn [andb].
  by replace (PORT + reg - PORT) with reg by lia.
Qed.

Lemma uart_write_data v u : u_dlab u = false → uart_write 0 v u = uart_send v u.
Proof. intros Hd. unfold uart_write. by rewrite Hd. Qed.

Lemma serial_read reg b : 0 ≤ reg < 8 →
  board_read (PORT + reg) b = ((uart_read reg (serial b)).1, with_serial (uart_read reg (serial b)).2 b).
Proof.
  intros Hr. unfold board_read. rewrite (proj2 (Z.leb_le PORT _)), (proj2 (Z.ltb_lt _ (PORT + 8))) by lia. cbn [andb].
  replace (PORT + reg - PORT) with reg by lia. by destruct (uart_read reg (serial b)).
Qed.

Lemma uart_read_data u : u_dlab u = false →
  uart_read 0 u = (hd 0 (u_rx u), set_lines (tl (u_rx u)) (u_sent u) (u_busy u) (u_delays u) u).
Proof. intros Hd. unfold uart_read. by rewrite Hd. Qed.

Lemma status_run s : ∃ s', inb (PORT + 5) s =
    Done ((if (length (u_rx (serial (chips s))) =? 0)%nat then 0 else 1) + (if (u_busy (serial (chips s)) =? 0)%nat then 0x20 else 0), s')
  ∧ chips s' = with_serial (set_busy (pred (u_busy (serial (chips s)))) (serial (chips s))) (chips s).
Proof. destruct (board_in s (PORT + 5)) as (s' & E & C). exists s'. split; [exact E | exact C]. Qed.

Lemma wait_transmit fuel s : (u_busy (serial (chips s)) < fuel)%nat →
  ∃ s', wait_for fuel is_transmit_empty s = Done (tt, s') ∧ chips s' = with_serial (set_busy 0 (serial (chips s))) (chips s).
Proof.
  remember (u_busy (serial (chips s))) as n eqn:En. revert fuel s En. induction n as [|n IH]; intros [|fuel] s En Hf; try lia.
  - destruct (status_run s) as (s1 & E & C). rewrite <- En in E. exists s1.
    unfold wait_for, is_transmit_empty. cbn [loopM]. unfold kbind at 1 2 3. rewrite E. rewrite <- En in C.
    by destruct (length _ =? 0)%nat.
  - destruct (status_run s) as (s1 & E & C). rewrite <- En in E, C. cbn [Nat.eqb pred] in *.
    destruct (IH fuel s1) as (s2 & E2 & C2); [by rewrite C | lia |]. exists s2. split.
    + unfold wait_for, is_transmit_empty in *. cbn [loopM]. unfold kbind at 1 2 3. rewrite E.
      by destruct (length _ =? 0)%nat.
    + rewrite C2, C. by destruct (chips s) as [[] ? ? ?].
Qed.

(** One byte goes out. *)
Lemma write_serial_run fuel s v : line_ready fuel (serial (chips s)) →
  ∃ s', write_serial fuel v s = Done (tt, s') ∧ line_ready fuel (serial (chips s'))
    ∧ u_sent (serial (chips s')) = u_sent (serial (chips s)) ++ [v] ∧ u_rx (serial (chips s')) = u_rx (serial (chips s))
    ∧ (∃ u, chips s' = with_serial u (chips s)).
Proof.
  intros [Hd Hl Hb Hds]. destruct (wait_transmit fuel s Hb) as (s1 & E1 & C1). destruct (board_out s1 PORT v) as (s2 & E2 & C2).
  exists s2. unfold write_serial. rewrite (kbind_done _ _ _ _ _ E1). rewrite C1 in C2.
  rewrite <- (Z.add_0_r PORT), serial_write in C2 by lia. cbn [serial with_serial] in C2. rewrite uart_write_data in C2 by done.
  unfold uart_send in C2. change (u_loop (set_busy 0 (serial (chips s)))) with (u_loop (serial (chips s))) in C2. rewrite Hl in C2.
  split; [done|]. rewrite C2. cbn. split_and!; [|done|done|by eexists].
  split; [done | done | |]; cbn; destruct Hds as [|d de Hx Hds]; cbn in *; try done; lia.
Qed.

(** The kernel's output reaches the serial line unabridged and in order: on a
    line that is ready, whatever the delays of the transmitter, [serial_write_str]
    waits before every byte, loses none, and has sent the low byte of each character
    of the text, nothing else on the board changing. *)
Theorem serial_write_str_sends fuel text s : line_ready fuel (serial (chips s)) →
  ∃ s', serial_write_str fuel text s = Done (tt, s')
    ∧ u_sent (serial (chips s')) = u_sent (serial (chips s)) ++ map (wrap 8) text
    ∧ line_ready fuel (serial (chips s')) ∧ ∃ u, chips s' = with_serial u (chips s).
Proof.
  revert s. induction text as [|x text IH]; intros s Hr.
  - exists s. cbn. rewrite app_nil_r. split_and!; [done | done | done |]. exists (serial (chips s)). by destruct (chips s).
  - destruct (write_serial_run fuel s (wrap 8 x) Hr) as (s1 & E1 & Hr1 & Hs1 & _ & u1 & C1).
    destruct (IH s1 Hr1) as (s2 & E2 & Hs2 & Hr2 & u2 & C2). exists s2. cbn [serial_write_str map].
    rewrite (kbind_done _ _ _ _ _ E1). split_and!; [done | by rewrite Hs2, Hs1, <- app_assoc | done |].
    exists u2. by rewrite C2, C1.
Qed.

(** A line of the log. *)
Lemma log_write_sends fuel ty message s : line_ready fuel (serial (chips s)) →
  ∃ s', log_write fuel ty message s = Done (tt, s')
    ∧ u_sent (serial (chips s')) = u_sent (serial (chips s)) ++ map (wrap 8) (Log.line ty message)
    ∧ line_ready fuel (serial (chips s')) ∧ ∃ u, chips s' = with_serial u (chips s).
Proof.
  intros Hr. unfold log_write.
  destruct (serial_write_str_sends fuel (Log.text "[ " ++ Log.label ty ++ Log.text " ] ") s Hr) as (s1 & E1 & S1 & R1 & u1 & C1).
  destruct (serial_write_str_sends fuel message s1 R1) as (s2 & E2 & S2 & R2 & u2 & C2).
  destruct (serial_write_str_sends fuel [10] s2 R2) as (s3 & E3 & S3 & R3 & u3 & C3).
  exists s3. rewrite (kbind_done _ _ _ _ _ E1), (kbind_done _ _ _ _ _ E2). split_and!; [done | | done | exists u3; by rewrite C3, C2, C1].
  unfold Log.line. rewrite S3, S2, S1, !map_app, <- !app_assoc. done.
Qed.

(** ** The timer *)

(** The chip and the controller, after the message. *)
Lemma set_pit s : p_wait (master (chips s)) = None →
  ∃ s', (outb PIT_CMD_PORT 0x36 ;;* outb PIT_CH0_PORT 0x9B ;;* outb PIT_CH0_PORT 0x2E ;;* unmask_irq 0) s = Done (tt, s')
    ∧ timer (chips s') = {| t_mode := 3; t_low := None; t_reload := 11931 |}
    ∧ serial (chips s') = serial (chips s) ∧ clock (chips s') = clock (chips s)
    ∧ p_mask (master (chips s')) = Z.clearbit (p_mask (master (chips s))) 0
    ∧ p_offset (master (chips s')) = p_offset (master (chips s)).
Proof.
  intros Hw. assert (∃ a s', (outb PIT_CMD_PORT 0x36 ;;* outb PIT_CH0_PORT 0x9B ;;* outb PIT_CH0_PORT 0x2E) s = Done (a, s') ∧
    chips s' = write_all [(0x43, 0x36); (0x40, 0x9B); (0x40, 0x2E)] (chips s)) as ([] & s1 & E1 & C1) by ports.
  destruct (board_in s1 0x21) as (s2 & E2 & C2). destruct (board_out s2 0x21 (Z.ldiff (p_mask (master (chips s1))) 1)) as (s3 & E3 & C3).
  exists s3. split.
  - assert (E : (outb PIT_CMD_PORT 0x36 ;;* outb PIT_CH0_PORT 0x9B ;;* outb PIT_CH0_PORT 0x2E ;;* unmask_irq 0) s
      = kbind (outb PIT_CMD_PORT 0x36 ;;* outb PIT_CH0_PORT 0x9B ;;* outb PIT_CH0_PORT 0x2E) (λ _, unmask_irq 0) s).
    { unfold kbind. destruct (outb _ 0x36 s) as [[u x]|]; [|done]. by destruct (outb _ 0x9B x) as [[? ?]|]. }
    rewrite E, (kbind_done _ _ _ _ _ E1). unfold unmask_irq. rewrite (kbind_done _ _ _ _ _ E2). exact E3.
  - rewrite C3, C2, C1. destruct (chips s) as [u [w o ca m8 mask sv] sl t]. cbn in Hw. subst w. cbn. split_and!; [done | done | done | | done].
    by rewrite Z.clearbit_spec'.
Qed.

Definition pit_message : list Z := Log.text "Initialized PIT, divisor: 11931".

(** Channel 0 counts down from 11931, and line 0 is open: the chip
    interrupts about 100 times a second. *)
Theorem init_pit_spec fuel s : line_ready fuel (serial (chips s)) → p_wait (master (chips s)) = None →
  ∃ s', init_pit fuel s = Done (tt, s') ∧ timer (chips s') = {| t_mode := 3; t_low := None; t_reload := 11931 |}
    ∧ line_ready fuel (serial (chips s')) ∧ clock (chips s') = clock (chips s)
    ∧ u_sent (serial (chips s')) = u_sent (serial (chips s)) ++ map (wrap 8) (Log.line Log.OK pit_message)
    ∧ p_mask (master (chips s')) = Z.clearbit (p_mask (master (chips s))) 0
    ∧ p_offset (master (chips s')) = p_offset (master (chips s)).
Proof.
  intros Hr Hw. destruct (log_write_sends fuel Log.OK pit_message s Hr) as (s1 & E1 & S1 & R1 & u & C1).
  destruct (set_pit s1) as (s2 & E2 & T2 & U2 & K2 & M2 & O2); [by rewrite C1|]. exists s2. split.
  - unfold init_pit. change (Log.text "Initialized PIT, divisor: " ++ Log.decimal (PIT_FREQUENCY / PIT_HZ)) with pit_message.
    rewrite (kbind_done _ _ _ _ _ E1). exact E2.
  - rewrite U2, K2, M2, O2. split_and!; [done | done | by rewrite C1 | done | by rewrite C1 ..].
Qed.

(** The writes of [serial_init] up to its test. *)
Definition serial_setup : list (Z * Z) :=
  [(1, 0x00); (3, 0x80); (0, 0x03); (1, 0x00); (3, 0x03); (2, 0xC7); (4, 0x0B); (4, 0x1E); (0, 0xAE)].

Lemma setup_board b :
  write_all (map (λ w, (PORT + w.1, w.2)) serial_setup) b
  = with_serial (List.fold_left (λ u w, uart_write w.1 w.2 u) serial_setup (serial b)) b.
Proof. unfold serial_setup. cbn [map write_all fst snd]. rewrite !serial_write by lia. done. Qed.

Lemma setup_uart u : ∃ ier, List.fold_left (λ u w, uart_write w.1 w.2 u) serial_setup u =
  {| u_divisor := 3; u_ier := ier; u_fcr := 0xC7; u_lcr := 3; u_mcr := 0x1E; u_rx := [0xAE]; u_sent := u_sent u;
     u_busy := u_busy u; u_delays := u_delays u |}.
Proof.
  assert (Hm : ∀ x, (x / 256 * 256 + 3) mod 256 = 3) by (intros; Z.to_euclidean_division_equations; lia).
  unfold serial_setup. cbn [List.fold_left fst snd]. unfold uart_write at 9. cbn [Z.eqb Pos.eqb].
  destruct (u_dlab u); eexists; cbn; rewrite Hm; reflexivity.
Qed.

(** [serial_init] in two parts. *)
Lemma serial_init_split fuel s s1 :
  (outb (PORT + 1) 0x00 ;;* outb (PORT + 3) 0x80 ;;* outb (PORT + 0) 0x03 ;;* outb (PORT + 1) 0x00 ;;*
    outb (PORT + 3) 0x03 ;;* outb (PORT + 2) 0xC7 ;;* outb (PORT + 4) 0x0B ;;* outb (PORT + 4) 0x1E ;;* outb (PORT + 0) 0xAE) s = Done (tt, s1) →
  serial_init fuel s =
    (let* echo := inb (PORT + 0) in if negb (echo =? 0xAE) then log_write fuel Log.ERR serial_broken else outb (PORT + 4) 0x0F) s1.
Proof.
  unfold serial_init, kbind. intros E.
  repeat (match type of E with context [match outb ?p ?v ?x with _ => _ end] => destruct (outb p v x) as [[? ?]|]; [|discriminate E] end).
  by rewrite E.
Qed.

(** [serial_init] finds a working chip whatever state it is in and however the
    line was set: afterwards it runs at 38400 baud with 8 data bits, out of
    loopback, with nothing sent and nothing in the receiver. *)
Theorem serial_init_ready fuel s : (u_busy (serial (chips s)) < fuel)%nat → Forall (λ n, (n < fuel)%nat) (u_delays (serial (chips s))) →
  ∃ s', serial_init fuel s = Done (tt, s') ∧ line_ready fuel (serial (chips s'))
    ∧ u_divisor (serial (chips s')) = 115200 / 38400 ∧ u_sent (serial (chips s')) = u_sent (serial (chips s))
    ∧ u_rx (serial (chips s')) = [] ∧ clock (chips s') = clock (chips s).
Proof.
  intros Hb Hd.
  assert (∃ a s1, (outb (PORT + 1) 0x00 ;;* outb (PORT + 3) 0x80 ;;* outb (PORT + 0) 0x03 ;;* outb (PORT + 1) 0x00 ;;*
    outb (PORT + 3) 0x03 ;;* outb (PORT + 2) 0xC7 ;;* outb (PORT + 4) 0x0B ;;* outb (PORT + 4) 0x1E ;;* outb (PORT + 0) 0xAE) s = Done (a, s1)
    ∧ chips s1 = write_all (map (λ w, (PORT + w.1, w.2)) serial_setup) (chips s)) as ([] & s1 & E1 & C1) by ports.
  destruct (board_in s1 (PORT + 0)) as (s2 & E2 & C2). destruct (board_out s2 (PORT + 4) 0x0F) as (s3 & E3 & C3).
  destruct (setup_uart (serial (chips s))) as [ier Hu]. rewrite setup_board, Hu in C1.
  rewrite C1 in E2, C2. cbn in E2, C2.
  exists s3. split.
  - rewrite (serial_init_split fuel s s1 E1). rewrite (kbind_done _ _ _ _ _ E2). exact E3.
  - rewrite serial_write in C3 by lia. rewrite C3, C2. cbn. split_and!; [|done..]. by split.
Qed.
End Theorems.

(** ** A board *)

(** 13:37:59 on 1 March 2024, in BCD. *)
Definition march : cmos :=
  {| cm_selected := 0; cm_busy := 3;
     cm_register := λ r, if r =? 0 then 0x59 else if r =? 2 then 0x37 else if r =? 4 then 0x13 else if r =? 7 then 0x01 else if r =? 8 then 0x03
       else if r =? 9 then 0x24 else if r =? 0xB then 2 else 0 |}.

(** After power-on, with a transmitter that is slow once. *)
Definition idle_pic : pic := {| p_wait := None; p_offset := 8; p_cascade := 0; p_8086 := false; p_mask := 255; p_service := [0; 3] |}.
Definition power_on : board :=
  {| serial := {| u_divisor := 1; u_ier := 0; u_fcr := 0; u_lcr := 3; u_mcr := 0; u_rx := [113; 114]; u_sent := [];
                  u_busy := 2; u_delays := [0%nat; 5%nat] |};
     master := idle_pic; slave := idle_pic; timer := {| t_mode := 0; t_low := None; t_reload := 0 |}; clock := march |}.

Lemma serial_write_str_sends_witness :
  ∃ b, serial_write_str 6 [72; 105; 0x1F600] power_on = Done (tt, b) ∧ u_sent (serial b) = [72; 105; 0].
Proof.
  destruct (serial_write_str_sends (S := board) 6 [72; 105; 0x1F600] power_on) as (b & E & Hs & _).
  - split; cbn; [reflexivity | reflexivity | lia | repeat constructor; lia].
  - exists b. split; [exact E | exact Hs].
Defined.

Lemma serial_init_ready_witness : ∃ b, serial_init 6 power_on = Done (tt, b) ∧ u_divisor (serial b) = 3.
Proof.
  destruct (serial_init_ready (S := board) 6 power_on) as (b & E & _ & Hd & _).
  - cbn. lia.
  - repeat constructor; lia.
  - exists b. split; [exact E | exact Hd].
Defined.
