(* ===== verification/Rtc.v ===== *)
(** * Rtc: reading the real-time clock (src/src/arch/x86_64/rtc.rs)

    The register accesses of [read_unix_time] over the CMOS ports; the decoding is in
    Time.v.  The chip is the clock of [Board]: its time stands still while it is read
    and its update flag clears after a while. *)

From S2P Require Import Prelude Time Devices DevicesSpec.

Definition CMOS_ADDRESS_PORT : Z := 0x70.
Definition CMOS_DATA_PORT : Z := 0x71.
Definition RTC_SECONDS : Z := 0x00.
Definition RTC_MINUTES : Z := 0x02.
Definition RTC_HOURS : Z := 0x04.
Definition RTC_DAY_OF_MONTH : Z := 0x07.
Definition RTC_MONTH : Z := 0x08.
Definition RTC_YEAR : Z := 0x09.
Definition RTC_STATUS_A : Z := 0x0A.
Definition RTC_STATUS_B : Z := 0x0B.
Definition RTC_UPDATE_IN_PROGRESS : Z := 0x80.

Section Rtc.
Context {S : Type} `{PortIo S}.

Definition read_cmos (register : Z) : kst S Z := outb CMOS_ADDRESS_PORT register ;;* inb CMOS_DATA_PORT.
Definition update_in_progress : kst S bool :=
  let* v := read_cmos RTC_STATUS_A in kret (negb (Z.land v RTC_UPDATE_IN_PROGRESS =? 0)).

(** [while update_in_progress() {}], then the registers; [fuel] bounds the wait. *)
Definition read_raw_datetime (fuel : nat) : kst S RtcDateTime :=
  loopM fuel (λ _, let* busy := update_in_progress in kret (if (busy : bool) then inl tt else inr tt)) tt ;;*
  let* s := read_cmos RTC_SECONDS in
  let* mi := read_cmos RTC_MINUTES in
  let* h := read_cmos RTC_HOURS in
  let* d := read_cmos RTC_DAY_OF_MONTH in
  let* mo := read_cmos RTC_MONTH in
  let* y := read_cmos RTC_YEAR in
  kret {| seconds := s; minutes := mi; hours := h; day := d; month := mo; year := y |}.

(** The loop that rereads until two snapshots agree. *)
Definition read_twice (fuel : nat) (datetime : RtcDateTime) : kst S RtcDateTime :=
  loopM fuel (λ datetime,
    let* second_read := read_raw_datetime fuel in
    kret (if bool_decide (second_read = datetime) then inr datetime else inl second_read)) datetime.

Definition read_clock (fuel : nat) : kst S Z :=
  let* first := read_raw_datetime fuel in
  let* datetime := read_twice fuel first in
  let* status_b := read_cmos RTC_STATUS_B in
  datetime_to_unix (decode_hours status_b (decode_bcd status_b datetime)).
End Rtc.

(** ** The registers *)

Section Reading.
Context {S : Type} `{Board S}.
Implicit Types s : S.

Definition register (s : S) : Z → Z := cm_register (clock (chips s)).
Definition updating (s : S) : nat := cm_busy (clock (chips s)).

(** Only the clock chip is touched, and it keeps its registers. *)
Definition clock_only (s s' : S) : Prop := ∃ sel n,
  chips s' = {| serial := serial (chips s); master := master (chips s); slave := slave (chips s); timer := timer (chips s);
                clock := {| cm_selected := sel; cm_busy := n; cm_register := register s |} |}.

Lemma clock_only_trans s1 s2 s3 : clock_only s1 s2 → clock_only s2 s3 → clock_only s1 s3.
Proof. intros (e1 & n1 & E1) (e2 & n2 & E2). exists e2, n2. rewrite E2. unfold register. by rewrite E1. Qed.
Lemma clock_only_register s s' : clock_only s s' → register s' = register s.
Proof. intros (e & n & E). unfold register. by rewrite E. Qed.

(** A read of status A shows whether an update goes on, and time passes. *)
Lemma read_status_a s : ∃ v s', read_cmos RTC_STATUS_A s = Done (v, s')
  ∧ (Z.land v RTC_UPDATE_IN_PROGRESS =? 0) = (updating s =? 0)%nat ∧ updating s' = pred (updating s) ∧ clock_only s s'.
Proof.
  destruct (board_out s CMOS_ADDRESS_PORT RTC_STATUS_A) as (s1 & E1 & C1). destruct (board_in s1 CMOS_DATA_PORT) as (s2 & E2 & C2).
  rewrite C1 in E2, C2. cbn in E2, C2. eexists _, s2. unfold read_cmos. rewrite (kbind_done _ _ _ _ _ E1). split; [exact E2|].
  unfold updating, clock_only, register. rewrite C2. cbn. split_and!; [by destruct (cm_busy _) | done | by eexists _, _].
Qed.

Lemma read_register r s : r ≠ RTC_STATUS_A → ∃ s', read_cmos r s = Done (register s r, s') ∧ updating s' = updating s ∧ clock_only s s'.
Proof.
  intros Hr. destruct (board_out s CMOS_ADDRESS_PORT r) as (s1 & E1 & C1). destruct (board_in s1 CMOS_DATA_PORT) as (s2 & E2 & C2).
  rewrite C1 in E2, C2. cbn in E2, C2. unfold RTC_STATUS_A in Hr. rewrite (proj2 (Z.eqb_neq r 0x0A)) in E2, C2 by done. exists s2.
  unfold read_cmos. rewrite (kbind_done _ _ _ _ _ E1). split; [exact E2|]. unfold updating, clock_only, register. rewrite C2. cbn.
  split; [done | by eexists _, _].
Qed.

Definition snapshot (s : S) : RtcDateTime :=
  {| seconds := register s RTC_SECONDS; minutes := register s RTC_MINUTES; hours := register s RTC_HOURS;
     day := register s RTC_DAY_OF_MONTH; month := register s RTC_MONTH; year := register s RTC_YEAR |}.

Lemma wait_ok fuel s : (updating s < fuel)%nat → ∃ s',
  loopM fuel (λ _, let* busy := update_in_progress in kret (if (busy : bool) then inl tt else inr tt)) tt s = Done (tt, s')
  ∧ updating s' = 0%nat ∧ clock_only s s'.
Proof.
  revert s. induction fuel as [|fuel IH]; intros s Hf; [lia|]. cbn [loopM].
  destruct (read_status_a s) as (v & s1 & E & Ev & Eu & Er). unfold update_in_progress. unfold kbind at 1 2 3. rewrite E. unfold kret. rewrite Ev.
  destruct (updating s) as [|k] eqn:Ek; cbn [Nat.eqb negb].
  - exists s1. by rewrite Eu.
  - destruct (IH s1) as (s' & E' & Hu & Hr); [rewrite Eu; cbn; lia|]. exists s'. split_and!; [exact E'|done|by eapply clock_only_trans].
Qed.

(** One register after another. *)
Lemma read_then {A} r (k : Z → kst S A) s : r ≠ RTC_STATUS_A → ∃ s',
  kbind (read_cmos r) k s = k (register s r) s' ∧ updating s' = updating s ∧ clock_only s s'.
Proof. intros Hr. destruct (read_register r s Hr) as (s' & E & U & C). exists s'. by rewrite (kbind_done _ _ _ _ _ E). Qed.

Lemma read_raw_ok fuel s : (updating s < fuel)%nat → ∃ s', read_raw_datetime fuel s = Done (snapshot s, s')
  ∧ updating s' = 0%nat ∧ clock_only s s'.
Proof.
  intros Hf. destruct (wait_ok fuel s Hf) as (s0 & E0 & U0 & C0). unfold read_raw_datetime. rewrite (kbind_done _ _ _ _ _ E0).
  unfold snapshot. rewrite <- (clock_only_register _ _ C0). clear E0.
  do 6 (match goal with U : updating ?a = 0%nat, C : clock_only s ?a |- context [kbind (read_cmos ?r) ?k ?a] =>
    let E := fresh in let U' := fresh in let C' := fresh in let s' := fresh "s" in
    destruct (read_then r k a) as (s' & E & U' & C'); [done|]; rewrite E; rewrite U in U'; rewrite <- ?(clock_only_register _ _ C');
    apply (clock_only_trans s) in C'; [|exact C]; clear E U C end).
  by eexists.
Qed.

(** ** What the registers say *)

Definition encode (status_b v : Z) : Z := if Z.land status_b RTC_MODE_BINARY =? 0 then to_bcd v else v.

(** The registers show [h]:[mi]:[sec] on date [d], in 24-hour mode. *)
Record displays (s : S) (d : date) (h mi sec : Z) : Prop := {
  dp_mode : Z.land (register s RTC_STATUS_B) RTC_MODE_24_HOUR ≠ 0;
  dp_time : snapshot s =
    let e := encode (register s RTC_STATUS_B) in
    {| seconds := e sec; minutes := e mi; hours := e h; day := e (date_day d); month := e (date_month d); year := e (date_year d - 2000) |};
  dp_range : 0 ≤ h < 24 ∧ 0 ≤ mi < 60 ∧ 0 ≤ sec < 60 ∧ 2000 ≤ date_year d < 2100;
}.

Lemma displays_same s s' d h mi sec : clock (chips s') = clock (chips s) → displays s d h mi sec → displays s' d h mi sec.
Proof. intros E [Hm Ht Hr]. unfold snapshot, register in *. by split; unfold snapshot, register; rewrite ?E. Qed.

Lemma bcd_roundtrip v : 0 ≤ v < 100 → bcd_to_binary (to_bcd v) = v ∧ (v < 24 → Z.land (to_bcd v) 0x7F = to_bcd v ∧ Z.land (to_bcd v) RTC_HOUR_PM_FLAG = 0).
Proof.
  revert v. apply (Forall_range (λ v, bcd_to_binary (to_bcd v) = v ∧ (v < 24 → Z.land (to_bcd v) 0x7F = to_bcd v ∧ Z.land (to_bcd v) RTC_HOUR_PM_FLAG = 0)) 0 100). vm_compute. reflexivity.
Qed.

Lemma decode_displays s d h mi sec : displays s d h mi sec → valid_date d →
  let b := register s RTC_STATUS_B in
  decode_hours b (decode_bcd b (snapshot s)) =
    {| seconds := sec; minutes := mi; hours := h; day := date_day d; month := date_month d; year := date_year d - 2000 |}.
Proof.
  intros [Hm Ht (Hh & Hmi & Hsec & Hy)] [Hmo Hda]. pose proof (days_in_month_bounds (date_year d) (date_month d)).
  cbv zeta. rewrite Ht. unfold decode_hours. rewrite (proj2 (Z.eqb_neq _ _)) by done. cbn [andb].
  unfold decode_bcd, encode. destruct (Z.eqb_spec (Z.land (register s RTC_STATUS_B) RTC_MODE_BINARY) 0); [|done]. cbn.
  destruct (bcd_roundtrip h ltac:(lia)) as [Eh Eh']. destruct (Eh' ltac:(lia)) as [-> ->]. rewrite Z.lor_0_r.
  rewrite Eh, !(λ v Hv, proj1 (bcd_roundtrip v Hv)) by lia. done.
Qed.

Lemma valid_nth n : valid_date (Nat.iter n next_day epoch).
Proof. induction n as [|n IH]; [by vm_compute|]. by apply civil_next_day. Qed.

Lemma unix_of_date n h mi sec s : let d := Nat.iter n next_day epoch in
  0 ≤ h < 24 → 0 ≤ mi < 60 → 0 ≤ sec < 60 → 2000 ≤ date_year d < 2100 →
  datetime_to_unix {| seconds := sec; minutes := mi; hours := h; day := date_day d; month := date_month d; year := date_year d - 2000 |} s
  = Done (Z.of_nat n * 86400 + h * 3600 + mi * 60 + sec, s).
Proof.
  cbv zeta. intros Hh Hmi Hsec Hy. set (d := Nat.iter n next_day epoch) in *.
  pose proof (days_from_civil_counts n s) as En. cbv zeta in En. fold d in En. destruct (valid_nth n) as [Hmo Hda]. fold d in Hmo, Hda.
  pose proof (days_in_month_bounds (date_year d) (date_month d)).
  assert (Hn : 0 ≤ Z.of_nat n < 2 ^ 32).
  { pose proof (days_from_civil_civil (date_year d) (date_month d) (date_day d) s ltac:(lia) ltac:(lia)) as Ec. rewrite En in Ec. injection Ec as Ec.
    split; [lia|]. rewrite Ec. unfold civil. repeat case_match; Z.to_euclidean_division_equations; lia. }
  unfold datetime_to_unix. cbn [seconds minutes hours day month year]. replace (2000 + (date_year d - 2000)) with (date_year d) by lia.
  rewrite (kbind_done _ _ _ _ _ En), wrap_id by lia. unfold usize_max.
  rewrite (kbind_done _ _ _ _ _ (umul_ok (Z.of_nat n) 86400 s ltac:(unfold usize_max; lia))), !uadd_bind by (unfold usize_max; lia).
  by rewrite uadd_ok by (unfold usize_max; lia).
Qed.

(** Reading the clock: from a chip that shows [h]:[mi]:[sec] on the [n]-th day after
    1 January 1970 (of this century, in 24-hour mode, in binary or BCD), [read_unix_time]
    waits out the update, agrees with itself on the second snapshot and returns the
    seconds since the epoch, by the Gregorian calendar; no other chip is touched. *)
Theorem read_clock_spec n h mi sec s fuel : displays s (Nat.iter n next_day epoch) h mi sec → (updating s < fuel)%nat →
  ∃ s', read_clock fuel s = Done (Z.of_nat n * 86400 + h * 3600 + mi * 60 + sec, s') ∧ clock_only s s'.
Proof.
  intros Hd Hf. destruct (read_raw_ok fuel s Hf) as (s1 & E1 & U1 & C1). destruct (read_raw_ok fuel s1 ltac:(lia)) as (s2 & E2 & U2 & C2).
  pose proof (clock_only_register _ _ C1) as R1. pose proof (clock_only_register _ _ C2) as R2.
  destruct (read_register RTC_STATUS_B s2 ltac:(done)) as (s3 & E3 & _ & C3). exists s3. unfold read_clock, read_twice.
  split; [|by eapply clock_only_trans, clock_only_trans].
  assert (Es : snapshot s1 = snapshot s) by (unfold snapshot; by rewrite R1).
  rewrite (kbind_done _ _ _ _ _ E1), (kbind_done _ _ _ (snapshot s) s2).
  - rewrite (kbind_done _ _ _ _ _ E3). replace (register s2 RTC_STATUS_B) with (register s RTC_STATUS_B) by congruence.
    rewrite (decode_displays s _ h mi sec Hd (valid_nth n)). destruct Hd as [_ _ (Hh & Hmi & Hsec & Hy)]. by apply unix_of_date.
  - destruct fuel as [|fuel]; [lia|]. cbn [loopM]. rewrite (kbind_done _ _ _ (inr (snapshot s)) s2); [done|].
    rewrite (kbind_done _ _ _ _ _ E2), Es. by rewrite bool_decide_eq_true_2.
Qed.
End Reading.

(** ** A reading *)

Lemma power_on_displays : displays power_on (Nat.iter 19783 next_day epoch) 13 37 59.
Proof.
  assert (Ed : Nat.iter 19783 next_day epoch = {| date_year := 2024; date_month := 3; date_day := 1 |}) by (vm_compute; reflexivity).
  rewrite Ed. split; [discriminate | reflexivity | cbn; lia].
Qed.

Lemma read_clock_spec_witness : ∃ b, read_clock 5 power_on = Done (1709300279, b) ∧ clock_only power_on b.
Proof. apply (read_clock_spec 19783 13 37 59 power_on 5); [exact power_on_displays | cbn; lia]. Defined.
