(* ===== verification/Paths.v ===== *)
(** * Paths: path components and their resolution (src/src/fs/fs.rs, src/src/scheduling/mod.rs)

    [normalize_path_components], the default methods of the [Directory] trait and
    the functions that resolve a path of the current process.  The trait's
    required methods are the class [DirOps]; directories and files are handles
    into a state [S].  [walk] is the meaning of a component list on a stack of
    directory names. *)

From S2P Require Import Prelude Text.

Definition slash : Z := 47.
Definition dot : list Z := [46].
Definition dotdot : list Z := [46; 46].
Definition tilde : list Z := [126].

(** ** Components *)

Definition push_component (components : list (list Z)) (component : list Z) : list (list Z) :=
  if bool_decide (component = []) || bool_decide (component = dot) then components
  else if bool_decide (component = dotdot) then
    match last components with
    | None => components ++ [component]
    | Some c => if bool_decide (c = dotdot) then components ++ [component] else removelast components
    end
  else components ++ [component].

Definition normalize_components (l : list (list Z)) : list (list Z) := foldl push_component [] l.

Definition normalize_path_components (path : list Z) : list (list Z) :=
  normalize_components (split_on slash path).

Definition combine_path (p1 p2 : list Z) : list Z := p1 ++ [slash] ++ p2.

(** [str::strip_prefix]. *)
Fixpoint strip_prefix (prefix s : list Z) : option (list Z) :=
  match prefix, s with
  | [], _ => Some s
  | x :: prefix, y :: s => if x =? y then strip_prefix prefix s else None
  | _ :: _, [] => None
  end.

(** ** Directories *)

(** What [Directory] and [File] objects offer: [d_list] is [list_dir]. *)
Class DirOps (S D F : Type) := {
  d_name : D → kst S (list Z);
  d_list : D → kst S (list D * list F);
  f_name : F → kst S (list Z);
  d_create_file : D → list Z → kst S (option F);
  d_create_directory : D → list Z → kst S (option unit);
  d_unlink_file : D → list Z → kst S (option unit);
  d_remove_directory : D → list Z → kst S (option unit);
}.

Section Lookup.
Context {S D F : Type} `{DirOps S D F}.

(** [iter().find(...)] with a name that is asked for item by item. *)
Fixpoint find_named {A} (name_of : A → kst S (list Z)) (name : list Z) (items : list A)
  : kst S (option A) :=
  match items with
  | [] => kret None
  | x :: items =>
      let* n := name_of x in
      if eq_ignore_ascii_case n name then kret (Some x) else find_named name_of name items
  end.

Definition find_directory (d : D) (name : list Z) : kst S (option D) :=
  let* items := d_list d in find_named d_name name items.1.

Definition find_file (d : D) (name : list Z) : kst S (option F) :=
  let* items := d_list d in find_named f_name name items.2.

Fixpoint find_directory_components (d : D) (components : list (list Z)) : kst S (option D) :=
  match components with
  | [] => kret None
  | next :: rest =>
      let? next := find_directory d next in
      match rest with
      | [] => kret (Some next)
      | _ => find_directory_components next rest
      end
  end.

Fixpoint find_file_components (d : D) (components : list (list Z)) : kst S (option F) :=
  match components with
  | [] => kret None
  | next :: rest =>
      match rest with
      | [] => find_file d next
      | _ => let? next := find_directory d next in find_file_components next rest
      end
  end.

(** ** Paths of the current process

    [root] is the global root directory, [cwd] the working directory of the
    current process. *)
Context (root cwd : D).

(** The directory a path starts at, and the path from there. *)
Definition path_base (path : list Z) : D * list Z :=
  match strip_prefix (tilde ++ [slash]) path with
  | Some path => (root, path)
  | None =>
      match strip_prefix [slash] path with
      | Some path => (root, path)
      | None => (cwd, path)
      end
  end.

Definition find_file_from_path (path : list Z) : kst S (option F) :=
  let '(base, path) := path_base path in
  find_file_components base (normalize_path_components path).

Definition find_directory_from_path (path : list Z) : kst S (option D) :=
  if bool_decide (path = [slash]) || bool_decide (path = tilde) then kret (Some root)
  else
    let '(base, path) := path_base path in
    let components := normalize_path_components path in
    match components with
    | [] => kret (Some base)
    | _ => find_directory_components base components
    end.

(** [components.split_last()]. *)
Definition split_last {A} (l : list A) : option (A * list A) :=
  match last l with None => None | Some x => Some (x, removelast l) end.

Definition resolve_parent_directory_and_name (path : list Z) : kst S (option (D * list Z)) :=
  if bool_decide (path = []) || bool_decide (last path = Some slash) then kret None
  else
    let '(base_dir, path) := path_base path in
    match split_last (normalize_path_components path) with
    | None => kret None
    | Some (filename, parent_components) =>
        if bool_decide (filename = dotdot) then kret None
        else
          match parent_components with
          | [] => kret (Some (base_dir, filename))
          | _ =>
              let? parent := find_directory_components base_dir parent_components in
              kret (Some (parent, filename))
          end
    end.

Definition create_file_from_path (path : list Z) : kst S (option F) :=
  let? r := resolve_parent_directory_and_name path in d_create_file r.1 r.2.

(** [resolve...?; parent.op(name).is_some()]. *)
Definition parent_op (op : D → list Z → kst S (option unit)) (path : list Z) : kst S bool :=
  let* r := resolve_parent_directory_and_name path in
  match r with
  | None => kret false
  | Some (parent, name) => let* o := op parent name in kret (bool_decide (o = Some tt))
  end.
Definition curr_process_create_directory (path : list Z) : kst S bool := parent_op d_create_directory path.
Definition curr_process_unlink_file (path : list Z) : kst S bool := parent_op d_unlink_file path.
Definition curr_process_remove_directory (path : list Z) : kst S bool := parent_op d_remove_directory path.
End Lookup.

(** ** What components mean *)

(** Walks from the directory whose names, innermost first, are [st]; [None] when
    [..] leads above the outermost one. *)
Fixpoint walk (components : list (list Z)) (st : list (list Z)) : option (list (list Z)) :=
  match components with
  | [] => Some st
  | c :: rest =>
      if bool_decide (c = []) || bool_decide (c = dot) then walk rest st
      else if bool_decide (c = dotdot) then
        match st with
        | [] => None
        | _ :: st => walk rest st
        end
      else walk rest (c :: st)
  end.

Lemma walk_app a b st : walk (a ++ b) st = st' ← walk a st; walk b st'.
Proof.
  revert st. induction a as [|c a IH]; intros st; [done|]. cbn.
  destruct (_ || _); [apply IH|]. destruct (bool_decide _); [|apply IH].
  destruct st; [done|apply IH].
Qed.

(** An ordinary name: not empty, not a dot component. *)
Definition plain (c : list Z) : Prop := c ≠ [] ∧ c ≠ dot ∧ c ≠ dotdot.

Lemma walk_plain c st : plain c → walk [c] st = Some (c :: st).
Proof.
  intros (H1 & H2 & H3). cbn. rewrite !bool_decide_eq_false_2 by done. done.
Qed.

(** The shape of a normalized path: some [..], then ordinary names. *)
Definition normal_form (l : list (list Z)) : Prop :=
  ∃ k names, l = replicate k dotdot ++ names ∧ Forall plain names.

Lemma normal_form_push l c : normal_form l → normal_form (push_component l c).
Proof.
  intros (k & names & -> & Hn). unfold push_component.
  destruct (_ || _) eqn:E1. { by exists k, names. }
  apply orb_false_iff in E1 as [E1 E2]. apply bool_decide_eq_false in E1, E2.
  case_bool_decide as E3; subst.
  - destruct names as [|x names] using rev_ind.
    + rewrite app_nil_r. destruct k as [|k]; [by exists 1%nat, []|].
      assert (last (replicate (Datatypes.S k) dotdot) = Some dotdot) as ->.
      { rewrite <-Nat.add_1_r, replicate_add. change (replicate 1 dotdot) with [dotdot]. apply last_snoc. }
      rewrite bool_decide_eq_true_2 by done. exists (Datatypes.S k + 1)%nat, [].
      rewrite replicate_add, app_nil_r. done.
    + clear IHnames. apply Forall_app in Hn as [Hn Hx]. apply Forall_cons in Hx as [(_ & _ & Hx) _].
      rewrite app_assoc, last_snoc, bool_decide_eq_false_2 by done. rewrite removelast_last.
      by exists k, names.
  - exists k, (names ++ [c]). rewrite app_assoc. split; [done|]. apply Forall_app. split; [done|].
    by repeat constructor.
Qed.

Lemma normal_form_normalize l : normal_form (normalize_components l).
Proof.
  unfold normalize_components. assert (normal_form []) as H0 by (by exists 0%nat, []). revert H0.
  generalize (@nil (list Z)). induction l as [|c l IH]; intros acc Ha; [done|]. cbn.
  apply IH. by apply normal_form_push.
Qed.

(** Adding a component moves the walk by that component. *)
Lemma walk_push l c st st' :
  normal_form l → walk (l ++ [c]) st = Some st' → walk (push_component l c) st = Some st'.
Proof.
  intros (k & names & -> & Hn). rewrite walk_app. unfold push_component.
  destruct (walk (replicate k dotdot ++ names) st) as [s1|] eqn:E1; [|done]. cbn [mbind option_bind].
  cbn [walk]. destruct (bool_decide (c = []) || bool_decide (c = dot)) eqn:Ec. { by intros [= <-]. }
  destruct (bool_decide (c = dotdot)) eqn:E3; [apply bool_decide_eq_true in E3; subst c|].
  2:{ apply bool_decide_eq_false in E3. intros [= <-]. rewrite walk_app, E1. apply walk_plain.
      apply orb_false_iff in Ec as [Ea Eb]. apply bool_decide_eq_false in Ea, Eb. done. }
  destruct s1 as [|x s1]; [done|]. intros [= <-].
  destruct names as [|y names] using rev_ind.
  - rewrite app_nil_r in *. destruct (last (replicate k dotdot)) as [c|] eqn:El.
    + apply last_Some_elem_of, elem_of_replicate in El as [-> _]. rewrite bool_decide_eq_true_2 by done.
      by rewrite walk_app, E1.
    + by rewrite walk_app, E1.
  - clear IHnames. apply Forall_app in Hn as [Hn Hy]. apply Forall_cons in Hy as [Hy _].
    rewrite app_assoc in *. rewrite last_snoc, bool_decide_eq_false_2 by apply Hy. rewrite removelast_last.
    rewrite walk_app in E1. destruct (walk (replicate k dotdot ++ names) st) as [s2|]; [|done].
    cbn [mbind option_bind] in E1. rewrite walk_plain in E1 by done. by injection E1 as <- <-.
Qed.

Lemma walk_normalize_acc l acc st st' :
  normal_form acc → walk (acc ++ l) st = Some st' → walk (foldl push_component acc l) st = Some st'.
Proof.
  revert acc. induction l as [|c l IH]; intros acc Ha Hw; [by rewrite app_nil_r in Hw|]. cbn.
  apply IH; [by apply normal_form_push|]. rewrite walk_app.
  change (c :: l) with ([c] ++ l) in Hw. rewrite app_assoc, walk_app in Hw.
  destruct (walk (acc ++ [c]) st) as [s1|] eqn:E; [|done]. by rewrite (walk_push acc c st s1).
Qed.

(** C35: normalization does not change where a path leads: if following the
    components of a path one by one from some directory ends in a directory, the
    normalized components lead to the same one. *)
Theorem normalize_same_walk path st st' :
  walk (split_on slash path) st = Some st' → walk (normalize_path_components path) st = Some st'.
Proof. intros Hw. apply (walk_normalize_acc _ []); [by exists 0%nat, []|done]. Qed.

(** "a/./b//../c" from the directory "/x". *)
Definition sample_path : list Z := [97; 47; 46; 47; 98; 47; 47; 46; 46; 47; 99].

Lemma normalize_same_walk_witness :
  normalize_path_components sample_path = [[97]; [99]]
  ∧ walk (normalize_path_components sample_path) [[120]] = Some [[99]; [97]; [120]].
Proof. split; [reflexivity|]. apply normalize_same_walk. reflexivity. Defined.

(** *** Joining components into a path *)

Fixpoint join (l : list (list Z)) : list Z :=
  match l with
  | [] => []
  | [c] => c
  | c :: l => c ++ slash :: join l
  end.

Lemma split_join l : l ≠ [] → Forall (Forall (λ x, x ≠ slash)) l → split_on slash (join l) = l.
Proof.
  intros Hne Hl. induction Hl as [|c l Hc Hl IH]; [done|]. destruct l as [|c' l].
  - by apply split_on_single.
  - cbn [join]. rewrite split_on_app by done. f_equal. by apply IH.
Qed.

(** Normalizing what is normal already changes nothing. *)
Lemma normalize_names acc names :
  normal_form acc → Forall plain names → foldl push_component acc names = acc ++ names.
Proof.
  intros Ha Hn. revert acc Ha. induction Hn as [|c names (H1 & H2 & H3) Hn IH]; intros acc Ha.
  { by rewrite app_nil_r. }
  cbn [foldl]. assert (push_component acc c = acc ++ [c]) as E.
  { unfold push_component. by rewrite !bool_decide_eq_false_2. }
  rewrite IH by (by apply normal_form_push). by rewrite E, <-app_assoc.
Qed.

Lemma normalize_dotdots k : foldl push_component [] (replicate k dotdot) = replicate k dotdot.
Proof.
  enough (∀ n, foldl push_component (replicate n dotdot) (replicate k dotdot) = replicate (n + k) dotdot) as H
    by apply (H 0%nat).
  induction k as [|k IH]; intros n; [by rewrite Nat.add_0_r|]. cbn [replicate foldl].
  assert (push_component (replicate n dotdot) dotdot = replicate (n + 1) dotdot) as ->.
  { unfold push_component. rewrite replicate_add. cbn [replicate].
    destruct (last (replicate n dotdot)) as [c|] eqn:El; [|done].
    apply last_Some_elem_of, elem_of_replicate in El as [-> _]. done. }
  rewrite IH. f_equal. lia.
Qed.

Lemma Forall_split c s : Forall (Forall (λ x, x ≠ c)) (split_on c s).
Proof.
  induction s as [|x s IH]; cbn; [by repeat constructor|].
  destruct (Z.eqb_spec x c); [by constructor|].
  destruct (split_on c s) as [|p ps]; [by repeat constructor|].
  apply Forall_cons in IH as [Hp Hps]. by repeat constructor.
Qed.

Lemma Forall_normalize (Q : list Z → Prop) l : Forall Q l → Forall Q (normalize_components l).
Proof.
  unfold normalize_components. intros Hl. assert (Forall Q []) as Ha by constructor. revert Ha.
  generalize (@nil (list Z)). induction Hl as [|c l Hc Hl IH]; intros acc Ha; [done|]. cbn. apply IH.
  unfold push_component. destruct (_ || _); [done|].
  destruct (bool_decide (c = dotdot)); [|apply Forall_app; auto].
  destruct (last acc); [|apply Forall_app; auto].
  destruct (bool_decide _); [apply Forall_app; auto|].
  destruct acc as [|y acc _] using rev_ind; [done|]. rewrite removelast_last. by apply Forall_app in Ha as [Ha _].
Qed.

(** a normalized path is a run of [..] followed by ordinary names, none of
    which is empty, a dot component or holds a slash; and normalizing its text
    again gives the same components. *)
Theorem normalize_normal_form path :
  let l := normalize_path_components path in
  (∃ k names, l = replicate k dotdot ++ names ∧ Forall plain names)
  ∧ Forall (Forall (λ x, x ≠ slash)) l ∧ normalize_path_components (join l) = l.
Proof.
  cbv zeta. set (l := normalize_path_components path).
  assert (Hl : Forall (Forall (λ x, x ≠ slash)) l) by apply Forall_normalize, Forall_split.
  assert (Hf : normal_form l) by apply normal_form_normalize.
  split; [done|]. split; [done|]. destruct (decide (l = [])) as [->|Hne]; [done|].
  unfold normalize_path_components at 1. rewrite split_join by done.
  destruct Hf as (k & names & E & Hn). rewrite E at 1. unfold normalize_components.
  rewrite foldl_app, normalize_dotdots, normalize_names; [done|by exists k, []; rewrite app_nil_r|done].
Qed.

(** ** Resolution *)

Section Resolve.
Context {S D F : Type} `{DirOps S D F} (root cwd : D).

(** Looking up a file is looking up its directory and then the file. *)
Lemma find_file_split d parents name s :
  find_file_components d (parents ++ [name]) s =
    match parents with
    | [] => find_file d name s
    | _ => ktry (find_directory_components d parents) (λ p, find_file p name) s
    end.
Proof.
  revert d s. induction parents as [|c parents IH]; intros d s; [done|].
  cbn [app find_file_components find_directory_components].
  destruct (parents ++ [name]) as [|x y] eqn:E; [by destruct parents|]. rewrite <-E in *.
  unfold ktry. rewrite kbind_assoc. unfold kbind at 1 2.
  destruct (find_directory d c s) as [[[d'|] s']|]; [|done|done].
  rewrite IH. destruct parents as [|c' parents]; [done|]. done.
Qed.

(** opening and creating agree on what a path means: when the parent of a
    path can be resolved, opening the path looks for its last name in exactly the
    directory in which creating it would put it. *)
Theorem open_and_create_agree path s parent name s1 :
  resolve_parent_directory_and_name root cwd path s = Done (Some (parent, name), s1) →
  find_file_from_path root cwd path s = find_file parent name s1.
Proof.
  unfold resolve_parent_directory_and_name, find_file_from_path.
  destruct (_ || _); [done|]. destruct (path_base root cwd path) as [base rest].
  set (comps := normalize_path_components rest). unfold split_last.
  destruct comps as [|name' parents _] using rev_ind; [done|]. rewrite last_snoc, removelast_last.
  case_bool_decide; [done|]. rewrite find_file_split. destruct parents as [|c parents].
  - by intros [= <- <- <-].
  - intros (p & s2 & E1 & E2)%ktry_inv. destruct p as [p|]; [|by destruct E2].
    injection E2 as <- <- <-. by rewrite (ktry_some _ _ _ _ _ E1).
Qed.
End Resolve.
