(* ===== verification/FatFileApi.v ===== *)
(** * FatFileApi: FATFile implements the File interface

    The state of the interface is the mounted volume together with the file
    objects that exist ([Arc<RwLock<FATFile>>], named by a number): a file can be
    reached through several descriptors and [truncate] changes the shared object.
    The instance of [FileSpec] is the bridge between the driver's theorems and
    the descriptor table's. *)

From S2P Require Import Prelude Text FatNames FatTable BlockDev FatFs FatVolume FatFile FatTruncate Descriptors Paths.

Section Api.
Context {P : Type} `{BlockDevice P} `{UnicodeCase} (fuel : nat).
Implicit Types s : FATFileSystem P.

(** The volume and the file objects. *)
Definition mounted : Type := FATFileSystem P * gmap Z FATFile.

(** Runs a method of the file object [id]; handles always name an object. *)
Definition with_file {A} (id : Z) (m : FATFile → kst (FATFileSystem P) A) : kst mounted A := λ x,
  match x.2 !! id with
  | None => Fault Undefined
  | Some f => zoom fst (λ s x, (s, x.2)) (m f) x
  end.

Definition api_truncate (id n : Z) : kst mounted (option unit) :=
  let* r := with_file id (λ f, file_truncate fuel f n) in
  kmodify (λ x, (x.1, <[id := r.2]> x.2)) ;;*
  kret r.1.

#[export] Instance fat_file_ops : FileOps mounted Z := {
  f_size id := with_file id file_size;
  f_read id := with_file id (file_read fuel);
  f_write id off d := with_file id (λ f, file_write fuel f off d);
  f_truncate := api_truncate;
  f_free r := zoom fst (λ s x, (s, x.2)) (deallocate_region r);
}.

(** Every lookup makes new file objects: [Arc::new(RwLock::new(...))]. *)
Definition new_file (f : FATFile) : kst mounted Z := λ x,
  let id := fresh (dom x.2) in Done (id, (x.1, <[id := f]> x.2)).

Fixpoint new_files (l : list FATFile) : kst mounted (list Z) :=
  match l with
  | [] => kret []
  | f :: l =>
      let* id := new_file f in
      let* ids := new_files l in
      kret (id :: ids)
  end.

(** Runs a method of the driver on the volume. *)
Definition on_volume {A} (m : kst (FATFileSystem P) A) : kst mounted A := zoom fst (λ s x, (s, x.2)) m.

#[export] Instance fat_dir_ops : DirOps mounted FATDirectory Z := {
  d_name d := kret (dir_name d);
  d_list d :=
    let* r := on_volume (dir_list_dir fuel d) in
    let* files := new_files r.2 in
    kret (r.1, files);
  f_name id := with_file id (λ f, kret (file_name f));
  d_create_file d name :=
    let? f := on_volume (dir_create_file fuel d name) in
    let* id := new_file f in
    kret (Some id);
  d_create_directory d name := on_volume (dir_create_directory fuel d name);
  d_unlink_file d name := on_volume (dir_unlink_file fuel d name);
  d_remove_directory d name := on_volume (dir_remove_directory fuel d name);
}.

(** ** When a file is in good order *)

Record file_good s (f : FATFile) (cs : list Z) : Prop := {
  fg_location : location_ok s (file_location f);
  fg_attributes : de_attributes (entry_at s (file_location f)) = 32;
  fg_ready : grow_ready s (entry_at s (file_location f)) cs;
  fg_count : Z.of_nat (length cs) = clusters_needed s (de_size (entry_at s (file_location f)));
  fg_outside : loc_cluster (file_location f) ∉ cs;
  fg_dir_used : lookupZ (fat s) (loc_cluster (file_location f)) ≠ Some FAT_CLUSTER_FREE;
  fg_fuel : (length cs ≤ fuel)%nat;
}.

Abbreviation esize s f := (de_size (entry_at s (file_location f))).

Definition api_holds (x : mounted) (id : Z) (c : list Z) : Prop :=
  ∃ f cs, x.2 !! id = Some f ∧ fs_ok x.1 ∧ file_good x.1 f cs ∧ c = file_bytes x.1 cs (esize x.1 f).

Definition api_may_grow (x : mounted) (id n : Z) : Prop :=
  ∃ f, x.2 !! id = Some f ∧ n ≤ u32_max ∧ clusters_needed x.1 n ≤ Z.of_nat fuel
    ∧ clusters_needed x.1 n - clusters_needed x.1 (esize x.1 f) ≤ Z.of_nat (length (free_clusters (fat x.1))).

(** ** Lemmas *)

Lemma esize_nonneg s f cs : fs_ok s → file_good s f cs → 0 ≤ esize s f < 2 ^ 32.
Proof. intros [G _] Hg. apply (wf_size _ (wf_entry_at s _ G (fg_location _ _ _ Hg))). Qed.

Lemma bytes_chain_bytes s cs : bytes (chain_bytes s cs).
Proof. apply Forall_concat, Forall_map, Forall_true. intros. apply bytes_cluster_bytes. Qed.

Lemma length_file_bytes s f cs :
  fs_ok s → file_good s f cs → Z.of_nat (length (file_bytes s cs (esize s f))) = esize s f.
Proof.
  intros Hs Hg. pose proof (esize_nonneg _ _ _ Hs Hg) as Hn.
  destruct (clusters_needed_bounds s (esize s f) (proj1 Hs) (proj1 Hn)) as [Hr _].
  rewrite <-(fg_count _ _ _ Hg), <-(length_chain_bytes s cs (proj1 Hs)) in Hr.
  unfold file_bytes. rewrite length_take. lia.
Qed.

(** With contents, the file is a regular file of the volume. *)
Lemma file_good_regular s f cs :
  fs_ok s → file_good s f cs → 0 < esize s f → regular_file fuel s f cs.
Proof.
  intros Hs [Hl Ha [Hch Hv Hu] Hc Ho Hd Hf] Hn.
  destruct (clusters_needed_bounds s (esize s f) (proj1 Hs) (Z.lt_le_incl _ _ Hn)) as [Hr Hp].
  destruct Hp as [_ Hp]; [done|]. split; [done|done| |done|done].
  split; [|split; [done|by rewrite Hc]]. destruct Hch as [->|]; [cbn [length] in Hc; lia|done].
Qed.

Lemma file_good_empty s f cs : file_good s f cs → esize s f = 0 → cs = [].
Proof.
  intros Hg E. pose proof (fg_count _ _ _ Hg) as Hc. unfold clusters_needed in Hc.
  rewrite E, Z.eqb_refl in Hc. by destruct cs.
Qed.

(** Quiet changes of the platform keep everything. *)
Lemma file_good_quiet s p' f cs : same_disk (port s) p' → file_good s f cs → file_good (set_port p' s) f cs.
Proof.
  intros Hd [Hl Ha Hr Hc Ho Hu Hf].
  assert (entry_at (set_port p' s) (file_location f) = entry_at s (file_location f)) as E.
  { apply entry_at_ext. by apply cluster_bytes_ext. }
  split; rewrite ?E; try done. by destruct Hr.
Qed.

Lemma api_holds_quiet s st p' id c :
  same_disk (port s) p' → healthy p' → api_holds (s, st) id c → api_holds (set_port p' s, st) id c.
Proof.
  intros Hd Hh (f & cs & Hf & [G _] & Hg & ->). exists f, cs. cbn [fst snd] in *. split; [done|].
  split; [split; [by apply geometry_set_port|done]|]. split; [by apply file_good_quiet|].
  assert (entry_at (set_port p' s) (file_location f) = entry_at s (file_location f)) as ->.
  { apply entry_at_ext. by apply cluster_bytes_ext. }
  by rewrite file_bytes_ext.
Qed.

Lemma with_file_done {A} id f (m : FATFile → kst (FATFileSystem P) A) s st a s' :
  st !! id = Some f → m f s = Done (a, s') → with_file id m (s, st) = Done (a, (s', st)).
Proof. intros Hf E. unfold with_file, zoom. cbn. by rewrite Hf, E. Qed.

Lemma file_write_empty s f cs off :
  fs_ok s → file_good s f cs → 0 ≤ off → off ≤ esize s f →
  ∃ s', file_write fuel f off [] s = Done (Some 0, s') ∧ writes s s' cs (chain_bytes s cs).
Proof.
  intros Hs Hg Ho He. pose proof (esize_nonneg _ _ _ Hs Hg) as Hn.
  destruct Hg as [Hl Ha Hr _ _ _ _]. unfold file_write.
  edestruct (with_entry_read (A := Z) s) as (p1 & -> & Hs1 & Hd1 & Hl1); [done..|].
  assert (write_existing_file fuel (entry_at s (file_location f)) off [] (set_port p1 s)
    = Done (Some 0, set_port p1 s)) as Hw.
  { unfold write_existing_file. rewrite Ha, Z.eqb_refl. cbn [negb length]. unfold checked_add.
    rewrite (proj2 (Z.leb_le _ _)) by (unfold usize_max; lia). rewrite (ktry_some _ _ _ _ _ eq_refl).
    rewrite (proj2 (Z.ltb_ge _ _)) by lia. by rewrite bool_decide_eq_true_2. }
  rewrite (ktry_some _ _ _ _ _ Hw). set (l := file_location f) in *.
  assert (Hl1' : location_ok (set_port p1 s) l) by done.
  destruct (persist_directory_entry_ok (set_port p1 s) l (entry_at s l) Hs1 Hl1') as (s3 & Hp & Hw3).
  { by apply wf_entry_at; [apply Hs|]. }
  rewrite (ktry_some _ _ _ _ _ Hp). exists s3. split; [done|].
  assert (entry_at (set_port p1 s) l = entry_at s l) as E
    by (apply entry_at_ext; by apply cluster_bytes_ext).
  rewrite <-E in Hw3. rewrite splice_entry_at in Hw3 by (done || apply Hs1).
  apply writes_before with p1; [done|done|].
  eapply writes_noop; [|exact Hw3|apply Hr].
  assert (chain_bytes s cs = concat (map (cluster_bytes (set_port p1 s)) cs)) as ->.
  { unfold chain_bytes. f_equal. apply map_ext. intros. by rewrite cluster_bytes_ext. }
  apply writes_refl, Hs1.
Qed.

Lemma file_good_writes s s' f cs new :
  file_good s f cs → writes s s' cs new →
  file_good s' f cs ∧ entry_at s' (file_location f) = entry_at s (file_location f).
Proof.
  intros [Hl Ha Hr Hc Ho Hu Hf] Hw.
  assert (E : entry_at s' (file_location f) = entry_at s (file_location f)).
  { apply entry_at_ext. destruct Hw as [_ _ _ _ Hother _]. apply Hother; [apply Hl|done]. }
  split; [|done]. pose proof Hw as [[p' ->] _ _ _ _ _]. split; rewrite ?E; try done. by destruct Hr.
Qed.

(** A write of any length, the empty one included. *)
Lemma file_write_any s f cs off d :
  fs_ok s → file_good s f cs → bytes d → 0 ≤ off → off + Z.of_nat (length d) ≤ esize s f →
  ∃ s', file_write fuel f off d s = Done (Some (Z.of_nat (length d)), s')
    ∧ writes s s' cs (splice (chain_bytes s cs) (Z.to_nat off) d).
Proof.
  intros Hs Hg Hb Ho He. destruct (decide (d = [])) as [->|Hd].
  - cbn [length] in He. rewrite splice_nil. apply file_write_empty; [done|done|done|lia].
  - assert (0 < length d)%nat by (destruct d; [done|simpl; lia]).
    apply file_write_run; [done| |done|done|done]. apply file_good_regular; [done|done|lia].
Qed.

(** ** The laws *)

Lemma api_size s st id c :
  api_holds (s, st) id c →
  ∃ x', f_size id (s, st) = Done (Z.of_nat (length c), x') ∧ api_holds x' id c
    ∧ ∀ n, api_may_grow (s, st) id n → api_may_grow x' id n.
Proof.
  intros Hh. pose proof Hh as (f & cs & Hf & Hs & Hg & Hc). cbn [fst snd] in *.
  destruct (read_directory_entry_ok s _ Hs (fg_location _ _ _ Hg)) as (p' & Hr & Hh' & Hd & Hl).
  assert (file_size f s = Done (esize s f, set_port p' s)) as E.
  { unfold file_size. by rewrite (kbind_done _ _ _ _ _ Hr). }
  exists (set_port p' s, st). split; [|split].
  - rewrite Hc, (length_file_bytes s f cs Hs Hg). by eapply with_file_done.
  - by apply api_holds_quiet.
  - intros n (f' & Hf' & Hn). exists f'. split; [done|].
    assert (entry_at (set_port p' s) (file_location f') = entry_at s (file_location f')) as Ee
      by (apply entry_at_ext; by apply cluster_bytes_ext).
    cbn [fst snd] in *. by rewrite Ee.
Qed.

Lemma api_read s st id c :
  api_holds (s, st) id c →
  ∃ r x', f_read id (s, st) = Done (Some r, x') ∧ reg_bytes r = c ∧ api_holds x' id c.
Proof.
  intros Hh. pose proof Hh as (f & cs & Hf & Hs & Hg & Hc). cbn [fst snd] in *.
  pose proof (esize_nonneg _ _ _ Hs Hg) as Hn.
  destruct (decide (esize s f = 0)) as [E0|E0].
  - destruct (read_directory_entry_ok s _ Hs (fg_location _ _ _ Hg)) as (p' & Hr & Hh' & Hd & Hl).
    assert (file_read fuel f s = Done (Some {| reg_addr := 0; reg_bytes := [] |}, set_port p' s)) as E.
    { unfold file_read. rewrite (ktry_some _ _ _ _ _ Hr). unfold read_file.
      rewrite (fg_attributes _ _ _ Hg), E0. done. }
    eexists _, (set_port p' s, st). split; [by eapply with_file_done|].
    split; [|by apply api_holds_quiet]. rewrite Hc, E0. done.
  - destruct (file_read_ok fuel s f cs Hs) as (a & p' & Hr & Hh' & Hd & _ & Hl);
      [apply file_good_regular; [done|done|lia]|lia|].
    eexists _, (set_port p' s, st). split; [by eapply with_file_done|]. split; [by rewrite Hc|].
    by apply api_holds_quiet.
Qed.

Lemma api_write s st id c off d :
  api_holds (s, st) id c → bytes d → 0 ≤ off → off + Z.of_nat (length d) ≤ Z.of_nat (length c) →
  ∃ x', f_write id off d (s, st) = Done (Some (Z.of_nat (length d)), x')
    ∧ api_holds x' id (splice c (Z.to_nat off) d).
Proof.
  intros (f & cs & Hf & Hs & Hg & Hc) Hb Ho He. cbn [fst snd] in *.
  pose proof (length_file_bytes s f cs Hs Hg) as Hlen. rewrite Hc, Hlen in He.
  destruct (file_write_any s f cs off d Hs Hg Hb Ho He) as (s' & Hw & Hws).
  destruct (file_good_writes _ _ _ _ _ Hg Hws) as [Hg' He'].
  exists (s', st). split; [by eapply with_file_done|]. exists f, cs. cbn [fst snd].
  split; [done|]. split; [by eapply writes_fs_ok|]. split; [done|]. rewrite He', Hc. unfold file_bytes.
  assert (chain_bytes s' cs = splice (chain_bytes s cs) (Z.to_nat off) d) as -> by apply Hws.
  unfold file_bytes in Hlen. rewrite length_take in Hlen. symmetry. apply take_splice_in; lia.
Qed.

Lemma api_grow s st id c n :
  api_holds (s, st) id c → api_may_grow (s, st) id n → Z.of_nat (length c) < n →
  ∃ x', f_truncate id n (s, st) = Done (Some tt, x')
    ∧ api_holds x' id (c ++ replicate (Z.to_nat n - length c) 0).
Proof.
  intros (f & cs & Hf & Hs & Hg & Hc) (f' & Hf' & Hn & Hfuel & Hfree) Hlt. cbn [fst snd] in *.
  assert (f' = f) as -> by congruence.
  pose proof (length_file_bytes s f cs Hs Hg) as Hlen. rewrite Hc, Hlen in Hlt.
  assert (grow_pre fuel s f cs n) as Hpre.
  { destruct Hg as [Hl Ha Hr Hcn Ho Hu Hfu]. split; try done; rewrite Hcn; done. }
  destruct (file_truncate_grow_ok fuel s f cs n Hs Hpre)
    as (s' & e' & Ht & Hsz & Hres & Hrf & Hb & Hoth & Huse & Hcnt & Hcs).
  set (all := grown_clusters s cs n) in *.
  set (f1 := {| file_entry := e'; file_name := file_name f; file_location := file_location f |}) in *.
  exists (s', <[id := f1]> st). split.
  { unfold f_truncate, fat_file_ops, api_truncate.
    by rewrite (kbind_done _ _ _ _ _ (with_file_done id f (λ f, file_truncate fuel f n) _ _ _ _ Hf Ht)). }
  exists f1, all. cbn [fst snd]. split; [apply lookup_insert_eq|]. split; [apply Hres|].
  change (file_location f1) with (file_location f). rewrite (rs_entry _ _ _ _ _ Hres), Hsz.
  destruct (grown_facts fuel s f cs n (proj1 Hs) Hpre) as (_ & _ & _ & _ & _ & _ & _ & Hallv & Hlc).
  fold all in Hallv, Hlc. split.
  - destruct Hrf as [Hl Ha (Hch & Hv & _) Ho Hfu]. rewrite (rs_entry _ _ _ _ _ Hres) in *.
    split; change (file_location f1) with (file_location f); rewrite ?(rs_entry _ _ _ _ _ Hres); try done.
    + by split; [right| |].
    + rewrite Hsz, Hcnt. unfold clusters_needed. by rewrite Hcs.
    + rewrite (Hoth _ Hlc). apply Hg.
  - rewrite Hb, Hc. do 2 f_equal. lia.
Qed.

#[export] Program Instance fat_file_spec : FileSpec mounted Z := {
  holds := api_holds;
  may_grow := api_may_grow;
}.
Next Obligation. intros [s st] f c. apply api_size. Qed.
Next Obligation. intros [s st] f c. apply api_read. Qed.
Next Obligation. intros [s st] f c off d. apply api_write. Qed.
Next Obligation. intros [s st] f c n. apply api_grow. Qed.
Next Obligation.
  intros [s st] f c r Hh. pose proof Hh as (_ & _ & _ & [_ Hp] & _). cbn [fst] in Hp. eexists.
  split; [reflexivity|]. cbn. apply api_holds_quiet; [intros t; apply free_disk|by apply free_healthy|done].
Qed.
Next Obligation. intros [s st] f c (g & cs & _ & _ & _ & Hc). rewrite Hc. apply Forall_take, bytes_chain_bytes. Qed.
End Api.

(** ** Witnesses: the descriptor theorems on the sample volume *)

Definition sample_mounted : mounted (P := RamDisk) := (sample_fs, {[ 1 := sample_handle ]}).

Lemma sample_good : file_good 3 sample_fs sample_handle [3; 4].
Proof.
  split; cbn [file_location sample_handle]; rewrite ?sample_entry.
  - exact (rf_location _ _ _ _ sample_regular).
  - done.
  - split; [right; exact sample_file_chain|repeat constructor; discriminate|repeat constructor; discriminate].
  - done.
  - exact (rf_outside _ _ _ _ sample_regular).
  - discriminate.
  - cbn. lia.
Qed.

(** The contents of the sample file. *)
Definition sample_contents : list Z := file_bytes sample_fs [3; 4] 600.

Lemma sample_holds : holds (FileSpec := fat_file_spec 3) sample_mounted 1 sample_contents.
Proof.
  exists sample_handle, [3; 4]. cbn [fst snd sample_mounted]. split; [apply lookup_singleton_eq|].
  split; [exact sample_fs_ok|]. split; [exact sample_good|].
  cbn [file_location sample_handle]. rewrite sample_entry. done.
Qed.

(** Descriptors 3 (writing at 510) and 4 (reading at 500) of the same file. *)
Definition sample_writer : OpenFile Z :=
  {| of_file := 1; of_offset := 510; of_readable := true; of_writable := true |}.
Definition sample_table : fd_table Z :=
  standard_fd_table ++
  [Some (FileFd sample_writer);
   Some (FileFd {| of_file := 1; of_offset := 500; of_readable := true; of_writable := false |})].

Lemma length_sample_contents : length sample_contents = 600%nat.
Proof. by vm_compute. Qed.

Lemma read_many_in_order_witness :
  ∃ chunks t' s', read_many (H := fat_file_ops 3) 4 [30; 0; 100] (sample_table, sample_mounted)
      = Done (Some chunks, (t', s'))
    ∧ concat chunks = take 130 (drop 500 sample_contents).
Proof.
  destruct (read_many_in_order (H0 := fat_file_spec 3) sample_table sample_mounted 4 1 500 [30; 0; 100] sample_contents)
    as (chunks & t' & s' & E & Hc & _).
  - exact sample_holds.
  - eexists. split; [reflexivity|]. repeat split.
  - lia.
  - repeat constructor; lia.
  - rewrite length_sample_contents. unfold usize_max. lia.
  - exists chunks, t', s'. split; [exact E | exact Hc].
Defined.

(** Two bytes past the end of the first cluster, seen from 500 on. *)
Lemma write_fd_read_back_witness :
  ∃ t' s' x, write_fd (H := fat_file_ops 3) 3 [7; 8; 9] (sample_table, sample_mounted)
      = Done (Some 3, (t', s'))
    ∧ read_fd (H := fat_file_ops 3) 4 20 (t', s')
      = Done (Some (take 20 (drop 500 (splice sample_contents 510 [7; 8; 9]))), x).
Proof.
  destruct (write_fd_read_back (H0 := fat_file_spec 3) sample_table sample_mounted 3 4 sample_writer [7; 8; 9]
    sample_contents 500 20) as (t' & s' & x & Hw & _ & Hr).
  - exact sample_holds.
  - reflexivity.
  - reflexivity.
  - cbn. lia.
  - cbn. unfold usize_max. lia.
  - repeat constructor; discriminate.
  - left. rewrite length_sample_contents. cbn. lia.
  - done.
  - eexists. split; [reflexivity|]. repeat split.
  - lia.
  - lia.
  - rewrite length_sample_contents. unfold usize_max. lia.
  - exists t', s', x. split; [exact Hw|].
    rewrite length_sample_contents in Hr. cbn [of_offset sample_writer length Z.to_nat] in Hr.
    change (Pos.to_nat 510 + 3 - 600)%nat with 0%nat in Hr. rewrite app_nil_r in Hr. exact Hr.
Defined.

Lemma standard_streams_invariant_witness :
  get_fd 0 (open_file 1 true true (standard_fd_table (F := Z))).2 = Some Stdin.
Proof.
  refine (proj1 (standard_streams_invariant (H := fat_file_ops 3) sample_mounted
    ((open_file 1 true true standard_fd_table).2, sample_mounted) _)).
  apply rtc_once. constructor.
Defined.

(** The root directory of the sample volume. *)
Definition sample_root : FATDirectory :=
  {| dir_entry := blank_entry (replicate 11 32) 0x10 0 2; dir_name := [114; 111; 111; 116] |}.

(** "/AAA.txt" and the root directory. *)
Lemma open_and_create_agree_witness :
  find_file_from_path (H := @fat_dir_ops RamDisk _ ascii_case 3) sample_root sample_root
    [47; 65; 65; 65; 46; 116; 120; 116] sample_mounted
  = find_file (H := @fat_dir_ops RamDisk _ ascii_case 3) sample_root [65; 65; 65; 46; 116; 120; 116] sample_mounted.
Proof. apply open_and_create_agree. reflexivity. Defined.
