(* ===== verification/Context.v ===== *)
(** * Context: saved registers and the code that switches them

    [FullInterruptStackFrame] of src/src/arch/x86_64/registers.rs, the
    [interrupt_trampoline!] macro of trampoline.rs and [jump] of
    src/src/scheduling/mod.rs.  The two assembly sequences are programs of a
    small machine: general registers, the interrupt stack (its top first) and,
    for [jump], the frame in memory that the register [ctx] points to. *)

From S2P Require Import Prelude.

Record FullInterruptStackFrame := {
  r8 : Z; r9 : Z; r10 : Z; r11 : Z; r12 : Z; r13 : Z; r14 : Z; r15 : Z;
  rbp : Z; rdi : Z; rsi : Z; rdx : Z; rcx : Z; rbx : Z; rax : Z;
  (** pushed by the CPU *)
  rip : Z; cs : Z; rflags : Z; rsp : Z; ss : Z;
}.

Definition empty : FullInterruptStackFrame :=
  {| r8 := 0; r9 := 0; r10 := 0; r11 := 0; r12 := 0; r13 := 0; r14 := 0; r15 := 0;
     rbp := 0; rdi := 0; rsi := 0; rdx := 0; rcx := 0; rbx := 0; rax := 0;
     rip := 0; cs := 0; rflags := 0; rsp := 0; ss := 0 |}.

(** [#[repr(C)]]: the words of a frame, from its address up. *)
Definition frame_words (c : FullInterruptStackFrame) : list Z :=
  [r8 c; r9 c; r10 c; r11 c; r12 c; r13 c; r14 c; r15 c;
   rbp c; rdi c; rsi c; rdx c; rcx c; rbx c; rax c; rip c; cs c; rflags c; rsp c; ss c].

Definition frame_of_words (l : list Z) : FullInterruptStackFrame :=
  let w := λ i, nth i l 0 in
  {| r8 := w 0%nat; r9 := w 1%nat; r10 := w 2%nat; r11 := w 3%nat;
     r12 := w 4%nat; r13 := w 5%nat; r14 := w 6%nat; r15 := w 7%nat;
     rbp := w 8%nat; rdi := w 9%nat; rsi := w 10%nat; rdx := w 11%nat;
     rcx := w 12%nat; rbx := w 13%nat; rax := w 14%nat;
     rip := w 15%nat; cs := w 16%nat; rflags := w 17%nat; rsp := w 18%nat; ss := w 19%nat |}.

(** Assignments to fields of a frame. *)
Definition set_word (i : nat) (v : Z) (c : FullInterruptStackFrame) : FullInterruptStackFrame :=
  frame_of_words (<[i := v]> (frame_words c)).
Definition set_rax (v : Z) (c : FullInterruptStackFrame) : FullInterruptStackFrame := set_word 14 v c.

(** ** The machine *)

Inductive reg := R8 | R9 | R10 | R11 | R12 | R13 | R14 | R15 | RBP | RDI | RSI | RDX | RCX | RBX | RAX.

(** The place of a general register in a frame. *)
Definition reg_index (r : reg) : nat :=
  match r with
  | R8 => 0 | R9 => 1 | R10 => 2 | R11 => 3 | R12 => 4 | R13 => 5 | R14 => 6 | R15 => 7
  | RBP => 8 | RDI => 9 | RSI => 10 | RDX => 11 | RCX => 12 | RBX => 13 | RAX => 14
  end.

(** The registers are kept as a frame too; [rsp] in it is the stack pointer of
    the interrupted code, the interrupt stack is [m_stack]. *)
Record machine := {
  m_regs : FullInterruptStackFrame;
  m_stack : list Z;
}.

Definition set_reg (r : reg) (v : Z) (m : machine) : machine :=
  {| m_regs := set_word (reg_index r) v (m_regs m); m_stack := m_stack m |}.
Definition get_reg (r : reg) (m : machine) : Z := nth (reg_index r) (frame_words (m_regs m)) 0.
Definition push (v : Z) (m : machine) : machine := {| m_regs := m_regs m; m_stack := v :: m_stack m |}.

Inductive instr :=
| Cli
| Sti
| Push (r : reg)
| PushVal (v : Z)      (* an operand the compiler put into a register *)
| PushCtx (offset : nat)  (* [push [{ctx} + offset]] *)
| Pop (r : reg)
| MovRdiRsp
| CallIsr
| Iretq.

Definition IF_BIT : Z := 9.
Definition set_rflags (f : Z → Z) (m : machine) : machine :=
  {| m_regs := set_word 17 (f (rflags (m_regs m))) (m_regs m); m_stack := m_stack m |}.

Section Machine.
(** The frame [ctx] points to, the address of the interrupt stack's top, and the
    handler: it may change the frame in place, and it leaves the general
    registers at any values. *)
Context (ctx : FullInterruptStackFrame) (top : Z).
Context (isr : FullInterruptStackFrame → FullInterruptStackFrame * FullInterruptStackFrame).

Definition exec1 (i : instr) (m : machine) : option machine :=
  match i with
  | Cli => Some (set_rflags (λ f, Z.clearbit f IF_BIT) m)
  | Sti => Some (set_rflags (λ f, Z.setbit f IF_BIT) m)
  | Push r => Some (push (get_reg r m) m)
  | PushVal v => Some (push v m)
  | PushCtx offset => w ← frame_words ctx !! (offset / 8)%nat; Some (push w m)
  | Pop r =>
      match m_stack m with
      | v :: st => Some (set_reg r v {| m_regs := m_regs m; m_stack := st |})
      | [] => None
      end
  | MovRdiRsp => Some (set_reg RDI top m)
  | CallIsr =>
      if (length (m_stack m) <? 20)%nat then None
      else
        let '(frame, clobbered) := isr (frame_of_words (m_stack m)) in
        Some {| m_regs := clobbered; m_stack := frame_words frame ++ drop 20 (m_stack m) |}
  | Iretq =>
      match m_stack m with
      | ip :: c :: f :: sp :: s :: st =>
          Some {| m_regs := frame_of_words (take 15 (frame_words (m_regs m)) ++ [ip; c; f; sp; s]);
                  m_stack := st |}
      | _ => None
      end
  end.

Fixpoint exec (code : list instr) (m : machine) : option machine :=
  match code with
  | [] => Some m
  | i :: code => m ← exec1 i m; exec code m
  end.

(** What the CPU does when an interrupt is taken on an empty interrupt stack. *)
Definition take_interrupt (regs : FullInterruptStackFrame) : machine :=
  {| m_regs := regs; m_stack := [rip regs; cs regs; rflags regs; rsp regs; ss regs] |}.

Definition interrupt_trampoline : list instr :=
  [Cli;
   Push RAX; Push RBX; Push RCX; Push RDX; Push RSI; Push RDI; Push RBP;
   Push R15; Push R14; Push R13; Push R12; Push R11; Push R10; Push R9; Push R8;
   MovRdiRsp; CallIsr; Sti;
   Pop R8; Pop R9; Pop R10; Pop R11; Pop R12; Pop R13; Pop R14; Pop R15;
   Pop RBP; Pop RDI; Pop RSI; Pop RDX; Pop RCX; Pop RBX; Pop RAX;
   Iretq].

(** [jump]: the last five fields are operands, the rest is read from memory. *)
Definition jump : list instr :=
  [PushVal (ss ctx); PushVal (rsp ctx); PushVal (rflags ctx); PushVal (cs ctx); PushVal (rip ctx);
   PushCtx 0x00; PushCtx 0x08; PushCtx 0x10; PushCtx 0x18; PushCtx 0x20; PushCtx 0x28;
   PushCtx 0x30; PushCtx 0x38; PushCtx 0x40; PushCtx 0x48; PushCtx 0x50; PushCtx 0x58;
   PushCtx 0x60; PushCtx 0x68; PushCtx 0x70;
   Pop RAX; Pop RBX; Pop RCX; Pop RDX; Pop RSI; Pop RDI; Pop RBP;
   Pop R15; Pop R14; Pop R13; Pop R12; Pop R11; Pop R10; Pop R9; Pop R8;
   Iretq].
End Machine.

(** ** Lemmas *)

Lemma frame_of_words_eta c : frame_of_words (frame_words c) = c.
Proof. by destruct c. Qed.

Lemma rax_set_rax v c : rax (set_rax v c) = v.
Proof. by destruct c. Qed.

Lemma set_rax_idem v w c : set_rax v (set_rax w c) = set_rax v c.
Proof. by destruct c. Qed.

Lemma exec_app ctx top isr a b m :
  exec ctx top isr (a ++ b) m = exec ctx top isr a m ≫= exec ctx top isr b.
Proof. revert m. induction a as [|i a IH]; intros m; cbn; [done|]. destruct (exec1 _ _ _ i m); cbn; auto. Qed.

(** Popping a frame off the stack and [iretq] load all of it. *)
Lemma exec_pops ctx top isr c regs st :
  exec ctx top isr (drop 19 interrupt_trampoline) {| m_regs := regs; m_stack := frame_words c ++ st |}
  = Some {| m_regs := c; m_stack := st |}.
Proof. destruct c, regs. vm_compute. reflexivity. Qed.

(** The pushes build a frame of the interrupted registers. *)
Lemma exec_pushes ctx top isr regs :
  ∃ r, exec ctx top isr (take 17 interrupt_trampoline) (take_interrupt regs)
       = Some {| m_regs := r; m_stack := frame_words regs |}.
Proof. destruct regs. eexists. vm_compute. reflexivity. Qed.

(** ** Claims *)

(** [jump] leaves the machine with exactly the registers of the context it
    is given - the general registers, instruction pointer, selectors, flags and
    stack pointer - and an empty interrupt stack, whatever was in the registers
    before. *)
Theorem jump_restores_context ctx top isr regs :
  exec ctx top isr (jump ctx) {| m_regs := regs; m_stack := [] |}
  = Some {| m_regs := ctx; m_stack := [] |}.
Proof. destruct ctx, regs. vm_compute. reflexivity. Qed.

(** The interrupt trampoline hands the handler a frame that holds exactly
    the registers of the interrupted code, and when the handler returns, the
    interrupted code goes on with exactly the registers the handler left in that
    frame, whatever the handler did to the registers themselves. *)
Theorem trampoline_faithful ctx top isr regs :
  exec ctx top isr interrupt_trampoline (take_interrupt regs)
  = Some {| m_regs := (isr regs).1; m_stack := [] |}.
Proof.
  rewrite <- (take_drop 17 interrupt_trampoline), exec_app.
  destruct (exec_pushes ctx top isr regs) as [r ->]. cbn [mbind option_bind].
  change (drop 17 interrupt_trampoline) with (CallIsr :: Sti :: drop 19 interrupt_trampoline).
  cbn [exec exec1 m_stack length frame_words Nat.ltb Nat.leb mbind option_bind].
  rewrite frame_of_words_eta. destruct (isr regs) as [c cl]. cbn [fst mbind option_bind set_rflags].
  apply exec_pops.
Qed.
