(* ===== verification/Sched.v ===== *)
(** * Sched: processes and the scheduler (src/src/scheduling/mod.rs)

    The statics of the module are the record [kernel]: the process list, the
    index of the current process, the pid counter, the scheduling flag, the
    clocks and the memory subsystem.  Directories, files, ELF regions, stacks and
    page tables are handles of types [D], [F], [G], [K], [T]; what the scheduler
    asks of the memory subsystem is the class [ProcMemory].  [schedule] never
    returns to its caller: it jumps to a process or idles, which is its result
    here ([dispatch]).

    [step] is the machine as user code sees it: interrupts and system calls
    between dispatches.  Interrupts are off in handlers, so steps do not
    interleave.  [Index + 1] on indices into the process list cannot overflow. *)

From S2P Require Import Prelude Text Context Time BlockDev Descriptors Paths.

(** ** Data *)

Section Data.
Context {D F G K T : Type}.

Record Process := {
  pid : Z;
  pre_schedule : bool;
  blocking : bool;
  awaiting_process : option Z;
  sleep_until_tick : option Z;
  context : FullInterruptStackFrame;
  start_region : G;
  curr_working_dir : D;
  stack : K;
  ring3_page_table : option T;
  proc_fds : fd_table F;
}.

Record ProcessEntry := {
  entry : Z;
  entry_start_region : G;
  entry_page_table : option T;
  entry_stack : option K;
  initial_rsp : Z;
}.
End Data.
Arguments Process : clear implicits.
Arguments ProcessEntry : clear implicits.

Class ProcMemory (M G K T : Type) := {
  (** [GLOBAL_MEMORY_CONTROLLER] is set *)
  mem_ready : M → bool;
  (** [MemoryController::switch_table] *)
  switch_table : T → kst M (option unit);
  (** [elf::unmap] *)
  elf_unmap : G → kst M unit;
  (** [MemoryController::free_stack] *)
  free_stack : K → kst M unit;
  (** [PageTable::free_user_subtables] *)
  free_user_subtables : T → kst M unit;
  (** [slot_allocator.free(page_table.addr)] *)
  slot_free : T → kst M unit;
}.

Inductive dispatch :=
| Jump (c : FullInterruptStackFrame)
| Idle.

Section Sched.
Context {M D F G K T : Type} `{ProcMemory M G K T}.
(** The root directory and the selectors of the user segments in the GDT. *)
Context (root : D) (user_code user_data : Z).

Abbreviation process := (Process D F G K T).
Implicit Types p : process.

Record kernel := {
  PROCESSES : list process;
  CURRENT_INDEX : nat;
  PID_COUNTER : Z;
  SCHEDULING_ENABLED : bool;
  CLOCKS : clocks;
  MEM : M;
}.
Implicit Types k : kernel.

Definition set_processes (ps : list process) k : kernel :=
  {| PROCESSES := ps; CURRENT_INDEX := CURRENT_INDEX k; PID_COUNTER := PID_COUNTER k;
     SCHEDULING_ENABLED := SCHEDULING_ENABLED k; CLOCKS := CLOCKS k; MEM := MEM k |}.
Definition set_index (i : nat) k : kernel :=
  {| PROCESSES := PROCESSES k; CURRENT_INDEX := i; PID_COUNTER := PID_COUNTER k;
     SCHEDULING_ENABLED := SCHEDULING_ENABLED k; CLOCKS := CLOCKS k; MEM := MEM k |}.
Definition set_counter (c : Z) k : kernel :=
  {| PROCESSES := PROCESSES k; CURRENT_INDEX := CURRENT_INDEX k; PID_COUNTER := c;
     SCHEDULING_ENABLED := SCHEDULING_ENABLED k; CLOCKS := CLOCKS k; MEM := MEM k |}.
Definition set_clocks (c : clocks) k : kernel :=
  {| PROCESSES := PROCESSES k; CURRENT_INDEX := CURRENT_INDEX k; PID_COUNTER := PID_COUNTER k;
     SCHEDULING_ENABLED := SCHEDULING_ENABLED k; CLOCKS := c; MEM := MEM k |}.
Definition set_mem (m : M) k : kernel :=
  {| PROCESSES := PROCESSES k; CURRENT_INDEX := CURRENT_INDEX k; PID_COUNTER := PID_COUNTER k;
     SCHEDULING_ENABLED := SCHEDULING_ENABLED k; CLOCKS := CLOCKS k; MEM := m |}.
Definition enable : kst kernel unit := kmodify (λ k,
  {| PROCESSES := PROCESSES k; CURRENT_INDEX := CURRENT_INDEX k; PID_COUNTER := PID_COUNTER k;
     SCHEDULING_ENABLED := true; CLOCKS := CLOCKS k; MEM := MEM k |}).

Definition in_mem {A} (m : kst M A) : kst kernel A := zoom MEM set_mem m.

(** Field updates of a process. *)
Definition set_context (c : FullInterruptStackFrame) p : process :=
  {| pid := pid p; pre_schedule := pre_schedule p; blocking := blocking p;
     awaiting_process := awaiting_process p; sleep_until_tick := sleep_until_tick p; context := c;
     start_region := start_region p; curr_working_dir := curr_working_dir p; stack := stack p;
     ring3_page_table := ring3_page_table p; proc_fds := proc_fds p |}.
Definition set_blocking (b : bool) p : process :=
  {| pid := pid p; pre_schedule := pre_schedule p; blocking := b;
     awaiting_process := awaiting_process p; sleep_until_tick := sleep_until_tick p; context := context p;
     start_region := start_region p; curr_working_dir := curr_working_dir p; stack := stack p;
     ring3_page_table := ring3_page_table p; proc_fds := proc_fds p |}.
Definition set_awaiting (w : option Z) p : process :=
  {| pid := pid p; pre_schedule := pre_schedule p; blocking := blocking p;
     awaiting_process := w; sleep_until_tick := sleep_until_tick p; context := context p;
     start_region := start_region p; curr_working_dir := curr_working_dir p; stack := stack p;
     ring3_page_table := ring3_page_table p; proc_fds := proc_fds p |}.
Definition set_sleep (t : option Z) p : process :=
  {| pid := pid p; pre_schedule := pre_schedule p; blocking := blocking p;
     awaiting_process := awaiting_process p; sleep_until_tick := t; context := context p;
     start_region := start_region p; curr_working_dir := curr_working_dir p; stack := stack p;
     ring3_page_table := ring3_page_table p; proc_fds := proc_fds p |}.
Definition set_cwd (d : D) p : process :=
  {| pid := pid p; pre_schedule := pre_schedule p; blocking := blocking p;
     awaiting_process := awaiting_process p; sleep_until_tick := sleep_until_tick p; context := context p;
     start_region := start_region p; curr_working_dir := d; stack := stack p;
     ring3_page_table := ring3_page_table p; proc_fds := proc_fds p |}.
Definition set_fds (t : fd_table F) p : process :=
  {| pid := pid p; pre_schedule := pre_schedule p; blocking := blocking p;
     awaiting_process := awaiting_process p; sleep_until_tick := sleep_until_tick p; context := context p;
     start_region := start_region p; curr_working_dir := curr_working_dir p; stack := stack p;
     ring3_page_table := ring3_page_table p; proc_fds := t |}.
(** [pre_schedule = false; awaiting_process = None; sleep_until_tick = None]. *)
Definition clear_waits p : process :=
  {| pid := pid p; pre_schedule := false; blocking := blocking p;
     awaiting_process := None; sleep_until_tick := None; context := context p;
     start_region := start_region p; curr_working_dir := curr_working_dir p; stack := stack p;
     ring3_page_table := ring3_page_table p; proc_fds := proc_fds p |}.

(** ** Choosing a process *)

Definition set_process (i : nat) p : kst kernel unit :=
  kmodify (λ k, set_processes (<[i := p]> (PROCESSES k)) k).

(** The first part of [next_process]: saving the interrupted context. *)
Definition save_context (interrupt_stack : option FullInterruptStackFrame) : kst kernel unit :=
  match interrupt_stack with
  | None => kret tt
  | Some frame =>
      let* k := kget in
      match PROCESSES k !! CURRENT_INDEX k with
      | Some current =>
          let* _m := uadd (pid current) 1 in
          if negb (pre_schedule current) && (0x1FFFFF <? rip frame)
          then set_process (CURRENT_INDEX k) (set_context frame current)
          else kret tt
      | None => kret tt
      end
  end.

(** [new_current_ready] at the end of the tests of the loop. *)
Definition is_ready (ticks : Z) (ps : list process) p : bool :=
  let ready := negb (blocking p) in
  let ready :=
    match awaiting_process p with
    | Some subprocess_pid => negb (existsb (λ q, pid q =? subprocess_pid) ps)
    | None => ready
    end in
  match sleep_until_tick p with
  | Some deadline => if ticks <? deadline then false else ready
  | None => ready
  end.

(** One pass of the loop over the processes; its variables are the index and the
    number of passes. *)
Definition next_pass (x : nat * nat) : kst kernel ((nat * nat) + option process) :=
  let* k := kget in
  let len := length (PROCESSES k) in
  let current_index := if (len <=? x.1 + 1)%nat then 0%nat else (x.1 + 1)%nat in
  let* process := or_panic (PROCESSES k !! current_index) in
  if is_ready (TICKS (CLOCKS k)) (PROCESSES k) process then
    kmodify (set_index current_index) ;;*
    set_process current_index (clear_waits process) ;;*
    kret (inr (Some (clear_waits process)))
  else if (len <=? x.2 + 1)%nat then kret (inr None)
  else kret (inl (current_index, (x.2 + 1)%nat)).

Definition next_process (interrupt_stack : option FullInterruptStackFrame) : kst kernel (option process) :=
  let* k := kget in
  if (length (PROCESSES k) =? 0)%nat then kret None
  else
    save_context interrupt_stack ;;*
    loopM (length (PROCESSES k)) next_pass (CURRENT_INDEX k, 0%nat).

Definition schedule (interrupt_stack : option FullInterruptStackFrame) : kst kernel dispatch :=
  let* chosen := next_process interrupt_stack in
  match chosen with
  | None => kret Idle
  | Some p =>
      let* ready := kgets (λ k, mem_ready (MEM k)) in
      if negb ready then kret Idle
      else
        match ring3_page_table p with
        | None => kret Idle
        | Some table =>
            let* r := in_mem (switch_table table) in
            match r with None => kret Idle | Some _ => kret (Jump (context p)) end
        end
  end.

(** ** Creating processes *)

Definition process_from (e : ProcessEntry G K T) (new_pid : Z) (cwd : D) : option process :=
  match entry_stack e with
  | None => None
  | Some st =>
      match entry_page_table e with
      | None => None
      | Some _ =>
          Some {| pid := new_pid; pre_schedule := true; blocking := false;
                  awaiting_process := None; sleep_until_tick := None;
                  context := set_word 18 (initial_rsp e) (set_word 15 (entry e) empty);
                  start_region := entry_start_region e; curr_working_dir := cwd; stack := st;
                  ring3_page_table := entry_page_table e; proc_fds := standard_fd_table |}
      end
  end.

(** [context.cs = ...; context.ss = ...; context.rflags = 0x202]. *)
Definition user_segments (c : FullInterruptStackFrame) : FullInterruptStackFrame :=
  set_word 17 0x202 (set_word 19 user_data (set_word 16 user_code c)).

(** The state a forked process takes over; [inr] when the current index is out
    of bounds. *)
Definition parent_state (fork_current : bool) k : option (D * fd_table F) + unit :=
  if fork_current && negb (length (PROCESSES k) =? 0)%nat then
    match PROCESSES k !! CURRENT_INDEX k with
    | None => inr tt
    | Some current => inl (Some (curr_working_dir current, proc_fds current))
    end
  else inl None.

Definition deploy (e : ProcessEntry G K T) (fork_current : bool) : kst kernel Z :=
  let* new_pid := kgets PID_COUNTER in
  let* next := uadd new_pid 1 in
  kmodify (set_counter next) ;;*
  let* k := kget in
  match parent_state fork_current k with
  | inr _ => kret 0
  | inl parent =>
      let cwd := match parent with Some (cwd, _) => cwd | None => root end in
      match process_from e new_pid cwd with
      | None => kret 0
      | Some p =>
          let p := match parent with Some (_, fds) => set_fds fds p | None => p end in
          let p := set_context (user_segments (context p)) p in
          kmodify (set_processes (PROCESSES k ++ [p])) ;;*
          kret new_pid
      end
  end.

(** ** The current process *)

(** The common shape of the functions that return on an empty list and then
    index it. *)
Definition update_current (f : process → process) : kst kernel unit :=
  let* k := kget in
  if (length (PROCESSES k) =? 0)%nat then kret tt
  else
    let* current := or_panic (PROCESSES k !! CURRENT_INDEX k) in
    set_process (CURRENT_INDEX k) (f current).

Definition block_current : kst kernel unit := update_current (set_blocking true).
Definition sleep_current_until (deadline_tick : Z) : kst kernel unit :=
  update_current (set_sleep (Some deadline_tick)).
Definition change_cwd (cwd : D) : kst kernel unit := update_current (set_cwd cwd).

(** [input as usize] of a [char]. *)
Definition wake (input : Z) p : process :=
  if negb (blocking p) then p else set_blocking false (set_context (set_rax input (context p)) p).
Definition process_input (input : Z) : kst kernel unit :=
  kmodify (λ k, set_processes (wake input <$> PROCESSES k) k).

Definition current_wait_for_process (subprocess : Z) : kst kernel unit :=
  let* k := kget in
  match PROCESSES k !! CURRENT_INDEX k with
  | None => kret tt
  | Some current => set_process (CURRENT_INDEX k) (set_awaiting (Some subprocess) current)
  end.

Definition exit_current : kst kernel unit :=
  let* k := kget in
  match PROCESSES k !! CURRENT_INDEX k with
  | None => kret tt
  | Some removed =>
      kmodify (set_processes (delete (CURRENT_INDEX k) (PROCESSES k))) ;;*
      in_mem (elf_unmap (start_region removed)) ;;*
      let* ready := kgets (λ k, mem_ready (MEM k)) in
      (if ready then
         in_mem (free_stack (stack removed)) ;;*
         match ring3_page_table removed with
         | Some page_table =>
             in_mem (free_user_subtables page_table) ;;* in_mem (slot_free page_table)
         | None => kret tt
         end
       else kret tt) ;;*
      kmodify (set_index (if (CURRENT_INDEX k =? 0)%nat then 0%nat else (CURRENT_INDEX k - 1)%nat))
  end.

Definition get_current_cwd : kst kernel D :=
  let* k := kget in
  if (length (PROCESSES k) =? 0)%nat then kret root
  else let* current := or_panic (PROCESSES k !! CURRENT_INDEX k) in kret (curr_working_dir current).

Definition get_current_process_page_table : kst kernel (option T) :=
  kgets (λ k, PROCESSES k !! CURRENT_INDEX k ≫= ring3_page_table).

Definition get_current_file_descriptor (fd : nat) : kst kernel (option (FileDescriptor F)) :=
  kgets (λ k, PROCESSES k !! CURRENT_INDEX k ≫= λ p, get_fd fd (proc_fds p)).

(** ** The timer interrupt *)

(** [input] is the character the serial port has received, if any. *)
Definition timer_isr (frame : FullInterruptStackFrame) (input : option Z) : kst kernel (option dispatch) :=
  zoom CLOCKS set_clocks tick ;;*
  let* sched_enabled := kgets SCHEDULING_ENABLED in
  if sched_enabled then
    match input with Some c => process_input c | None => kret tt end ;;*
    let* d := schedule (Some frame) in
    kret (Some d)
  else kret None.
End Sched.
Arguments kernel : clear implicits.

(** ** What the scheduler chooses

    [after n i m] is the index [m + 1] places after [i] in the cycle of [n]
    processes. *)

Definition after (n i m : nat) : nat := if (i + 1 + m <? n)%nat then (i + 1 + m)%nat else (i + 1 + m - n)%nat.

Lemma after_lt n i m : (i < n)%nat → (m < n)%nat → (after n i m < n)%nat.
Proof. unfold after. destruct (Nat.ltb_spec (i + 1 + m) n); lia. Qed.

Lemma after_step n i m : (i < n)%nat → (S m < n)%nat → after n (after n i 0) m = after n i (S m).
Proof. intros. unfold after. repeat case_match; bool_to_prop; repeat match goal with H : (_ <? _)%nat = _ |- _ => first [apply Nat.ltb_lt in H | apply Nat.ltb_ge in H] end; lia. Qed.

(** The number of passes from [i] to [t]. *)
Definition distance (n i t : nat) : nat := if (i <? t)%nat then (t - i - 1)%nat else (n + t - i - 1)%nat.

Lemma after_distance n i t : (i < n)%nat → (t < n)%nat → after n i (distance n i t) = t ∧ (distance n i t < n)%nat.
Proof.
  intros. unfold after, distance. destruct (Nat.ltb_spec i t);
    match goal with |- context [(?a <? n)%nat] => destruct (Nat.ltb_spec a n) end; lia.
Qed.

Lemma distance_after n i t m :
  (i < n)%nat → (t < n)%nat → (m < distance n i t)%nat →
  distance n (after n i m) t = (distance n i t - m - 1)%nat.
Proof.
  intros Hi Ht. unfold after, distance. destruct (Nat.ltb_spec i t);
    destruct (Nat.ltb_spec (i + 1 + m) n);
    match goal with |- context [(?a <? t)%nat] => destruct (Nat.ltb_spec a t) end; lia.
Qed.

Section Choice.
Context {M D F G K T : Type} `{ProcMemory M G K T}.
Context (root : D) (user_code user_data : Z).
Abbreviation process := (Process D F G K T).
Abbreviation state := (kernel M D F G K T).
Implicit Types (k : state) (p q : process) (frame : FullInterruptStackFrame).

(** The state [next_process] searches: the interrupted context is saved. *)
Definition saved (interrupt_stack : option FullInterruptStackFrame) k : state :=
  match interrupt_stack, PROCESSES k !! CURRENT_INDEX k with
  | Some frame, Some current =>
      if negb (pre_schedule current) && (0x1FFFFF <? rip frame)
      then set_processes (<[CURRENT_INDEX k := set_context frame current]> (PROCESSES k)) k
      else k
  | _, _ => k
  end.

Definition ready_at k (i : nat) : bool :=
  match PROCESSES k !! i with
  | Some p => is_ready (TICKS (CLOCKS k)) (PROCESSES k) p
  | None => false
  end.

Definition choose k (i : nat) p : state := set_processes (<[i := clear_waits p]> (PROCESSES k)) (set_index i k).

(** Round robin: the first ready process after index [i] within [d] passes. *)
Definition picks k (i d : nat) (r : option process) k' : Prop :=
  let n := length (PROCESSES k) in
  match r with
  | None => k' = k ∧ ∀ m, (m < d)%nat → ready_at k (after n i m) = false
  | Some p => ∃ m q,
      (m < d)%nat ∧ (∀ m', (m' < m)%nat → ready_at k (after n i m') = false)
      ∧ PROCESSES k !! after n i m = Some q ∧ ready_at k (after n i m) = true
      ∧ p = clear_waits q ∧ k' = choose k (after n i m) q
  end.

Lemma next_index n i : (i < n)%nat → (if (n <=? i + 1)%nat then 0%nat else (i + 1)%nat) = after n i 0.
Proof. intros. unfold after. destruct (Nat.leb_spec n (i + 1)), (Nat.ltb_spec (i + 1 + 0) n); lia. Qed.

Lemma next_loop d j i k :
  (j + d = length (PROCESSES k))%nat → (0 < d)%nat → (i < length (PROCESSES k))%nat →
  ∃ r k', loopM d next_pass (i, j) k = Done (r, k') ∧ picks k i d r k'.
Proof.
  revert j i. induction d as [|d IH]; intros j i Hd H0 Hi; [lia|].
  set (n := length (PROCESSES k)) in *.
  assert (Hlt : (after n i 0 < n)%nat) by (apply after_lt; lia).
  destruct (lookup_lt_is_Some_2 (PROCESSES k) (after n i 0) Hlt) as [q Hq].
  cbn [loopM]. unfold next_pass at 1. kunfold. cbn [fst snd].
  fold n. rewrite (next_index n i Hi), Hq. unfold kret. cbn beta iota.
  destruct (is_ready (TICKS (CLOCKS k)) (PROCESSES k) q) eqn:Hr.
  - eexists _, _. split; [reflexivity|]. exists 0%nat, q. unfold ready_at. fold n. rewrite Hq.
    repeat split; auto; lia.
  - assert (Hr0 : ready_at k (after n i 0) = false) by (unfold ready_at; rewrite Hq; done).
    destruct (Nat.leb_spec n (j + 1)).
    + eexists _, _. split; [reflexivity|]. split; [done|]. intros m ?. by replace m with 0%nat by lia.
    + destruct (IH (j + 1)%nat (after n i 0)) as (r & k' & E & P); [lia..|].
      exists r, k'. split; [exact E|]. unfold picks in *. fold n in P. fold n. destruct r as [p|].
      * destruct P as (m & q' & Hm & Hno & Hq' & Hr' & -> & ->).
        rewrite after_step in Hq', Hr' by lia. exists (S m), q'.
        rewrite after_step by lia. split_and!; auto; [lia|].
        intros [|m'] ?; [done|]. rewrite <- after_step by lia. apply Hno. lia.
      * destruct P as [-> P]. split; [done|]. intros [|m] ?; [done|]. rewrite <- after_step by lia. apply P. lia.
Qed.

Lemma save_context_ok stk k :
  (∀ p, PROCESSES k !! CURRENT_INDEX k = Some p → pid p < usize_max) →
  save_context stk k = Done (tt, saved stk k).
Proof.
  intros Hpid. unfold save_context, saved. destruct stk as [frame|]; [|done]. kunfold.
  destruct (PROCESSES k !! CURRENT_INDEX k) as [p|] eqn:E; [|done].
  unfold uadd, checked_add, or_panic. pose proof (Hpid p eq_refl).
  destruct (Z.leb_spec (pid p + 1) usize_max); [|lia]. unfold kret. by destruct (_ && _).
Qed.

Lemma saved_length stk k : length (PROCESSES (saved stk k)) = length (PROCESSES k).
Proof. unfold saved. repeat case_match; try done. cbn. apply length_insert. Qed.

Lemma saved_index stk k : CURRENT_INDEX (saved stk k) = CURRENT_INDEX k.
Proof. unfold saved. by repeat case_match. Qed.

Lemma next_process_ok stk k :
  (CURRENT_INDEX k < length (PROCESSES k))%nat →
  (∀ p, PROCESSES k !! CURRENT_INDEX k = Some p → pid p < usize_max) →
  ∃ r k', next_process stk k = Done (r, k')
    ∧ picks (saved stk k) (CURRENT_INDEX k) (length (PROCESSES k)) r k'.
Proof.
  intros Hi Hp. unfold next_process. kunfold.
  destruct (Nat.eqb_spec (length (PROCESSES k)) 0); [lia|].
  rewrite save_context_ok by done.
  apply next_loop; rewrite ?saved_length; lia.
Qed.

Lemma next_process_empty stk k : PROCESSES k = [] → next_process stk k = Done (None, k).
Proof. intros E. unfold next_process. kunfold. by rewrite E. Qed.
End Choice.

(** ** System calls that give up the CPU

    (src/src/syscall/exit.rs, yld.rs, wait_for_process.rs, the standard input
    branch of read.rs and the end of nanosleep.rs). *)

Section Calls.
Context {M D F G K T : Type} `{ProcMemory M G K T}.
Abbreviation state := (kernel M D F G K T).

Definition exit : kst state dispatch := exit_current ;;* schedule None.
Definition yld (frame : FullInterruptStackFrame) : kst state dispatch := schedule (Some frame).
Definition wait_for_process (frame : FullInterruptStackFrame) : kst state dispatch :=
  current_wait_for_process (rdi frame) ;;* schedule (Some frame).
Definition read_stdin (frame : FullInterruptStackFrame) : kst state dispatch :=
  block_current ;;* schedule (Some frame).
Definition sleep_until (frame : FullInterruptStackFrame) (deadline : Z) : kst state dispatch :=
  sleep_current_until deadline ;;* schedule (Some (set_rax 1 frame)).

End Calls.

(** ** The machine: interrupts and system calls

    A state is the kernel's state and the pid of the process whose code runs,
    [None] while the kernel idles or boots.  User code is linked above the first
    2 MiB, kernel code lies below: this is the assumption [next_process] makes
    about the instruction pointer it tests. *)

Section Machine.
Context {M D F G K T : Type} `{ProcMemory M G K T}.
Context (root : D) (user_code user_data : Z).
Abbreviation process := (Process D F G K T).
Abbreviation state := (kernel M D F G K T).
Implicit Types (k : state) (p q : process) (frame : FullInterruptStackFrame).

Definition current k : option process := PROCESSES k !! CURRENT_INDEX k.

(** Who runs after a dispatch. *)
Definition running k (d : dispatch) : option Z :=
  match d with Jump _ => pid <$> current k | Idle => None end.

Definition frame_of (r : option Z) frame : Prop :=
  match r with Some _ => 0x1FFFFF < rip frame | None => rip frame ≤ 0x1FFFFF end.

Inductive step : state * option Z → option dispatch → state * option Z → Prop :=
| step_timer k r frame input d k' :
    frame_of r frame → timer_isr frame input k = Done (Some d, k') →
    step (k, r) (Some d) (k', running k' d)
| step_timer_off k r frame input k' :
    frame_of r frame → timer_isr frame input k = Done (None, k') → step (k, r) None (k', r)
| step_exit k a d k' : exit k = Done (d, k') → step (k, Some a) (Some d) (k', running k' d)
| step_yield k a frame d k' :
    frame_of (Some a) frame → yld frame k = Done (d, k') →
    step (k, Some a) (Some d) (k', running k' d)
| step_wait k a frame d k' :
    frame_of (Some a) frame → wait_for_process frame k = Done (d, k') →
    step (k, Some a) (Some d) (k', running k' d)
| step_read k a frame d k' :
    frame_of (Some a) frame → read_stdin frame k = Done (d, k') →
    step (k, Some a) (Some d) (k', running k' d)
| step_sleep k a frame deadline d k' :
    frame_of (Some a) frame → sleep_until frame deadline k = Done (d, k') →
    step (k, Some a) (Some d) (k', running k' d)
| step_deploy k r e fork_current a k' :
    deploy root user_code user_data e fork_current k = Done (a, k') → step (k, r) None (k', r)
| step_cd k r d k' : change_cwd d k = Done (tt, k') → step (k, r) None (k', r)
| step_fds k r t k' : update_current (set_fds t) k = Done (tt, k') → step (k, r) None (k', r)
| step_enable k r k' : enable k = Done (tt, k') → step (k, r) None (k', r)
| step_mem k r m : step (k, r) None (set_mem m k, r).

Definition initial (c : clocks) (m : M) : state :=
  {| PROCESSES := []; CURRENT_INDEX := 0; PID_COUNTER := 0; SCHEDULING_ENABLED := false;
     CLOCKS := c; MEM := m |}.

Inductive reachable : state * option Z → Prop :=
| reach_boot c m : reachable (initial c m, None)
| reach_step s l s' : reachable s → step s l s' → reachable s'.

(** The invariant. *)
Record wf k : Prop := {
  wf_nodup : NoDup (pid <$> PROCESSES k);
  wf_pids : Forall (λ p, 0 ≤ pid p < PID_COUNTER k) (PROCESSES k);
  wf_counter : 0 ≤ PID_COUNTER k ≤ usize_max;
  wf_index : (PROCESSES k = [] ∧ CURRENT_INDEX k = 0%nat) ∨ (CURRENT_INDEX k < length (PROCESSES k))%nat;
  wf_waits : Forall (λ p, awaiting_process p ≠ None → blocking p = false) (PROCESSES k);
}.

Definition runs k (r : option Z) : Prop :=
  ∀ a, r = Some a → ∃ p, current k = Some p ∧ pid p = a ∧ pre_schedule p = false
    ∧ blocking p = false ∧ awaiting_process p = None ∧ sleep_until_tick p = None.

Definition inv (s : state * option Z) : Prop := wf s.1 ∧ runs s.1 s.2.

(** *** Operations on one process of the list *)

Lemma wf_ext k k' :
  wf k → pid <$> PROCESSES k' = pid <$> PROCESSES k → PID_COUNTER k' = PID_COUNTER k →
  (CURRENT_INDEX k' = CURRENT_INDEX k ∨ (CURRENT_INDEX k' < length (PROCESSES k))%nat) →
  Forall (λ p, awaiting_process p ≠ None → blocking p = false) (PROCESSES k') → wf k'.
Proof.
  intros [? Hp ? Hi ?] Hpids Hc Hx Hw.
  assert (Hl : length (PROCESSES k') = length (PROCESSES k))
    by (rewrite <- !(length_fmap pid), Hpids; done).
  split; auto.
  - by rewrite Hpids.
  - rewrite Hc. apply Forall_forall. intros p Hin.
    assert (Ha : pid p ∈ pid <$> PROCESSES k) by (rewrite <- Hpids; by apply list_elem_of_fmap_2).
    apply list_elem_of_fmap in Ha as (q & -> & Hq). rewrite Forall_forall in Hp. by apply Hp.
  - by rewrite Hc.
  - rewrite Hl. destruct Hx as [Hx | ?]; [rewrite Hx|by right].
    destruct Hi as [[E E0]|]; [|by right]. left. split; [|done]. apply nil_length_inv. by rewrite Hl, E.
Qed.

Lemma pids_insert i p q (ps : list process) :
  ps !! i = Some q → pid p = pid q → pid <$> <[i := p]> ps = pid <$> ps.
Proof. intros E Hp. rewrite list_fmap_insert, Hp. apply list_insert_id. by rewrite list_lookup_fmap, E. Qed.

Lemma wf_update k i p q :
  wf k → PROCESSES k !! i = Some q → pid p = pid q →
  (awaiting_process p ≠ None → blocking p = false) → wf (set_processes (<[i := p]> (PROCESSES k)) k).
Proof.
  intros Hk E Hp Hw. apply (wf_ext k); auto.
  - by apply (pids_insert i p q).
  - apply Forall_insert; [apply Hk | done].
Qed.

Lemma wf_current k p : wf k → current k = Some p →
  (CURRENT_INDEX k < length (PROCESSES k))%nat ∧ 0 ≤ pid p < usize_max
  ∧ (awaiting_process p ≠ None → blocking p = false).
Proof.
  intros [? Hp ? ? Hw] E. split; [by eapply lookup_lt_Some|].
  pose proof (Forall_lookup_1 _ _ _ _ Hp E). pose proof (Forall_lookup_1 _ _ _ _ Hw E).
  split; [|done]. cbn in *. lia.
Qed.

Lemma wf_current_pid k : wf k → ∀ p, PROCESSES k !! CURRENT_INDEX k = Some p → pid p < usize_max.
Proof. intros Hk p E. by apply (wf_current k p Hk) in E as (? & [? ?] & ?). Qed.

(** *** What a dispatch does *)

Lemma wf_saved stk k : wf k → wf (saved stk k).
Proof.
  intros Hk. unfold saved. destruct stk as [frame|]; [|done].
  destruct (PROCESSES k !! CURRENT_INDEX k) as [p|] eqn:E; [|done].
  destruct (_ && _); [|done]. destruct (wf_current k p Hk E) as (? & ? & Hw).
  by eapply wf_update.
Qed.

Lemma picked_cases k i d r k' :
  picks k i d r k' →
  (r = None ∧ k' = k) ∨
  ∃ j q, PROCESSES k !! j = Some q ∧ is_ready (TICKS (CLOCKS k)) (PROCESSES k) q = true
    ∧ r = Some (clear_waits q) ∧ k' = choose k j q.
Proof.
  unfold picks. destruct r as [p|]; [|by intros [-> _]; left].
  intros (m & q & _ & _ & Hq & Hr & -> & ->). right. eexists _, q.
  unfold ready_at in Hr. rewrite Hq in Hr. eauto.
Qed.

Lemma schedule_result stk k d k' :
  wf k → schedule stk k = Done (d, k') →
  ∃ r k1, picks (saved stk k) (CURRENT_INDEX k) (length (PROCESSES k)) r k1
    ∧ next_process stk k = Done (r, k1) ∧ k' = set_mem (MEM k') k1
    ∧ (∀ c, d = Jump c → ∃ p, r = Some p ∧ c = context p).
Proof.
  intros Hk Hs.
  assert (∃ r k1, next_process stk k = Done (r, k1)
    ∧ picks (saved stk k) (CURRENT_INDEX k) (length (PROCESSES k)) r k1) as (r & k1 & E & P).
  { destruct (wf_index k Hk) as [[E _] | Hi]; [|by apply next_process_ok; [|apply wf_current_pid]].
    exists None, k. split; [by apply next_process_empty|]. split; [|rewrite E; cbn; lia].
    unfold saved. by rewrite E, lookup_nil; destruct stk. }
  exists r, k1. split; [done|]. split; [done|]. unfold schedule in Hs. kunfold. rewrite E in Hs.
  assert (∀ k2 : state, k2 = set_mem (MEM k2) k2) as Heta by by intros [].
  destruct r as [p|]; [|by simplify_eq].
  destruct (negb _); [by simplify_eq|].
  destruct (ring3_page_table p); [|by simplify_eq]. unfold in_mem in Hs. kunfold.
  destruct (switch_table _ _) as [[[]]|]; simplify_eq; (split; [done|]); intros; simplify_eq; eauto.
Qed.

Lemma ready_not_blocking ticks (ps : list process) q :
  (awaiting_process q ≠ None → blocking q = false) → is_ready ticks ps q = true → blocking q = false.
Proof.
  unfold is_ready. intros Hw Hr. destruct (sleep_until_tick q); [destruct (_ <? _); [done|]|];
    (destruct (awaiting_process q); [by apply Hw | by apply negb_true_iff]).
Qed.

Lemma schedule_inv stk k d k' :
  wf k → schedule stk k = Done (d, k') → inv (k', running k' d).
Proof.
  intros Hk Hs. destruct (schedule_result _ _ _ _ Hk Hs) as (r & k1 & P & _ & E & HJ).
  pose proof (wf_saved stk k Hk) as Hk0.
  assert (wf k1 ∧ (∀ p, r = Some p → runs k1 (pid <$> current k1) ∧ current k1 = Some p)) as [Hk1 Hr].
  { destruct (picked_cases _ _ _ _ _ P) as [[-> ->] | (j & q & Hq & Hready & -> & ->)]; [done|].
    pose proof (wf_waits _ Hk0) as Hw. pose proof (Forall_lookup_1 _ _ _ _ Hw Hq) as Hwq.
    assert (Hj : (j < length (PROCESSES (saved stk k)))%nat) by by eapply lookup_lt_Some.
    assert (Hcur : current (choose (saved stk k) j q) = Some (clear_waits q))
      by by apply list_lookup_insert_eq.
    split.
    - apply (wf_ext (saved stk k)); cbn; auto.
      + by apply (pids_insert j (clear_waits q) q).
      + by apply Forall_insert.
    - intros p ->%Some_inj%eq_sym. split; [|done]. intros a Ha. rewrite Hcur in Ha |- *.
      eexists. split; [done|]. cbn in Ha. simplify_eq.
      split; [done|]. split; [done|]. split; [exact (ready_not_blocking _ _ q Hwq Hready)|]. done. }
  rewrite E. split.
  - by apply (wf_ext k1); auto; apply Hk1.
  - unfold running. destruct d as [c|]; [|done]. destruct (HJ c eq_refl) as (p & -> & _).
    by destruct (Hr p eq_refl).
Qed.

(** *** The invariant holds in every reachable state *)

Lemma inv_tick k r : inv (k, r) → ∀ c, inv (set_clocks c k, r).
Proof. intros [Hk Hr] c. split; [|done]. by apply (wf_ext k); auto; apply Hk. Qed.

Lemma wf_input c k : wf k → wf (set_processes (wake c <$> PROCESSES k) k).
Proof.
  intros Hk. apply (wf_ext k); cbn; auto.
  - rewrite <- list_fmap_compose. apply list_fmap_ext. intros ? p _. cbn. unfold wake. by destruct (negb _).
  - apply Forall_fmap. eapply Forall_impl; [exact (wf_waits k Hk)|]. intros p Hp. cbn. unfold wake.
    destruct (negb _) eqn:?; [done|]. by cbn.
Qed.

Lemma timer_isr_cases frame input k d k' :
  timer_isr frame input k = Done (d, k') →
  let k0 := set_clocks {| TICKS := wrap 64 (TICKS (CLOCKS k) + 1);
                          BOOT_UNIX_SECONDS := BOOT_UNIX_SECONDS (CLOCKS k) |} k in
  (d = None ∧ k' = k0) ∨
  ∃ d', d = Some d' ∧
    schedule (Some frame) (match input with
                           | Some c => set_processes (wake c <$> PROCESSES k0) k0
                           | None => k0
                           end) = Done (d', k').
Proof.
  unfold timer_isr, tick. kunfold. intros Ht. cbn in *.
  destruct (SCHEDULING_ENABLED k); [right | left; by simplify_eq].
  destruct input as [c|]; [unfold process_input in Ht; kunfold|];
    destruct (schedule _ _) as [[d' k1]|] eqn:E; simplify_eq; eauto.
Qed.

Lemma wf_timer frame input k d k' :
  wf k → timer_isr frame input k = Done (Some d, k') → inv (k', running k' d).
Proof.
  intros Hk Ht. destruct (timer_isr_cases _ _ _ _ _ Ht) as [[? _] | (d' & [= <-] & Hs)]; [done|].
  eapply schedule_inv; [|exact Hs].
  assert (wf (set_clocks {| TICKS := wrap 64 (TICKS (CLOCKS k) + 1);
    BOOT_UNIX_SECONDS := BOOT_UNIX_SECONDS (CLOCKS k) |} k)) by by apply (wf_ext k); auto; apply Hk.
  destruct input; [by apply wf_input | done].
Qed.

Lemma update_current_cases (f : process → process) k k' :
  update_current f k = Done (tt, k') →
  (PROCESSES k = [] ∧ k' = k) ∨
  ∃ p, current k = Some p ∧ k' = set_processes (<[CURRENT_INDEX k := f p]> (PROCESSES k)) k.
Proof.
  unfold update_current, current, set_process. kunfold. intros Hu.
  destruct (Nat.eqb_spec (length (PROCESSES k)) 0) as [E|]; cbn in Hu.
  - left. split; [by apply nil_length_inv | by simplify_eq].
  - destruct (PROCESSES k !! CURRENT_INDEX k) as [p|] eqn:E; [|done]. right. exists p. split; [done|]. cbn in Hu. by simplify_eq.
Qed.

Lemma wf_update_current (f : process → process) k k' :
  (∀ p, pid (f p) = pid p) →
  (∀ p, current k = Some p → (awaiting_process p ≠ None → blocking p = false) →
        awaiting_process (f p) ≠ None → blocking (f p) = false) →
  wf k → update_current f k = Done (tt, k') → wf k'.
Proof.
  intros Hp Hw Hk Hu.
  destruct (update_current_cases _ _ _ Hu) as [[_ ->] | (p & E & ->)]; [done|].
  destruct (wf_current k p Hk E) as (_ & _ & Hwp).
  by apply (wf_update k _ _ p); auto.
Qed.

Lemma wait_cases w k k' :
  current_wait_for_process w k = Done (tt, k') →
  (current k = None ∧ k' = k) ∨
  ∃ p, current k = Some p
    ∧ k' = set_processes (<[CURRENT_INDEX k := set_awaiting (Some w) p]> (PROCESSES k)) k.
Proof.
  unfold current_wait_for_process, current, set_process. kunfold. intros Hu.
  destruct (PROCESSES k !! CURRENT_INDEX k) as [p|]; [right; exists p | left]; (split; [done|]); by simplify_eq.
Qed.

Lemma in_mem_inv {A} (m : kst M A) k a k' :
  in_mem m k = Done (a, k') → k' = set_mem (MEM k') k.
Proof. unfold in_mem, zoom. destruct (m _) as [[]|]; intros; by simplify_eq. Qed.

Lemma exit_current_cases k k' :
  exit_current k = Done (tt, k') →
  (current k = None ∧ k' = k) ∨
  ∃ p, current k = Some p
    ∧ PROCESSES k' = delete (CURRENT_INDEX k) (PROCESSES k)
    ∧ CURRENT_INDEX k' = (CURRENT_INDEX k - 1)%nat ∧ PID_COUNTER k' = PID_COUNTER k
    ∧ CLOCKS k' = CLOCKS k.
Proof.
  unfold exit_current, current. intros Hx. unfold kget at 1 in Hx. unfold kbind at 1 in Hx.
  destruct (PROCESSES k !! CURRENT_INDEX k) as [p|]; [right | left; unfold kret in Hx; by simplify_eq].
  exists p. split; [done|].
  apply kbind_inv in Hx as ([] & k1 & E1 & Hx). unfold kmodify in E1. simplify_eq.
  apply kbind_inv in Hx as ([] & k2 & E2%in_mem_inv & Hx).
  apply kbind_inv in Hx as (b & k3 & E3 & Hx). unfold kgets in E3. simplify_eq.
  apply kbind_inv in Hx as ([] & k4 & E4 & Hx). unfold kmodify in Hx. simplify_eq. cbn.
  assert (∃ m, k4 = set_mem m k3) as [m ->].
  { destruct (mem_ready (MEM k3)); [|unfold kret in E4; simplify_eq; exists (MEM k4); by destruct k4].
    apply kbind_inv in E4 as ([] & k5 & ->%in_mem_inv & E4).
    destruct (ring3_page_table p); [|unfold kret in E4; simplify_eq; by eexists].
    apply kbind_inv in E4 as ([] & k6 & ->%in_mem_inv & ->%in_mem_inv). by eexists. }
  rewrite E2. cbn. split_and!; try done.
  destruct (Nat.eqb_spec (CURRENT_INDEX k) 0); lia.
Qed.

Lemma wf_exit k k' : wf k → exit_current k = Done (tt, k') → wf k'.
Proof.
  intros Hk Hx.
  destruct (exit_current_cases _ _ Hx) as [[_ ->] | (p & E & Hps & Hi & Hc & _)]; [done|].
  destruct (wf_current k p Hk E) as [Hlt _].
  assert (Hsub : delete (CURRENT_INDEX k) (PROCESSES k) `sublist_of` PROCESSES k) by apply sublist_delete.
  split.
  - rewrite Hps. apply (sublist_NoDup _ _ (wf_nodup k Hk)). by apply fmap_sublist.
  - rewrite Hps, Hc. apply Forall_delete, Hk.
  - rewrite Hc. apply Hk.
  - rewrite Hps, Hi, length_delete by done.
    destruct (decide (length (PROCESSES k) = 1%nat)) as [E1|]; [left|right; lia].
    split; [|lia]. apply nil_length_inv. rewrite length_delete by done. lia.
  - rewrite Hps. apply Forall_delete, Hk.
Qed.

Lemma deploy_cases e fork_current a k k' :
  deploy root user_code user_data e fork_current k = Done (a, k') →
  PID_COUNTER k < usize_max ∧
  let k1 := set_counter (PID_COUNTER k + 1) k in
  (k' = k1 ∧ a = 0) ∨
  ∃ p, k' = set_processes (PROCESSES k ++ [p]) k1 ∧ pid p = PID_COUNTER k ∧ a = PID_COUNTER k
    ∧ pre_schedule p = true ∧ blocking p = false ∧ awaiting_process p = None
    ∧ sleep_until_tick p = None
    ∧ context p = user_segments user_code user_data
                    (set_word 18 (initial_rsp e) (set_word 15 (entry e) empty))
    ∧ ring3_page_table p = entry_page_table e ∧ entry_stack e = Some (stack p)
    ∧ match parent_state fork_current k with
      | inl (Some (cwd, fds)) => curr_working_dir p = cwd ∧ proc_fds p = fds
      | inl None => curr_working_dir p = root ∧ proc_fds p = standard_fd_table
      | inr _ => False
      end.
Proof.
  unfold deploy, uadd, checked_add. kunfold. intros Hd.
  destruct (Z.leb_spec (PID_COUNTER k + 1) usize_max); [|done]. split; [lia|]. cbn in *.
  change (parent_state fork_current (set_counter (PID_COUNTER k + 1) k))
    with (parent_state fork_current k) in Hd.
  destruct (parent_state fork_current k) as [o|[]]; [|left; by simplify_eq].
  unfold process_from in Hd.
  destruct (entry_stack e) as [st|] eqn:Es; [|left; by simplify_eq].
  destruct (entry_page_table e) as [t|] eqn:Et; [|left; by simplify_eq].
  right. cbn in Hd. simplify_eq. eexists. split; [done|]. by destruct o as [[cwd fds]|].
Qed.

Lemma wf_deploy e fork_current a k k' :
  wf k → deploy root user_code user_data e fork_current k = Done (a, k') → wf k'.
Proof.
  intros [Hn Hp Hc Hi Hw] Hd.
  destruct (deploy_cases _ _ _ _ _ Hd) as [Hlt Hcases].
  assert (wf (set_counter (PID_COUNTER k + 1) k)) as Hk1.
  { split; cbn; auto; [|lia]. eapply Forall_impl; [exact Hp|]. cbn. lia. }
  cbn zeta in Hcases.
  destruct Hcases as [[-> _] | (p & -> & Hpid & _ & _ & Hb & Ha & _)]; [done|].
  split; cbn.
  - rewrite fmap_app. apply NoDup_app. split; [done|]. split; [|apply NoDup_singleton].
    intros x (q & -> & Hq)%list_elem_of_fmap Hx. apply list_elem_of_singleton in Hx.
    rewrite Forall_forall in Hp. pose proof (Hp q Hq). cbn in *. lia.
  - apply Forall_app. split; [eapply Forall_impl; [exact Hp|]; cbn; lia|].
    constructor; [|constructor]. cbn. lia.
  - lia.
  - right. rewrite length_app. cbn. destruct Hi as [[_ ->]|]; lia.
  - apply Forall_app. split; [done|]. constructor; [by rewrite Ha | constructor].
Qed.

Lemma runs_update_current (f : process → process) k k' r :
  (∀ p, pid (f p) = pid p ∧ pre_schedule (f p) = pre_schedule p ∧ blocking (f p) = blocking p
        ∧ awaiting_process (f p) = awaiting_process p ∧ sleep_until_tick (f p) = sleep_until_tick p) →
  runs k r → update_current f k = Done (tt, k') → runs k' r.
Proof.
  intros Hf Hr Hu a Ha.
  destruct (update_current_cases _ _ _ Hu) as [[_ ->] | (p & E & ->)]; [by apply Hr|].
  destruct (Hr a Ha) as (q & Eq & Hq). assert (q = p) as -> by congruence.
  exists (f p). destruct (Hf p) as (-> & -> & -> & -> & ->). split; [|done].
  unfold current. cbn. apply list_lookup_insert_eq. by eapply lookup_lt_Some.
Qed.

Lemma runs_deploy e f a k k' r :
  runs k r → deploy root user_code user_data e f k = Done (a, k') → runs k' r.
Proof.
  intros Hr Hd b Hb. destruct (Hr b Hb) as (p & E & Hp).
  destruct (deploy_cases _ _ _ _ _ Hd) as [_ Hcases]. cbn zeta in Hcases.
  exists p. split; [|done].
  destruct Hcases as [[-> _] | (q & -> & _)]; [done|]. unfold current in *. cbn. by apply lookup_app_l_Some.
Qed.

(** The operation a dispatching call makes first, and the dispatch. *)
Lemma then_schedule (m : kst state unit) stk k d k' :
  (∀ k1, m k = Done (tt, k1) → wf k1) →
  (m ;;* schedule stk) k = Done (d, k') → inv (k', running k' d).
Proof.
  intros Hm Hs. apply kbind_inv in Hs as ([] & k1 & E & Hs). by eapply schedule_inv; [apply Hm|].
Qed.

Lemma wf_wait w k k' : wf k → current_wait_for_process w k = Done (tt, k') →
  (∀ p, current k = Some p → blocking p = false) → wf k'.
Proof.
  intros Hk Hw Hb. destruct (wait_cases _ _ _ Hw) as [[_ ->] | (p & E & ->)]; [done|].
  apply (wf_update k _ _ p); auto. intros _. exact (Hb p E).
Qed.

Lemma running_current k a : runs k (Some a) →
  ∃ p, current k = Some p ∧ pid p = a ∧ pre_schedule p = false ∧ blocking p = false
    ∧ awaiting_process p = None ∧ sleep_until_tick p = None.
Proof. intros Hr. by apply Hr. Qed.

Lemma step_inv s l s' : inv s → step s l s' → inv s'.
Proof.
  intros [Hk Hr] Hs. inversion Hs; subst; cbn in Hk, Hr.
  - by eapply wf_timer.
  - destruct (timer_isr_cases _ _ _ _ _ H1) as [[_ ->] | (? & ? & _)]; [|done]. by apply inv_tick.
  - eapply then_schedule; [|exact H0]. intros k1. by apply wf_exit.
  - by eapply schedule_inv.
  - eapply then_schedule; [|exact H1]. intros k1 Hw. eapply wf_wait; [done..|].
    intros p Ep. destruct (running_current _ _ Hr) as (q & Eq & ?). assert (q = p) as -> by congruence. tauto.
  - eapply then_schedule; [|exact H1]. intros k1 Hu. eapply wf_update_current; [| |done..]; [done|].
    intros p Ep. destruct (running_current _ _ Hr) as (q & Eq & ?). assert (q = p) as -> by congruence.
    cbn. intuition congruence.
  - eapply then_schedule; [|exact H1]. intros k1 Hu. by eapply wf_update_current; [| |done..].
  - split; [by eapply wf_deploy | by eapply runs_deploy].
  - split; [by apply (wf_update_current (set_cwd d) k) | by apply (runs_update_current (set_cwd d) k)].
  - split; [by apply (wf_update_current (set_fds t) k) | by apply (runs_update_current (set_fds t) k)].
  - unfold enable, kmodify in H0. simplify_eq. split; [|done]. by apply (wf_ext k); auto; apply Hk.
  - split; [|done]. by apply (wf_ext k); auto; apply Hk.
Qed.

Lemma reachable_inv s : reachable s → inv s.
Proof.
  induction 1 as [c m | s l s' _ IH Hs]; [|by eapply step_inv].
  split; [|done]. split; cbn; auto; [constructor|]. unfold usize_max. lia.
Qed.

(** *** A process that is not running stays as it is

    [evolves q0 q]: from [q0] to [q] nothing happened to the saved context, except
    that a process blocked on input may have received a character. *)

Definition evolves q0 q : Prop :=
  pid q = pid q0 ∧
  ((context q = context q0 ∧ blocking q = blocking q0) ∨
   (blocking q0 = true ∧ blocking q = false ∧ ∃ c, context q = set_rax c (context q0))).

Definition keeps (a : Z) k k' : Prop :=
  ∀ q, q ∈ PROCESSES k → pid q = a → ∃ q', q' ∈ PROCESSES k' ∧ evolves q q'.

Lemma evolves_refl q : evolves q q.
Proof. split; auto. Qed.

Lemma evolves_trans q1 q2 q3 : evolves q1 q2 → evolves q2 q3 → evolves q1 q3.
Proof.
  intros [H1 A] [H2 B]. split; [congruence|].
  destruct A as [[Ac Ab] | (A1 & A2 & c & Ac)], B as [[Bc Bb] | (B1 & B2 & c' & Bc)]; rewrite ?Ac in Bc.
  - left. split; congruence.
  - right. split_and!; [congruence|done|eauto].
  - right. split_and!; [done|congruence|eauto].
  - congruence.
Qed.

Lemma keeps_trans a k1 k2 k3 : keeps a k1 k2 → keeps a k2 k3 → keeps a k1 k3.
Proof.
  intros A B q Hq Ha. destruct (A q Hq Ha) as (q2 & H2 & E2).
  destruct (B q2 H2) as (q3 & H3 & E3); [destruct E2; congruence|].
  exists q3. split; [done|]. by eapply evolves_trans.
Qed.

Lemma keeps_same a k k' : PROCESSES k' = PROCESSES k → keeps a k k'.
Proof. intros E q Hq _. exists q. rewrite E. split; [done | apply evolves_refl]. Qed.

Lemma keeps_insert a k k' i p q :
  PROCESSES k' = <[i := q]> (PROCESSES k) → PROCESSES k !! i = Some p → (pid p = a → evolves p q) →
  keeps a k k'.
Proof.
  intros Hps Hi He q0 Hq Ha. setoid_rewrite Hps. apply list_elem_of_lookup in Hq as [j Hj].
  destruct (decide (i = j)) as [<-|].
  - assert (q0 = p) as -> by congruence. exists q. split; [|by apply He]. apply list_elem_of_lookup. exists i.
    apply list_lookup_insert_eq. by eapply lookup_lt_Some.
  - exists q0. split; [|apply evolves_refl]. apply list_elem_of_lookup. exists j.
    by rewrite list_lookup_insert_ne.
Qed.

Lemma keeps_input a c k : keeps a k (set_processes (wake c <$> PROCESSES k) k).
Proof.
  intros q Hq _. exists (wake c q). split; [by apply list_elem_of_fmap_2|].
  unfold wake. destruct (blocking q) eqn:E; cbn; [|apply evolves_refl].
  split; [done|]. right. eauto.
Qed.

(** The frame a dispatch saves is not that of [a]. *)
Definition saves_other (a : Z) stk k : Prop :=
  ∀ p frame, current k = Some p → stk = Some frame → pid p ≠ a ∨ rip frame ≤ 0x1FFFFF.

Lemma keeps_saved a stk k : saves_other a stk k → keeps a k (saved stk k).
Proof.
  intros Hs. unfold saved. destruct stk as [frame|]; [|by apply keeps_same].
  destruct (PROCESSES k !! CURRENT_INDEX k) as [p|] eqn:E; [|by apply keeps_same].
  destruct (negb _ && _) eqn:Et; [|by apply keeps_same].
  apply andb_true_iff in Et as [_ Et%Z.ltb_lt].
  eapply (keeps_insert a k _ _ p); [done..|]. intros <-. destruct (Hs p frame E eq_refl); [done|lia].
Qed.

Lemma keeps_schedule a stk k d k' :
  wf k → saves_other a stk k → schedule stk k = Done (d, k') → keeps a k k'.
Proof.
  intros Hk Hs Hd. destruct (schedule_result _ _ _ _ Hk Hd) as (r & k1 & P & _ & E & _).
  eapply keeps_trans; [by apply keeps_saved|].
  eapply (keeps_trans a _ k1); [|by apply keeps_same; rewrite E].
  destruct (picked_cases _ _ _ _ _ P) as [[_ ->] | (j & q & Hq & _ & _ & ->)]; [by apply keeps_same|].
  eapply (keeps_insert a _ _ j q); [done..|]. intros _. split; auto.
Qed.

Lemma keeps_then_schedule a (m : kst state unit) stk k d k' :
  (∀ k1, m k = Done (tt, k1) → wf k1 ∧ keeps a k k1 ∧ saves_other a stk k1) →
  (m ;;* schedule stk) k = Done (d, k') → keeps a k k'.
Proof.
  intros Hm Hs. apply kbind_inv in Hs as ([] & k1 & E & Hs). destruct (Hm k1 E) as (? & ? & ?).
  eapply keeps_trans; [done|]. by eapply keeps_schedule.
Qed.

Lemma keeps_deploy a e f b k k' :
  deploy root user_code user_data e f k = Done (b, k') → keeps a k k'.
Proof.
  intros Hd. destruct (deploy_cases _ _ _ _ _ Hd) as [_ Hc]. cbn zeta in Hc.
  destruct Hc as [[-> _] | (p & -> & _)]; [by apply keeps_same|].
  intros q Hq _. exists q. split; [|apply evolves_refl]. cbn. apply elem_of_app. by left.
Qed.

Lemma keeps_exit a k k' :
  (∀ p, current k = Some p → pid p ≠ a) → exit_current k = Done (tt, k') → keeps a k k'.
Proof.
  intros Ha Hx. destruct (exit_current_cases _ _ Hx) as [[_ ->] | (p & E & Hps & _)]; [by apply keeps_same|].
  intros q Hq Hqa. exists q. split; [|apply evolves_refl]. rewrite Hps.
  apply list_elem_of_lookup in Hq as [j Hj]. unfold current in E. apply list_elem_of_lookup.
  assert (j ≠ CURRENT_INDEX k) by (intros ->; apply (Ha p E); congruence).
  destruct (decide (j < CURRENT_INDEX k)%nat).
  - exists j. by rewrite list_lookup_delete_lt.
  - exists (j - 1)%nat. rewrite list_lookup_delete_ge by lia. by replace (S (j - 1)) with j by lia.
Qed.

(** The current process of a list with the same pids has the same pid. *)
Lemma current_pid k k' p p' :
  pid <$> PROCESSES k' = pid <$> PROCESSES k → CURRENT_INDEX k' = CURRENT_INDEX k →
  current k = Some p → current k' = Some p' → pid p' = pid p.
Proof.
  unfold current. intros Hp Hi E E'. rewrite Hi in E'.
  assert (Some (pid p') = Some (pid p)); [|congruence].
  transitivity ((pid <$> PROCESSES k') !! CURRENT_INDEX k).
  - by rewrite list_lookup_fmap, E'.
  - by rewrite Hp, list_lookup_fmap, E.
Qed.

Lemma other_current k r a : runs k (Some r) → r ≠ a → ∀ p, current k = Some p → pid p ≠ a.
Proof.
  intros Hr Hne p E. destruct (running_current _ _ Hr) as (q & Eq & Hq & _).
  assert (q = p) as -> by congruence. congruence.
Qed.

Lemma saves_other_after k k1 r a frame :
  runs k (Some r) → r ≠ a → pid <$> PROCESSES k1 = pid <$> PROCESSES k →
  CURRENT_INDEX k1 = CURRENT_INDEX k → saves_other a (Some frame) k1.
Proof.
  intros Hr Hne Hp Hi p' fr E' _. left. destruct (running_current _ _ Hr) as (p & E & Hpid & _).
  rewrite (current_pid k k1 p p'); congruence.
Qed.

Lemma keeps_timer a k r frame input d k' :
  inv (k, r) → r ≠ Some a → frame_of r frame → timer_isr frame input k = Done (d, k') → keeps a k k'.
Proof.
  intros [Hk Hr] Hra Hf Ht. cbn in Hk, Hr. destruct (timer_isr_cases _ _ _ _ _ Ht) as [[_ ->] | (d' & _ & Hs)];
    [by apply keeps_same|].
  set (k0 := set_clocks _ k) in Hs.
  assert (Hk0 : wf k0) by by apply (wf_ext k); auto; apply Hk.
  eapply keeps_trans; [|eapply keeps_schedule; [| |exact Hs]].
  - destruct input; [apply (keeps_input a _ k0) | by apply keeps_same].
  - destruct input; [by apply wf_input | done].
  - destruct r as [b|]; [|intros ? ? _ [= <-]; by right].
    assert (b ≠ a) by congruence.
    destruct input as [c|]; [|by apply (saves_other_after k _ b)].
    apply (saves_other_after k _ b); auto. cbn. rewrite <- list_fmap_compose.
    apply list_fmap_ext. intros ? p _. cbn. unfold wake. by destruct (negb _).
Qed.

(** What a call does to the process that makes it, before it gives up the CPU. *)
Definition updates (f : process → process) k k' : Prop :=
  k' = k ∨ ∃ p, current k = Some p ∧ k' = set_processes (<[CURRENT_INDEX k := f p]> (PROCESSES k)) k.

Lemma update_current_updates (f : process → process) k k' :
  update_current f k = Done (tt, k') → updates f k k'.
Proof. intros Hu. destruct (update_current_cases _ _ _ Hu) as [[_ ->]|]; [by left | by right]. Qed.

Lemma wait_updates w k k' : current_wait_for_process w k = Done (tt, k') → updates (set_awaiting (Some w)) k k'.
Proof. intros Hu. destruct (wait_cases _ _ _ Hu) as [[_ ->]|]; [by left | by right]. Qed.

Lemma keeps_call a b (f : process → process) frame (m : kst state unit) k d k' :
  inv (k, Some b) → b ≠ a → (∀ p, pid (f p) = pid p) →
  (∀ p, blocking p = false → awaiting_process p = None → awaiting_process (f p) ≠ None → blocking (f p) = false) →
  (∀ k1, m k = Done (tt, k1) → updates f k k1) →
  (m ;;* schedule (Some frame)) k = Done (d, k') → keeps a k k'.
Proof.
  intros [Hk Hr] Hne Hp Hw Hm. cbn in Hk, Hr. apply keeps_then_schedule. intros k1 E.
  destruct (Hm k1 E) as [-> | (p & Ep & ->)].
  - split; [done|]. split; [by apply keeps_same | by apply (saves_other_after k _ b)].
  - destruct (running_current _ _ Hr) as (q & Eq & Hq & _ & Hb & Ha & _).
    assert (q = p) as -> by congruence. split_and!.
    + apply (wf_update k _ _ p); auto.
    + eapply keeps_insert; [done..|]. congruence.
    + apply (saves_other_after k _ b); auto. by apply (pids_insert _ (f p) p).
Qed.

Lemma keeps_quiet a (f : process → process) k k' :
  (∀ p, evolves p (f p)) → update_current f k = Done (tt, k') → keeps a k k'.
Proof.
  intros Hf Hu. destruct (update_current_cases _ _ _ Hu) as [[_ ->] | (p & E & ->)]; [by apply keeps_same|].
  eapply keeps_insert; [done..|]. intros. apply Hf.
Qed.

Lemma step_keeps a k r l k' r' :
  inv (k, r) → r ≠ Some a → step (k, r) l (k', r') → keeps a k k'.
Proof.
  intros Hinv Hra Hs.
  assert (Hcur : ∀ b, r = Some b → b ≠ a) by congruence.
  inversion Hs; subst; try pose proof (Hcur _ eq_refl) as Hba.
  - by eapply keeps_timer.
  - by eapply keeps_timer.
  - apply (keeps_then_schedule a exit_current None k d); [|done]. intros k1 Hx. destruct Hinv as [Hk Hr].
    split; [by eapply wf_exit|]. split; [|done]. eapply keeps_exit; [by eapply other_current|done].
  - destruct Hinv as [Hk Hr]. eapply keeps_schedule; [done| |done]. by apply (saves_other_after k k a0); auto.
  - eapply (keeps_call a a0 (set_awaiting (Some (rdi frame)))); auto using wait_updates; eauto using wait_updates.
  - eapply (keeps_call a a0 (set_blocking true)); eauto using update_current_updates. cbn. congruence.
  - eapply (keeps_call a a0 (set_sleep (Some deadline))); eauto using update_current_updates.
  - by eapply keeps_deploy.
  - eapply (keeps_quiet a (set_cwd d)); [|done]. intros. split; auto.
  - eapply (keeps_quiet a (set_fds t)); [|done]. intros. split; auto.
  - unfold enable, kmodify in *. simplify_eq. by apply keeps_same.
  - by apply keeps_same.
Qed.

(** *** Giving up the CPU and getting it back *)

(** A run in which process [a] never gets the CPU. *)
Inductive avoids (a : Z) : state * option Z → state * option Z → Prop :=
| avoids_refl s : avoids a s s
| avoids_step s s1 l s2 : avoids a s s1 → step s1 l s2 → s2.2 ≠ Some a → avoids a s s2.

Lemma avoids_keeps a s s' :
  avoids a s s' → inv s → s.2 ≠ Some a → inv s' ∧ s'.2 ≠ Some a ∧ keeps a s.1 s'.1.
Proof.
  induction 1 as [s | s s1 l s2 _ IH Hs Hne]; intros Hinv Hs0.
  - split_and!; auto. by apply keeps_same.
  - destruct (IH Hinv Hs0) as (I1 & N1 & K1). split_and!; [by eapply step_inv | done |].
    eapply keeps_trans; [exact K1|]. destruct s1, s2. by eapply step_keeps.
Qed.

Lemma schedule_jump stk k c k' :
  wf k → schedule stk k = Done (Jump c, k') → ∃ p, current k' = Some p ∧ context p = c.
Proof.
  intros Hk Hs. destruct (schedule_result _ _ _ _ Hk Hs) as (r & k1 & P & _ & E & HJ).
  destruct (HJ c eq_refl) as (p & -> & ->). exists p. split; [|done]. rewrite E.
  destruct (picked_cases _ _ _ _ _ P) as [[? _] | (j & q & Hq & _ & [= ->] & ->)]; [done|].
  apply list_lookup_insert_eq. by eapply lookup_lt_Some.
Qed.

Lemma call_wf b (f : process → process) k k1 :
  inv (k, Some b) → (∀ p, pid (f p) = pid p) →
  (∀ p, blocking p = false → awaiting_process p = None → awaiting_process (f p) ≠ None → blocking (f p) = false) →
  updates f k k1 → wf k1.
Proof.
  intros [Hk Hr] Hp Hw [-> | (p & Ep & ->)]; [done|]. cbn in Hk, Hr.
  destruct (running_current _ _ Hr) as (q & Eq & Hq & _ & Hb & Ha & _).
  assert (q = p) as -> by congruence. apply (wf_update k _ _ p); auto.
Qed.

Lemma step_jump s c s' : inv s → step s (Some (Jump c)) s' → ∃ p, current s'.1 = Some p ∧ context p = c.
Proof.
  intros Hinv Hs. inversion Hs; subst; cbn; pose proof Hinv as [Hk Hr];
    match goal with E : _ = Done (_, _) |- _ => rename E into Hdo end.
  - destruct (timer_isr_cases _ _ _ _ _ Hdo) as [[? _] | (d' & [= <-] & Hd)]; [done|].
    eapply schedule_jump; [|exact Hd].
    set (k0 := set_clocks _ k). assert (wf k0) by by apply (wf_ext k); auto; apply Hk.
    destruct input; [by apply wf_input | done].
  - apply kbind_inv in Hdo as ([] & k1 & E & Hd). eapply schedule_jump; [by eapply wf_exit | done].
  - by eapply schedule_jump.
  - apply kbind_inv in Hdo as ([] & k1 & E & Hd). eapply schedule_jump; [|done].
    eapply (call_wf a (set_awaiting (Some (rdi frame)))); eauto using wait_updates.
  - apply kbind_inv in Hdo as ([] & k1 & E & Hd). eapply schedule_jump; [|done].
    eapply (call_wf a (set_blocking true)); eauto using update_current_updates. cbn. congruence.
  - apply kbind_inv in Hdo as ([] & k1 & E & Hd). eapply schedule_jump; [|done].
    eapply (call_wf a (set_sleep (Some deadline))); eauto using update_current_updates.
Qed.

Lemma same_pid k p q : wf k → p ∈ PROCESSES k → q ∈ PROCESSES k → pid p = pid q → p = q.
Proof.
  intros Hk Hp Hq E. apply list_elem_of_lookup in Hp as [i Hi], Hq as [j Hj].
  assert (i = j) as <-; [|congruence].
  eapply NoDup_lookup; [apply (wf_nodup k Hk)| |]; rewrite list_lookup_fmap, ?Hi, ?Hj; cbn; [done|congruence].
Qed.

(** The context [a] gets back, from the process entry it left behind. *)
Lemma resumes a k1 r1 q s2 c k3 :
  inv (k1, r1) → r1 ≠ Some a → q ∈ PROCESSES k1 → pid q = a →
  avoids a (k1, r1) s2 → step s2 (Some (Jump c)) (k3, Some a) →
  ∃ q', evolves q q' ∧ context q' = c ∧ blocking q' = false.
Proof.
  intros Hi Hr Hq Ha Hav Hs.
  destruct (avoids_keeps a _ _ Hav Hi Hr) as (I2 & N2 & K2). destruct s2 as [k2 r2].
  pose proof (step_inv _ _ _ I2 Hs) as [Hk3 Hr3]. cbn in *.
  destruct (keeps_trans a _ _ _ K2 (step_keeps a _ _ _ _ _ I2 N2 Hs) q Hq Ha) as (q' & Hq' & He).
  exists q'. split; [done|].
  destruct (step_jump _ _ _ I2 Hs) as (p & Ep & Hc). cbn in Ep.
  destruct (running_current _ _ Hr3) as (p' & Ep' & Hp' & _ & Hb & _).
  assert (p' = p) as -> by congruence.
  assert (q' = p) as ->; [|done].
  apply (same_pid k3); auto; [by eapply list_elem_of_lookup_2 | destruct He; congruence].
Qed.

Lemma schedule_saves stk frame k d k' p :
  wf k → stk = Some frame → current k = Some p → pre_schedule p = false → 0x1FFFFF < rip frame →
  schedule stk k = Done (d, k') →
  ∃ q, q ∈ PROCESSES k' ∧ pid q = pid p ∧ context q = frame ∧ blocking q = blocking p.
Proof.
  intros Hk -> Ep Hpre Hrip Hs. destruct (schedule_result _ _ _ _ Hk Hs) as (r & k1 & P & _ & E & _).
  assert (Hsv : PROCESSES (saved (Some frame) k) = <[CURRENT_INDEX k := set_context frame p]> (PROCESSES k)).
  { unfold saved. unfold current in Ep. rewrite Ep, Hpre. cbn [negb andb].
    destruct (Z.ltb_spec 0x1FFFFF (rip frame)); [done | lia]. }
  assert (Hin : PROCESSES (saved (Some frame) k) !! CURRENT_INDEX k = Some (set_context frame p)).
  { rewrite Hsv. apply list_lookup_insert_eq. by eapply lookup_lt_Some. }
  rewrite E. cbn.
  destruct (picked_cases _ _ _ _ _ P) as [[_ ->] | (j & q & Hq & _ & _ & ->)].
  - eexists. split; [by eapply list_elem_of_lookup_2 | done].
  - destruct (decide (j = CURRENT_INDEX k)) as [->|].
    + rewrite Hin in Hq. simplify_eq. exists (clear_waits (set_context frame p)). split; [|done].
      eapply list_elem_of_lookup_2, list_lookup_insert_eq. by eapply lookup_lt_Some.
    + eexists (set_context frame p). split; [|done].
      apply (list_elem_of_lookup_2 _ (CURRENT_INDEX k)). cbn [set_mem choose set_processes PROCESSES].
      by rewrite list_lookup_insert_ne.
Qed.

(** C3: Preemption is transparent: when the timer interrupts a running process and
    gives the CPU to others, then however many interrupts, system calls, exits,
    inputs and new processes follow, the context the process is eventually resumed
    with is exactly the interrupted one, every register of it. *)
Theorem preemption_transparent a k frame input d k1 s2 c k3 :
  reachable (k, Some a) → frame_of (Some a) frame →
  timer_isr frame input k = Done (Some d, k1) → running k1 d ≠ Some a →
  avoids a (k1, running k1 d) s2 → step s2 (Some (Jump c)) (k3, Some a) → c = frame.
Proof.
  intros Hre Hf Ht Hne Hav Hs. pose proof (reachable_inv _ Hre) as Hinv.
  pose proof (step_inv _ _ _ Hinv (step_timer k (Some a) frame input d k1 Hf Ht)) as Hi1.
  destruct Hinv as [Hk Hr]. destruct (running_current _ _ Hr) as (p & Ep & Hp & Hpre & Hb & _).
  destruct (timer_isr_cases _ _ _ _ _ Ht) as [[? _] | (d' & [= <-] & Hd)]; [done|]. cbn in Hk, Ep.
  set (k0 := set_clocks _ k) in Hd. assert (Hk0 : wf k0) by by apply (wf_ext k); auto; apply Hk.
  assert (∃ q, q ∈ PROCESSES k1 ∧ pid q = a ∧ context q = frame ∧ blocking q = false)
    as (q & Hq & Hqa & Hqc & Hqb).
  { rewrite <- Hp, <- Hb. destruct input as [ch|]; (eapply schedule_saves; [| done | | done | done | exact Hd]).
    - by apply wf_input.
    - unfold current. cbn. rewrite list_lookup_fmap. unfold current in Ep. rewrite Ep. cbn. unfold wake. by rewrite Hb.
    - done.
    - done. }
  destruct (resumes a _ _ q _ _ _ Hi1 Hne Hq Hqa Hav Hs) as (q' & [_ [[E _] | [E _]]] & <- & _); congruence.
Qed.

(** A process that reads from standard input is resumed only after a character
    arrived, at the system call it made and with exactly its registers, the
    character in rax. *)
Theorem read_stdin_resumes_with_input a k frame d k1 s2 c k3 :
  reachable (k, Some a) → frame_of (Some a) frame →
  read_stdin frame k = Done (d, k1) → running k1 d ≠ Some a →
  avoids a (k1, running k1 d) s2 → step s2 (Some (Jump c)) (k3, Some a) →
  ∃ input, c = set_rax input frame.
Proof.
  intros Hre Hf Ht Hne Hav Hs. pose proof (reachable_inv _ Hre) as Hinv.
  pose proof (step_inv _ _ _ Hinv (step_read k a frame d k1 Hf Ht)) as Hi1.
  pose proof Hinv as [_ Hr]. destruct (running_current _ _ Hr) as (p & Ep & Hp & Hpre & Hb & _). cbn in Ep.
  apply kbind_inv in Ht as ([] & k0 & Eb & Hd).
  assert (Hk0 : wf k0) by (eapply (call_wf a (set_blocking true)); eauto using update_current_updates; cbn; congruence).
  assert (Ep0 : current k0 = Some (set_blocking true p)).
  { destruct (update_current_cases _ _ _ Eb) as [[E _] | (p' & Ep' & ->)].
    - unfold current in Ep. cbn in Ep. by rewrite E in Ep.
    - assert (p' = p) as -> by congruence. apply list_lookup_insert_eq. by eapply lookup_lt_Some. }
  destruct (schedule_saves _ frame _ _ _ _ Hk0 eq_refl Ep0 Hpre Hf Hd) as (q & Hq & Hqa & Hqc & Hqb).
  destruct (resumes a _ _ q _ _ _ Hi1 Hne Hq ltac:(by rewrite Hqa) Hav Hs)
    as (q' & [_ [[_ E] | (_ & _ & ch & E)]] & <- & Hb').
  - cbn in Hqb. congruence.
  - exists ch. congruence.
Qed.

(** *** Fairness *)

(** [passed_over a m k k']: from [k] to [k'] the scheduler ran [m] times, each time
    with process [a] ready, and chose another process; between its runs anything
    but exits and new processes may happen. *)
Inductive passed_over (a : Z) : nat → state → state → Prop :=
| passed_none k : passed_over a 0 k k
| passed_more m k k1 k2 stk r k3 t p :
    passed_over a m k k1 →
    wf k2 → pid <$> PROCESSES k2 = pid <$> PROCESSES k1 → CURRENT_INDEX k2 = CURRENT_INDEX k1 →
    PROCESSES (saved stk k2) !! t = Some p → pid p = a → ready_at (saved stk k2) t = true →
    next_process stk k2 = Done (Some r, k3) → pid r ≠ a → passed_over a (S m) k k3.

Lemma saved_pids stk k : pid <$> PROCESSES (saved stk k) = pid <$> PROCESSES k.
Proof.
  unfold saved. destruct stk as [frame|]; [|done].
  destruct (PROCESSES k !! CURRENT_INDEX k) as [p|] eqn:E; [|done]. destruct (_ && _); [|done].
  by apply (pids_insert _ (set_context frame p) p).
Qed.

(** One run of the scheduler that passes over a ready process comes closer to it. *)
Lemma pass_closer stk k r k' t p :
  wf k → PROCESSES (saved stk k) !! t = Some p → ready_at (saved stk k) t = true →
  next_process stk k = Done (Some r, k') → pid r ≠ pid p →
  pid <$> PROCESSES k' = pid <$> PROCESSES k
  ∧ (CURRENT_INDEX k' < length (PROCESSES k))%nat ∧ (t < length (PROCESSES k))%nat
  ∧ (distance (length (PROCESSES k)) (CURRENT_INDEX k') t
     < distance (length (PROCESSES k)) (CURRENT_INDEX k) t)%nat.
Proof.
  intros Hk Ht Hready E Hne.
  pose proof (lookup_lt_Some _ _ _ Ht) as Hlt. rewrite saved_length in Hlt.
  destruct (wf_index k Hk) as [[E0 _] | Hi]; [rewrite E0 in Hlt; cbn in Hlt; lia|].
  destruct (next_process_ok stk k Hi (wf_current_pid k Hk)) as (r' & k1 & E' & P).
  rewrite E in E'. simplify_eq. unfold picks in P. rewrite saved_length in P.
  destruct P as (m & q & Hm & Hno & Hq & _ & -> & ->). cbn in Hne |- *.
  set (n := length (PROCESSES k)) in *.
  destruct (after_distance n (CURRENT_INDEX k) t Hi Hlt) as [Hat Hd].
  split_and!; [|by apply after_lt|done|].
  - rewrite (pids_insert _ (clear_waits q) q) by done. apply saved_pids.
  - assert (m ≠ distance n (CURRENT_INDEX k) t) by (intros ->; rewrite Hat in Hq; congruence).
    assert (¬ (distance n (CURRENT_INDEX k) t < m)%nat).
    { intros Hlt'. pose proof (Hno _ Hlt') as Hf. rewrite Hat in Hf. congruence. }
    rewrite distance_after by lia. lia.
Qed.

Lemma same_position (ps ps' : list process) t t' p p' :
  pid <$> ps' = pid <$> ps → NoDup (pid <$> ps) → ps !! t = Some p → ps' !! t' = Some p' →
  pid p = pid p' → t = t'.
Proof.
  intros E Hn Ht Ht' Hp. eapply (NoDup_lookup (pid <$> ps)); [done| |].
  - by rewrite list_lookup_fmap, Ht.
  - rewrite <- E, list_lookup_fmap, Ht'. cbn. by rewrite Hp.
Qed.

Lemma passed_distance a m k k' :
  passed_over a m k k' → (CURRENT_INDEX k < length (PROCESSES k))%nat →
  pid <$> PROCESSES k' = pid <$> PROCESSES k ∧ (CURRENT_INDEX k' < length (PROCESSES k))%nat
  ∧ (m = 0%nat ∨ ∃ t p, PROCESSES k' !! t = Some p ∧ pid p = a ∧ (t < length (PROCESSES k))%nat
       ∧ (m + distance (length (PROCESSES k)) (CURRENT_INDEX k') t < length (PROCESSES k))%nat).
Proof.
  induction 1 as [k | m k k1 k2 stk r k3 t p _ IH Hk2 Hps Hix Ht Hpa Hready Hn Hr]; intros Hi; [auto|].
  destruct (IH Hi) as (Eps & Hi1 & Hd).
  destruct (pass_closer _ _ _ _ _ _ Hk2 Ht Hready Hn ltac:(congruence)) as (E3 & Hi3 & Ht3 & Hlt).
  assert (Hlen : length (PROCESSES k2) = length (PROCESSES k))
    by (rewrite <- !(length_fmap pid), Hps, Eps; done).
  rewrite Hlen, Hix in *. split; [congruence|]. split; [done|]. right.
  assert (∃ p3, PROCESSES k3 !! t = Some p3 ∧ pid p3 = a) as (p3 & Hp3 & Hpa3).
  { apply lookup_lt_is_Some_2 in Ht3 as Ht3'.
    assert (Hl : (pid <$> PROCESSES k3) !! t = Some a).
    { rewrite E3, <- (saved_pids stk), list_lookup_fmap, Ht. cbn. congruence. }
    rewrite list_lookup_fmap in Hl. destruct (PROCESSES k3 !! t); cbn in Hl; simplify_eq. eauto. }
  exists t, p3. split_and!; auto.
  destruct Hd as [-> | (t' & p' & Ht' & Hpa' & Hlt' & Hd)].
  - pose proof (after_distance (length (PROCESSES k)) (CURRENT_INDEX k1) t). lia.
  - assert (t' = t) as ->; [|lia].
    eapply (same_position (PROCESSES k1) (PROCESSES k3)); [congruence| |done..|congruence].
    rewrite <- Hps. apply Hk2.
Qed.


(** C17: Round robin: in every reachable state with processes, the scheduler saves
    the interrupted context into the current process and chooses the first ready
    process after it in cyclic order, clearing its wait conditions and leaving
    every other process alone; it returns [None] exactly when no process is ready,
    and always ends. *)
Theorem next_process_round_robin k r stk :
  reachable (k, r) → PROCESSES k ≠ [] →
  ∃ chosen k', next_process stk k = Done (chosen, k') ∧
    let k0 := saved stk k in
    let n := length (PROCESSES k) in
    match chosen with
    | Some p => ∃ m q, (m < n)%nat
        ∧ (∀ m', (m' < m)%nat → ready_at k0 (after n (CURRENT_INDEX k) m') = false)
        ∧ PROCESSES k0 !! after n (CURRENT_INDEX k) m = Some q
        ∧ is_ready (TICKS (CLOCKS k)) (PROCESSES k0) q = true
        ∧ p = clear_waits q ∧ k' = choose k0 (after n (CURRENT_INDEX k) m) q
    | None => k' = k0 ∧ ∀ i, ready_at k0 i = false
    end.
Proof.
  intros Hre Hne. destruct (reachable_inv _ Hre) as [Hk _]. cbn in Hk.
  destruct (wf_index k Hk) as [[? _] | Hi]; [done|].
  destruct (next_process_ok stk k Hi (wf_current_pid k Hk)) as (chosen & k' & E & P).
  exists chosen, k'. split; [done|]. cbn zeta. unfold picks in P. rewrite saved_length in P.
  destruct chosen as [p|].
  - destruct P as (m & q & Hm & Hno & Hq & Hr & -> & ->). exists m, q. split_and!; auto.
    unfold ready_at in Hr. rewrite Hq in Hr. rewrite <- Hr. f_equal. unfold saved. by repeat case_match.
  - destruct P as [-> P]. split; [done|]. intros i. unfold ready_at.
    destruct (PROCESSES (saved stk k) !! i) as [p|] eqn:Ep; [|done].
    pose proof (lookup_lt_Some _ _ _ Ep) as Hlt. rewrite saved_length in Hlt.
    destruct (after_distance (length (PROCESSES k)) (CURRENT_INDEX k) i Hi Hlt) as [Hat Hd].
    pose proof (P _ Hd) as Hf. rewrite Hat in Hf. unfold ready_at in Hf. by rewrite Ep in Hf.
Qed.

(** *** Creation, exit and the absence of panics *)

Lemma update_current_done (f : process → process) k :
  wf k → ∃ k', update_current f k = Done (tt, k').
Proof.
  intros Hk. unfold update_current, set_process. kunfold.
  destruct (Nat.eqb_spec (length (PROCESSES k)) 0) as [|Hne]; [eauto|].
  destruct (wf_index k Hk) as [[E _] | Hi]; [by rewrite E in Hne|].
  destruct (lookup_lt_is_Some_2 _ _ Hi) as [p Hp]. rewrite Hp. eauto.
Qed.

(** No scheduler operation panics in a reachable state: the current index is
    always inside the process list when it is used to index it, and the pid
    arithmetic of [next_process] does not overflow. *)
Theorem scheduler_never_panics k r :
  reachable (k, r) →
  (∀ stk, ∃ o k', next_process stk k = Done (o, k'))
  ∧ (∃ k', block_current k = Done (tt, k'))
  ∧ (∀ deadline, ∃ k', sleep_current_until deadline k = Done (tt, k'))
  ∧ (∀ cwd, ∃ k', change_cwd cwd k = Done (tt, k'))
  ∧ (∀ w, ∃ k', current_wait_for_process w k = Done (tt, k'))
  ∧ (∃ cwd, get_current_cwd root k = Done (cwd, k))
  ∧ (∀ e f, PID_COUNTER k < usize_max → ∃ a k', deploy root user_code user_data e f k = Done (a, k')).
Proof.
  intros Hre. destruct (reachable_inv _ Hre) as [Hk _]. cbn in Hk. split_and!.
  - intros stk. destruct (wf_index k Hk) as [[E _] | Hi].
    + exists None, k. by apply next_process_empty.
    + destruct (next_process_ok stk k Hi (wf_current_pid k Hk)) as (o & k' & E & _). eauto.
  - by apply update_current_done.
  - intros. by apply update_current_done.
  - intros. by apply update_current_done.
  - intros w. unfold current_wait_for_process, set_process. kunfold.
    destruct (PROCESSES k !! CURRENT_INDEX k); eauto.
  - unfold get_current_cwd. kunfold.
    destruct (Nat.eqb_spec (length (PROCESSES k)) 0) as [|Hne]; [eauto|].
    destruct (wf_index k Hk) as [[E _] | Hi]; [by rewrite E in Hne|].
    destruct (lookup_lt_is_Some_2 _ _ Hi) as [p Hp]. rewrite Hp. eauto.
  - intros e f Hc. unfold deploy, uadd, checked_add. kunfold.
    destruct (Z.leb_spec (PID_COUNTER k + 1) usize_max); [|lia]. cbn.
    destruct (parent_state _ _); [|eauto]. destruct (process_from _ _ _); eauto.
Qed.

(** What a new process takes over. *)
Definition inherited (fork_current : bool) k : option (D * fd_table F) :=
  match fork_current, current k with
  | true, Some parent => Some (curr_working_dir parent, proc_fds parent)
  | _, _ => None
  end.

Lemma parent_state_inherited f k : wf k → parent_state f k = inl (inherited f k).
Proof.
  intros Hk. unfold parent_state, inherited, current. destruct f; [|done]. cbn [andb].
  destruct (wf_index k Hk) as [[-> _] | Hi]; [done|].
  destruct (Nat.eqb_spec (length (PROCESSES k)) 0); [lia|]. cbn [negb].
  by destruct (lookup_lt_is_Some_2 _ _ Hi) as [p ->].
Qed.

(** The process [deploy] adds. *)
Definition new_process (e : ProcessEntry G K T) (st : K) (f : bool) k : process :=
  {| pid := PID_COUNTER k; pre_schedule := true; blocking := false;
     awaiting_process := None; sleep_until_tick := None;
     context := user_segments user_code user_data (set_word 18 (initial_rsp e) (set_word 15 (entry e) empty));
     start_region := entry_start_region e;
     curr_working_dir := match inherited f k with Some (cwd, _) => cwd | None => root end;
     stack := st; ring3_page_table := entry_page_table e;
     proc_fds := match inherited f k with Some (_, fds) => fds | None => standard_fd_table end |}.

Lemma deploy_runs k e f st table :
  wf k → PID_COUNTER k < usize_max → entry_stack e = Some st → entry_page_table e = Some table →
  deploy root user_code user_data e f k
  = Done (PID_COUNTER k, set_processes (PROCESSES k ++ [new_process e st f k]) (set_counter (PID_COUNTER k + 1) k)).
Proof.
  intros Hk Hc Es Et. unfold deploy, uadd, checked_add. kunfold.
  destruct (Z.leb_spec (PID_COUNTER k + 1) usize_max); [|lia]. cbn.
  change (parent_state f (set_counter (PID_COUNTER k + 1) k)) with (parent_state f k).
  rewrite parent_state_inherited by done. unfold process_from, new_process. rewrite Es, Et.
  by destruct (inherited f k) as [[cwd fds]|].
Qed.

(** [deploy] adds exactly one process, with a pid no process has or had, that
    starts at the entry point with the given stack pointer in user mode with
    interrupts on; it inherits the working directory and the descriptors of the
    current process when it is forked, and gets the root directory and the standard
    streams otherwise. *)
Theorem deploy_spec k r e fork_current st table :
  reachable (k, r) → PID_COUNTER k < usize_max →
  entry_stack e = Some st → entry_page_table e = Some table →
  ∃ p, deploy root user_code user_data e fork_current k
       = Done (PID_COUNTER k, set_processes (PROCESSES k ++ [p]) (set_counter (PID_COUNTER k + 1) k))
    ∧ pid p = PID_COUNTER k ∧ (∀ q, q ∈ PROCESSES k → pid q < pid p)
    ∧ is_ready (TICKS (CLOCKS k)) (PROCESSES k ++ [p]) p = true
    ∧ rip (context p) = entry e ∧ rsp (context p) = initial_rsp e
    ∧ cs (context p) = user_code ∧ ss (context p) = user_data ∧ rflags (context p) = 0x202
    ∧ match fork_current, current k with
      | true, Some parent => curr_working_dir p = curr_working_dir parent ∧ proc_fds p = proc_fds parent
      | _, _ => curr_working_dir p = root ∧ proc_fds p = standard_fd_table
      end.
Proof.
  intros Hre Hc Es Et. destruct (reachable_inv _ Hre) as [Hk _]. cbn in Hk.
  rewrite (deploy_runs k e fork_current st table Hk Hc Es Et). eexists. split; [done|].
  split_and!; try done.
  - intros q Hq. pose proof (wf_pids k Hk) as Hp. rewrite Forall_forall in Hp.
    pose proof (Hp q Hq). cbn in *. lia.
  - unfold new_process, inherited. destruct fork_current, (current k); done.
Qed.

(** Exiting removes the current process and no other.  The scheduler goes on
    with the process after it, except when the exiting process was the first of
    several: then its successor becomes current and is looked at last. *)
Theorem exit_current_removes k r k' p :
  reachable (k, r) → current k = Some p → exit_current k = Done (tt, k') →
  let n := length (PROCESSES k) in
  (∀ q, q ∈ PROCESSES k' ↔ q ∈ PROCESSES k ∧ pid q ≠ pid p)
  ∧ ((1 < n)%nat →
     PROCESSES k' !! after (n - 1) (CURRENT_INDEX k') 0
     = PROCESSES k !! (if (CURRENT_INDEX k =? 0)%nat then (if (n =? 2)%nat then 1%nat else 2%nat)
                       else after n (CURRENT_INDEX k) 0)).
Proof.
  intros Hre Ep Hx. destruct (reachable_inv _ Hre) as [Hk _]. cbn in Hk.
  destruct (exit_current_cases _ _ Hx) as [[? _] | (p' & Ep' & Hps & Hi & _)]; [congruence|].
  pose proof (lookup_lt_Some _ _ _ Ep) as Hlt. cbn zeta. split.
  - intros q. pose proof (delete_Permutation _ _ _ Ep) as Hperm. rewrite <- Hps in Hperm.
    pose proof (wf_nodup k Hk) as Hn. rewrite Hperm in Hn |- *. cbn in Hn.
    apply NoDup_cons in Hn as [Hn _]. rewrite elem_of_cons. split.
    + intros Hq. split; [by right|]. intros Heq. apply Hn. rewrite <- Heq. by apply list_elem_of_fmap_2.
    + by intros [[-> | ?] ?].
  - intros Hn. rewrite Hps, Hi. unfold after.
    destruct (Nat.eqb_spec (CURRENT_INDEX k) 0) as [-> | ?], (Nat.eqb_spec (length (PROCESSES k)) 2) as [E2 | ?];
      repeat match goal with |- context [(?x <? ?y)%nat] => destruct (Nat.ltb_spec x y); try lia end;
      first [rewrite list_lookup_delete_ge by lia | rewrite list_lookup_delete_lt by lia]; f_equal; lia.
Qed.
End Machine.

(** ** A concrete run: two processes and the timer *)

#[global] Instance unit_memory : ProcMemory unit unit unit unit := {
  mem_ready _ := true;
  switch_table _ := kret (Some tt);
  elf_unmap _ := kret tt;
  free_stack _ := kret tt;
  free_user_subtables _ := kret tt;
  slot_free _ := kret tt;
}.

Abbreviation run_state := (kernel unit unit unit unit unit unit).

Definition state_after {A} (m : kst run_state A) (k : run_state) : run_state :=
  match m k with Done (_, k') => k' | Fault _ => k end.

Definition run_entry (ip : Z) : ProcessEntry unit unit unit :=
  {| entry := ip; entry_start_region := tt; entry_page_table := Some tt; entry_stack := Some tt;
     initial_rsp := 0x7000 |}.
Definition run_frame (ip v : Z) : FullInterruptStackFrame := set_word 9 v (set_word 15 ip empty).

Abbreviation run_deploy e f := (deploy (M := unit) (F := unit) tt 0x1B 0x23 e f).
Definition run0 : run_state := initial {| TICKS := 0; BOOT_UNIX_SECONDS := 0 |} tt.
Definition run1 : run_state := state_after (run_deploy (run_entry 0x400000) false) run0.
Definition run2 : run_state := state_after (run_deploy (run_entry 0x500000) true) run1.
Definition run3 : run_state := state_after enable run2.
(** The timer finds the kernel idle: process 1 starts. *)
Definition run4 : run_state := state_after (timer_isr (run_frame 0x100000 0) None) run3.
(** It interrupts process 1: process 0 starts. *)
Definition run5 : run_state := state_after (timer_isr (run_frame 0x500040 7) None) run4.
(** It interrupts process 0: process 1 goes on. *)
Definition run6 : run_state := state_after (timer_isr (run_frame 0x400010 3) None) run5.

Abbreviation run_step := (step (M := unit) (F := unit) tt 0x1B 0x23).

Lemma run4_reachable : reachable tt 0x1B 0x23 (run4, Some 1).
Proof.
  apply (reach_step _ _ _ (run3, None) (Some (Jump (context (new_process tt 0x1B 0x23 (run_entry 0x500000) tt true run1))))).
  2:{ change (Some 1) with (running run4 (Jump (context (new_process tt 0x1B 0x23 (run_entry 0x500000) tt true run1)))).
      apply (step_timer _ _ _ _ None (run_frame 0x100000 0) None); vm_compute; [discriminate | reflexivity]. }
  apply (reach_step _ _ _ (run2, None) None); [|by apply step_enable].
  apply (reach_step _ _ _ (run1, None) None).
  2:{ apply (step_deploy _ _ _ _ _ (run_entry 0x500000) true 1). vm_compute. reflexivity. }
  apply (reach_step _ _ _ (run0, None) None); [apply reach_boot|].
  apply (step_deploy _ _ _ _ _ (run_entry 0x400000) false 0). vm_compute. reflexivity.
Qed.

Lemma preemption_transparent_witness :
  step tt 0x1B 0x23 (run5, Some 0) (Some (Jump (run_frame 0x500040 7))) (run6, Some 1)
  ∧ run_frame 0x500040 7 = run_frame 0x500040 7.
Proof.
  assert (Hs : run_step (run5, Some 0) (Some (Jump (run_frame 0x500040 7))) (run6, Some 1)).
  { change (Some 1) with (running run6 (Jump (run_frame 0x500040 7))).
    apply (step_timer _ _ _ _ (Some 0) (run_frame 0x400010 3) None); vm_compute; reflexivity. }
  split; [exact Hs|].
  apply (preemption_transparent tt 0x1B 0x23 1 run4 (run_frame 0x500040 7) None
           (Jump (user_segments 0x1B 0x23 (set_word 18 0x7000 (set_word 15 0x400000 empty)))) run5 (run5, Some 0)
           (run_frame 0x500040 7) run6).
  - apply run4_reachable.
  - vm_compute. reflexivity.
  - vm_compute. reflexivity.
  - vm_compute. discriminate.
  - apply avoids_refl.
  - exact Hs.
Defined.

(** Process 1 reads from standard input; an input interrupt finds process 0. *)
Definition run5' : run_state := state_after (read_stdin (run_frame 0x500040 7)) run4.
Definition run6' : run_state := state_after (timer_isr (run_frame 0x400010 3) (Some 65)) run5'.

Lemma read_stdin_resumes_with_input_witness :
  current run5' ≠ None ∧ ∃ input, set_rax 65 (run_frame 0x500040 7) = set_rax input (run_frame 0x500040 7).
Proof.
  split; [vm_compute; discriminate|].
  apply (read_stdin_resumes_with_input tt 0x1B 0x23 1 run4 (run_frame 0x500040 7)
           (Jump (user_segments 0x1B 0x23 (set_word 18 0x7000 (set_word 15 0x400000 empty)))) run5' (run5', Some 0)
           (set_rax 65 (run_frame 0x500040 7)) run6').
  - apply run4_reachable.
  - vm_compute. reflexivity.
  - vm_compute. reflexivity.
  - vm_compute. discriminate.
  - apply avoids_refl.
  - change (Some 1) with (running run6' (Jump (set_rax 65 (run_frame 0x500040 7)))).
    apply (step_timer _ _ _ _ (Some 0) (run_frame 0x400010 3) (Some 65)); vm_compute; reflexivity.
Defined.

(** The first process of [run4] is scheduled while the second is ready. *)
Definition run4_next : run_state := state_after (next_process None) run4.

Lemma run4_passed : passed_over 1 1 run4 run4_next.
Proof.
  destruct (PROCESSES run4 !! 1%nat) as [p|] eqn:Ep; [|by vm_compute in Ep].
  destruct (next_process None run4) as [[[r|] k3]|] eqn:En; [|by vm_compute in En..].
  assert (k3 = run4_next) as -> by (unfold run4_next, state_after; by rewrite En).
  destruct (reachable_inv _ _ _ _ run4_reachable) as [Hwf _].
  assert (pid p = 1) as Hp by (vm_compute in Ep; injection Ep as <-; reflexivity).
  assert (pid r ≠ 1) as Hr by (vm_compute in En; injection En as <-; discriminate).
  assert (ready_at (saved None run4) 1 = true) as Hready by (vm_compute; reflexivity).
  exact (passed_more 1 0 run4 run4 run4 None r run4_next 1 p (passed_none _ _) Hwf eq_refl eq_refl
           Ep Hp Hready En Hr).
Qed.


Lemma next_process_round_robin_witness : ∃ chosen k', next_process None run4 = Done (chosen, k').
Proof.
  destruct (next_process_round_robin tt 0x1B 0x23 run4 (Some 1) None) as (chosen & k' & E & _).
  - apply run4_reachable.
  - vm_compute. discriminate.
  - by exists chosen, k'.
Defined.

Lemma scheduler_never_panics_witness : ∃ k', block_current run4 = Done (tt, k').
Proof.
  destruct (scheduler_never_panics tt 0x1B 0x23 run4 (Some 1) run4_reachable) as (_ & Hb & _).
  exact Hb.
Defined.

Lemma deploy_spec_witness :
  ∃ p, run_deploy (run_entry 0x600000) true run4
       = Done (2, set_processes (PROCESSES run4 ++ [p]) (set_counter 3 run4)).
Proof.
  destruct (deploy_spec tt 0x1B 0x23 run4 (Some 1) (run_entry 0x600000) true tt tt run4_reachable)
    as (p & E & _); [vm_compute; reflexivity | reflexivity | reflexivity |].
  exists p. exact E.
Defined.

Lemma exit_current_removes_witness :
  CURRENT_INDEX (state_after exit_current run4) = 0%nat
  ∧ ∀ q, q ∈ PROCESSES (state_after exit_current run4) ↔ q ∈ PROCESSES run4 ∧ pid q ≠ 1.
Proof.
  split; [vm_compute; reflexivity|].
  destruct (current run4) as [p|] eqn:Ep; [|by vm_compute in Ep].
  assert (pid p = 1) as Hp by (vm_compute in Ep; by simplify_eq).
  destruct (exit_current_removes tt 0x1B 0x23 run4 (Some 1) (state_after exit_current run4) p
              run4_reachable Ep) as [Hq _]; [vm_compute; reflexivity|].
  rewrite Hp in Hq. exact Hq.
Defined.
