(* ===== verification/Heap.v ===== *)
(** * Heap: the kernel heap (src/src/mem/heap.rs)

    The allocator keeps its block headers inside the heap, each in front of the
    memory it describes, linked by address.  [headers] is that memory: the header
    that was last written at an address.  References are addresses; following one
    that holds no header is [Undefined].  [fit] and [free_block] are what the
    operations do to the list of blocks, seen as a tiling of the heap. *)

From S2P Require Import Prelude.

(** ** Data *)

(** [size_of::<Block>()] and [align_of::<Block>()]: three words and a flag. *)
Definition BLOCK_SIZE : Z := 32.
Definition BLOCK_ALIGN : Z := 8.

Record Block := {
  blk_next : option Z;
  blk_used : bool;
  blk_size : Z;
  blk_address : Z;
}.

Definition Block_new (address size : Z) : Block :=
  {| blk_next := None; blk_used := false; blk_size := size; blk_address := address |}.

Record LinkedListHeap := {
  heap_start : Z;
  heap_end : Z;
  heap_size : Z;
  head : Block;
  (** the memory of the heap, as far as it holds headers *)
  headers : gmap Z Block;
}.

Definition empty_heap : LinkedListHeap :=
  {| heap_start := 0; heap_end := 0; heap_size := 0; head := Block_new 0 0; headers := ∅ |}.

Definition HEAP_START : Z := 2 * 8 ^ 11.
Definition HEAP_SIZE : Z := 16 * 1024 * 1024.

Abbreviation hm := (kst LinkedListHeap).

Definition set_headers (m : gmap Z Block) (h : LinkedListHeap) : LinkedListHeap :=
  {| heap_start := heap_start h; heap_end := heap_end h; heap_size := heap_size h; head := head h;
     headers := m |}.
Definition set_head (p : option Z) (h : LinkedListHeap) : LinkedListHeap :=
  {| heap_start := heap_start h; heap_end := heap_end h; heap_size := heap_size h;
     head := {| blk_next := p; blk_used := blk_used (head h); blk_size := blk_size (head h);
                blk_address := blk_address (head h) |};
     headers := headers h |}.

Definition load (a : Z) : hm Block := λ h,
  match headers h !! a with Some b => Done (b, h) | None => Fault Undefined end.
Definition store (a : Z) (b : Block) : hm unit := kmodify (λ h, set_headers (<[a := b]> (headers h)) h).

Definition with_next (p : option Z) (b : Block) : Block :=
  {| blk_next := p; blk_used := blk_used b; blk_size := blk_size b; blk_address := blk_address b |}.
Definition with_used (u : bool) (b : Block) : Block :=
  {| blk_next := blk_next b; blk_used := u; blk_size := blk_size b; blk_address := blk_address b |}.
Definition with_size (n : Z) (b : Block) : Block :=
  {| blk_next := blk_next b; blk_used := blk_used b; blk_size := n; blk_address := blk_address b |}.

(** ** Operations *)

Definition is_power_of_two (n : Z) : bool := (0 <? n) && (Z.land n (n - 1) =? 0).

Definition align_down (addr align : Z) : hm Z :=
  if is_power_of_two align then kret (Z.land addr (Z.lnot (align - 1)))
  else if align =? 0 then kret addr
  else kfault Panic.

Definition align_up (addr align : Z) : hm Z :=
  let* a := uadd addr align in
  let* a := usub a 1 in
  align_down a align.

Definition create_block (addr size : Z) : hm (option Z) :=
  let* aligned := align_up addr BLOCK_ALIGN in
  if negb (aligned =? addr) || negb (BLOCK_SIZE <=? size) then kret None
  else store addr (Block_new addr size) ;;* kret (Some addr).

(** One turn of the loop of [allocate_internal]; its variable is [head.next]. *)
Definition allocate_step (size : Z) (cur : option Z) : hm (option Z + option Z) :=
  match cur with
  | None => kret (inr None)
  | Some b =>
      let* block := load b in
      if negb (blk_used block) && (blk_size block =? size) then
        store b (with_used true block) ;;*
        let* addr := uadd (blk_address block) BLOCK_SIZE in
        kret (inr (Some addr))
      else if negb (blk_used block) && (size <? blk_size block) then
        let remainder_size := blk_size block - size in
        let* remainder_addr := uadd (blk_address block) size in
        let* created := create_block remainder_addr remainder_size in
        match created with
        | None => kret (inl (blk_next block))
        | Some r =>
            let* remainder_next := load r in
            store r (with_next (blk_next block) remainder_next) ;;*
            store b (with_size size (with_used true (with_next (Some r) block))) ;;*
            let* addr := uadd (blk_address block) BLOCK_SIZE in
            kret (inr (Some addr))
        end
      else kret (inl (blk_next block))
  end.

(** Blocks are at least [BLOCK_SIZE] long, which bounds their number. *)
Definition allocate_fuel (h : LinkedListHeap) : nat := S (Z.to_nat (heap_size h / BLOCK_SIZE)).

Definition allocate_internal (size _align : Z) : hm (option Z) :=
  let* h := kget in
  loopM (allocate_fuel h) (allocate_step size) (blk_next (head h)).

Definition merge_right (b : Z) : hm unit :=
  let* block := load b in
  match blk_next block with
  | None => kret tt
  | Some n =>
      let* next := load n in
      if blk_used next then kret tt
      else
        let* new_size := uadd (blk_size block) (blk_size next) in
        store b (with_size new_size block) ;;*
        match blk_next next with
        | None => store b (with_next None (with_size new_size block))
        | Some nn =>
            let* new_next := load nn in
            store b (with_next (Some (blk_address new_next)) (with_size new_size block))
        end
  end.

Definition dealloc_internal (addr _size : Z) : hm unit :=
  let* b := usub addr BLOCK_SIZE in
  let* block := load b in
  store b (with_used false block) ;;*
  merge_right b ;;*
  let* block := load b in
  let* h := kget in
  if blk_address (head h) <=? blk_address block then kret tt
  else kmodify (set_head (Some b)).

(** [Layout::align_to], [pad_to_align]: rounding up to the larger alignment; the
    rounded size of a layout is at most [isize::MAX]. *)
Definition round_up (n align : Z) : Z := (n + align - 1) / align * align.

Definition block_align_size (size align : Z) : hm (Z * Z) :=
  let align := Z.max align BLOCK_ALIGN in
  if isize_max - (align - 1) <? size then kfault Panic
  else
    let* total := uadd (round_up size align) BLOCK_SIZE in
    kret (total, align).

(** [GlobalAlloc]; a null pointer is [None]. *)
Definition alloc (size align : Z) : hm (option Z) :=
  let* r := block_align_size size align in
  allocate_internal r.1 r.2.

Definition dealloc (ptr size : Z) : hm unit := dealloc_internal ptr size.

(** [Allocator]: a slice of the layout's size; [NonNull::new] refuses address 0. *)
Definition allocate (size align : Z) : hm (option (Z * Z)) :=
  let* r := block_align_size size align in
  let* block := allocate_internal r.1 r.2 in
  match block with
  | None => kret None
  | Some block => if block =? 0 then kfault Panic else kret (Some (block, size))
  end.

Definition deallocate (ptr size : Z) : hm unit := dealloc_internal ptr size.

Definition heap_init (start end_ : Z) : hm unit :=
  let* size := usub end_ start in
  let* created := create_block start size in
  match created with
  | None => kfault Panic
  | Some b =>
      kmodify (λ h, set_head (Some b)
        {| heap_start := start; heap_end := end_; heap_size := size; head := head h; headers := headers h |})
  end.

Definition init_heap : hm unit := heap_init HEAP_START (HEAP_START + HEAP_SIZE).

(** ** The blocks of a heap *)

Record blk := { b_addr : Z; b_size : Z; b_used : bool }.

(** The headers of [bs] are in memory, linked from [p]. *)
Fixpoint linked (m : gmap Z Block) (p : option Z) (bs : list blk) : Prop :=
  match bs with
  | [] => p = None
  | b :: bs => p = Some (b_addr b) ∧ ∃ nx,
      m !! b_addr b = Some {| blk_next := nx; blk_used := b_used b; blk_size := b_size b; blk_address := b_addr b |}
      ∧ linked m nx bs
  end.

(** They tile the range from [a] to [e], each large enough for a header. *)
Fixpoint tiling (a e : Z) (bs : list blk) : Prop :=
  match bs with
  | [] => a = e
  | b :: bs => b_addr b = a ∧ BLOCK_SIZE ≤ b_size b ∧ (BLOCK_ALIGN | b_size b) ∧ tiling (a + b_size b) e bs
  end.

(** First fit. *)
Fixpoint fit (size : Z) (bs : list blk) : option (Z * list blk) :=
  match bs with
  | [] => None
  | b :: r =>
      if negb (b_used b) && (b_size b =? size) then
        Some (b_addr b, {| b_addr := b_addr b; b_size := size; b_used := true |} :: r)
      else if negb (b_used b) && (size + BLOCK_SIZE <=? b_size b) then
        Some (b_addr b, {| b_addr := b_addr b; b_size := size; b_used := true |}
                        :: {| b_addr := b_addr b + size; b_size := b_size b - size; b_used := false |} :: r)
      else '(a, r) ← fit size r; Some (a, b :: r)
  end.

(** Freeing, with the block to the right taken in when it is free. *)
Fixpoint free_block (a : Z) (bs : list blk) : list blk :=
  match bs with
  | [] => []
  | b :: r =>
      if b_addr b =? a then
        match r with
        | n :: r' =>
            if b_used n then {| b_addr := a; b_size := b_size b; b_used := false |} :: r
            else {| b_addr := a; b_size := b_size b + b_size n; b_used := false |} :: r'
        | [] => [{| b_addr := a; b_size := b_size b; b_used := false |}]
        end
      else b :: free_block a r
  end.

Record repr (h : LinkedListHeap) (bs : list blk) : Prop := {
  repr_linked : linked (headers h) (blk_next (head h)) bs;
  repr_tiling : tiling (heap_start h) (heap_end h) bs;
  repr_bounds : 0 < heap_start h ∧ heap_end h ≤ isize_max;
  repr_align : (BLOCK_ALIGN | heap_start h);
  repr_size : heap_size h = heap_end h - heap_start h;
  repr_head : blk_address (head h) = 0;
}.

(** ** Alignment *)

Lemma power_of_two n : is_power_of_two n = true → ∃ k, 0 ≤ k ∧ n = 2 ^ k.
Proof.
  unfold is_power_of_two. intros [H0%Z.ltb_lt Hl%Z.eqb_eq]%andb_true_iff.
  exists (Z.log2 n). split; [apply Z.log2_nonneg|].
  destruct (Z.log2_spec n H0) as [Hlo Hhi]. rewrite Z.pow_succ_r in Hhi by apply Z.log2_nonneg.
  destruct (decide (n = 2 ^ Z.log2 n)) as [|Hne]; [done|]. exfalso.
  assert (Hbit : Z.testbit (Z.land n (n - 1)) (Z.log2 n) = true).
  { rewrite Z.land_spec, Z.bit_log2 by done. cbn.
    assert (0 < 2 ^ Z.log2 n) by (apply Z.pow_pos_nonneg; [lia | apply Z.log2_nonneg]).
    rewrite <- (Z.log2_unique (n - 1) (Z.log2 n)) at 1.
    - apply Z.bit_log2. lia.
    - apply Z.log2_nonneg.
    - rewrite Z.pow_succ_r by apply Z.log2_nonneg. lia. }
  by rewrite Hl, Z.bits_0 in Hbit.
Qed.

Lemma is_power_of_two_pow k : 0 ≤ k → is_power_of_two (2 ^ k) = true.
Proof.
  intros Hk. unfold is_power_of_two. apply andb_true_iff. split.
  - apply Z.ltb_lt. by apply Z.pow_pos_nonneg.
  - apply Z.eqb_eq. rewrite land_mask by done. apply Z.mod_same. by apply Z.pow_nonzero.
Qed.

Lemma align_down_pow addr k h : 0 ≤ k → align_down addr (2 ^ k) h = Done (addr / 2 ^ k * 2 ^ k, h).
Proof.
  intros Hk. unfold align_down. rewrite is_power_of_two_pow by done. unfold kret. do 2 f_equal.
  rewrite <- Z.ldiff_land. replace (2 ^ k - 1) with (Z.ones k) by (rewrite Z.ones_equiv; lia).
  by rewrite Z.ldiff_ones_r, Z.shiftl_mul_pow2, Z.shiftr_div_pow2.
Qed.

Lemma align_up_8 addr h : 0 ≤ addr → addr + 8 ≤ usize_max → (8 | addr) → align_up addr BLOCK_ALIGN h = Done (addr, h).
Proof.
  intros H0 Hb [q Hq]. unfold align_up, BLOCK_ALIGN.
  rewrite (kbind_done _ _ _ _ _ (uadd_ok addr 8 h Hb)).
  rewrite (kbind_done _ _ _ _ _ (usub_ok (addr + 8) 1 h ltac:(lia))).
  change 8 with (2 ^ 3). rewrite align_down_pow by lia. do 2 f_equal. change (2 ^ 3) with 8.
  pose proof (Z.div_mod (addr + 8 - 1) 8). pose proof (Z.mod_pos_bound (addr + 8 - 1) 8). lia.
Qed.

Lemma create_block_ok addr size h :
  0 ≤ addr → addr + 8 ≤ usize_max → (8 | addr) →
  create_block addr size h =
    if BLOCK_SIZE <=? size then Done (Some addr, set_headers (<[addr := Block_new addr size]> (headers h)) h)
    else Done (None, h).
Proof.
  intros H0 Hb Hd. unfold create_block. rewrite (kbind_done _ _ _ _ _ (align_up_8 addr h H0 Hb Hd)).
  rewrite Z.eqb_refl. cbn [negb orb]. by destruct (BLOCK_SIZE <=? size).
Qed.

(** ** Tilings *)

Lemma tiling_le a e bs : tiling a e bs → a + BLOCK_SIZE * Z.of_nat (length bs) ≤ e.
Proof.
  revert a. induction bs as [|b r IH]; intros a; cbn [tiling length]; [lia|].
  intros (_ & Hs & _ & Hr). pose proof (IH _ Hr). unfold BLOCK_SIZE in *. lia.
Qed.

Lemma tiling_range a e bs b : tiling a e bs → b ∈ bs → a ≤ b_addr b ∧ b_addr b + b_size b ≤ e.
Proof.
  revert a. induction bs as [|b' r IH]; intros a; cbn [tiling]; [by intros _ ?%elem_of_nil|].
  intros (Ha & Hs & _ & Hr) [->|Hb]%elem_of_cons.
  - pose proof (tiling_le _ _ _ Hr). unfold BLOCK_SIZE in *. lia.
  - pose proof (IH _ Hr Hb). unfold BLOCK_SIZE in *. lia.
Qed.

Lemma tiling_app a e l r : tiling a e (l ++ r) ↔ ∃ m, tiling a m l ∧ tiling m e r.
Proof.
  revert a. induction l as [|b l IH]; intros a; cbn [app tiling].
  - split; [eauto | by intros (m & -> & ?)].
  - rewrite (IH (a + b_size b)). split.
    + intros (? & ? & ? & m & ? & ?). eauto 10.
    + intros (m & (? & ? & ? & ?) & ?). eauto 10.
Qed.

(** ** Headers in memory *)

Lemma linked_agree m m' p bs :
  linked m p bs → (∀ b, b ∈ bs → m' !! b_addr b = m !! b_addr b) → linked m' p bs.
Proof.
  revert p. induction bs as [|b r IH]; intros p; cbn [linked]; [done|].
  intros (-> & nx & Hb & Hr) Hag. split; [done|]. exists nx. split.
  - rewrite Hag by constructor. done.
  - apply IH; [done|]. intros. apply Hag. by constructor.
Qed.

Lemma linked_agree_tiling m m' p a e bs x :
  linked m p bs → tiling a e bs → x < a → (∀ y, y ≠ x → m' !! y = m !! y) → linked m' p bs.
Proof.
  intros Hl Ht Hx Hag. apply (linked_agree m); [done|]. intros b Hb. apply Hag.
  pose proof (tiling_range _ _ _ _ Ht Hb). lia.
Qed.

(** Replacing everything from a block on. *)
Lemma linked_app m m' p l b r r' :
  linked m p (l ++ b :: r) → (∀ b', b' ∈ l → m' !! b_addr b' = m !! b_addr b') →
  linked m' (Some (b_addr b)) r' → linked m' p (l ++ r').
Proof.
  revert p. induction l as [|b' l IH]; intros p; cbn [app linked].
  - by intros (-> & _).
  - intros (-> & nx & Hb & Hr) Hag Hr'. split; [done|]. exists nx. split.
    + rewrite Hag by constructor. done.
    + apply IH; auto. intros. apply Hag. by constructor.
Qed.

Lemma linked_mid m p l b r :
  linked m p (l ++ b :: r) → linked m (Some (b_addr b)) (b :: r).
Proof.
  revert p. induction l as [|b' l IH]; intros p; cbn [app].
  - intros Hl. pose proof Hl as [-> _]. done.
  - cbn [linked]. intros (_ & nx & _ & Hr). by apply (IH nx).
Qed.

(** ** Allocation is first fit *)

Definition block_of (b : blk) (nx : option Z) : Block :=
  {| blk_next := nx; blk_used := b_used b; blk_size := b_size b; blk_address := b_addr b |}.

Lemma linked_cons m p b r :
  linked m p (b :: r) ↔ p = Some (b_addr b) ∧ ∃ nx, m !! b_addr b = Some (block_of b nx) ∧ linked m nx r.
Proof. done. Qed.

(** What the loop promises for a rest of the list that starts at [a]. *)
Definition allocated (size a : Z) (cur : option Z) (bs : list blk) (h h' : LinkedListHeap) : Prop :=
  linked (headers h') cur (match fit size bs with Some r => r.2 | None => bs end)
  ∧ (∀ x, x < a → headers h' !! x = headers h !! x) ∧ h' = set_headers (headers h') h.

Lemma allocate_step_exact size b nx h :
  headers h !! b_addr b = Some (block_of b nx) → b_used b = false → b_size b = size →
  b_addr b + BLOCK_SIZE ≤ usize_max →
  allocate_step size (Some (b_addr b)) h
  = Done (inr (Some (b_addr b + BLOCK_SIZE)),
          set_headers (<[b_addr b := with_used true (block_of b nx)]> (headers h)) h).
Proof.
  intros Hb Hu Hs Hm. unfold allocate_step, load, store. kunfold. rewrite Hb. cbn. rewrite Hu, Hs, Z.eqb_refl. cbn.
  unfold uadd, checked_add. rewrite (proj2 (Z.leb_le _ _)) by done. done.
Qed.

Lemma allocate_step_skip size b nx h :
  headers h !! b_addr b = Some (block_of b nx) →
  b_used b = true ∨ b_size b < size + BLOCK_SIZE ∧ b_size b ≠ size →
  0 ≤ b_addr b → b_addr b + size + 8 ≤ usize_max → 0 ≤ size → (8 | b_addr b) → (8 | size) →
  allocate_step size (Some (b_addr b)) h = Done (inl nx, h).
Proof.
  intros Hb Hu Ha Hm Hs0 Hd Hd'. unfold allocate_step, load. kunfold. rewrite Hb. cbn.
  destruct (b_used b); [done|]. destruct Hu as [|[Hs Hne]]; [done|]. cbn.
  rewrite (proj2 (Z.eqb_neq _ _)) by done.
  destruct (Z.ltb_spec size (b_size b)); [|done].
  unfold uadd, checked_add. rewrite (proj2 (Z.leb_le _ _)) by lia. cbn.
  rewrite create_block_ok; [|lia|lia|by apply Z.divide_add_r].
  rewrite (proj2 (Z.leb_gt _ _)) by lia. done.
Qed.

Lemma allocate_step_split size b nx h :
  headers h !! b_addr b = Some (block_of b nx) → b_used b = false → size + BLOCK_SIZE ≤ b_size b →
  0 ≤ b_addr b → b_addr b + size + 8 ≤ usize_max → BLOCK_SIZE ≤ size → (8 | b_addr b) → (8 | size) →
  allocate_step size (Some (b_addr b)) h
  = Done (inr (Some (b_addr b + BLOCK_SIZE)),
      set_headers (<[b_addr b := block_of {| b_addr := b_addr b; b_size := size; b_used := true |} (Some (b_addr b + size))]>
                  (<[b_addr b + size := block_of {| b_addr := b_addr b + size; b_size := b_size b - size; b_used := false |} nx]>
                   (headers h))) h).
Proof.
  intros Hb Hu Hs Ha Hm Hs0 Hd Hd'. unfold BLOCK_SIZE in *. unfold allocate_step, load, store. kunfold.
  rewrite Hb. cbn. rewrite Hu. cbn. rewrite (proj2 (Z.eqb_neq _ _)) by lia.
  rewrite (proj2 (Z.ltb_lt _ _)) by lia. unfold uadd, checked_add. rewrite (proj2 (Z.leb_le _ _)) by lia. cbn.
  rewrite create_block_ok; [|lia|lia|by apply Z.divide_add_r].
  rewrite (proj2 (Z.leb_le _ _)) by (unfold BLOCK_SIZE; lia). cbn. rewrite lookup_insert_eq. cbn.
  unfold BLOCK_SIZE. rewrite (proj2 (Z.leb_le _ _)) by lia. unfold kret. do 2 f_equal. unfold set_headers. cbn.
  f_equal. by rewrite insert_insert_eq.
Qed.

Lemma allocate_loop size bs :
  BLOCK_SIZE ≤ size → (8 | size) → size + 8 ≤ isize_max →
  ∀ a e cur fuel h,
  linked (headers h) cur bs → tiling a e bs → 0 < a → (8 | a) → e ≤ isize_max → (length bs < fuel)%nat →
  ∃ h', loopM fuel (allocate_step size) cur h = Done ((λ r, r.1 + BLOCK_SIZE) <$> fit size bs, h')
    ∧ allocated size a cur bs h h'.
Proof.
  intros Hs Hd Hmax. assert (HB : BLOCK_SIZE = 32) by done. assert (HM : usize_max = 2 ^ 64 - 1) by done.
  assert (HI : isize_max = 2 ^ 63 - 1) by done. induction bs as [|b r IH]; intros a e cur fuel h Hl Ht Ha Hda He Hf; (destruct fuel as [|fuel]; [cbn in Hf; lia|]);
    cbn [loopM].
  - cbn [linked] in Hl. subst cur. exists h. split; [done|]. split; [done|]. split; [done|]. by destruct h.
  - pose proof (tiling_range _ _ _ b Ht ltac:(constructor)) as Hr.
    apply linked_cons in Hl as (-> & nx & Hb & Hl). cbn [tiling] in Ht. destruct Ht as (Hab & Hsz & Hdz & Ht).
    unfold allocated. cbn [fit]. destruct (negb (b_used b) && (b_size b =? size)) eqn:E1; [|destruct (negb (b_used b) && (size + BLOCK_SIZE <=? b_size b)) eqn:E2].
    + bool_to_prop. erewrite kbind_done by (apply (allocate_step_exact _ _ nx); auto; lia).
      eexists. split; [reflexivity|]. cbn [fst snd fmap option_fmap option_map set_headers headers]. split_and!; [|intros; by rewrite lookup_insert_ne by lia|done].
      apply linked_cons. split; [done|]. exists nx. cbn. rewrite lookup_insert_eq. split; [unfold with_used, block_of; cbn; congruence|].
      apply (linked_agree_tiling (headers h) _ _ (a + b_size b) e r a); auto; [lia|]. intros. by rewrite lookup_insert_ne by congruence.
    + bool_to_prop. erewrite kbind_done by (apply (allocate_step_split _ _ nx); auto; try lia; congruence).
      eexists. split; [reflexivity|]. cbn [fst snd fmap option_fmap option_map set_headers headers]. split_and!; [|intros; by rewrite !lookup_insert_ne by lia|done].
      apply linked_cons. split; [done|]. eexists. cbn [b_addr]. rewrite lookup_insert_eq. split; [done|].
      apply linked_cons. split; [done|]. exists nx. cbn [b_addr]. rewrite lookup_insert_ne, lookup_insert_eq by lia. split; [done|].
      apply (linked_agree (headers h)); [done|]. intros b' Hb'. pose proof (tiling_range _ _ _ _ Ht Hb').
      by rewrite !lookup_insert_ne by lia.
    + erewrite kbind_done.
      2:{ apply (allocate_step_skip _ _ nx); auto; try lia; [|congruence].
          destruct (b_used b); [by left|right]. cbn in E1, E2. bool_to_prop. lia. }
      destruct (IH (a + b_size b) e nx fuel h) as (h' & E & Hl' & Hag & Eh); auto; [lia|by apply Z.divide_add_r|cbn in Hf; lia|].
      exists h'. cbn beta iota. rewrite E. destruct (fit size r) as [[p r']|]; (split; [done|]); (split; [|split; [intros; apply Hag; lia|done]]);
        apply linked_cons; (split; [done|]); exists nx; rewrite Hag by lia; done.
Qed.

Lemma fit_tiling size bs a e p bs' :
  BLOCK_SIZE ≤ size → (8 | size) → tiling a e bs → fit size bs = Some (p, bs') → tiling a e bs'.
Proof.
  intros Hs Hd. revert a bs'. induction bs as [|b r IH]; intros a bs'; cbn [fit tiling]; [done|].
  intros (Ha & Hsz & Hdz & Ht). unfold BLOCK_ALIGN in *.
  destruct (negb (b_used b) && (b_size b =? size)) eqn:E1;
    [|destruct (negb (b_used b) && (size + BLOCK_SIZE <=? b_size b)) eqn:E2].
  - intros [= <- <-]. bool_to_prop. cbn. subst. auto.
  - intros [= <- <-]. bool_to_prop. cbn [tiling b_addr b_size]. split_and!; try lia; try done.
    + by apply Z.divide_sub_r.
    + by replace (a + size + (b_size b - size)) with (a + b_size b) by lia.
  - destruct (fit size r) as [[p' r']|]; [|done]. intros [= <- <-]. cbn. eauto.
Qed.

Lemma repr_length h bs : repr h bs → (length bs < allocate_fuel h)%nat.
Proof.
  intros [_ Ht Hb _ Hs _]. pose proof (tiling_le _ _ _ Ht). unfold allocate_fuel.
  assert (Z.of_nat (length bs) ≤ heap_size h / BLOCK_SIZE); [|lia].
  apply Z.div_le_lower_bound; unfold BLOCK_SIZE in *; lia.
Qed.

Lemma allocate_internal_ok h bs size align :
  repr h bs → BLOCK_SIZE ≤ size → (8 | size) → size + 8 ≤ isize_max →
  ∃ h', allocate_internal size align h = Done ((λ r, r.1 + BLOCK_SIZE) <$> fit size bs, h')
    ∧ repr h' (match fit size bs with Some r => r.2 | None => bs end)
    ∧ heap_start h' = heap_start h ∧ heap_end h' = heap_end h.
Proof.
  intros Hr Hs Hd Hm. pose proof Hr as [Hl Ht [Hb0 Hb1] Ha Hsz Hh].
  destruct (allocate_loop size bs Hs Hd Hm (heap_start h) (heap_end h) _ (allocate_fuel h) h Hl Ht Hb0 Ha Hb1
              (repr_length h bs Hr)) as (h' & E & Hl' & _ & Eh).
  exists h'. split; [exact E|]. rewrite Eh. split; [|done]. split; cbn; auto.
  destruct (fit size bs) as [[p bs']|] eqn:F; [|done]. by eapply fit_tiling.
Qed.

(** ** Freeing *)

Lemma store_ok a b h : store a b h = Done (tt, set_headers (<[a := b]> (headers h)) h).
Proof. done. Qed.

Lemma load_ok a b h : headers h !! a = Some b → load a h = Done (b, h).
Proof. intros E. unfold load. by rewrite E. Qed.

Lemma kbind_ret {S A B} (a : A) (k : A → kst S B) s : kbind (kret a) k s = k a s.
Proof. done. Qed.

Definition freed (b : blk) : blk := {| b_addr := b_addr b; b_size := b_size b; b_used := false |}.

(** [merge_right] on a free block, by what follows it. *)
Lemma merge_right_ok b r a e h :
  linked (headers h) (Some (b_addr b)) (b :: r) → tiling a e (b :: r) → 0 < a → e ≤ isize_max → b_used b = false →
  ∃ nx' sz, merge_right (b_addr b) h
    = Done (tt, set_headers (<[b_addr b := block_of {| b_addr := b_addr b; b_size := sz; b_used := false |} nx']> (headers h)) h)
    ∧ match r with
      | n :: r' => if b_used n then sz = b_size b ∧ linked (headers h) nx' r
                   else sz = b_size b + b_size n ∧ linked (headers h) nx' r'
      | [] => sz = b_size b ∧ nx' = None
      end.
Proof.
  intros Hl Ht Ha He Hu. apply linked_cons in Hl as (_ & nx & Hb & Hl).
  assert (Hsame : ∀ h', headers h' !! b_addr b = Some (block_of b nx) →
    h' = set_headers (<[b_addr b := block_of {| b_addr := b_addr b; b_size := b_size b; b_used := false |} nx]> (headers h')) h').
  { intros h' Hb'. destruct h'. unfold set_headers. cbn in *. f_equal. rewrite insert_id; [done|].
    rewrite Hb'. unfold block_of. cbn. by rewrite Hu. }
  unfold merge_right. rewrite (kbind_done _ _ _ _ _ (load_ok _ _ _ Hb)). cbn [block_of blk_next].
  destruct r as [|n r].
  { cbn in Hl. subst nx. exists None, (b_size b). split; [|done]. unfold kret. do 2 f_equal. by apply Hsame. }
  apply linked_cons in Hl as (-> & nn & Hn & Hl). rewrite (kbind_done _ _ _ _ _ (load_ok _ _ _ Hn)).
  cbn [block_of blk_used]. destruct (b_used n) eqn:Hun.
  { exists (Some (b_addr n)), (b_size b). split; [|split; [done|]].
    - unfold kret. do 2 f_equal. by apply Hsame.
    - apply linked_cons. split; [done|]. exists nn. split; [|done]. rewrite Hn. unfold block_of. by rewrite ?Hun. }
  exists nn, (b_size b + b_size n). split; [|done].
  pose proof (tiling_le _ _ _ Ht) as Hle. cbn [tiling] in Ht. destruct Ht as (Hba & Hbs & _ & Hna & Hns & _ & Ht).
  pose proof (tiling_le _ _ _ Ht). unfold isize_max, BLOCK_SIZE in *.
  cbn [block_of blk_size]. rewrite (kbind_done _ _ _ _ _ (uadd_ok (b_size b) (b_size n) h ltac:(unfold usize_max; lia))).
  rewrite (kbind_done _ _ _ _ _ (store_ok _ _ _)). cbn [blk_next].
  destruct r as [|b3 r].
  - cbn in Hl. subst nn. rewrite store_ok. cbn [headers set_headers]. rewrite insert_insert_eq.
    unfold with_next, with_size, block_of. cbn. by rewrite Hu.
  - apply linked_cons in Hl as (-> & n3 & Hb3 & Hl). cbn [tiling] in Ht. destruct Ht as (H3a & _).
    erewrite kbind_done by (apply load_ok; cbn; rewrite lookup_insert_ne by lia; exact Hb3). cbn [block_of blk_address].
    rewrite store_ok. cbn [headers set_headers]. rewrite insert_insert_eq.
    unfold with_next, with_size, block_of. cbn. by rewrite Hu.
Qed.

(** The list after freeing [b] in front of [r]. *)
Definition merged (b : blk) (r : list blk) : list blk :=
  match r with
  | n :: r' => if b_used n then freed b :: r
               else {| b_addr := b_addr b; b_size := b_size b + b_size n; b_used := false |} :: r'
  | [] => [freed b]
  end.

Lemma free_block_app l b r a e :
  tiling a e (l ++ b :: r) → free_block (b_addr b) (l ++ b :: r) = l ++ merged b r.
Proof.
  revert a. induction l as [|b' l IH]; intros a; cbn [app free_block].
  - intros _. rewrite Z.eqb_refl. unfold merged, freed. destruct r as [|n r]; [done|]. by destruct (b_used n).
  - intros Ht. cbn [tiling] in Ht. destruct Ht as (Ha & Hs & _ & Ht).
    assert (b ∈ l ++ b :: r) as Hin by (apply elem_of_app; right; constructor).
    pose proof (tiling_range _ _ _ b Ht Hin).
    unfold BLOCK_SIZE in *. rewrite (proj2 (Z.eqb_neq _ _)) by lia. f_equal. by apply (IH (a + b_size b')).
Qed.

Lemma merged_tiling b r a e : tiling a e (b :: r) → tiling a e (merged b r).
Proof.
  cbn [tiling]. intros (Ha & Hs & Hd & Ht). destruct r as [|n r]; cbn [merged tiling freed b_addr b_size]; [auto|].
  destruct (b_used n); [by auto|]. cbn [tiling b_addr b_size] in *. destruct Ht as (Hn & Hns & Hnd & Ht).
  unfold BLOCK_SIZE, BLOCK_ALIGN in *. split_and!; [done|lia|by apply Z.divide_add_r|].
  by replace (a + (b_size b + b_size n)) with (a + b_size b + b_size n) by lia.
Qed.

Lemma dealloc_internal_ok h l b r n :
  repr h (l ++ b :: r) →
  ∃ h', dealloc_internal (b_addr b + BLOCK_SIZE) n h = Done (tt, h')
    ∧ repr h' (l ++ merged b r) ∧ heap_start h' = heap_start h ∧ heap_end h' = heap_end h.
Proof.
  intros [Hl Ht [Hb0 Hb1] Ha Hsz Hh].
  pose proof (proj1 (tiling_app _ _ _ _) Ht) as (m & Htl & Htb).
  assert (Hm : b_addr b = m) by (by destruct Htb). pose proof (tiling_le _ _ _ Htl) as Hle.
  pose proof (linked_mid _ _ _ _ _ Hl) as Hlb. apply linked_cons in Hlb as (_ & nx & Hb & Hlr).
  assert (Hlow : ∀ b', b' ∈ l → b_addr b' ≠ b_addr b).
  { intros b' Hin. pose proof (tiling_range _ _ _ _ Htl Hin). apply list_elem_of_In in Hin.
    pose proof (tiling_range _ _ _ b' Htl ltac:(by apply list_elem_of_In)).
    assert (BLOCK_SIZE ≤ b_size b'); [|unfold BLOCK_SIZE in *; lia].
    clear -Htl Hin. revert Hin Htl. generalize (heap_start h). induction l as [|x l IH]; [done|].
    intros s [->|Hin] (? & ? & _ & ?); eauto. }
  assert (Hpos : 0 < b_addr b) by (unfold BLOCK_SIZE in *; lia).
  unfold dealloc_internal. rewrite (kbind_done _ _ _ _ _ (usub_ok (b_addr b + BLOCK_SIZE) BLOCK_SIZE h ltac:(lia))).
  replace (b_addr b + BLOCK_SIZE - BLOCK_SIZE) with (b_addr b) by lia.
  rewrite (kbind_done _ _ _ _ _ (load_ok _ _ _ Hb)), (kbind_done _ _ _ _ _ (store_ok _ _ _)).
  set (h1 := set_headers _ h).
  assert (Hl1 : linked (headers h1) (Some (b_addr (freed b))) (freed b :: r)).
  { apply linked_cons. split; [done|]. exists nx. cbn. rewrite lookup_insert_eq. split; [done|].
    destruct Htb as (_ & Hbs & _ & Htr).
    apply (linked_agree_tiling (headers h) _ _ (m + b_size b) (heap_end h) r (b_addr b)); auto; [unfold BLOCK_SIZE in *; lia|].
    intros. by rewrite lookup_insert_ne. }
  destruct (merge_right_ok (freed b) r m (heap_end h) h1 Hl1) as (nx' & sz & E & Hrest);
    [by destruct Htb as (? & ? & ? & ?) | unfold BLOCK_SIZE in *; lia | done | done |].
  change (b_addr (freed b)) with (b_addr b) in E. rewrite (kbind_done _ _ _ _ _ E).
  erewrite kbind_done by (apply load_ok; cbn; apply lookup_insert_eq).
  unfold kget at 1. unfold kbind at 1. cbn [head set_headers headers block_of blk_address b_addr].
  change (head h1) with (head h). rewrite Hh. rewrite (proj2 (Z.leb_le _ _)) by (unfold BLOCK_SIZE in *; lia).
  eexists. split; [reflexivity|]. split; [|done]. subst h1.
  split; cbn; auto.
  - eapply (linked_app (headers h) _ _ l b r); [done| |].
    + intros b' Hin. rewrite !lookup_insert_ne by (intros Heq; by apply (Hlow b')). done.
    + rewrite insert_insert_eq. subst m. cbn in Hrest. destruct Htb as (_ & Hbs & _ & Htr).
      assert (Hag : ∀ p a' bs x, b_addr b < a' → linked (<[b_addr b := x]> (headers h)) p bs → tiling a' (heap_end h) bs →
                    ∀ y, linked (<[b_addr b := y]> (headers h)) p bs).
      { intros p a' bs x Hlt Hp Hta y. apply (linked_agree_tiling _ _ _ a' (heap_end h) bs (b_addr b) Hp Hta Hlt).
        intros. by rewrite !lookup_insert_ne by congruence. }
      destruct r as [|n' r']; cbn [merged].
      * destruct Hrest as [-> ->]. apply linked_cons. split; [done|]. exists None. cbn. by rewrite lookup_insert_eq.
      * pose proof Htr as (Hna & Hns & _ & Htr'). destruct (b_used n'); destruct Hrest as [-> Hr'];
          apply linked_cons; (split; [done|]); exists nx'; cbn [b_addr freed]; rewrite lookup_insert_eq; (split; [done|]).
        -- eapply (Hag _ (b_addr b + b_size b)); [unfold BLOCK_SIZE in *; lia|exact Hr'|exact Htr].
        -- eapply (Hag _ (b_addr b + b_size b + b_size n')); [unfold BLOCK_SIZE in *; lia|exact Hr'|exact Htr'].
  - apply tiling_app. exists m. split; [done|]. by apply merged_tiling.
Qed.

(** ** The allocator as its callers see it *)

(** The layouts callers ask for: the alignment is a power of two; sizes whose block
    would come close to [isize::MAX] bytes are left out. *)
Definition layout (size align : Z) : Prop :=
  0 ≤ size ∧ (∃ k, 0 ≤ k ∧ align = 2 ^ k) ∧ round_up size (Z.max align BLOCK_ALIGN) + 2 * align + 48 ≤ isize_max.

(** The size of the block for a layout. *)
Definition block_size (size align : Z) : Z := round_up size (Z.max align BLOCK_ALIGN) + BLOCK_SIZE.

Lemma round_up_spec n a : 0 ≤ n → 0 < a → n ≤ round_up n a < n + a ∧ (a | round_up n a).
Proof.
  intros Hn Ha. unfold round_up. split; [|by exists ((n + a - 1) / a)].
  pose proof (Z.div_mod (n + a - 1) a). pose proof (Z.mod_pos_bound (n + a - 1) a). lia.
Qed.

Lemma pow2_max_8 k : 0 ≤ k → (8 | Z.max (2 ^ k) BLOCK_ALIGN).
Proof.
  intros Hk. unfold BLOCK_ALIGN. destruct (Z.max_spec (2 ^ k) 8) as [[_ ->] | [Hle ->]]; [done|].
  assert (3 ≤ k).
  { apply Z.nlt_ge. intros Hlt. assert (2 ^ k < 2 ^ 3) by (apply Z.pow_lt_mono_r; lia). lia. }
  exists (2 ^ (k - 3)). change 8 with (2 ^ 3). rewrite <- Z.pow_add_r by lia. f_equal. lia.
Qed.

Lemma block_align_size_ok size align h :
  layout size align →
  block_align_size size align h = Done ((block_size size align, Z.max align BLOCK_ALIGN), h)
  ∧ BLOCK_SIZE ≤ block_size size align ∧ (8 | block_size size align)
  ∧ block_size size align + 8 ≤ isize_max ∧ size + BLOCK_SIZE ≤ block_size size align.
Proof.
  intros (Hs & (k & Hk & ->) & Hm). assert (0 < 2 ^ k) by (apply Z.pow_pos_nonneg; lia).
  destruct (round_up_spec size (Z.max (2 ^ k) BLOCK_ALIGN)) as [Hr Hd]; [done | unfold BLOCK_ALIGN; lia|].
  unfold block_size. split_and!.
  - unfold block_align_size. unfold BLOCK_ALIGN in *. destruct (Z.ltb_spec (isize_max - (Z.max (2 ^ k) 8 - 1)) size); [lia|].
    rewrite (kbind_done _ _ _ _ _ (uadd_ok (round_up size (Z.max (2 ^ k) 8)) BLOCK_SIZE h ltac:(unfold BLOCK_SIZE, usize_max, isize_max in *; lia))). done.
  - unfold BLOCK_SIZE. lia.
  - apply Z.divide_add_r; [|by exists 4]. etransitivity; [by apply pow2_max_8 | done].
  - unfold BLOCK_SIZE. lia.
  - lia.
Qed.

Lemma alloc_ok h bs size align :
  repr h bs → layout size align →
  ∃ h', alloc size align h = Done ((λ r, r.1 + BLOCK_SIZE) <$> fit (block_size size align) bs, h')
    ∧ repr h' (match fit (block_size size align) bs with Some r => r.2 | None => bs end)
    ∧ heap_start h' = heap_start h ∧ heap_end h' = heap_end h.
Proof.
  intros Hr Hl. destruct (block_align_size_ok size align h Hl) as (E & Hs & Hd & Hm & _).
  unfold alloc. rewrite (kbind_done _ _ _ _ _ E). by apply allocate_internal_ok.
Qed.

Lemma dealloc_ok h bs b n :
  repr h bs → b ∈ bs →
  ∃ h', dealloc (b_addr b + BLOCK_SIZE) n h = Done (tt, h')
    ∧ repr h' (free_block (b_addr b) bs) ∧ heap_start h' = heap_start h ∧ heap_end h' = heap_end h.
Proof.
  intros Hr Hb. apply list_elem_of_split in Hb as (l & r & ->).
  destruct (dealloc_internal_ok h l b r n Hr) as (h' & E & Hr' & Hse).
  exists h'. split; [done|]. by erewrite free_block_app by apply Hr.
Qed.

(** *** What [fit] and [free_block] do to the blocks in use *)

Definition used_at (bs : list blk) (a sz : Z) : Prop := {| b_addr := a; b_size := sz; b_used := true |} ∈ bs.

Lemma fit_used size bs p bs' a sz :
  fit size bs = Some (p, bs') → used_at bs' a sz ↔ used_at bs a sz ∨ (a = p ∧ sz = size).
Proof.
  unfold used_at. revert bs'. induction bs as [|b r IH]; intros bs'; cbn [fit]; [done|].
  destruct (negb (b_used b) && (b_size b =? size)) eqn:E1;
    [|destruct (negb (b_used b) && (size + BLOCK_SIZE <=? b_size b)) eqn:E2].
  - intros [= <- <-]. bool_to_prop. rewrite !elem_of_cons. destruct b as [ba bz bu]; cbn in *.
    split; [intros [[= -> ->] | ?]; auto | intros [[[= -> -> ?] | ?] | [-> ->]]; auto; congruence].
  - intros [= <- <-]. bool_to_prop. rewrite !elem_of_cons. destruct b as [ba bz bu]; cbn in *.
    split; [intros [[= -> ->] | [? | ?]]; auto; congruence | intros [[[= -> -> ?] | ?] | [-> ->]]; auto; congruence].
  - destruct (fit size r) as [[p' r']|]; [|done]. intros [= -> <-]. rewrite !elem_of_cons, (IH r') by done. tauto.
Qed.

(** The block [fit] chooses was not in use. *)
Lemma fit_fresh size bs p bs' a e sz :
  BLOCK_SIZE ≤ size → tiling a e bs → fit size bs = Some (p, bs') → ¬ used_at bs p sz.
Proof.
  intros Hs. unfold used_at. revert a bs'. induction bs as [|b r IH]; intros a bs'; cbn [fit tiling]; [done|].
  intros (Ha & Hsz & _ & Ht).
  destruct (negb (b_used b) && (b_size b =? size)) eqn:E1;
    [|destruct (negb (b_used b) && (size + BLOCK_SIZE <=? b_size b)) eqn:E2].
  1,2: intros [= <- <-] Hin; bool_to_prop; apply elem_of_cons in Hin as [Hb | Hin]; [rewrite <- Hb in *; done|];
       pose proof (tiling_range _ _ _ _ Ht Hin); cbn in *; unfold BLOCK_SIZE in *; lia.
  destruct (fit size r) as [[p' r']|] eqn:F; [|done]. intros [= -> <-] Hin.
  apply elem_of_cons in Hin as [Hb | Hin]; [|by eapply IH].
  subst b. cbn in *. assert (a + sz ≤ p).
  { clear -F Ht. revert r' F Ht. generalize (a + sz). induction r as [|b r IH]; intros x r' F; [done|].
    cbn [fit tiling] in *. intros (Ha & Hsz & _ & Ht).
    destruct (_ && (b_size b =? size)); [simplify_eq; lia|]. destruct (_ && (size + BLOCK_SIZE <=? b_size b)); [simplify_eq; lia|].
    destruct (fit size r) as [[p' r'']|]; [|done]. cbn in F. simplify_eq. pose proof (IH _ _ eq_refl Ht). unfold BLOCK_SIZE in *. lia. }
  unfold BLOCK_SIZE in *. lia.
Qed.

Lemma free_block_used a0 bs a sz s e :
  tiling s e bs → used_at (free_block a0 bs) a sz ↔ used_at bs a sz ∧ a ≠ a0.
Proof.
  unfold used_at. revert s. induction bs as [|b r IH]; intros s; cbn [free_block tiling].
  { intros _. rewrite elem_of_nil. tauto. }
  intros (Ha & Hsz & _ & Ht). destruct (Z.eqb_spec (b_addr b) a0) as [<-|Hne].
  - assert (Hr : ∀ x, {| b_addr := a; b_size := x; b_used := true |} ∈ r → a ≠ b_addr b).
    { intros x Hin. pose proof (tiling_range _ _ _ _ Ht Hin). cbn in *. unfold BLOCK_SIZE in *. lia. }
    destruct b as [ba bz bu]; cbn in *. destruct r as [|[na nz nu] r]; cbn [b_used]; [|destruct nu].
    + split; [by intros [[=]|?%elem_of_nil]%elem_of_cons|].
      by intros [[[= -> -> ?]|?%elem_of_nil]%elem_of_cons ?].
    + split; [intros [[=]|Hin]%elem_of_cons; split; [by right | by apply (Hr sz)]|].
      intros [[[= -> -> ?]|Hin]%elem_of_cons ?]; [done | by right].
    + split; [intros [[=]|Hin]%elem_of_cons; (split; [by right; right | apply (Hr sz); by right])|].
      intros [[[= -> -> ?]|[[=]|Hin]%elem_of_cons]%elem_of_cons ?]; [done | by right].
  - rewrite !elem_of_cons, (IH _ Ht). split; [intros [<- | [? ?]]; auto | tauto].
Qed.

(** ** Runs of the allocator

    [live] is what the callers hold: pointer to layout.  Callers use [GlobalAlloc] and
    [Allocator] as they like: memory of the one may be returned to the other. *)

Inductive heap_history : LinkedListHeap → gmap Z (Z * Z) → Prop :=
| history_init h : init_heap empty_heap = Done (tt, h) → heap_history h ∅
| history_alloc h live size align p h' :
    heap_history h live → layout size align → alloc size align h = Done (Some p, h') →
    heap_history h' (<[p := (size, align)]> live)
| history_alloc_null h live size align h' :
    heap_history h live → layout size align → alloc size align h = Done (None, h') → heap_history h' live
| history_dealloc h live p size align h' :
    heap_history h live → live !! p = Some (size, align) → dealloc p size h = Done (tt, h') →
    heap_history h' (delete p live)
| history_allocate h live size align p n h' :
    heap_history h live → layout size align → allocate size align h = Done (Some (p, n), h') →
    heap_history h' (<[p := (n, align)]> live)
| history_allocate_error h live size align h' :
    heap_history h live → layout size align → allocate size align h = Done (None, h') → heap_history h' live
| history_deallocate h live p size align h' :
    heap_history h live → live !! p = Some (size, align) → deallocate p size h = Done (tt, h') →
    heap_history h' (delete p live).

(** The blocks in use are exactly the live allocations, each of its layout's block
    size. *)
Definition tracks (bs : list blk) (live : gmap Z (Z * Z)) : Prop :=
  (∀ a sz, used_at bs a sz → ∃ l, live !! (a + BLOCK_SIZE) = Some l)
  ∧ ∀ p size align, live !! p = Some (size, align) →
      layout size align ∧ used_at bs (p - BLOCK_SIZE) (block_size size align).

Record heap_inv (h : LinkedListHeap) (live : gmap Z (Z * Z)) (bs : list blk) : Prop := {
  inv_repr : repr h bs;
  inv_tracks : tracks bs live;
  inv_start : heap_start h = HEAP_START;
  inv_end : heap_end h = HEAP_START + HEAP_SIZE;
}.

Lemma init_inv h : init_heap empty_heap = Done (tt, h) →
  heap_inv h ∅ [{| b_addr := HEAP_START; b_size := HEAP_SIZE; b_used := false |}].
Proof.
  intros E. vm_compute in E. injection E as <-. split; try done.
  - split; try done; try (by vm_compute).
    + split; [done|]. exists None. by split.
    + cbn. split_and!; try done. by exists 2097152.
    + by exists 2147483648.
  - split; [|done]. intros a sz Hin. by apply elem_of_cons in Hin as [[=]|?%elem_of_nil].
Qed.

Lemma alloc_inv h live bs size align p h' :
  heap_inv h live bs → layout size align → alloc size align h = Done (Some p, h') →
  ∃ bs', fit (block_size size align) bs = Some (p - BLOCK_SIZE, bs')
    ∧ heap_inv h' (<[p := (size, align)]> live) bs' ∧ live !! p = None.
Proof.
  intros [Hr [Ht1 Ht2] Hs He] Hl E. destruct (alloc_ok h bs size align Hr Hl) as (h1 & E' & Hr' & Hs' & He').
  rewrite E in E'. destruct (fit _ bs) as [[q bs']|] eqn:F; [|done]. cbn in E'. injection E' as -> <-.
  exists bs'. replace (q + BLOCK_SIZE - BLOCK_SIZE) with q by lia. split; [done|].
  destruct (block_align_size_ok size align h Hl) as (_ & Hsz & Hd & _).
  assert (Hnew : live !! (q + BLOCK_SIZE) = None).
  { apply eq_None_not_Some. intros [[s a] Hlive]. destruct (Ht2 _ _ _ Hlive) as [_ Hu].
    replace (q + BLOCK_SIZE - BLOCK_SIZE) with q in Hu by lia.
    by apply (fit_fresh _ _ _ _ _ _ _ Hsz (repr_tiling _ _ Hr) F) in Hu. }
  split; [|done]. split; [done| |congruence..]. split.
  - intros a sz Hu. apply (fit_used _ _ _ _ _ _ F) in Hu as [Hu | [-> ->]].
    + destruct (Ht1 _ _ Hu) as [l Hlive]. exists l. rewrite lookup_insert_ne; [done|]. intros Heq. congruence.
    + exists (size, align). apply lookup_insert_eq.
  - intros p' s a Hlive. destruct (decide (p' = q + BLOCK_SIZE)) as [->|Hne].
    + rewrite lookup_insert_eq in Hlive. injection Hlive as <- <-. split; [done|].
      apply (fit_used _ _ _ _ _ _ F). right. lia.
    + rewrite lookup_insert_ne in Hlive by done. destruct (Ht2 _ _ _ Hlive) as [Hl' Hu].
      split; [done|]. apply (fit_used _ _ _ _ _ _ F). by left.
Qed.

Lemma dealloc_inv h live bs p size align :
  heap_inv h live bs → live !! p = Some (size, align) →
  ∃ h', dealloc p size h = Done (tt, h') ∧ heap_inv h' (delete p live) (free_block (p - BLOCK_SIZE) bs).
Proof.
  intros [Hr [Ht1 Ht2] Hs He] Hlive. destruct (Ht2 _ _ _ Hlive) as [_ Hu].
  destruct (dealloc_ok h bs _ size Hr Hu) as (h' & E & Hr' & Hs' & He'). cbn [b_addr] in *.
  replace (p - BLOCK_SIZE + BLOCK_SIZE) with p in E by lia. exists h'. split; [done|].
  pose proof (λ a sz, free_block_used (p - BLOCK_SIZE) bs a sz _ _ (repr_tiling _ _ Hr)) as Hf.
  split; [done| |congruence..]. split.
  - intros a sz Ha. apply Hf in Ha as [Ha Hne]. destruct (Ht1 _ _ Ha) as [l El]. exists l.
    rewrite lookup_delete_ne; [done|]. lia.
  - intros q s al Hq. apply lookup_delete_Some in Hq as [Hne Hq]. destruct (Ht2 _ _ _ Hq) as [Hl Huq].
    split; [done|]. apply Hf. split; [done | lia].
Qed.

Lemma alloc_null_inv h live bs size align h' :
  heap_inv h live bs → layout size align → alloc size align h = Done (None, h') → heap_inv h' live bs.
Proof.
  intros [Hr Ht Hs He] Hl E. destruct (alloc_ok h bs size align Hr Hl) as (h1 & E' & Hr' & Hs' & He').
  rewrite E in E'. destruct (fit _ bs); [done|]. injection E' as <-. split; congruence || done.
Qed.

(** [Allocator::allocate] is [GlobalAlloc::alloc] with the size of the slice: its test
    for a null pointer never stops the kernel. *)
Lemma allocate_alloc h live bs size align :
  heap_inv h live bs → layout size align →
  ∃ o h', alloc size align h = Done (o, h') ∧ allocate size align h = Done ((λ p, (p, size)) <$> o, h').
Proof.
  intros Hi Hl. destruct (alloc_ok h bs size align (inv_repr _ _ _ Hi) Hl) as (h' & E & _).
  eexists _, h'. split; [exact E|]. unfold alloc in E. unfold allocate.
  destruct (block_align_size_ok size align h Hl) as (Eb & _). rewrite (kbind_done _ _ _ _ _ Eb) in E. rewrite (kbind_done _ _ _ _ _ Eb), (kbind_done _ _ _ _ _ E). destruct (fit _ bs) as [[q bs']|] eqn:F; [|done].
  cbn [fmap option_fmap option_map fst].
  assert (Ha : alloc size align h = Done (Some (q + BLOCK_SIZE), h')) by (unfold alloc; by rewrite (kbind_done _ _ _ _ _ Eb)).
  destruct (alloc_inv _ _ _ _ _ _ _ Hi Hl Ha) as (bs2 & _ & [Hr2 [_ Ht2] Hs2 _] & _).
  destruct (Ht2 _ _ _ (lookup_insert_eq _ _ _)) as [_ Hu]. pose proof (tiling_range _ _ _ _ (repr_tiling _ _ Hr2) Hu) as Hrange.
  rewrite Hs2 in Hrange. cbn in Hrange. unfold HEAP_START, BLOCK_SIZE in *.
  by rewrite (proj2 (Z.eqb_neq (q + 32) 0)) by lia.
Qed.

Lemma history_inv h live : heap_history h live → ∃ bs, heap_inv h live bs.
Proof.
  induction 1 as [h E | h live size align p h' _ [bs IH] Hl E | h live size align h' _ [bs IH] Hl E
    | h live p size align h' _ [bs IH] Hlive E | h live size align p n h' _ [bs IH] Hl E
    | h live size align h' _ [bs IH] Hl E | h live p size align h' _ [bs IH] Hlive E].
  - eexists. by apply init_inv.
  - destruct (alloc_inv _ _ _ _ _ _ _ IH Hl E) as (bs' & _ & ? & _). eauto.
  - exists bs. by apply (alloc_null_inv h live bs size align).
  - destruct (dealloc_inv _ _ _ _ _ _ IH Hlive) as (h1 & E' & Hi). rewrite E in E'. injection E' as <-. eauto.
  - destruct (allocate_alloc _ _ _ _ _ IH Hl) as ([q|] & h1 & E1 & E2); rewrite E in E2; [|done].
    injection E2 as -> -> ->. destruct (alloc_inv _ _ _ _ _ _ _ IH Hl E1) as (bs' & _ & ? & _). eauto.
  - destruct (allocate_alloc _ _ _ _ _ IH Hl) as ([q|] & h1 & E1 & E2); rewrite E in E2; [done|].
    injection E2 as ->. exists bs. by apply (alloc_null_inv h live bs size align).
  - destruct (dealloc_inv _ _ _ _ _ _ IH Hlive) as (h1 & E' & Hi).
    change (deallocate p size h) with (dealloc p size h) in E. rewrite E in E'. injection E' as <-. eauto.
Qed.

(** Two blocks of a tiling do not overlap. *)
Lemma tiling_disjoint a e bs b c :
  tiling a e bs → b ∈ bs → c ∈ bs → b_addr b ≠ b_addr c →
  b_addr b + b_size b ≤ b_addr c ∨ b_addr c + b_size c ≤ b_addr b.
Proof.
  revert a. induction bs as [|x r IH]; intros a; cbn [tiling]; [by intros _ ?%elem_of_nil|].
  intros (Ha & Hs & _ & Ht) [->|Hb]%elem_of_cons [->|Hc]%elem_of_cons Hne; [done| | |by eapply IH].
  - left. pose proof (tiling_range _ _ _ _ Ht Hc). lia.
  - right. pose proof (tiling_range _ _ _ _ Ht Hb). lia.
Qed.

Lemma tiling_aligned a e bs b : (8 | a) → tiling a e bs → b ∈ bs → (8 | b_addr b).
Proof.
  intros Hd. revert a Hd. induction bs as [|x r IH]; intros a Hd; cbn [tiling]; [by intros _ ?%elem_of_nil|].
  intros (Ha & _ & Hds & Ht) [->|Hb]%elem_of_cons; [by rewrite Ha|].
  eapply (IH (a + b_size x)); auto. by apply Z.divide_add_r.
Qed.

Lemma fit_in size bs b :
  b ∈ bs → b_used b = false → b_size b = size ∨ size + BLOCK_SIZE ≤ b_size b → is_Some (fit size bs).
Proof.
  intros Hb Hu Hs. induction bs as [|x r IH]; [by apply elem_of_nil in Hb|]. cbn [fit].
  destruct (negb (b_used x) && (b_size x =? size)) eqn:E1; [by eexists|].
  destruct (negb (b_used x) && (size + BLOCK_SIZE <=? b_size x)) eqn:E2; [by eexists|].
  apply elem_of_cons in Hb as [<- | Hb].
  - rewrite Hu in E1, E2. cbn in E1, E2. bool_to_prop. lia.
  - destruct (IH Hb) as [[q r'] ->]. by eexists.
Qed.

Lemma free_block_in a sz bs s e :
  tiling s e bs → used_at bs a sz →
  ∃ b, b ∈ free_block a bs ∧ b_used b = false ∧ (b_size b = sz ∨ sz + BLOCK_SIZE ≤ b_size b).
Proof.
  unfold used_at. revert s. induction bs as [|b r IH]; intros s; cbn [tiling free_block]; [by intros _ ?%elem_of_nil|].
  intros (Ha & Hs & _ & Ht) Hin. destruct (Z.eqb_spec (b_addr b) a) as [<-|Hne].
  - assert (b_size b = sz) as <-.
    { apply elem_of_cons in Hin as [<-|Hin]; [done|]. pose proof (tiling_range _ _ _ _ Ht Hin). cbn in *. unfold BLOCK_SIZE in *. lia. }
    destruct r as [|n r]; [|cbn [tiling] in Ht; destruct Ht as (_ & Hn & _), (b_used n)];
      (eexists; split; [by left|]); cbn; (split; [done|]); lia.
  - apply elem_of_cons in Hin as [<-|Hin]; [done|].
    destruct (IH _ Ht Hin) as (c & Hc & ?). exists c. split; [by right | done].
Qed.

(** ** Claims *)

(** C36: The heap refines its specification on the list of blocks that tile it:
    allocation returns the first free block that is large enough, split when the
    rest can hold a header, and a null pointer when there is none; freeing marks
    the block free and takes in its right neighbour when that is free.  Neither
    ever follows a reference to anything but a header, panics or runs forever. *)
Theorem heap_refines_blocks h bs :
  repr h bs →
  (∀ size align, layout size align →
     ∃ h', alloc size align h = Done ((λ r, r.1 + BLOCK_SIZE) <$> fit (block_size size align) bs, h')
       ∧ repr h' (match fit (block_size size align) bs with Some r => r.2 | None => bs end))
  ∧ ∀ b size, b ∈ bs →
     ∃ h', dealloc (b_addr b + BLOCK_SIZE) size h = Done (tt, h') ∧ repr h' (free_block (b_addr b) bs).
Proof.
  intros Hr. split.
  - intros size align Hl. destruct (alloc_ok h bs size align Hr Hl) as (h' & E & Hr' & _). eauto.
  - intros b size Hb. destruct (dealloc_ok h bs b size Hr Hb) as (h' & E & Hr' & _). eauto.
Qed.

(** C16: Memory safety of the kernel heap.  After any sequence of allocations and
    frees, live allocations lie inside the heap, are 8-byte aligned and pairwise
    disjoint with room for a block header in front of each; a new allocation never
    returns a live pointer, and is the same through both interfaces of the allocator;
    and neither operation can fail to return. *)
Theorem heap_allocations_disjoint h live :
  heap_history h live →
  (∀ p size align, live !! p = Some (size, align) →
     HEAP_START + BLOCK_SIZE ≤ p ∧ p + size ≤ HEAP_START + HEAP_SIZE ∧ (8 | p)
     ∧ ∃ h', dealloc p size h = Done (tt, h'))
  ∧ (∀ p q n m a b, live !! p = Some (n, a) → live !! q = Some (m, b) → p ≠ q →
     p + n + BLOCK_SIZE ≤ q ∨ q + m + BLOCK_SIZE ≤ p)
  ∧ ∀ size align, layout size align →
     ∃ o h', alloc size align h = Done (o, h') ∧ allocate size align h = Done ((λ p, (p, size)) <$> o, h')
       ∧ ∀ p, o = Some p → live !! p = None.
Proof.
  intros Hh. destruct (history_inv h live Hh) as [bs Hi]. pose proof Hi as [Hr [_ Ht] Hs He].
  pose proof (repr_tiling _ _ Hr) as Htl. rewrite Hs, He in Htl. split_and!.
  - intros p size align Hp. destruct (Ht _ _ _ Hp) as [Hl Hu].
    destruct (block_align_size_ok size align h Hl) as (_ & _ & _ & _ & Hsz).
    pose proof (tiling_range _ _ _ _ Htl Hu) as Hrange.
    pose proof (tiling_aligned _ _ _ _ (ex_intro _ (HEAP_START / 8) eq_refl) Htl Hu) as Hd. cbn in Hrange, Hd.
    destruct (dealloc_inv _ _ _ _ _ _ Hi Hp) as (h' & E & _).
    split_and!; [lia | unfold BLOCK_SIZE in *; lia | | eauto].
    replace p with (p - BLOCK_SIZE + 32) by (unfold BLOCK_SIZE; lia). apply Z.divide_add_r; [done | by exists 4].
  - intros p q n m a b Hp Hq Hne. destruct (Ht _ _ _ Hp) as [Hlp Hup], (Ht _ _ _ Hq) as [Hlq Huq].
    destruct (block_align_size_ok n a h Hlp) as (_ & _ & _ & _ & Hsp).
    destruct (block_align_size_ok m b h Hlq) as (_ & _ & _ & _ & Hsq).
    destruct (tiling_disjoint _ _ _ _ _ Htl Hup Huq); cbn in *; lia.
  - intros size align Hl. destruct (allocate_alloc _ _ _ _ _ Hi Hl) as (o & h' & E & Ea).
    exists o, h'. split_and!; [done..|]. intros p Ho. rewrite Ho in E.
    by destruct (alloc_inv _ _ _ _ _ _ _ Hi Hl E) as (_ & _ & _ & ?).
Qed.

(** Freed memory is usable again: after freeing an allocation, one of the same
    layout succeeds, whatever else is allocated. *)
Theorem heap_free_then_alloc h live p size align h1 :
  heap_history h live → live !! p = Some (size, align) → dealloc p size h = Done (tt, h1) →
  ∃ q h2, alloc size align h1 = Done (Some q, h2).
Proof.
  intros Hh Hp E. destruct (history_inv h live Hh) as [bs Hi].
  destruct (dealloc_inv _ _ _ _ _ _ Hi Hp) as (h1' & E' & Hi'). rewrite E in E'. injection E' as <-.
  destruct Hi as [Hr [_ Ht] _ _]. destruct (Ht _ _ _ Hp) as [Hl Hu].
  destruct (free_block_in _ _ _ _ _ (repr_tiling _ _ Hr) Hu) as (b & Hb & Hbu & Hbs).
  destruct (fit_in _ _ _ Hb Hbu Hbs) as [[q bs'] F].
  destruct (alloc_ok h1 _ size align (inv_repr _ _ _ Hi') Hl) as (h2 & E2 & _). rewrite F in E2. eauto.
Qed.

(** *** A run: two allocations and a free *)

Definition heap_after {A} (m : hm A) (h : LinkedListHeap) : LinkedListHeap :=
  match m h with Done (_, h') => h' | Fault _ => h end.
Definition heap0 : LinkedListHeap := heap_after init_heap empty_heap.
Definition heap1 : LinkedListHeap := heap_after (alloc 100 4) heap0.
Definition heap2 : LinkedListHeap := heap_after (allocate 13 1) heap1.

Lemma layout_100 : layout 100 4.
Proof. split_and!; [done | by exists 2 | by vm_compute]. Qed.
Lemma layout_13 : layout 13 1.
Proof. split_and!; [done | by exists 0 | by vm_compute]. Qed.

Lemma heap2_history :
  heap_history heap2 (<[HEAP_START + 168 := (13, 1)]> (<[HEAP_START + 32 := (100, 4)]> ∅)).
Proof.
  apply (history_allocate heap1 _ 13 1); [| apply layout_13 | by vm_compute].
  apply (history_alloc heap0 _ 100 4); [| apply layout_100 | by vm_compute].
  apply history_init. by vm_compute.
Qed.

Lemma heap_refines_blocks_witness :
  fst <$> fit (block_size 100 4) [{| b_addr := HEAP_START; b_size := HEAP_SIZE; b_used := false |}] = Some HEAP_START
  ∧ ∃ h', alloc 100 4 heap0 = Done (Some (HEAP_START + 32), h').
Proof.
  split; [by vm_compute|].
  destruct (heap_refines_blocks heap0 [{| b_addr := HEAP_START; b_size := HEAP_SIZE; b_used := false |}]) as [Ha _].
  - apply (init_inv heap0). by vm_compute.
  - destruct (Ha 100 4 layout_100) as (h' & E & _). exists h'. exact E.
Defined.

Lemma heap_allocations_disjoint_witness :
  HEAP_START + 32 + 100 + BLOCK_SIZE ≤ HEAP_START + 168 ∨ HEAP_START + 168 + 13 + BLOCK_SIZE ≤ HEAP_START + 32.
Proof.
  destruct (heap_allocations_disjoint _ _ heap2_history) as (_ & Hd & _).
  apply (Hd (HEAP_START + 32) (HEAP_START + 168) 100 13 4 1); [by vm_compute | by vm_compute | by vm_compute].
Defined.

Lemma heap_free_then_alloc_witness :
  ∃ q h2, alloc 100 4 (heap_after (dealloc (HEAP_START + 32) 100) heap2) = Done (Some q, h2).
Proof.
  apply (heap_free_then_alloc _ _ (HEAP_START + 32) 100 4 _ heap2_history); by vm_compute.
Defined.

(** The alignment of a layout beyond that of a header is ignored. *)
Lemma heap_ignores_alignment :
  ∃ p h', alloc 8 64 heap0 = Done (Some p, h') ∧ p mod 64 ≠ 0.
Proof. exists (HEAP_START + 32). eexists. split; [by vm_compute | by vm_compute]. Qed.
