(* ===== verification/Frames.v ===== *)
(** * Frames: page frames, pages and page table entries

    (src/src/mem/page_frame.rs, simple_page_frame_allocator.rs, paging/mod.rs,
    paging/entry.rs).  A [PageFrame] and a [Page] are their numbers, a page table
    entry is its 64-bit word. *)

From S2P Require Import Prelude.

Definition PAGE_SIZE : Z := 4096.

(** ** Frames and pages *)

Definition frame_from_address (addr : Z) : Z := addr / PAGE_SIZE.
Definition frame_start_address (frame : Z) : Z := frame * PAGE_SIZE.

Definition page_for_address (addr : Z) : Z := addr / PAGE_SIZE.
Definition page_start_address (page : Z) : Z := page * PAGE_SIZE.

(** The mask is [0o777]. *)
Definition p4_index (page : Z) : Z := Z.land (Z.shiftr page 27) 511.
Definition p3_index (page : Z) : Z := Z.land (Z.shiftr page 18) 511.
Definition p2_index (page : Z) : Z := Z.land (Z.shiftr page 9) 511.
Definition p1_index (page : Z) : Z := Z.land (Z.shiftr page 0) 511.

(** [PageIter::next] and [PageFrameIter::next]. *)
Definition iter_next (start end_ : Z) : option (Z * Z) :=
  if end_ <? start then None else Some (start, start + 1).
(** What [Page::range] and [PageFrame::range] yield: both ends are included. *)
Definition page_range (start end_ : Z) : list Z := seqZ start (end_ - start + 1).

(** ** The frame allocator *)

Class PageFrameAllocator (A : Type) := {
  falloc : kst A (option Z);
  falloc_free : Z → kst A unit;
}.

Record SimplePageFrameAllocator := {
  frame_head : Z;
  mem_end : Z;
  free_frames : list Z;
}.

Definition simple_new (mem_start mem_end : Z) : SimplePageFrameAllocator :=
  {| frame_head := frame_from_address mem_start; mem_end := frame_from_address mem_end; free_frames := [] |}.

(** [Vec::pop]. *)
Definition pop {A} (l : list A) : option (A * list A) :=
  match last l with None => None | Some x => Some (x, removelast l) end.

Definition simple_falloc : kst SimplePageFrameAllocator (option Z) :=
  let* a := kget in
  match pop (free_frames a) with
  | Some (frame, rest) =>
      kput {| frame_head := frame_head a; mem_end := mem_end a; free_frames := rest |} ;;*
      kret (Some frame)
  | None =>
      let end_addr := frame_start_address (mem_end a) in
      let head_addr := frame_start_address (frame_head a) in
      let* next := uadd head_addr PAGE_SIZE in
      let* remaining := usub end_addr next in
      if remaining <? 4096 then kret None
      else
        let next_frame := frame_from_address next in
        kput {| frame_head := next_frame; mem_end := mem_end a; free_frames := free_frames a |} ;;*
        kret (Some next_frame)
  end.

Definition simple_free (frame : Z) : kst SimplePageFrameAllocator unit :=
  kmodify (λ a, {| frame_head := frame_head a; mem_end := mem_end a; free_frames := free_frames a ++ [frame] |}).

#[global] Instance simple_frame_allocator : PageFrameAllocator SimplePageFrameAllocator := {
  falloc := simple_falloc;
  falloc_free := simple_free;
}.

(** ** Page table entries *)

(** [EntryFlags]. *)
Definition PRESENT : Z := 1.
Definition WRITABLE : Z := 2.
Definition RING3_ACCESSIBLE : Z := 4.
Definition HUGE_PAGE : Z := 128.
Definition NO_EXECUTE : Z := 2 ^ 63.
(** every flag that is defined: bits 0 to 8 and 63 *)
Definition ALL_FLAGS : Z := 0x1FF + 2 ^ 63.
Definition ADDR_MASK : Z := 0x000FFFFFFFFFF000.

(** [a.contains(b)]. *)
Definition contains (a b : Z) : bool := Z.land a b =? b.

Definition entry_is_unused (e : Z) : bool := e =? 0.
(** [from_bits_truncate]. *)
Definition entry_flags (e : Z) : Z := Z.land e ALL_FLAGS.
Definition entry_get_frame (e : Z) : option Z :=
  if contains (entry_flags e) PRESENT then Some (frame_from_address (Z.land e ADDR_MASK)) else None.

(** [PageTableEntry::set]: the value stored; the address must be one an entry can
    hold. *)
Definition entry_set {S} (frame flags : Z) : kst S Z :=
  let addr := frame_start_address frame in
  if Z.land addr (Z.lnot ADDR_MASK) =? 0 then kret (Z.lor addr flags) else kfault Panic.

(** ** Lemmas on entries *)

Lemma ADDR_MASK_ones : ADDR_MASK = Z.shiftl (Z.ones 40) 12.
Proof. reflexivity. Qed.

(** The frames an entry can name. *)
Definition frame_ok (f : Z) : Prop := 0 ≤ f < 2 ^ 40.

Lemma land_addr_mask e : Z.land e ADDR_MASK = (e / 4096) mod 2 ^ 40 * 4096.
Proof.
  rewrite ADDR_MASK_ones. rewrite <- (Z.shiftl_mul_pow2 _ 12) by lia. apply Z.bits_inj'. intros n Hn.
  rewrite Z.land_spec. destruct (decide (n < 12)).
  - rewrite !Z.shiftl_spec_low by lia. by rewrite andb_false_r.
  - rewrite !Z.shiftl_spec by lia. rewrite <- Z.land_ones by lia. rewrite Z.land_spec.
    change 4096 with (2 ^ 12). rewrite <- (Z.shiftr_div_pow2 e 12), Z.shiftr_spec by lia. by replace (n - 12 + 12) with n by lia.
Qed.

Lemma entry_get_frame_ok e f : entry_get_frame e = Some f → frame_ok f.
Proof.
  unfold entry_get_frame. destruct (contains _ _); [|done]. intros [= <-].
  unfold frame_from_address, PAGE_SIZE. rewrite land_addr_mask, Z.div_mul by done. apply Z.mod_pos_bound. lia.
Qed.

Lemma entry_set_ok {S} f flags (s : S) : frame_ok f → entry_set f flags s = Done (Z.lor (f * 4096) flags, s).
Proof.
  intros Hf. unfold entry_set, frame_start_address, PAGE_SIZE. rewrite <- Z.ldiff_land.
  assert (Z.ldiff (f * 4096) ADDR_MASK = 0) as ->; [|done].
  apply Z.bits_inj'. intros n Hn. rewrite Z.ldiff_spec, Z.bits_0. apply andb_false_iff.
  rewrite ADDR_MASK_ones. replace (f * 4096) with (Z.shiftl f 12) by (by rewrite Z.shiftl_mul_pow2 by lia). destruct (decide (n < 12)).
  - left. apply Z.shiftl_spec_low. lia.
  - rewrite !Z.shiftl_spec by lia. destruct (decide (n - 12 < 40)).
    + right. by rewrite Z.ones_spec_low by lia.
    + left. rewrite Z.bits_above_log2; [done|unfold frame_ok in Hf; lia|].
      destruct (decide (f = 0)) as [->|]; [cbn; lia|]. apply Z.log2_lt_pow2; unfold frame_ok in Hf; [lia|].
      apply (Z.lt_le_trans _ (2 ^ 40)); [lia|]. apply Z.pow_le_mono_r; lia.
Qed.

(** Flags that do not reach into the address. *)
Definition flags_ok (fl : Z) : Prop := 0 ≤ fl ∧ Z.land fl ADDR_MASK = 0.

Lemma set_get_frame f fl : frame_ok f → flags_ok fl → contains fl PRESENT = true →
  entry_get_frame (Z.lor (f * 4096) fl) = Some f.
Proof.
  intros Hf [Hfl0 Hfl] Hp. unfold entry_get_frame, entry_flags, contains in *. apply Z.eqb_eq in Hp.
  replace (Z.land (Z.land (Z.lor (f * 4096) fl) ALL_FLAGS) PRESENT) with PRESENT.
  2:{ rewrite <- Z.land_assoc. change (Z.land ALL_FLAGS PRESENT) with PRESENT.
      rewrite Z.land_lor_distr_l, Hp. change PRESENT with (Z.ones 1) at 2. rewrite Z.land_ones by lia.
      replace (f * 4096) with (f * 2048 * 2 ^ 1) by lia. rewrite Z.mod_mul by lia. done. }
  rewrite Z.eqb_refl. f_equal. unfold frame_from_address, PAGE_SIZE.
  rewrite Z.land_lor_distr_l, Hfl, Z.lor_0_r, land_addr_mask, Z.div_mul, Z.div_mul by done.
  apply Z.mod_small. done.
Qed.

Lemma set_nonzero f fl : frame_ok f → flags_ok fl → contains fl PRESENT = true → Z.lor (f * 4096) fl ≠ 0.
Proof. intros Hf Hfl Hp E. pose proof (set_get_frame f fl Hf Hfl Hp) as Hg. by rewrite E in Hg. Qed.

Lemma flags_ok_lor a b : flags_ok a → flags_ok b → flags_ok (Z.lor a b).
Proof.
  intros [? Ha] [? Hb]. split; [by apply Z.lor_nonneg|]. by rewrite Z.land_lor_distr_l, Ha, Hb.
Qed.

Lemma contains_lor_r a b c : contains b c = true → contains (Z.lor a b) c = true.
Proof.
  unfold contains. rewrite !Z.eqb_eq. intros Hb. apply Z.bits_inj'. intros n Hn.
  assert (Hn' : Z.testbit (Z.land b c) n = Z.testbit c n) by (by rewrite Hb).
  rewrite Z.land_spec in *. rewrite Z.lor_spec. destruct (Z.testbit a n), (Z.testbit b n), (Z.testbit c n); auto.
Qed.

Lemma contains_lor_l a b c : contains a c = true → contains (Z.lor a b) c = true.
Proof. rewrite Z.lor_comm. apply contains_lor_r. Qed.

Lemma entry_flags_ok e : 0 ≤ e → flags_ok (entry_flags e).
Proof.
  intros He. unfold entry_flags. split; [by apply Z.land_nonneg; left|].
  rewrite <- Z.land_assoc. change (Z.land ALL_FLAGS ADDR_MASK) with 0. apply Z.land_0_r.
Qed.

Lemma get_frame_present e f : entry_get_frame e = Some f → contains (entry_flags e) PRESENT = true.
Proof. unfold entry_get_frame. by destruct (contains _ _). Qed.

Lemma get_frame_used e f : entry_get_frame e = Some f → entry_is_unused e = false.
Proof. intros He. unfold entry_is_unused. apply Z.eqb_neq. by intros ->. Qed.

(** ** Lemmas on pages *)

Lemma index_mod page n : 0 ≤ n → Z.land (Z.shiftr page n) 511 = page / 2 ^ n mod 512.
Proof. intros Hn. rewrite Z.shiftr_div_pow2 by done. change 511 with (Z.ones 9). by rewrite Z.land_ones. Qed.

Lemma index_range page n : 0 ≤ n → 0 ≤ Z.land (Z.shiftr page n) 511 < 512.
Proof. intros Hn. rewrite index_mod by done. apply Z.mod_pos_bound. lia. Qed.

(** A page of the 48-bit address space is given by its indices. *)
Lemma page_indices p q :
  0 ≤ p < 2 ^ 36 → 0 ≤ q < 2 ^ 36 →
  p4_index p = p4_index q → p3_index p = p3_index q → p2_index p = p2_index q → p1_index p = p1_index q → p = q.
Proof.
  intros Hp Hq. unfold p4_index, p3_index, p2_index, p1_index. rewrite !index_mod by lia.
  change (2 ^ 27) with 134217728. change (2 ^ 18) with 262144. change (2 ^ 9) with 512. change (2 ^ 0) with 1.
  intros. Z.to_euclidean_division_equations. lia.
Qed.

Lemma page_range_next start end_ :
  page_range start end_ = match iter_next start end_ with
                          | None => []
                          | Some (page, start) => page :: page_range start end_
                          end.
Proof.
  unfold page_range, iter_next. destruct (Z.ltb_spec end_ start).
  - rewrite seqZ_nil by lia. done.
  - rewrite seqZ_cons by lia. f_equal. f_equal; lia.
Qed.

(** ** Runs of the frame allocator

    [owned] are the frames that were handed out and not given back. *)

Inductive frame_history (mem_start mem_end : Z) : SimplePageFrameAllocator → gset Z → Prop :=
| frames_new : frame_history mem_start mem_end (simple_new mem_start mem_end) ∅
| frames_alloc a owned f a' :
    frame_history mem_start mem_end a owned → falloc a = Done (Some f, a') →
    frame_history mem_start mem_end a' ({[f]} ∪ owned)
| frames_none a owned a' :
    frame_history mem_start mem_end a owned → falloc a = Done (None, a') → frame_history mem_start mem_end a' owned
| frames_free a owned f a' :
    frame_history mem_start mem_end a owned → f ∈ owned → falloc_free f a = Done (tt, a') →
    frame_history mem_start mem_end a' (owned ∖ {[f]}).

(** Frames that can be handed out: the first one is skipped, the last is not
    reached. *)
Definition allocatable (s e f : Z) : Prop := frame_from_address s < f < frame_from_address e.

Record frame_inv (s e : Z) (a : SimplePageFrameAllocator) (owned : gset Z) : Prop := {
  fi_head : frame_from_address s ≤ frame_head a < frame_from_address e;
  fi_end : mem_end a = frame_from_address e;
  fi_nodup : NoDup (free_frames a);
  fi_free : ∀ f, f ∈ free_frames a → frame_from_address s < f ≤ frame_head a ∧ f ∉ owned;
  fi_owned : ∀ f, f ∈ owned → frame_from_address s < f ≤ frame_head a;
  fi_all : ∀ f, frame_from_address s < f ≤ frame_head a → f ∈ free_frames a ∨ f ∈ owned;
}.

Lemma pop_None {A} (l : list A) : pop l = None → l = [].
Proof. unfold pop. destruct (last l) eqn:E; [done|]. intros _. by apply last_None. Qed.

Lemma pop_Some {A} (l : list A) x r : pop l = Some (x, r) → l = r ++ [x].
Proof.
  unfold pop. destruct l as [|y l _] using rev_ind; [done|]. rewrite last_snoc, removelast_last. by intros [= -> ->].
Qed.

Lemma simple_falloc_ok s e a owned :
  0 ≤ s → 0 ≤ e ≤ usize_max → frame_inv s e a owned →
  ∃ o a', simple_falloc a = Done (o, a') ∧
    match o with
    | Some f => allocatable s e f ∧ (f ∉ owned) ∧ frame_inv s e a' ({[f]} ∪ owned)
    | None => frame_inv s e a' owned ∧ free_frames a = [] ∧ frame_head a + 1 = frame_from_address e
    end.
Proof.
  intros Hs He [Hh Hend Hn Hf Ho Hall].
  assert (Hb : frame_from_address e * 4096 ≤ e) by (unfold frame_from_address, PAGE_SIZE; pose proof (Z.mul_div_le e 4096); lia).
  assert (Hs0 : 0 ≤ frame_from_address s) by (unfold frame_from_address, PAGE_SIZE; apply Z.div_pos; lia).
  unfold simple_falloc. unfold kget at 1. unfold kbind at 1. destruct (pop (free_frames a)) as [[f rest]|] eqn:E.
  - apply pop_Some in E. eexists _, _. split; [reflexivity|]. cbn.
    assert (Hin : f ∈ free_frames a) by (rewrite E; apply elem_of_app; right; constructor).
    destruct (Hf f Hin) as [Hr Hno]. split; [unfold allocatable; lia|]. split; [done|].
    rewrite E in Hn. apply NoDup_app in Hn as (Hn & Hd & _). split; cbn; auto.
    + intros g Hg. split; [apply Hf; rewrite E; apply elem_of_app; by left|].
      intros [->%elem_of_singleton | Hgo]%elem_of_union; [by apply (Hd f Hg); constructor|].
      apply (Hf g); [rewrite E; apply elem_of_app; by left | done].
    + intros g [->%elem_of_singleton | Hg]%elem_of_union; auto.
    + intros g Hg. destruct (Hall g Hg) as [Hin' | ?]; [|right; apply elem_of_union; by right].
      rewrite E in Hin'. apply elem_of_app in Hin' as [?| ->%list_elem_of_singleton]; [by left|].
      right. apply elem_of_union. left. by apply elem_of_singleton.
  - apply pop_None in E. unfold frame_start_address, PAGE_SIZE.
    rewrite (kbind_done _ _ _ _ _ (uadd_ok (frame_head a * 4096) 4096 a ltac:(lia))).
    rewrite (kbind_done _ _ _ _ _ (usub_ok (mem_end a * 4096) (frame_head a * 4096 + 4096) a ltac:(lia))).
    destruct (Z.ltb_spec (mem_end a * 4096 - (frame_head a * 4096 + 4096)) 4096).
    + eexists _, _. split; [reflexivity|]. split; [done|]. split; [done|]. lia.
    + eexists _, _. split; [reflexivity|].
      assert (Hnx : frame_from_address (frame_head a * 4096 + 4096) = frame_head a + 1)
        by (unfold frame_from_address, PAGE_SIZE; replace (frame_head a * 4096 + 4096) with ((frame_head a + 1) * 4096) by lia; by rewrite Z.div_mul).
      rewrite Hnx. split; [unfold allocatable; lia|]. split; [intros Hin; apply Ho in Hin; lia|].
      split; cbn; auto; [lia| | |].
      * rewrite E. by intros g ?%elem_of_nil.
      * intros g [->%elem_of_singleton | Hg]%elem_of_union; [lia|]. apply Ho in Hg. lia.
      * intros g Hg. destruct (decide (g = frame_head a + 1)) as [->|].
        { right. apply elem_of_union. left. by apply elem_of_singleton. }
        destruct (Hall g) as [?|?]; [lia | by left | right; apply elem_of_union; by right].
Qed.

Lemma history_frame_inv s e a owned :
  0 ≤ s → 0 ≤ e ≤ usize_max → frame_from_address s < frame_from_address e →
  frame_history s e a owned → frame_inv s e a owned.
Proof.
  intros Hs He Hse. induction 1 as [ | a owned f a' _ IH E | a owned a' _ IH E | a owned f a' _ IH Hf E].
  - split; cbn; [lia | done | constructor | by intros f ?%elem_of_nil | set_solver | lia].
  - destruct (simple_falloc_ok s e a owned Hs He IH) as (o & a1 & E1 & H1). change (falloc a) with (simple_falloc a) in E. rewrite E in E1.
    injection E1 as <- <-. tauto.
  - destruct (simple_falloc_ok s e a owned Hs He IH) as (o & a1 & E1 & H1). change (falloc a) with (simple_falloc a) in E. rewrite E in E1.
    injection E1 as <- <-. tauto.
  - destruct IH as [Hh Hend Hn Hfr Ho Hall]. cbn in E. unfold simple_free, kmodify in E. injection E as <-.
    split; cbn; auto.
    + apply NoDup_app. split; [done|]. split; [|apply NoDup_singleton].
      intros g Hg ->%list_elem_of_singleton. by apply (Hfr f Hg).
    + intros g [Hg | ->%list_elem_of_singleton]%elem_of_app.
      * destruct (Hfr g Hg). split; [done | set_solver].
      * split; [by apply Ho | set_solver].
    + intros g Hg. apply Ho. set_solver.
    + intros g Hg. rewrite elem_of_app, list_elem_of_singleton. destruct (Hall g Hg); [tauto|].
      destruct (decide (g = f)); [tauto | set_solver].
Qed.

(** Physical frames are handed out exclusively: in every run of the frame
    allocator, a frame it returns lies inside the managed memory and is not owned
    by anyone; it returns [None] only when every frame is owned; and it never
    panics. *)
Theorem falloc_exclusive s e a owned :
  0 ≤ s → 0 ≤ e ≤ usize_max → frame_from_address s < frame_from_address e →
  frame_history s e a owned →
  ∃ o a', falloc a = Done (o, a') ∧
    match o with
    | Some f => allocatable s e f ∧ (f ∉ owned)
    | None => ∀ f, allocatable s e f → f ∈ owned
    end.
Proof.
  intros Hs He Hse Hh. pose proof (history_frame_inv s e a owned Hs He Hse Hh) as Hi.
  destruct (simple_falloc_ok s e a owned Hs He Hi) as (o & a' & E & Ho). exists o, a'. split; [done|].
  destruct o as [f|]; [tauto|]. destruct Ho as (_ & Hempty & Hhead). intros f Hf.
  destruct (fi_all _ _ _ _ Hi f) as [Hin | ?]; [unfold allocatable in Hf; lia | | done].
  rewrite Hempty in Hin. by apply elem_of_nil in Hin.
Qed.

Lemma falloc_exclusive_witness :
  frame_from_address 0x200000 < frame_from_address 0x300000
  ∧ ∃ o a', falloc (simple_new 0x200000 0x300000) = Done (o, a').
Proof.
  split; [by vm_compute|].
  destruct (falloc_exclusive 0x200000 0x300000 (simple_new 0x200000 0x300000) ∅) as (o & a' & E & _);
    [done | by vm_compute | by vm_compute | apply frames_new |]. by exists o, a'.
Defined.
