(* ===== verification/SelfTest.v ===== *)
(** * SelfTest: the tests the kernel can run on itself (src/src/test.rs)

    The memory tests, with the boot information (crate multiboot2) as a record of what
    they read from it, and the log as the lines on it; the trace line of a failed
    assertion is left out.  [test_paging] is commented out in the source and succeeds. *)

From Stdlib Require Import Ascii String.
From S2P Require Import Prelude Devices Frames.

(** The ends of the memory areas, if the tag is there, and the size of the record. *)
Record BootInformation := {
  memory_areas : option (list Z);
  total_size : Z;
}.

(** The statics of the tests. *)
Record test_state := {
  BOOT_INFO_ADDR : option Z;
  BOOT_INFO : option BootInformation;
  MULTIBOOT_MEM_END : option Z;
  MEM_END : option Z;
  PAGE_FRAME_ALLOCATOR : option SimplePageFrameAllocator;
}.
Definition untested : test_state :=
  {| BOOT_INFO_ADDR := None; BOOT_INFO := None; MULTIBOOT_MEM_END := None; MEM_END := None; PAGE_FRAME_ALLOCATOR := None |}.

Abbreviation tm := (kst test_state).

Section Tests.
(** [BootInformation::load]. *)
Context (load : Z → option BootInformation).

Definition test_boot_info : tm bool :=
  let* s := kget in
  match BOOT_INFO_ADDR s with
  | None => kret false
  | Some addr =>
      match load addr with
      | None => kret false
      | Some info =>
          kput {| BOOT_INFO_ADDR := BOOT_INFO_ADDR s; BOOT_INFO := Some info; MULTIBOOT_MEM_END := MULTIBOOT_MEM_END s;
                  MEM_END := MEM_END s; PAGE_FRAME_ALLOCATOR := PAGE_FRAME_ALLOCATOR s |} ;;* kret true
      end
  end.

(** [memory_areas[memory_areas.len() - 2]]: the subtraction and the index panic. *)
Definition test_memory_map : tm bool :=
  let* s := kget in
  match BOOT_INFO s with
  | None => kret false
  | Some info =>
      match memory_areas info with
      | None => kret false
      | Some areas =>
          if (length areas =? 0)%nat then kret false
          else
            let* addr := or_panic (BOOT_INFO_ADDR s) in
            if negb (0 <? addr) then kret false
            else
              let* multiboot_end := uadd addr (total_size info) in
              if negb (0 <? multiboot_end) then kret false
              else
                let* i := usub (Z.of_nat (length areas)) 2 in
                kput {| BOOT_INFO_ADDR := BOOT_INFO_ADDR s; BOOT_INFO := BOOT_INFO s; MULTIBOOT_MEM_END := Some multiboot_end;
                        MEM_END := MEM_END s; PAGE_FRAME_ALLOCATOR := PAGE_FRAME_ALLOCATOR s |} ;;*
                let* memory_end := or_panic (areas !! Z.to_nat i) in
                if negb (0 <? memory_end) then kret false
                else
                  kput {| BOOT_INFO_ADDR := BOOT_INFO_ADDR s; BOOT_INFO := BOOT_INFO s; MULTIBOOT_MEM_END := Some multiboot_end;
                          MEM_END := Some memory_end; PAGE_FRAME_ALLOCATOR := PAGE_FRAME_ALLOCATOR s |} ;;*
                  kret true
      end
  end.

Definition set_allocator (a : SimplePageFrameAllocator) (s : test_state) : test_state :=
  {| BOOT_INFO_ADDR := BOOT_INFO_ADDR s; BOOT_INFO := BOOT_INFO s; MULTIBOOT_MEM_END := MULTIBOOT_MEM_END s;
     MEM_END := MEM_END s; PAGE_FRAME_ALLOCATOR := Some a |}.

(** A failed assertion drops the new allocator. *)
Definition test_page_frame_allocator : tm bool := λ s,
  match MULTIBOOT_MEM_END s, MEM_END s with
  | Some mem_start, Some mem_end =>
      match simple_falloc (simple_new mem_start mem_end) with
      | Done (Some _, a) => Done (true, set_allocator a s)
      | Done (None, _) => Done (false, s)
      | Fault e => Fault e
      end
  | _, _ => Done (false, s)
  end.

Definition test_paging : tm bool := kret true.

(** The counter is an [i32] and panics when it is exhausted. *)
Fixpoint fill_memory (fuel : nat) (mem_end i last_page_num : Z) : kst SimplePageFrameAllocator bool :=
  match fuel with
  | O => kfault Hang
  | S fuel =>
      let* alloc_res := simple_falloc in
      match alloc_res with
      | None => kret true
      | Some num =>
          if negb (frame_start_address num <? mem_end) then kret false
          else
            let* next := if i <? 2 ^ 31 - 1 then kret (i + 1) else kfault Panic in
            if i =? 0 then fill_memory fuel mem_end next num
            else
              let* before := usub num 1 in
              if negb (before =? last_page_num) then kret false
              else fill_memory fuel mem_end next num
      end
  end.

Definition test_frame_allocator_fill_memory (fuel : nat) : tm bool := λ s,
  match PAGE_FRAME_ALLOCATOR s, MEM_END s with
  | Some a, Some mem_end =>
      match fill_memory fuel mem_end 0 0 a with
      | Done (b, a) => Done (b, set_allocator a s)
      | Fault e => Fault e
      end
  | _, _ => Done (false, s)
  end.

(** ** The units *)

(** The statics, and what was logged. *)
Record bench := { statics : test_state; console : list (list Z) }.

Definition in_statics {A} (m : tm A) : kst bench A := λ s,
  match m (statics s) with
  | Done (x, t) => Done (x, {| statics := t; console := console s |})
  | Fault e => Fault e
  end.
Definition log (t : Log.LogType) (message : list Z) : kst bench unit :=
  kmodify (λ s, {| statics := statics s; console := console s ++ [Log.line t message] |}).

Record TestUnit := {
  function : tm bool;
  succeeded : bool;
  name : list Z;
}.

Definition unit_run (u : TestUnit) : kst bench TestUnit :=
  let* success := in_statics (function u) in
  (if success then log Log.OK (Log.text "Case " ++ [34] ++ name u ++ [34] ++ Log.text " succeeded!")
   else log Log.FAILED (Log.text "Case " ++ [34] ++ name u ++ [34] ++ Log.text " failed!")) ;;*
  kret {| function := function u; succeeded := success; name := name u |}.

Definition unit_new (func : tm bool) (name : list Z) : kst bench TestUnit :=
  unit_run {| function := func; succeeded := false; name := name |}.

Definition run_tests (fuel : nat) (boot_info_addr : Z) : kst bench unit :=
  in_statics (kmodify (λ s, {| BOOT_INFO_ADDR := Some boot_info_addr; BOOT_INFO := BOOT_INFO s; MULTIBOOT_MEM_END := MULTIBOOT_MEM_END s;
                   MEM_END := MEM_END s; PAGE_FRAME_ALLOCATOR := PAGE_FRAME_ALLOCATOR s |})) ;;*
  let* _u := unit_new test_boot_info (Log.text "Test Boot Info") in
  let* _u := unit_new test_memory_map (Log.text "Test Memory Map") in
  let* _u := unit_new test_page_frame_allocator (Log.text "Test Page Frame Allocator") in
  let* _u := unit_new test_paging (Log.text "Test Paging") in
  let* _u := unit_new (test_frame_allocator_fill_memory fuel) (Log.text "Test Page Frame Allocator Fill Memory") in
  kret tt.
End Tests.

(** ** Filling memory *)

(** An allocator from which nothing was given back. *)
Definition fresh_allocator (head end_ : Z) : SimplePageFrameAllocator := {| frame_head := head; mem_end := end_; free_frames := [] |}.

Lemma falloc_fresh head end_ : 0 ≤ head < end_ → end_ * PAGE_SIZE ≤ usize_max →
  simple_falloc (fresh_allocator head end_) =
    Done (if head + 1 <? end_ then Some (head + 1) else None, fresh_allocator (if head + 1 <? end_ then head + 1 else head) end_).
Proof.
  intros Hh He. unfold simple_falloc, PAGE_SIZE in *. unfold kget at 1. unfold kbind at 1. cbn [pop free_frames fresh_allocator last frame_head mem_end].
  unfold frame_start_address, PAGE_SIZE. rewrite (kbind_done _ _ _ _ _ (uadd_ok (head * 4096) 4096 _ ltac:(lia))).
  rewrite (kbind_done _ _ _ _ _ (usub_ok (end_ * 4096) (head * 4096 + 4096) _ ltac:(lia))).
  destruct (Z.ltb_spec (end_ * 4096 - (head * 4096 + 4096)) 4096), (Z.ltb_spec (head + 1) end_); try lia; [done|].
  assert (E : frame_from_address (head * 4096 + 4096) = head + 1).
  { unfold frame_from_address, PAGE_SIZE. replace (head * 4096 + 4096) with ((head + 1) * 4096) by lia. by rewrite Z.div_mul. }
  rewrite E. done.
Qed.

Lemma fill_memory_ok fuel e i last head end_ : 0 ≤ head < end_ → end_ * PAGE_SIZE ≤ e ≤ usize_max → 0 ≤ i → i + (end_ - head) ≤ 2 ^ 31 - 1 →
  (i ≠ 0 → last = head) → (Z.to_nat (end_ - head) ≤ fuel)%nat →
  fill_memory fuel e i last (fresh_allocator head end_) = Done (true, fresh_allocator (end_ - 1) end_).
Proof.
  revert i last head. induction fuel as [|fuel IH]; intros i last head Hh He Hi Hm Hl Hf; [lia|]. cbn [fill_memory].
  rewrite (kbind_done _ _ _ _ _ (falloc_fresh head end_ Hh ltac:(lia))).
  destruct (Z.ltb_spec (head + 1) end_); [|unfold kret; by replace (end_ - 1) with head by lia].
  unfold frame_start_address, PAGE_SIZE in *. rewrite (proj2 (Z.ltb_lt _ e)) by lia. cbn [negb].
  rewrite (proj2 (Z.ltb_lt i _)) by lia. rewrite kret_bind.
  destruct (Z.eqb_spec i 0) as [->|Hne]; [apply IH; lia|].
  rewrite (kbind_done _ _ _ _ _ (usub_ok (head + 1) 1 _ ltac:(lia))). rewrite (Hl Hne), Z.add_simpl_r, Z.eqb_refl. cbn [negb]. apply IH; lia.
Qed.

(** What the tests find on a machine with memory: at least two areas, and a free
    frame between the boot information and the end of the area before the last. *)
Record testable (load : Z → option BootInformation) (addr : Z) (info : BootInformation) (areas : list Z) (e : Z) : Prop := {
  te_load : load addr = Some info;
  te_areas : memory_areas info = Some areas;
  te_two : (2 ≤ length areas)%nat;
  te_end : areas !! (length areas - 2)%nat = Some e;
  te_addr : 0 < addr;
  te_size : 0 ≤ total_size info;
  te_max : addr + total_size info ≤ usize_max ∧ 0 < e ≤ usize_max;
  te_frame : frame_from_address (addr + total_size info) + 1 < frame_from_address e;
  te_count : frame_from_address e < 2 ^ 31 - 1;
}.

Section Passing.
Context (load : Z → option BootInformation) (addr : Z) (info : BootInformation) (areas : list Z) (e : Z).
Hypothesis Hte : testable load addr info areas e.

(** The statics after the tests that come before. *)
Definition tested (i : option BootInformation) (start end_ : option Z) (a : option SimplePageFrameAllocator) : test_state :=
  {| BOOT_INFO_ADDR := Some addr; BOOT_INFO := i; MULTIBOOT_MEM_END := start; MEM_END := end_; PAGE_FRAME_ALLOCATOR := a |}.
Definition info_end : Z := addr + total_size info.

Lemma boot_info_passes i start end_ a :
  test_boot_info load (tested i start end_ a) = Done (true, tested (Some info) start end_ a).
Proof. unfold test_boot_info, kget. unfold kbind at 1. cbn [BOOT_INFO_ADDR tested]. by rewrite (te_load _ _ _ _ _ Hte). Qed.

Lemma memory_map_passes start end_ a :
  test_memory_map (tested (Some info) start end_ a) = Done (true, tested (Some info) (Some info_end) (Some e) a).
Proof.
  destruct Hte as [_ Ha H2 He Hp Hs [Hm1 Hm2] _ _]. unfold test_memory_map, kget. unfold kbind at 1. cbn [BOOT_INFO BOOT_INFO_ADDR tested].
  rewrite Ha. destruct (Nat.eqb_spec (length areas) 0) as [|_]; [lia|]. cbn [or_panic]. rewrite kret_bind.
  rewrite (proj2 (Z.ltb_lt 0 addr)) by done. cbn [negb].
  rewrite (kbind_done _ _ _ _ _ (uadd_ok addr (total_size info) _ Hm1)). rewrite (proj2 (Z.ltb_lt 0 (addr + total_size info))) by lia. cbn [negb].
  rewrite (kbind_done _ _ _ _ _ (usub_ok (Z.of_nat (length areas)) 2 _ ltac:(lia))).
  unfold kput. unfold kbind at 1.
  replace (Z.to_nat (Z.of_nat (length areas) - 2)) with (length areas - 2)%nat by lia. rewrite He.
  cbn [or_panic]. rewrite kret_bind. by rewrite (proj2 (Z.ltb_lt 0 e)) by lia.
Qed.

Lemma frames_below : 0 ≤ frame_from_address info_end ∧ frame_from_address e * PAGE_SIZE ≤ e ≤ usize_max.
Proof.
  destruct Hte as [_ _ _ _ Hp Hs [_ Hm2] _ _]. unfold info_end. split; [apply Z.div_pos; unfold PAGE_SIZE; lia|].
  unfold frame_from_address, PAGE_SIZE. pose proof (Z.mul_div_le e 4096). lia.
Qed.

Lemma page_frame_allocator_passes i a :
  test_page_frame_allocator (tested i (Some info_end) (Some e) a)
    = Done (true, tested i (Some info_end) (Some e) (Some (fresh_allocator (frame_from_address info_end + 1) (frame_from_address e)))).
Proof.
  pose proof frames_below. pose proof (te_frame _ _ _ _ _ Hte) as Hf. fold info_end in Hf.
  unfold test_page_frame_allocator. cbn [MULTIBOOT_MEM_END MEM_END tested].
  change (simple_new info_end e) with (fresh_allocator (frame_from_address info_end) (frame_from_address e)).
  rewrite falloc_fresh by lia. by rewrite (proj2 (Z.ltb_lt _ (frame_from_address e))) by lia.
Qed.

Lemma fill_memory_passes fuel i start : (Z.to_nat (frame_from_address e) ≤ fuel)%nat →
  test_frame_allocator_fill_memory fuel
      (tested i start (Some e) (Some (fresh_allocator (frame_from_address info_end + 1) (frame_from_address e))))
    = Done (true, tested i start (Some e) (Some (fresh_allocator (frame_from_address e - 1) (frame_from_address e)))).
Proof.
  intros Hfuel. pose proof frames_below. pose proof (te_frame _ _ _ _ _ Hte) as Hf. pose proof (te_count _ _ _ _ _ Hte). fold info_end in Hf.
  unfold test_frame_allocator_fill_memory. cbn [PAGE_FRAME_ALLOCATOR MEM_END tested]. by rewrite fill_memory_ok by (done || lia).
Qed.
End Passing.

Definition success (name : list Z) : list Z := Log.line Log.OK (Log.text "Case " ++ [34] ++ name ++ [34] ++ Log.text " succeeded!").

(** A unit whose function succeeds logs that it did. *)
Lemma unit_passes {B} f n (k : TestUnit → kst bench B) t t' c : f t = Done (true, t') →
  kbind (unit_new f n) k {| statics := t; console := c |}
    = k {| function := f; succeeded := true; name := n |} {| statics := t'; console := c ++ [success n] |}.
Proof. intros E. unfold unit_new, unit_run, in_statics, kbind at 1 2. cbn [function statics name]. by rewrite E. Qed.

(** The tests the kernel runs on itself come to an end and succeed, on every machine
    with memory to test, and the log says so; the last one has then taken every frame. *)
Theorem self_tests_pass load addr info areas e fuel s : testable load addr info areas e →
  (Z.to_nat (frame_from_address e) ≤ fuel)%nat →
  ∃ t, run_tests load fuel addr s = Done (tt, {| statics := t; console := console s ++ List.map success
      [Log.text "Test Boot Info"; Log.text "Test Memory Map"; Log.text "Test Page Frame Allocator"; Log.text "Test Paging";
       Log.text "Test Page Frame Allocator Fill Memory"] |})
    ∧ PAGE_FRAME_ALLOCATOR t = Some (fresh_allocator (frame_from_address e - 1) (frame_from_address e)).
Proof.
  intros Hte Hfuel. eexists. split.
  - unfold run_tests, in_statics, kmodify. unfold kbind at 1.
    fold (tested addr (BOOT_INFO (statics s)) (MULTIBOOT_MEM_END (statics s)) (MEM_END (statics s)) (PAGE_FRAME_ALLOCATOR (statics s))).
    rewrite (unit_passes _ _ _ _ _ _ (boot_info_passes _ _ _ _ _ Hte _ _ _ _)).
    rewrite (unit_passes _ _ _ _ _ _ (memory_map_passes _ _ _ _ _ Hte _ _ _)).
    rewrite (unit_passes _ _ _ _ _ _ (page_frame_allocator_passes _ _ _ _ _ Hte _ _)).
    rewrite (unit_passes test_paging _ _ _ _ _ eq_refl).
    rewrite (unit_passes _ _ _ _ _ _ (fill_memory_passes _ _ _ _ _ Hte fuel _ _ Hfuel)).
    unfold kret. by rewrite <- !app_assoc.
  - done.
Qed.
