(* ===== verification/Paging.v ===== *)
(** * Paging: page tables, their slots and the temporary mapping

    (src/src/mem/paging/page_table.rs, slot_allocator.rs, temp_mapper.rs).
    The state is physical memory as frames of 512 words, the root the CPU
    translates with, and the allocators.  A [PageTable] is a virtual address; every
    access to a table goes through the translation of that address, so the single
    page of the [TempMapper], which the walks keep remapping, aliases what it
    aliases in the kernel.  The translation knows no huge pages (the kernel creates
    none) and no TLB (a translation that was removed is not used afterwards). *)

From S2P Require Import Prelude Frames.

Definition PAGE_TABLE_REGION_START : Z := 0x00006BCF00000000.

(** ** Data *)

Record TempMapper := {
  temp_addr : Z;
  temp_entry_addr : Z;
}.

Record PageTableSlotAllocator := {
  region_start : Z;
  first_phys_frame : Z;
  pml1_count : Z;
  last_pml1_slot : Z;
  pml2_addr : Z;
  init_done : bool;
  allocated_page_tables : Z;
  free_slots : list Z;
}.

Definition slots_new (start : Z) : PageTableSlotAllocator :=
  {| region_start := start; first_phys_frame := 0; pml1_count := 0; last_pml1_slot := 0; pml2_addr := 0;
     init_done := false; allocated_page_tables := 0; free_slots := [] |}.

(** [phys f i] is word [i] of frame [f]; [cr3] is [None] while the boot tables,
    which map every address to itself, are active. *)
Record machine (A : Type) := {
  phys : Z → Z → Z;
  cr3 : option Z;
  frames : A;
  slots : PageTableSlotAllocator;
  temp : TempMapper;
}.
Arguments phys {A} _ _ _.
Arguments cr3 {A} _.
Arguments frames {A} _.
Arguments slots {A} _.
Arguments temp {A} _.

Definition upd (m : Z → Z → Z) (f i v : Z) : Z → Z → Z := λ f' i', if (f' =? f) && (i' =? i) then v else m f' i'.

Definition set_phys {A} (m : Z → Z → Z) (k : machine A) : machine A :=
  {| phys := m; cr3 := cr3 k; frames := frames k; slots := slots k; temp := temp k |}.
Definition set_frames {A} (a : A) (k : machine A) : machine A :=
  {| phys := phys k; cr3 := cr3 k; frames := a; slots := slots k; temp := temp k |}.
Definition set_slots {A} (s : PageTableSlotAllocator) (k : machine A) : machine A :=
  {| phys := phys k; cr3 := cr3 k; frames := frames k; slots := s; temp := temp k |}.
Definition set_temp {A} (t : TempMapper) (k : machine A) : machine A :=
  {| phys := phys k; cr3 := cr3 k; frames := frames k; slots := slots k; temp := t |}.

(** ** Translation *)

(** Following entries from a table. *)
Fixpoint node (m : Z → Z → Z) (f : Z) (path : list Z) : option Z :=
  match path with
  | [] => Some f
  | i :: path => match entry_get_frame (m f i) with Some g => node m g path | None => None end
  end.

(** The walk of the CPU from a root to the frame of a page. *)
Definition walk (m : Z → Z → Z) (root page : Z) : option Z :=
  node m root [p4_index page; p3_index page; p2_index page; p1_index page].

Definition translate (m : Z → Z → Z) (root : option Z) (addr : Z) : option Z :=
  match root with
  | None => Some (addr / PAGE_SIZE)
  | Some c => walk m c (addr / PAGE_SIZE)
  end.

Section Tables.
Context {A : Type} `{PageFrameAllocator A}.
Abbreviation pm := (kst (machine A)).

Definition read_word (table i : Z) : pm Z := λ k,
  match translate (phys k) (cr3 k) table with
  | Some f => Done (phys k f i, k)
  | None => Fault Undefined
  end.
Definition write_word (table i v : Z) : pm unit := λ k,
  match translate (phys k) (cr3 k) table with
  | Some f => Done (tt, set_phys (upd (phys k) f i v) k)
  | None => Fault Undefined
  end.

(** ** The temporary mapping *)

(** The page of [temp_entry_addr] and the index of the word in it. *)
Definition temp_table (t : TempMapper) : Z := temp_entry_addr t / PAGE_SIZE * PAGE_SIZE.
Definition temp_index (t : TempMapper) : Z := temp_entry_addr t mod PAGE_SIZE / 8.

Definition temp_set (frame : Z) : pm Z :=
  let* t := kgets temp in
  let* v := entry_set frame (Z.lor PRESENT WRITABLE) in
  write_word (temp_table t) (temp_index t) v ;;*
  kret (temp_addr t).

(** A [&mut T], for a [T] of [size] bytes, is its address. *)
Definition temp_deref (size addr : Z) : pm Z :=
  let offset := Z.land addr (PAGE_SIZE - 1) in
  let* end_ := uadd offset size in
  if PAGE_SIZE <? end_ then kfault Panic
  else
    let* _a := temp_set (frame_from_address addr) in
    let* t := kgets temp in
    uadd (temp_addr t) offset.

Definition get_current_phys : pm (option Z) :=
  let* t := kgets temp in
  let* e := read_word (temp_table t) (temp_index t) in
  kret (entry_get_frame e).

(** ** Walking tables *)

Definition is_phys_identity (table : Z) : bool := table <? PAGE_TABLE_REGION_START.

Definition next_table_temp (table index : Z) : pm (option Z) :=
  let* e := read_word table index in
  if entry_is_unused e then kret None
  else
    match entry_get_frame e with
    | None => kret None
    | Some frame => let* a := temp_set frame in kret (Some a)
    end.

Definition table_get_frame (table index : Z) : pm (option Z) :=
  let* e := read_word table index in kret (entry_get_frame e).

Definition table_set (table index frame flags : Z) : pm unit :=
  let* v := entry_set frame flags in write_word table index v.

(** The three steps every walk starts with. *)
Definition walk_temp (table page : Z) : pm (option Z) :=
  let? pml3 := next_table_temp table (p4_index page) in
  let? pml2 := next_table_temp pml3 (p3_index page) in
  next_table_temp pml2 (p2_index page).

Definition translate_to_phys (table addr : Z) : pm (option Z) :=
  let page := page_for_address addr in
  let? pml1 := walk_temp table page in
  table_get_frame pml1 (p1_index page).

Definition unmap (table page : Z) : pm (option Z) :=
  let? pml1 := walk_temp table page in
  let* e := read_word pml1 (p1_index page) in
  match entry_get_frame e with
  | None => kret None
  | Some frame => write_word pml1 (p1_index page) 0 ;;* kret (Some frame)
  end.

Definition is_unused (table page : Z) : pm bool :=
  let* mapped :=
    let? pml1 := walk_temp table page in
    let* e := read_word pml1 (p1_index page) in
    kret (if entry_is_unused e then None else Some tt) in
  kret (match mapped with Some _ => false | None => true end).

(** The loop of [walk_range_entries]. *)
Fixpoint walk_pages (table : Z) (pages : list Z) (callback : Z → Z → option unit) : pm (option unit) :=
  match pages with
  | [] => kret (Some tt)
  | page :: pages =>
      let? pml1 := walk_temp table page in
      let* entry := read_word pml1 (p1_index page) in
      let? _ := kret (callback page entry) in
      walk_pages table pages callback
  end.

Definition walk_range_entries (table addr size : Z) (callback : Z → Z → option unit) : pm (option unit) :=
  if size =? 0 then kret (Some tt)
  else
    let? end_addr := kret (checked_add addr (size - 1)) in
    walk_pages table (page_range (page_for_address addr) (page_for_address end_addr)) callback.

(** [Process::validate_user_pointer], with the memory controller initialized. *)
Definition user_entry (writable : bool) (entry : Z) : bool :=
  let flags := entry_flags entry in
  contains flags PRESENT && contains flags RING3_ACCESSIBLE && (negb writable || contains flags WRITABLE).

Definition validate_user_pointer (table addr size : Z) (writable : bool) : pm bool :=
  let* r := walk_range_entries table addr size (λ _ entry, if user_entry writable entry then Some tt else None) in
  kret (match r with Some _ => true | None => false end).

(** ** Mapping pages *)

Definition in_frames {B} (m : kst A B) : pm B := zoom frames set_frames m.

Section Mapping.
(** [slot_alloc.alloc]. *)
Context (alloc : pm (option Z)).

Definition next_table_create (table index : Z) (return_physical : bool) (flags : Z) : pm Z :=
  let* entry := read_word table index in
  if negb (entry_is_unused entry) then
    let existing_flags := entry_flags entry in
    (if negb (contains existing_flags flags) && negb (contains existing_flags HUGE_PAGE) then
       match entry_get_frame entry with
       | Some frame => let* v := entry_set frame (Z.lor existing_flags flags) in write_word table index v
       | None => kret tt
       end
     else kret tt) ;;*
    if return_physical then
      let* entry := read_word table index in
      let* frame := or_panic (entry_get_frame entry) in
      kret (frame_start_address frame)
    else
      let* next := next_table_temp table index in or_panic next
  else
    let* slot := alloc in
    let* slot := or_panic slot in
    let* r :=
      if is_phys_identity table then kret (None, frame_from_address slot)
      else
        let* current_phys := get_current_phys in
        let* slot_phys := translate_to_phys PAGE_TABLE_REGION_START slot in
        let* slot_phys := or_panic slot_phys in
        kret (current_phys, slot_phys) in
    match r.1 with
    | Some restore_phys => let* _a := temp_set restore_phys in kret tt
    | None => kret tt
    end ;;*
    table_set table index r.2 flags ;;*
    kret slot.

(** The chain of tables a mapping went through. *)
Record PageTableMappingChain := {
  chain_pml3 : Z;
  chain_pml2 : Z;
  chain_pml1 : Z;
}.

Definition map_to (table page frame flags : Z) : pm PageTableMappingChain :=
  let is_phys := is_phys_identity table in
  let table_flags := Z.lor PRESENT WRITABLE in
  let table_flags :=
    if contains flags RING3_ACCESSIBLE then Z.lor table_flags RING3_ACCESSIBLE else table_flags in
  let* pml3 := next_table_create table (p4_index page) is_phys table_flags in
  let* pml2 := next_table_create pml3 (p3_index page) is_phys table_flags in
  let* pml1 := next_table_create pml2 (p2_index page) is_phys table_flags in
  table_set pml1 (p1_index page) frame (Z.lor flags PRESENT) ;;*
  kret {| chain_pml3 := pml3; chain_pml2 := pml2; chain_pml1 := pml1 |}.

(** [expect] panics when there is no frame. *)
Definition map (table page flags : Z) : pm unit :=
  let* frame := in_frames falloc in
  let* frame := or_panic frame in
  let* _c := map_to table page frame flags in
  kret tt.

Definition map_identity (table frame flags : Z) : pm unit :=
  let* _c := map_to table (page_for_address (frame_start_address frame)) frame flags in kret tt.

Fixpoint for_each (f : Z → pm unit) (l : list Z) : pm unit :=
  match l with [] => kret tt | x :: l => f x ;;* for_each f l end.

Definition map_range (table start end_ flags : Z) : pm unit :=
  for_each (λ page, map table page flags) (page_range start end_).
Definition map_range_identity (table start end_ flags : Z) : pm unit :=
  for_each (λ frame, map_identity table frame flags) (page_range start end_).

(** [extend_region]: [Page::range] includes its end, the page after the PML1. *)
Definition extend_region : pm unit :=
  let* s := kgets slots in
  let pml1_base := PAGE_TABLE_REGION_START + PAGE_SIZE * 512 * pml1_count s in
  let start := page_for_address pml1_base in
  map_range PAGE_TABLE_REGION_START start (start + 512) (Z.lor PRESENT WRITABLE) ;;*
  kmodify (λ k, set_slots
    {| region_start := region_start (slots k); first_phys_frame := first_phys_frame (slots k);
       pml1_count := pml1_count (slots k) + 1; last_pml1_slot := last_pml1_slot (slots k);
       pml2_addr := pml2_addr (slots k); init_done := init_done (slots k);
       allocated_page_tables := allocated_page_tables (slots k); free_slots := free_slots (slots k) |} k).
End Mapping.

(** ** Slots *)

Definition set_free_slots (l : list Z) (n : Z) (s : PageTableSlotAllocator) : PageTableSlotAllocator :=
  {| region_start := region_start s; first_phys_frame := first_phys_frame s; pml1_count := pml1_count s;
     last_pml1_slot := last_pml1_slot s; pml2_addr := pml2_addr s; init_done := init_done s;
     allocated_page_tables := n; free_slots := l |}.
Definition set_last_slot (l n : Z) (s : PageTableSlotAllocator) : PageTableSlotAllocator :=
  {| region_start := region_start s; first_phys_frame := first_phys_frame s; pml1_count := pml1_count s;
     last_pml1_slot := l; pml2_addr := pml2_addr s; init_done := init_done s;
     allocated_page_tables := n; free_slots := free_slots s |}.

(** [write_bytes(addr, 0, PAGE_SIZE)] at a page. *)
Definition zero_page (addr : Z) : pm unit := λ k,
  match translate (phys k) (cr3 k) addr with
  | Some f => Done (tt, set_phys (λ f' i, if f' =? f then 0 else phys k f' i) k)
  | None => Fault Undefined
  end.

(** [alloc] extends the region at slot 510, which allocates once more: [fuel]
    bounds that recursion. *)
Fixpoint slot_alloc (fuel : nat) : pm (option Z) :=
  match fuel with
  | O => kfault Hang
  | S fuel =>
      let* s := kgets slots in
      match (if init_done s then pop (free_slots s) else None) with
      | Some (addr, rest) =>
          zero_page addr ;;*
          kmodify (λ k, set_slots (set_free_slots rest (allocated_page_tables (slots k) + 1) (slots k)) k) ;;*
          kret (Some addr)
      | None =>
          let offset := if init_done s then PAGE_TABLE_REGION_START else first_phys_frame s in
          let addr := offset + last_pml1_slot s * PAGE_SIZE in
          kmodify (λ k, set_slots (set_last_slot (last_pml1_slot s + 1) (allocated_page_tables s) (slots k)) k) ;;*
          (if last_pml1_slot s + 1 =? 510 then extend_region (slot_alloc fuel) else kret tt) ;;*
          kmodify (λ k, set_slots (set_last_slot (last_pml1_slot (slots k))
                                     (allocated_page_tables (slots k) + 1) (slots k)) k) ;;*
          kret (Some addr)
      end
  end.

Definition slot_free (addr : Z) : pm unit :=
  let* s := kgets slots in
  if negb (init_done s) then kret tt
  else if (addr <? region_start s) || negb (addr mod PAGE_SIZE =? 0) then kret tt
  else
    let region_end := region_start s + last_pml1_slot s * PAGE_SIZE in
    if (region_end <=? addr) || bool_decide (addr ∈ free_slots s) then kret tt
    else kmodify (λ k, set_slots (set_free_slots (free_slots s ++ [addr])
                                    (Z.max 0 (allocated_page_tables s - 1)) (slots k)) k).

(** The loop of [addr_for_frame], from slot [n] on. *)
Fixpoint find_slot (target_addr : Z) (l : list Z) : pm (option Z) :=
  match l with
  | [] => kret None
  | slot :: l =>
      let* s := kgets slots in
      let addr := region_start s + slot * PAGE_SIZE in
      let* slot_frame := translate_to_phys PAGE_TABLE_REGION_START addr in
      match slot_frame with
      | None => find_slot target_addr l
      | Some f => if frame_start_address f =? target_addr then kret (Some addr) else find_slot target_addr l
      end
  end.
Definition addr_for_frame (frame : Z) : pm (option Z) :=
  let* s := kgets slots in
  find_slot (frame_start_address frame) (seqZ 0 (last_pml1_slot s)).

(** *** Freeing the tables of a process *)

Definition is_user_table_entry (entry : Z) : bool :=
  let flags := entry_flags entry in
  contains flags PRESENT && contains flags RING3_ACCESSIBLE && negb (contains flags HUGE_PAGE).

(** [entries().to_vec()]. *)
Definition read_table (table : Z) : pm (list Z) := λ k,
  match translate (phys k) (cr3 k) table with
  | Some f => Done (List.map (phys k f) (seqZ 0 512), k)
  | None => Fault Undefined
  end.

(** The frames of the user tables named by [entries], [depth] levels down. *)
Fixpoint user_tables (depth : nat) (entries : list Z) : pm (list Z) :=
  match depth with
  | O => kret []
  | S depth =>
      (fix go (entries : list Z) : pm (list Z) :=
         match entries with
         | [] => kret []
         | entry :: entries =>
             if negb (is_user_table_entry entry) then go entries
             else
               match entry_get_frame entry with
               | None => go entries
               | Some frame =>
                   let* below :=
                     match depth with
                     | O => kret []
                     | S _ =>
                         let* table := temp_set frame in
                         let* children := read_table table in
                         user_tables depth children
                     end in
                   let* rest := go entries in
                   kret (frame :: below ++ rest)
               end
         end) entries
  end.

Definition free_user_subtables (table : Z) : pm unit :=
  let* entries := read_table table in
  let* table_frames := user_tables 3 entries in
  for_each (λ frame,
    let* addr := addr_for_frame frame in
    match addr with Some addr => slot_free addr | None => kret tt end) table_frames.
End Tables.
