(* ===== verification/PageTree.v ===== *)
(** * PageTree: page tables as trees in physical memory

    Facts about [node] that the proofs on [map_to] use: what a write to one entry
    does to the tables reachable from a root.  [f1] and [t] are a table and an index
    in it whose entry may change at any time (the entry of the temporary mapping). *)

From S2P Require Import Prelude Frames Paging.

(** Paths to tables: at most three steps down from a PML4. *)
Definition table_path (p : list Z) : Prop := (length p ≤ 3)%nat ∧ Forall (λ i, 0 ≤ i < 512) p.

(** No table is shared: every table is reached by one path. *)
Definition tree_ok (m : Z → Z → Z) (P : Z) : Prop :=
  ∀ p p' x, table_path p → table_path p' → node m P p = Some x → node m P p' = Some x → p = p'.

(** A frame that is no table of the tree. *)
Definition outside (m : Z → Z → Z) (P g : Z) : Prop := ∀ p, table_path p → node m P p ≠ Some g.

(** [f1] holds no entries the walks to tables read. *)
Definition low (m : Z → Z → Z) (P f1 : Z) : Prop := ∀ p, table_path p → (length p ≤ 2)%nat → node m P p ≠ Some f1.

(** The entry of a page, 0 when a table on the way is missing. *)
Definition leaf (m : Z → Z → Z) (P page : Z) : Z :=
  match node m P [p4_index page; p3_index page; p2_index page] with
  | Some f => m f (p1_index page)
  | None => 0
  end.

Lemma node_app m P p p' : node m P (p ++ p') = match node m P p with Some f => node m f p' | None => None end.
Proof. revert P. induction p as [|i p IH]; intros P; cbn; [done|]. destruct (entry_get_frame _); [apply IH|done]. Qed.

Lemma node_snoc m P p i x :
  node m P (p ++ [i]) = Some x ↔ ∃ f, node m P p = Some f ∧ entry_get_frame (m f i) = Some x.
Proof.
  rewrite node_app. cbn. destruct (node m P p) as [f|]; [|by split; [|intros (? & ? & ?)]].
  destruct (entry_get_frame (m f i)) as [g|] eqn:E; split.
  - intros [= ->]. eauto.
  - intros (f' & [= <-] & E'). congruence.
  - done.
  - intros (f' & [= <-] & E'). congruence.
Qed.

Lemma table_path_snoc p i : table_path (p ++ [i]) ↔ table_path p ∧ (length p ≤ 2)%nat ∧ 0 ≤ i < 512.
Proof.
  unfold table_path. rewrite length_app, Forall_app, Forall_singleton. cbn. intuition lia.
Qed.

Lemma leaf_path page : table_path [p4_index page; p3_index page; p2_index page].
Proof. split; [cbn; lia|]. repeat constructor; apply index_range; lia. Qed.

Section Step.
Context (f1 t : Z).

(** [m'] differs from [m] in the entry [i] of [f], in the frame [g] and in the
    temporary entry. *)
Definition differs (m m' : Z → Z → Z) (f i : Z) (g : option Z) : Prop :=
  ∀ f' i', Some f' ≠ g → ¬ (f' = f ∧ i' = i) → ¬ (f' = f1 ∧ i' = t) → m' f' i' = m f' i'.

(** Changing what an entry says about access, but not where it points. *)
Lemma node_same m m' P f i x p :
  differs m m' f i None → entry_get_frame (m' f i) = entry_get_frame (m f i) → low m P f1 →
  table_path p → node m' P p = Some x ↔ node m P p = Some x.
Proof.
  intros Hd Hi Hl. revert x. induction p as [|j p IH] using rev_ind; intros x Hp; [done|].
  apply table_path_snoc in Hp as (Hp & Hlen & Hj). rewrite !node_snoc.
  assert (Hcell : ∀ h, node m P p = Some h → entry_get_frame (m' h j) = entry_get_frame (m h j)).
  { intros h Hh. destruct (decide (h = f ∧ j = i)) as [[-> ->]|]; [done|].
    rewrite (Hd h j); [done | done | done |]. intros [-> _]. by apply (Hl p Hp Hlen). }
  split; intros (h & Hh & He); exists h.
  - apply (IH h Hp) in Hh. by rewrite <- (Hcell h Hh).
  - split; [by apply (IH h Hp) | by rewrite (Hcell h Hh)].
Qed.

(** A table [g] is hung into an empty entry. *)
Record hangs (m m' : Z → Z → Z) (P : Z) (p0 : list Z) (f i g : Z) : Prop := {
  hg_differs : differs m m' f i (Some g);
  hg_path : table_path (p0 ++ [i]);
  hg_node : node m P p0 = Some f;
  hg_none : entry_get_frame (m f i) = None;
  hg_new : entry_get_frame (m' f i) = Some g;
  hg_zero : ∀ j, m' g j = 0;
  hg_out : outside m P g;
}.

Lemma get_frame_0 : entry_get_frame 0 = None.
Proof. reflexivity. Qed.

Lemma hangs_node m m' P p0 f i g p x :
  hangs m m' P p0 f i g → tree_ok m P → low m P f1 → table_path p →
  node m' P p = Some x ↔ node m P p = Some x ∨ (p = p0 ++ [i] ∧ x = g).
Proof.
  intros [Hd Hp0 Hn Hno Hnew Hz Ho] Ht Hl. revert x.
  apply table_path_snoc in Hp0 as (Hp0 & Hlen0 & Hi).
  induction p as [|j p IH] using rev_ind; intros x Hp.
  { cbn. split; [by left|]. intros [?|[? _]]; [done|]. by destruct p0. }
  pose proof Hp as Hpj. apply table_path_snoc in Hp as (Hp & Hlen & Hj). rewrite !node_snoc. split.
  - intros (h & Hh & He). apply (IH h Hp) in Hh as [Hh | [-> ->]]; [|by rewrite Hz in He].
    destruct (decide (h = f ∧ j = i)) as [[-> ->]|Hne].
    + right. rewrite Hnew in He. injection He as <-. by rewrite (Ht p p0 f Hp Hp0 Hh Hn).
    + left. exists h. split; [done|]. rewrite <- He. symmetry. f_equal. apply Hd; [|done|].
      * intros [= ->]. by apply (Ho p Hp).
      * intros [-> _]. by apply (Hl p Hp Hlen).
  - intros [(h & Hh & He) | [Heq ->]].
    + exists h. split; [by apply (IH h Hp); left|].
      rewrite (Hd h j); [done| | |].
      * intros [= ->]. by apply (Ho p Hp).
      * intros [-> ->]. congruence.
      * intros [-> _]. by apply (Hl p Hp Hlen).
    + apply app_inj_tail in Heq as [-> ->]. exists f. split; [by apply (IH f Hp); left | done].
Qed.

Lemma hangs_tree m m' P p0 f i g :
  hangs m m' P p0 f i g → tree_ok m P → low m P f1 → f1 ≠ g →
  tree_ok m' P ∧ low m' P f1 ∧ ∀ x, outside m P x → x ≠ g → outside m' P x.
Proof.
  intros Hh Ht Hl Hne. split_and!.
  - intros p p' x Hp Hp' H1 H2.
    apply (hangs_node _ _ _ _ _ _ _ _ _ Hh Ht Hl Hp) in H1. apply (hangs_node _ _ _ _ _ _ _ _ _ Hh Ht Hl Hp') in H2.
    destruct H1 as [H1|[-> ->]], H2 as [H2|[-> H2]]; [by eapply Ht| | |done].
    + subst x. by apply (hg_out _ _ _ _ _ _ _ Hh) in H1.
    + by apply (hg_out _ _ _ _ _ _ _ Hh) in H2.
  - intros p Hp Hlen Hn. apply (hangs_node _ _ _ _ _ _ _ _ _ Hh Ht Hl Hp) in Hn as [Hn|[_ ?]]; [|done].
    by apply (Hl p).
  - intros x Hx Hxg p Hp Hn. apply (hangs_node _ _ _ _ _ _ _ _ _ Hh Ht Hl Hp) in Hn as [Hn|[_ ?]]; [|done].
    by apply (Hx p).
Qed.

(** The temporary page itself, seen from [P]. *)
Definition temp_page (m : Z → Z → Z) (P page : Z) : Prop :=
  node m P [p4_index page; p3_index page; p2_index page] = Some f1 ∧ p1_index page = t.

Lemma hangs_leaf m m' P p0 f i g page :
  hangs m m' P p0 f i g → tree_ok m P → low m P f1 → f1 ≠ g → ¬ temp_page m P page →
  leaf m' P page = leaf m P page.
Proof.
  intros Hh Ht Hl Hne Htp. pose proof (leaf_path page) as Hp. unfold leaf.
  pose proof (λ x, hangs_node _ _ _ _ _ _ _ _ x Hh Ht Hl Hp) as Hnode.
  destruct Hh as [Hd Hp0 Hn Hno Hnew Hz Ho]. apply table_path_snoc in Hp0 as (Hp0 & Hlen0 & Hi).
  destruct (node m P [p4_index page; p3_index page; p2_index page]) as [h|] eqn:E.
  - rewrite (proj2 (Hnode h) (or_introl eq_refl)). apply Hd.
    + intros [= ->]. by apply (Ho _ Hp).
    + intros [-> _]. assert (Heq := Ht _ _ _ Hp Hp0 E Hn). rewrite <- Heq in Hlen0. cbn in Hlen0. lia.
    + intros [-> ?]. by apply Htp.
  - destruct (node m' P [p4_index page; p3_index page; p2_index page]) as [h|] eqn:E'; [|done].
    destruct (proj1 (Hnode h) eq_refl) as [?|[_ ->]]; [done|]. apply Hz.
Qed.

(** Changing the flags of an entry above the leaves. *)
Lemma same_tree m m' P f i :
  differs m m' f i None → entry_get_frame (m' f i) = entry_get_frame (m f i) → tree_ok m P → low m P f1 →
  tree_ok m' P ∧ low m' P f1 ∧ ∀ x, outside m P x → outside m' P x.
Proof.
  intros Hd Hi Ht Hl. pose proof (λ x p, node_same m m' P f i x p Hd Hi Hl) as Hn. split_and!.
  - intros p p' x Hp Hp' H1 H2. apply (Hn _ _ Hp) in H1. apply (Hn _ _ Hp') in H2. by eapply Ht.
  - intros p Hp Hlen H1. apply (Hn _ _ Hp) in H1. by apply (Hl p).
  - intros x Hx p Hp H1. apply (Hn _ _ Hp) in H1. by apply (Hx p).
Qed.

Lemma same_leaf m m' P f i p0 page :
  differs m m' f i None → entry_get_frame (m' f i) = entry_get_frame (m f i) → tree_ok m P → low m P f1 →
  table_path p0 → (length p0 ≤ 2)%nat → node m P p0 = Some f → ¬ temp_page m P page →
  leaf m' P page = leaf m P page.
Proof.
  intros Hd Hi Ht Hl Hp0 Hlen Hn0 Htp. pose proof (leaf_path page) as Hp. unfold leaf.
  pose proof (λ x, node_same m m' P f i x _ Hd Hi Hl Hp) as Hn.
  destruct (node m P [p4_index page; p3_index page; p2_index page]) as [h|] eqn:E.
  - rewrite (proj2 (Hn h) eq_refl). apply Hd; [done| |].
    + intros [-> _]. assert (Heq := Ht _ _ _ Hp Hp0 E Hn0). rewrite <- Heq in Hlen. cbn in Hlen. lia.
    + intros [-> ?]. by apply Htp.
  - destruct (node m' P [p4_index page; p3_index page; p2_index page]) as [h|] eqn:E'; [|done]. pose proof (proj1 (Hn h) eq_refl). congruence.
Qed.

(** Writing a leaf: tables are reached as before, for the written entry lies in a
    PML1. *)
Lemma write_node m m' P page f p x :
  node m P [p4_index page; p3_index page; p2_index page] = Some f →
  differs m m' f (p1_index page) None → tree_ok m P → low m P f1 → table_path p →
  node m' P p = Some x ↔ node m P p = Some x.
Proof.
  intros Hf Hd Ht Hl. pose proof (leaf_path page) as Hp. revert x.
  induction p as [|j p IH] using rev_ind; intros x Hpj; [done|].
  apply table_path_snoc in Hpj as (Hpp & Hlen & Hj). rewrite !node_snoc.
  assert (Hcell : ∀ h, node m P p = Some h → m' h j = m h j).
  { intros h Hh. apply Hd; [done| |].
    - intros [-> _]. assert (Heq := Ht _ _ _ Hpp Hp Hh Hf). rewrite Heq in Hlen. cbn in Hlen. lia.
    - intros [-> _]. by apply (Hl p Hpp Hlen). }
  split; intros (h & Hh & He); exists h.
  - apply (IH h Hpp) in Hh. by rewrite <- (Hcell h Hh).
  - split; [by apply (IH h Hpp) | by rewrite (Hcell h Hh)].
Qed.

Lemma write_leaf m m' P page f :
  node m P [p4_index page; p3_index page; p2_index page] = Some f →
  differs m m' f (p1_index page) None → tree_ok m P → low m P f1 →
  leaf m' P page = m' f (p1_index page)
  ∧ ∀ page', 0 ≤ page < 2 ^ 36 → 0 ≤ page' < 2 ^ 36 → page' ≠ page → ¬ temp_page m P page' →
      leaf m' P page' = leaf m P page'.
Proof.
  intros Hf Hd Ht Hl. pose proof (leaf_path page) as Hp.
  pose proof (λ p x Hp, write_node m m' P page f p x Hf Hd Ht Hl Hp) as Hn.
  split.
  - unfold leaf. by rewrite (proj2 (Hn _ f Hp) Hf).
  - intros page' Hpg Hpg' Hne Htp. pose proof (leaf_path page') as Hp'. unfold leaf.
    destruct (node m P [p4_index page'; p3_index page'; p2_index page']) as [h|] eqn:E.
    + rewrite (proj2 (Hn _ h Hp') E). apply Hd; [done| |].
      * intros [-> Hi]. pose proof (Ht _ _ _ Hp' Hp E Hf) as Heq. injection Heq as E4 E3 E2.
        apply Hne. by apply page_indices.
      * intros [-> ?]. by apply Htp.
    + destruct (node m' P [p4_index page'; p3_index page'; p2_index page']) as [h|] eqn:E'; [|done]. apply Hn in E'; [congruence | done].
Qed.
End Step.
