(* ===== verification/PageWalk.v ===== *)
(** * PageWalk: walking page tables through the temporary mapping

    [region_ok] describes the kernel's half of memory once the page tables are
    live: the slots of the page table region are mapped by one PML1, one of whose
    entries is the temporary mapping, reached through a slot of its own.  Under it,
    remapping the temporary page is a write to that entry, and walks of any tree
    return what the CPU would find. *)

From S2P Require Import Prelude Frames Paging PageTree.

Definition REGION : Z := PAGE_TABLE_REGION_START / 4096.
Definition slot_addr (s : Z) : Z := PAGE_TABLE_REGION_START + s * 4096.

Lemma slot_page s : slot_addr s / PAGE_SIZE = REGION + s.
Proof.
  unfold slot_addr, PAGE_SIZE, REGION. change PAGE_TABLE_REGION_START with (28939649024 * 4096).
  rewrite Z.div_add by done. by rewrite Z.div_mul.
Qed.

(** The slots of the first PML1 differ only in their last index. *)
Lemma slot_indices s : 0 ≤ s < 512 →
  p4_index (REGION + s) = p4_index REGION ∧ p3_index (REGION + s) = p3_index REGION
  ∧ p2_index (REGION + s) = p2_index REGION ∧ p1_index (REGION + s) = s.
Proof.
  intros Hs. unfold p4_index, p3_index, p2_index, p1_index. rewrite !index_mod by lia.
  change REGION with 28939649024. change (2 ^ 27) with 134217728. change (2 ^ 18) with 262144.
  change (2 ^ 9) with 512. change (2 ^ 0) with 1. split_and!; Z.to_euclidean_division_equations; lia.
Qed.

Definition PW : Z := Z.lor PRESENT WRITABLE.

Abbreviation R4 := (p4_index REGION).
Abbreviation R3 := (p3_index REGION).
Abbreviation R2 := (p2_index REGION).

Lemma upd_eq m f i v : upd m f i v f i = v.
Proof. unfold upd. by rewrite !Z.eqb_refl. Qed.

Lemma upd_ne m f i v f' i' : ¬ (f' = f ∧ i' = i) → upd m f i v f' i' = m f' i'.
Proof.
  intros Hne. unfold upd. destruct (Z.eqb_spec f' f), (Z.eqb_spec i' i); cbn; try done. by destruct Hne.
Qed.

Section Walk.
Context {A : Type} `{PageFrameAllocator A}.
(** The tables of the region - the active root, and the tables that map the region -
    the frame of the kernel's PML4, the temporary slot, and the slot of the PML1. *)
Context (c f3 f2 f1 kp t s1 : Z).
Implicit Types (k : machine A) (m : Z → Z → Z).

Record region_mem m : Prop := {
  rg_3 : entry_get_frame (m c R4) = Some f3;
  rg_2 : entry_get_frame (m f3 R3) = Some f2;
  rg_1 : entry_get_frame (m f2 R2) = Some f1;
  rg_self : entry_get_frame (m f1 s1) = Some f1;
  rg_kp : entry_get_frame (m f1 0) = Some kp;
  rg_kp3 : entry_get_frame (m kp R4) = Some f3;
}.

Record region_ok k : Prop := {
  rg_mem : region_mem (phys k);
  rg_cr3 : cr3 k = Some c;
  rg_temp : temp_addr (temp k) = slot_addr t;
  rg_entry : temp_entry_addr (temp k) = slot_addr s1 + 8 * t;
  rg_range : 0 < t < 512 ∧ 0 ≤ s1 < 512 ∧ s1 ≠ t;
  rg_ne : f1 ≠ c ∧ f1 ≠ f3 ∧ f1 ≠ f2 ∧ f1 ≠ kp;
}.

(** Everything but the temporary entry is the same, and that entry was set by
    [TempMapper::set] or not at all. *)
Record same k k' : Prop := {
  sm_entry : phys k' f1 t = phys k f1 t ∨ ∃ g, phys k' f1 t = Z.lor (g * 4096) PW;
  sm_phys : ∀ f i, ¬ (f = f1 ∧ i = t) → phys k' f i = phys k f i;
  sm_cr3 : cr3 k' = cr3 k;
  sm_frames : frames k' = frames k;
  sm_slots : slots k' = slots k;
  sm_temp : temp k' = temp k;
}.

Lemma same_refl k : same k k.
Proof. split; auto. Qed.

Lemma same_trans k1 k2 k3 : same k1 k2 → same k2 k3 → same k1 k3.
Proof.
  intros [Z1 A1 B1 C1 D1 E1] [Z2 A2 B2 C2 D2 E2]. split; try congruence.
  - destruct Z2 as [-> | ?]; auto.
  - intros. by rewrite A2, A1.
Qed.

Lemma region_same k k' : region_ok k → same k k' → region_ok k'.
Proof.
  intros [[H3 H2 H1 Hs Hk Hk3] Hc Ht He Hr Hn] [_ Hp Hc' _ _ Ht'].
  split; try congruence; auto. split; rewrite Hp; auto; lia.
Qed.

(** The CPU's view of the slots. *)
Lemma translate_slot k s : region_ok k → 0 ≤ s < 512 →
  translate (phys k) (cr3 k) (slot_addr s) = entry_get_frame (phys k f1 s).
Proof.
  intros [[H3 H2 H1 _ _ _] Hc _ _ _ _] Hs. rewrite Hc. unfold translate, walk. rewrite slot_page.
  destruct (slot_indices s Hs) as (-> & -> & -> & ->). cbn [node]. rewrite H3, H2, H1.
  by destruct (entry_get_frame (phys k f1 s)).
Qed.

(** A table at a slot address, in a frame. *)
Definition table_at k (s f : Z) : Prop := 0 ≤ s < 512 ∧ entry_get_frame (phys k f1 s) = Some f.

Lemma read_word_ok k s f i : region_ok k → table_at k s f → read_word (slot_addr s) i k = Done (phys k f i, k).
Proof. intros Hk [Hs Hf]. unfold read_word. by rewrite translate_slot, Hf. Qed.

Lemma write_word_ok k s f i v : region_ok k → table_at k s f →
  write_word (slot_addr s) i v k = Done (tt, set_phys (upd (phys k) f i v) k).
Proof. intros Hk [Hs Hf]. unfold write_word. by rewrite translate_slot, Hf. Qed.

Lemma table_at_same k k' s f : same k k' → s ≠ t → table_at k s f → table_at k' s f.
Proof. intros [_ Hp _ _ _ _] Hne [Hs Hf]. split; [done|]. rewrite Hp; [done | lia]. Qed.

(** *** Setting the temporary page *)

Lemma temp_table_ok k : region_ok k → temp_table (temp k) = slot_addr s1 ∧ temp_index (temp k) = t.
Proof.
  intros [_ _ _ He Hr _]. unfold temp_table, temp_index. rewrite He. unfold slot_addr, PAGE_SIZE.
  change PAGE_TABLE_REGION_START with (28939649024 * 4096).
  replace (28939649024 * 4096 + s1 * 4096 + 8 * t) with (8 * t + (28939649024 + s1) * 4096) by lia.
  rewrite Z.div_add, Z.mod_add, (Z.div_small (8 * t)), (Z.mod_small (8 * t)) by lia.
  split; [lia|]. rewrite Z.mul_comm. by rewrite Z.div_mul.
Qed.

Definition remapped (g : Z) k : machine A := set_phys (upd (phys k) f1 t (Z.lor (g * 4096) PW)) k.

Lemma temp_set_ok k g : region_ok k → frame_ok g → temp_set g k = Done (slot_addr t, remapped g k).
Proof.
  intros Hk Hg. destruct (temp_table_ok k Hk) as [Ett Eti]. unfold temp_set, kgets at 1. unfold kbind at 1.
  rewrite Ett, Eti. rewrite (kbind_done _ _ _ _ _ (entry_set_ok g PW k Hg)).
  rewrite (kbind_done _ _ _ _ _ (write_word_ok k s1 f1 t _ Hk ltac:(split; [apply (rg_range k Hk) | apply (rg_mem k Hk)]))).
  unfold kret. by rewrite (rg_temp k Hk).
Qed.

Lemma remapped_same g k : same k (remapped g k).
Proof.
  split; try done.
  - right. exists g. cbn. apply upd_eq.
  - intros f i Hne. cbn. by apply upd_ne.
Qed.

Lemma remapped_at g k : region_ok k → frame_ok g → table_at (remapped g k) t g.
Proof.
  intros Hk Hg. split; [pose proof (rg_range k Hk); lia|]. cbn. rewrite upd_eq. by apply set_get_frame.
Qed.

(** [deref] gives an object within one frame an address in the temporary page, at the
    object's offset; an object that crosses a frame stops the kernel. *)
Lemma temp_deref_ok k size g i : region_ok k → frame_ok g → 0 ≤ i < PAGE_SIZE → 0 ≤ size ≤ isize_max →
  temp_deref size (g * PAGE_SIZE + i) k
    = if PAGE_SIZE <? i + size then Fault Panic else Done (slot_addr t + i, remapped g k).
Proof.
  intros Hk Hg Hi Hs. unfold temp_deref, frame_from_address. change (PAGE_SIZE - 1) with (Z.ones 12).
  rewrite Z.land_ones by done. unfold PAGE_SIZE, isize_max in *. change (2 ^ 12) with 4096.
  rewrite (Z.add_comm (g * 4096)), Z.mod_add, Z.div_add, (Z.mod_small i), (Z.div_small i) by lia. rewrite Z.add_0_l.
  rewrite (kbind_done _ _ _ _ _ (uadd_ok i size k ltac:(unfold usize_max; lia))).
  destruct (4096 <? i + size); [done|]. rewrite (kbind_done _ _ _ _ _ (temp_set_ok k g Hk Hg)).
  unfold kgets, kbind. cbn [temp remapped set_phys]. rewrite (rg_temp k Hk). apply uadd_ok.
  pose proof (rg_range k Hk). unfold slot_addr, PAGE_SIZE, usize_max, PAGE_TABLE_REGION_START in *. lia.
Qed.

Lemma get_current_phys_ok k : region_ok k → get_current_phys k = Done (entry_get_frame (phys k f1 t), k).
Proof.
  intros Hk. destruct (temp_table_ok k Hk) as [Ett Eti]. unfold get_current_phys, kgets at 1. unfold kbind at 1.
  rewrite Ett, Eti. rewrite (kbind_done _ _ _ _ _ (read_word_ok k s1 f1 t Hk ltac:(split; [apply (rg_range k Hk) | apply (rg_mem k Hk)]))).
  done.
Qed.

(** *** Walks *)

Lemma next_table_temp_ok k s f i : region_ok k → table_at k s f →
  next_table_temp (slot_addr s) i k =
    match entry_get_frame (phys k f i) with
    | Some g => Done (Some (slot_addr t), remapped g k)
    | None => Done (None, k)
    end.
Proof.
  intros Hk Ht. unfold next_table_temp. rewrite (kbind_done _ _ _ _ _ (read_word_ok k s f i Hk Ht)).
  destruct (entry_get_frame (phys k f i)) as [g|] eqn:E.
  - rewrite (get_frame_used _ _ E). rewrite (kbind_done _ _ _ _ _ (temp_set_ok k g Hk (entry_get_frame_ok _ _ E))). done.
  - by destruct (entry_is_unused _).
Qed.

(** The walk does not pass through the table of the temporary entry before its end. *)
Definition clear m (P page : Z) : Prop :=
  P ≠ f1 ∧ node m P [p4_index page] ≠ Some f1 ∧ node m P [p4_index page; p3_index page] ≠ Some f1.

Lemma low_clear m P page : low m P f1 → clear m P page.
Proof.
  intros Hl. pose proof (index_range page) as Hx. split_and!.
  - intros ->. by apply (Hl []); [split; [cbn; lia | constructor] | cbn; lia |].
  - apply Hl; [|cbn; lia]. split; [cbn; lia|]. repeat constructor; apply Hx; lia.
  - apply Hl; [|cbn; lia]. split; [cbn; lia|]. repeat constructor; apply Hx; lia.
Qed.

Lemma walk_temp_ok k s P page : region_ok k → table_at k s P → clear (phys k) P page →
  ∃ k', same k k' ∧
    match node (phys k) P [p4_index page; p3_index page; p2_index page] with
    | Some g => walk_temp (slot_addr s) page k = Done (Some (slot_addr t), k') ∧ table_at k' t g
    | None => walk_temp (slot_addr s) page k = Done (None, k')
    end.
Proof.
  intros Hk Ht (HP & H3 & H2). unfold walk_temp. cbn [node] in *.
  pose proof (next_table_temp_ok k s P (p4_index page) Hk Ht) as N3.
  destruct (entry_get_frame (phys k P (p4_index page))) as [g3|] eqn:E3.
  2: { exists k. split; [apply same_refl|]. by rewrite (ktry_none _ _ _ _ N3). }
  rewrite (ktry_some _ _ _ _ _ N3).
  pose proof (entry_get_frame_ok _ _ E3) as Hg3. pose proof (remapped_same g3 k) as S3.
  pose proof (region_same _ _ Hk S3) as K3.
  pose proof (next_table_temp_ok _ t g3 (p3_index page) K3 (remapped_at g3 k Hk Hg3)) as N2.
  rewrite (sm_phys _ _ S3) in N2 by (intros [-> _]; congruence).
  destruct (entry_get_frame (phys k g3 (p3_index page))) as [g2|] eqn:E2.
  2: { exists (remapped g3 k). split; [done|]. by rewrite (ktry_none _ _ _ _ N2). }
  rewrite (ktry_some _ _ _ _ _ N2).
  pose proof (entry_get_frame_ok _ _ E2) as Hg2. pose proof (same_trans _ _ _ S3 (remapped_same g2 _)) as S2.
  pose proof (region_same _ _ Hk S2) as K2.
  rewrite (next_table_temp_ok _ t g2 _ K2 (remapped_at g2 _ K3 Hg2)).
  rewrite (sm_phys _ _ S2) by (intros [-> _]; congruence).
  destruct (entry_get_frame (phys k g2 (p2_index page))) as [g1|] eqn:E1; [|eexists; by split].
  pose proof (entry_get_frame_ok _ _ E1) as Hg1.
  eexists. split; [exact (same_trans _ _ _ S2 (remapped_same g1 _))|]. split; [done|]. by apply remapped_at.
Qed.

(** The last entry of a walk. *)
Lemma leaf_same k k' P page : same k k' → ¬ temp_page f1 t (phys k) P page →
  match node (phys k) P [p4_index page; p3_index page; p2_index page] with
  | Some g => phys k' g (p1_index page) = leaf (phys k) P page
  | None => leaf (phys k) P page = 0
  end.
Proof.
  intros S Htp. unfold leaf. destruct (node _ P _) as [g|] eqn:E; [|done].
  apply (sm_phys _ _ S). intros [-> ?]. by apply Htp.
Qed.

Lemma translate_ok k s P addr : region_ok k → table_at k s P → clear (phys k) P (page_for_address addr) →
  ¬ temp_page f1 t (phys k) P (page_for_address addr) →
  ∃ k', same k k' ∧
    translate_to_phys (slot_addr s) addr k = Done (entry_get_frame (leaf (phys k) P (page_for_address addr)), k').
Proof.
  intros Hk Ht Hc Htp. set (page := page_for_address addr) in *.
  destruct (walk_temp_ok k s P page Hk Ht Hc) as (k' & S & Hw). exists k'. split; [done|].
  pose proof (leaf_same k k' P page S Htp) as Hleaf. unfold translate_to_phys. fold page. unfold ktry, kbind.
  destruct (node _ P _) as [g|].
  - destruct Hw as [-> Ht']. unfold table_get_frame, kbind.
    rewrite (read_word_ok k' t g _ (region_same _ _ Hk S) Ht'). unfold kret. by rewrite Hleaf.
  - rewrite Hw, Hleaf. done.
Qed.

(** The frame behind a slot. *)
Lemma translate_slot_ok k s : region_ok k → 0 ≤ s < 512 → s ≠ t →
  ∃ k', same k k' ∧
    translate_to_phys PAGE_TABLE_REGION_START (slot_addr s) k = Done (entry_get_frame (phys k f1 s), k').
Proof.
  intros Hk Hs Hst. pose proof Hk as [[H3 H2 H1 _ Hkp Hkp3] _ _ _ Hr Hn].
  assert (Hpage : page_for_address (slot_addr s) = REGION + s) by apply slot_page.
  destruct (slot_indices s Hs) as (I4 & I3 & I2 & I1).
  destruct (translate_ok k 0 kp (slot_addr s) Hk) as (k' & S & E).
  - split; [lia | done].
  - rewrite Hpage. unfold clear. rewrite I4, I3. cbn [node]. rewrite Hkp3, H2. destruct Hn as (? & ? & ? & ?). split_and!; [lia|congruence|congruence].
  - rewrite Hpage. intros [_ Hi]. congruence.
  - exists k'. split; [done|]. change (slot_addr 0) with PAGE_TABLE_REGION_START in E. rewrite E. do 3 f_equal.
    rewrite Hpage. unfold leaf. rewrite I4, I3, I2, I1. cbn [node]. by rewrite Hkp3, H2, H1.
Qed.
End Walk.
