(* ===== verification/PageCheck.v ===== *)
(** * PageCheck: checking the pointers of user programs

    Remapping the temporary page changes no tree of page tables; what
    [validate_user_pointer] answers, over the walks of PageWalk. *)

From S2P Require Import Prelude Frames Paging PageTree PageWalk.

(** The entry of the temporary page never admits ring 3. *)
Lemma temp_entry_kernel g : contains (entry_flags (Z.lor (g * 4096) PW)) RING3_ACCESSIBLE = false.
Proof.
  unfold contains, entry_flags. rewrite <- Z.land_assoc. change (Z.land ALL_FLAGS RING3_ACCESSIBLE) with 4.
  rewrite Z.land_lor_distr_l. change (Z.land PW 4) with 0. rewrite Z.lor_0_r.
  change 4 with (Z.land (Z.ones 12) 4) at 1. rewrite Z.land_assoc, Z.land_ones by lia.
  change (2 ^ 12) with 4096. by rewrite Z.mod_mul.
Qed.

Section Same.
Context {A : Type} `{PageFrameAllocator A}.
Context (c f3 f2 f1 kp t s1 : Z).
Implicit Types (k : machine A).

Lemma same_node k k' P p x : same f1 t k k' → low (phys k) P f1 → table_path p →
  node (phys k') P p = Some x ↔ node (phys k) P p = Some x.
Proof.
  intros S Hl Hp. apply (node_same f1 t _ _ P (f1 + 1) 0); [| |done|done].
  - intros f' i' _ _ Hne. by apply (sm_phys _ _ _ _ S).
  - f_equal. apply (sm_phys _ _ _ _ S). lia.
Qed.

Lemma same_low k k' P : same f1 t k k' → low (phys k) P f1 → low (phys k') P f1.
Proof. intros S Hl p Hp Hlen Hn. apply (Hl p Hp Hlen). by apply (same_node _ _ _ _ _ S Hl). Qed.

Lemma same_temp_page k k' P page : same f1 t k k' → low (phys k) P f1 →
  temp_page f1 t (phys k') P page ↔ temp_page f1 t (phys k) P page.
Proof. intros S Hl. unfold temp_page. by rewrite (same_node _ _ _ _ _ S Hl (leaf_path page)). Qed.

Lemma same_leaf_eq k k' P page : same f1 t k k' → low (phys k) P f1 →
  ¬ temp_page f1 t (phys k) P page → leaf (phys k') P page = leaf (phys k) P page.
Proof.
  intros S Hl Htp. unfold leaf. pose proof (λ x, same_node k k' P _ x S Hl (leaf_path page)) as Hn.
  destruct (node (phys k) P _) as [g|] eqn:E.
  - rewrite (proj2 (Hn g) eq_refl). apply (sm_phys _ _ _ _ S). intros [-> ?]. by apply Htp.
  - destruct (node (phys k') P _) as [g|] eqn:E'; [|done]. pose proof (proj1 (Hn g) eq_refl). congruence.
Qed.

Lemma same_tree_ok k k' P : same f1 t k k' → low (phys k) P f1 → tree_ok (phys k) P → tree_ok (phys k') P.
Proof.
  intros S Hl Ht p p' x Hp Hp' H1 H2. apply (same_node _ _ _ _ _ S Hl) in H1; [|done].
  apply (same_node _ _ _ _ _ S Hl) in H2; [|done]. by apply (Ht p p' x).
Qed.

(** ** Checking user pointers *)

Abbreviation region := (region_ok c f3 f2 f1 kp t s1).

(** The temporary page is the kernel's. *)
Definition temp_kernel k : Prop := contains (entry_flags (phys k f1 t)) RING3_ACCESSIBLE = false.

(** What the CPU asks of an entry for an access from ring 3 (bits 0, 1 and 2: present,
    writable, user). *)
Definition ring3_access (w : bool) (e : Z) : Prop :=
  Z.testbit e 0 = true ∧ Z.testbit e 2 = true ∧ (w = true → Z.testbit e 1 = true).

Lemma contains_bit e i : 0 ≤ i → Z.testbit ALL_FLAGS i = true → contains (entry_flags e) (2 ^ i) = Z.testbit e i.
Proof.
  intros Hi Ha. unfold contains, entry_flags. rewrite <- Z.land_assoc.
  assert (E : Z.land ALL_FLAGS (2 ^ i) = 2 ^ i).
  { apply Z.bits_inj'. intros n Hn. rewrite Z.land_spec, Z.pow2_bits_eqb by done. destruct (Z.eqb_spec i n) as [->|]; [by rewrite Ha|apply andb_false_r]. }
  rewrite E. apply eq_true_iff_eq. rewrite Z.eqb_eq. split.
  - intros Hl. apply (f_equal (λ z, Z.testbit z i)) in Hl. rewrite Z.land_spec, Z.pow2_bits_true, andb_true_r in Hl by done. done.
  - intros Hb. apply Z.bits_inj'. intros n Hn. rewrite Z.land_spec, Z.pow2_bits_eqb by done. destruct (Z.eqb_spec i n) as [<-|]; [by rewrite Hb|apply andb_false_r].
Qed.

Lemma user_entry_access w e : user_entry w e = true ↔ ring3_access w e.
Proof.
  unfold user_entry, ring3_access. change PRESENT with (2 ^ 0). change RING3_ACCESSIBLE with (2 ^ 2). change WRITABLE with (2 ^ 1).
  rewrite !contains_bit by done. destruct (Z.testbit e 0), (Z.testbit e 1), (Z.testbit e 2), w; cbn; naive_solver.
Qed.

Lemma user_entry_ring3 w e : contains (entry_flags e) RING3_ACCESSIBLE = false → user_entry w e = false.
Proof. intros E. unfold user_entry. rewrite E. by destruct (contains _ PRESENT). Qed.

Lemma same_temp_kernel k k' : same f1 t k k' → temp_kernel k → temp_kernel k'.
Proof. intros S. unfold temp_kernel. destruct (sm_entry _ _ _ _ S) as [-> | [g ->]]; [done|]. intros _. apply temp_entry_kernel. Qed.

Lemma same_user_entry w k k' P page : same f1 t k k' → low (phys k) P f1 → temp_kernel k →
  user_entry w (leaf (phys k') P page) = user_entry w (leaf (phys k) P page).
Proof.
  intros S Hl Hk. destruct (decide (node (phys k) P [p4_index page; p3_index page; p2_index page] = Some f1 ∧ p1_index page = t))
    as [[Hn Hi] | Htp].
  - unfold leaf. rewrite (proj2 (same_node _ _ _ _ f1 S Hl (leaf_path page)) Hn), Hn, Hi.
    rewrite !user_entry_ring3; [done | done | by apply (same_temp_kernel k)].
  - by rewrite (same_leaf_eq _ _ _ _ S Hl Htp).
Qed.

Lemma walk_entry_ok k s P page w :
  region k → table_at f1 k s P → low (phys k) P f1 → temp_kernel k →
  ∃ k', same f1 t k k' ∧
    match node (phys k) P [p4_index page; p3_index page; p2_index page] with
    | Some g => walk_temp (slot_addr s) page k = Done (Some (slot_addr t), k') ∧ table_at f1 k' t g
                ∧ user_entry w (phys k' g (p1_index page)) = user_entry w (leaf (phys k) P page)
    | None => walk_temp (slot_addr s) page k = Done (None, k') ∧ leaf (phys k) P page = 0
    end.
Proof.
  intros Hk Ht Hl Htk. destruct (walk_temp_ok c f3 f2 f1 kp t s1 k s P page Hk Ht (low_clear _ _ _ _ Hl)) as (k' & S & Hw).
  exists k'. split; [done|]. rewrite <- (same_user_entry w k k' P page S Hl Htk).
  pose proof (λ x, same_node k k' P _ x S Hl (leaf_path page)) as Hn. unfold leaf.
  destruct (node (phys k) P _) as [g|]; [|by split]. rewrite (proj2 (Hn g) eq_refl). intuition.
Qed.

Definition user_cb (w : bool) (_ entry : Z) : option unit := if user_entry w entry then Some tt else None.

Lemma walk_pages_ok w s P pages k :
  region k → table_at f1 k s P → s ≠ t → low (phys k) P f1 → temp_kernel k →
  ∃ k', same f1 t k k' ∧
    walk_pages (slot_addr s) pages (user_cb w) k =
      Done (if forallb (λ page, user_entry w (leaf (phys k) P page)) pages then Some tt else None, k').
Proof.
  revert k. induction pages as [|page pages IH]; intros k Hk Ht Hst Hl Htk; [exists k; split; [apply same_refl | done]|].
  cbn [walk_pages forallb]. destruct (walk_entry_ok k s P page w Hk Ht Hl Htk) as (k1 & S & Hw).
  destruct (node (phys k) P _) as [g|].
  2: { destruct Hw as [Hw ->]. exists k1. split; [done|]. by rewrite (ktry_none _ _ _ _ Hw). }
  destruct Hw as (Hw & Hg & He). rewrite (ktry_some _ _ _ _ _ Hw). pose proof (region_same _ _ _ _ _ _ _ _ _ Hk S) as Hk1.
  rewrite (kbind_done _ _ _ _ _ (read_word_ok _ _ _ _ _ _ _ k1 t g _ Hk1 Hg)).
  unfold user_cb at 1. rewrite He. destruct (user_entry w (leaf (phys k) P page)); [|by exists k1].
  destruct (IH k1) as (k2 & S2 & E); auto; [by eapply table_at_same | by eapply same_low | by eapply same_temp_kernel |].
  exists k2. split; [by eapply same_trans|]. cbn [andb]. unfold ktry at 1, kret at 1. unfold kbind at 1. rewrite E.
  by rewrite (forallb_eq _ _ _ (λ page', same_user_entry w k k1 P page' S Hl Htk)).
Qed.

(** What the check answers: a test of every page of the range. *)
Lemma validate_answer w s P addr size k :
  region k → table_at f1 k s P → s ≠ t → low (phys k) P f1 → temp_kernel k →
  ∃ k', same f1 t k k' ∧
    validate_user_pointer (slot_addr s) addr size w k =
      Done ((size =? 0) || (addr + size - 1 <=? usize_max)
            && forallb (λ page, user_entry w (leaf (phys k) P page))
                 (page_range (page_for_address addr) (page_for_address (addr + size - 1))), k').
Proof.
  intros Hk Ht Hst Hl Htk. unfold validate_user_pointer, walk_range_entries.
  destruct (size =? 0); [exists k; split; [apply same_refl | done]|]. cbn [orb].
  unfold checked_add. replace (addr + (size - 1)) with (addr + size - 1) by lia.
  destruct (addr + size - 1 <=? usize_max); [|exists k; split; [apply same_refl | done]]. cbn [andb].
  destruct (walk_pages_ok w s P (page_range (page_for_address addr) (page_for_address (addr + size - 1))) k)
    as (k' & S & E); auto.
  exists k'. split; [done|]. change (λ _ entry : Z, if user_entry w entry then Some () else None) with (user_cb w).
  unfold ktry, kret, kbind. rewrite E. by destruct (forallb _ _).
Qed.

(** Every page of a range passes if every byte lies in one that does. *)
Lemma range_pages_forallb (f : Z → bool) addr size : 0 < size →
  forallb f (page_range (page_for_address addr) (page_for_address (addr + size - 1))) = true
  ↔ ∀ a, addr ≤ a < addr + size → f (page_for_address a) = true.
Proof.
  intros Hs. rewrite forallb_forall. setoid_rewrite <- list_elem_of_In. unfold page_range. setoid_rewrite elem_of_seqZ. split.
  - intros Hall a Hr. apply Hall. unfold page_for_address, PAGE_SIZE. Z.to_euclidean_division_equations. lia.
  - intros Hall page Hp. unfold page_for_address, PAGE_SIZE in *.
    rewrite <- (Hall (Z.max addr (page * 4096))) by (Z.to_euclidean_division_equations; lia).
    f_equal. Z.to_euclidean_division_equations. lia.
Qed.


(** Only the low 48 bits of an address choose the entry: an address the CPU
    refuses (it is not canonical) passes the check if its low bits do. *)
Lemma leaf_noncanonical m P page : leaf m P (page + 2 ^ 36) = leaf m P page.
Proof.
  assert (Hi : ∀ n, 0 ≤ n ≤ 27 → Z.land (Z.shiftr (page + 2 ^ 36) n) 511 = Z.land (Z.shiftr page n) 511).
  { intros n Hn. rewrite !index_mod by lia. replace (2 ^ 36) with (2 ^ (27 - n) * 512 * 2 ^ n).
    - rewrite Z.div_add by (apply Z.pow_nonzero; lia). by rewrite Z.mod_add.
    - change 512 with (2 ^ 9). rewrite <- !Z.pow_add_r by lia. f_equal. lia. }
  unfold leaf, p4_index, p3_index, p2_index, p1_index. by rewrite !Hi by lia.
Qed.
End Same.
