(* ===== verification/PageInspect.v ===== *)
(** * PageInspect: the dump of a page's entries ([inspect_page] of src/src/mem/paging/page_table.rs)

    A line of the log is the number of the level, the index it shows, the address the
    entry points to, and its flags; the formatter turns it into text. *)

From S2P Require Import Prelude Frames Paging PageTree PageWalk.

Record dump_line := {
  d_level : Z;
  d_index : Z;
  d_addr : Z;
  d_flags : Z;
}.

(** [entry.get_frame().map(|f| f.start_address()).unwrap_or(0)] and [entry.flags()]. *)
Definition line_of (level index e : Z) : dump_line :=
  {| d_level := level; d_index := index; d_addr := default 0 (frame_start_address <$> entry_get_frame e); d_flags := entry_flags e |}.

Section Inspect.
Context {A : Type} `{PageFrameAllocator A}.

(** After the line with the page's address. *)
Definition inspect_page (table page : Z) : kst (machine A) (list dump_line) :=
  let p4_index_ := p4_index page in
  let* p4_e := read_word table p4_index_ in
  let l4 := line_of 4 p4_index_ p4_e in
  let* pml3 := next_table_temp table (p4_index page) in
  match pml3 with
  | None => kret [l4]
  | Some pml3 =>
      let p3_index_ := p3_index page in
      let* p3_e := read_word pml3 p3_index_ in
      let l3 := line_of 3 p4_index_ p3_e in
      let* pml2 := next_table_temp pml3 (p3_index page) in
      match pml2 with
      | None => kret [l4; l3]
      | Some pml2 =>
          let p2_index_ := p2_index page in
          let* p2_e := read_word pml2 p2_index_ in
          let l2 := line_of 2 p2_index_ p2_e in
          let* pml1 := next_table_temp pml2 (p2_index page) in
          match pml1 with
          | None => kret [l4; l3; l2]
          | Some pml1 =>
              let p1_index_ := p1_index page in
              let* p1_e := read_word pml1 p1_index_ in
              kret [l4; l3; l2; line_of 1 p1_index_ p1_e]
          end
      end
  end.
End Inspect.

(** ** The entries of a walk *)

(** Level, the index that is shown, and the index that is followed. *)
Fixpoint walk_lines (m : Z → Z → Z) (P : Z) (steps : list (Z * Z * Z)) : list dump_line :=
  match steps with
  | [] => []
  | (level, shown, i) :: steps =>
      line_of level shown (m P i) :: match entry_get_frame (m P i) with Some g => walk_lines m g steps | None => [] end
  end.

(** The third level shows the index of the fourth. *)
Definition inspected (page : Z) : list (Z * Z * Z) :=
  [(4, p4_index page, p4_index page); (3, p4_index page, p3_index page); (2, p2_index page, p2_index page); (1, p1_index page, p1_index page)].

Section Proof.
Context {A : Type} `{PageFrameAllocator A}.
Context (c f3 f2 f1 kp t s1 : Z).
Implicit Types k : machine A.
Abbreviation region_ok := (region_ok c f3 f2 f1 kp t s1).
Abbreviation table_at := (table_at f1).
Abbreviation same := (same f1 t).

(** One level: the entry, and the table behind it. *)
Lemma inspect_level {B} k s P i (f : Z → option Z → kst (machine A) B) : region_ok k → table_at k s P →
  (let* e := read_word (slot_addr s) i in let* n := next_table_temp (slot_addr s) i in f e n) k =
    match entry_get_frame (phys k P i) with
    | Some g => f (phys k P i) (Some (slot_addr t)) (remapped f1 t g k)
    | None => f (phys k P i) None k
    end.
Proof.
  intros Hk Ht. rewrite (kbind_done _ _ _ _ _ (read_word_ok c f3 f2 f1 kp t s1 k s P i Hk Ht)).
  unfold kbind. rewrite (next_table_temp_ok c f3 f2 f1 kp t s1 k s P i Hk Ht). by destruct (entry_get_frame _).
Qed.

(** The dump shows the entries the CPU would walk through, down to the first that is
    missing; nothing but the temporary page moves. *)
Theorem inspect_page_spec k s P page : region_ok k → table_at k s P → clear f1 (phys k) P page →
  ¬ temp_page f1 t (phys k) P page →
  ∃ k', same k k' ∧ inspect_page (slot_addr s) page k = Done (walk_lines (phys k) P (inspected page), k').
Proof.
  intros Hk Ht (HP & H3 & H2) Htp. unfold inspect_page, inspected. cbn [walk_lines]. unfold temp_page in Htp. cbn [node] in H3, H2, Htp.
  rewrite inspect_level with (P := P) by done. destruct (entry_get_frame (phys k P (p4_index page))) as [g3|] eqn:E3.
  2: { exists k. split; [apply same_refl | done]. }
  pose proof (remapped_same f1 t g3 k) as S3. pose proof (region_same _ _ _ _ _ _ _ _ _ Hk S3) as K3.
  pose proof (remapped_at _ _ _ _ _ _ _ g3 k Hk (entry_get_frame_ok _ _ E3)) as T3.
  rewrite inspect_level with (P := g3) by done. rewrite (sm_phys _ _ _ _ S3) by (intros [-> _]; congruence).
  destruct (entry_get_frame (phys k g3 (p3_index page))) as [g2|] eqn:E2.
  2: { eexists. by split. }
  pose proof (same_trans _ _ _ _ _ S3 (remapped_same f1 t g2 _)) as S2. pose proof (region_same _ _ _ _ _ _ _ _ _ Hk S2) as K2.
  pose proof (remapped_at _ _ _ _ _ _ _ g2 _ K3 (entry_get_frame_ok _ _ E2)) as T2.
  rewrite inspect_level with (P := g2) by done. rewrite (sm_phys _ _ _ _ S2) by (intros [-> _]; congruence).
  destruct (entry_get_frame (phys k g2 (p2_index page))) as [g1|] eqn:E1.
  2: { eexists. by split. }
  pose proof (same_trans _ _ _ _ _ S2 (remapped_same f1 t g1 _)) as S1. pose proof (region_same _ _ _ _ _ _ _ _ _ Hk S1) as K1.
  pose proof (remapped_at _ _ _ _ _ _ _ g1 _ K2 (entry_get_frame_ok _ _ E1)) as T1.
  rewrite (kbind_done _ _ _ _ _ (read_word_ok c f3 f2 f1 kp t s1 _ t g1 _ K1 T1)).
  rewrite (sm_phys _ _ _ _ S1) by (intros [-> ?]; by apply Htp). eexists. split; [exact S1|].
  by destruct (entry_get_frame (phys k g1 (p1_index page))).
Qed.
End Proof.
