(* ===== verification/PageMap.v ===== *)
(** * PageMap: mapping pages

    What [map_to] does to the entries a tree of page tables gives to pages: the
    tables it finds, the tables it takes from the slots and hangs into the tree,
    and the temporary mapping it saves and restores on the way. *)

From S2P Require Import Prelude Frames Paging PageTree PageWalk PageCheck.

(** ** Flags of the entries that are set *)

Lemma frame_addr_mask g : frame_ok g → Z.land (g * 4096) ADDR_MASK = g * 4096.
Proof. intros Hg. rewrite land_addr_mask, Z.div_mul by done. by rewrite Z.mod_small. Qed.

Lemma entry_flags_set g fl : frame_ok g → entry_flags (Z.lor (g * 4096) fl) = entry_flags fl.
Proof.
  intros Hg. unfold entry_flags. rewrite Z.land_lor_distr_l.
  rewrite <- (frame_addr_mask g Hg), <- Z.land_assoc. change (Z.land ADDR_MASK ALL_FLAGS) with 0.
  by rewrite Z.land_0_r.
Qed.

Lemma entry_flags_idem e : entry_flags (entry_flags e) = entry_flags e.
Proof. unfold entry_flags. by rewrite <- Z.land_assoc. Qed.

Lemma entry_flags_lor a b : entry_flags (Z.lor a b) = Z.lor (entry_flags a) (entry_flags b).
Proof. apply Z.land_lor_distr_l. Qed.

Lemma contains_huge x : contains x HUGE_PAGE = Z.testbit x 7.
Proof.
  unfold contains. change HUGE_PAGE with (2 ^ 7). destruct (Z.testbit x 7) eqn:E.
  - apply Z.eqb_eq. apply Z.bits_inj'. intros n Hn. rewrite Z.land_spec, Z.pow2_bits_eqb by lia.
    destruct (Z.eqb_spec 7 n) as [<-|]; [by rewrite E | apply andb_false_r].
  - apply Z.eqb_neq. intros Eq. assert (Hb : Z.testbit (Z.land x (2 ^ 7)) 7 = Z.testbit (2 ^ 7) 7) by by rewrite Eq.
    rewrite Z.land_spec, E in Hb. done.
Qed.

(** The flags of the tables of a mapping. *)
Definition table_flags (fl : Z) : Prop := fl = PW ∨ fl = Z.lor PW RING3_ACCESSIBLE.

Lemma table_flags_spec fl : table_flags fl →
  flags_ok fl ∧ contains fl PRESENT = true ∧ entry_flags fl = fl ∧ Z.testbit fl 7 = false.
Proof. by intros [-> | ->]. Qed.

(** *** Available slots *)

Section Map.
Context {A : Type} `{PageFrameAllocator A}.
Context (c f3 f2 f1 kp t s1 : Z).
Implicit Types (k : machine A) (m : Z → Z → Z).
Abbreviation region := (region_ok c f3 f2 f1 kp t s1).

(** Slots that are free, and slots that were never used; 509 is the last slot
    handed out before [extend_region] runs. *)
Definition avail (sl : PageTableSlotAllocator) (s : Z) : Prop :=
  slot_addr s ∈ free_slots sl ∨ last_pml1_slot sl ≤ s < 509.

Definition region_table (g : Z) : Prop := g = c ∨ g = f3 ∨ g = f2 ∨ g = f1 ∨ g = kp.

(** At least [n] slots can be handed out; the frames behind them are neither in
    the tree of [P] nor among the tables of the region. *)
Record supply k (P : Z) (n : nat) : Prop := {
  sp_init : init_done (slots k) = true;
  sp_last : 0 ≤ last_pml1_slot (slots k);
  sp_free : ∀ a, a ∈ free_slots (slots k) → ∃ s, a = slot_addr s ∧ s < last_pml1_slot (slots k);
  sp_nodup : NoDup (free_slots (slots k));
  sp_fresh : ∀ s, avail (slots k) s → s ≠ t ∧ ∃ g, table_at f1 k s g ∧ outside (phys k) P g ∧ ¬ region_table g;
  sp_inj : ∀ s s' g, avail (slots k) s → avail (slots k) s' → table_at f1 k s g → table_at f1 k s' g → s = s';
  sp_zero : ∀ s g, last_pml1_slot (slots k) ≤ s < 509 → table_at f1 k s g → ∀ i, phys k g i = 0;
  sp_count : Z.of_nat n ≤ Z.of_nat (length (free_slots (slots k))) + Z.max 0 (509 - last_pml1_slot (slots k));
}.

(** Entries above the leaves are empty or name a table. *)
Definition entries_ok m (P : Z) : Prop := ∀ p i f, table_path (p ++ [i]) → node m P p = Some f →
  m f i = 0 ∨ (0 ≤ m f i ∧ is_Some (entry_get_frame (m f i)) ∧ Z.testbit (entry_flags (m f i)) 7 = false).

(** The tables that hold leaves do not lead to the region. *)
Definition leaves_clear m (P : Z) : Prop := ∀ p x, table_path p → length p = 3%nat → node m P p = Some x →
  x = f1 ∨ ¬ region_table x.

Record good k (P : Z) (n : nat) : Prop := {
  gd_region : region k;
  gd_tree : tree_ok (phys k) P;
  gd_low : low (phys k) P f1;
  gd_entries : entries_ok (phys k) P;
  gd_leaves : leaves_clear (phys k) P;
  gd_supply : supply k P n;
}.

Lemma slot_addr_inj s s' : slot_addr s = slot_addr s' → s = s'.
Proof. unfold slot_addr. lia. Qed.

(** [slot_alloc] hands out an available slot, with an empty table behind it. *)
Record allocated k k' (P : Z) (n : nat) (s g : Z) : Prop := {
  al_ne : s ≠ t;
  al_old : avail (slots k) s;
  al_at : table_at f1 k s g;
  al_out : outside (phys k) P g;
  al_kernel : ¬ region_table g;
  al_zero : ∀ i, phys k' g i = 0;
  al_phys : ∀ f i, f ≠ g → phys k' f i = phys k f i;
  al_cr3 : cr3 k' = cr3 k;
  al_frames : frames k' = frames k;
  al_temp : temp k' = temp k;
  al_init : init_done (slots k') = true;
  al_last : last_pml1_slot (slots k) ≤ last_pml1_slot (slots k');
  al_free : ∀ a, a ∈ free_slots (slots k') → a ∈ free_slots (slots k);
  al_nodup : NoDup (free_slots (slots k'));
  al_avail : ∀ s', avail (slots k') s' → avail (slots k) s' ∧ s' ≠ s;
  al_count : Z.of_nat n ≤ Z.of_nat (length (free_slots (slots k'))) + Z.max 0 (509 - last_pml1_slot (slots k'));
}.

Lemma zero_page_ok k s g : region k → table_at f1 k s g →
  zero_page (slot_addr s) k = Done (tt, set_phys (λ f i, if f =? g then 0 else phys k f i) k).
Proof.
  intros Hk [Hs Hg]. unfold zero_page. by rewrite (translate_slot _ _ _ _ _ _ _ _ _ Hk Hs), Hg.
Qed.

Lemma slot_alloc_ok k P n fuel : region k → supply k P (S n) →
  ∃ s g k', slot_alloc (S fuel) k = Done (Some (slot_addr s), k') ∧ allocated k k' P n s g.
Proof.
  intros Hk [Hi Hl Hf Hn Hfr Hin Hz Hc]. cbn [slot_alloc]. unfold kgets at 1. unfold kbind at 1. rewrite Hi.
  destruct (pop (free_slots (slots k))) as [[addr rest]|] eqn:Epop.
  - apply pop_Some in Epop. destruct (Hf addr) as (s & -> & Hsl); [rewrite Epop; set_solver|].
    destruct (Hfr s) as (Hst & g & Hg & Hout & Hkt); [left; rewrite Epop; set_solver|].
    rewrite (kbind_done _ _ _ _ _ (zero_page_ok k s g Hk Hg)).
    exists s, g. eexists. split; [reflexivity|].
    rewrite Epop in Hn, Hc. apply NoDup_app in Hn as (Hnr & Hd & _). rewrite length_app in Hc. cbn in Hc.
    split; cbn; auto; try lia.
    + left. rewrite Epop. apply elem_of_app. right. by apply list_elem_of_singleton.
    + intros i. by rewrite Z.eqb_refl.
    + intros f i Hne. by rewrite (proj2 (Z.eqb_neq f g) Hne).
    + intros a Ha. rewrite Epop. set_solver.
    + intros s' [Ha | Ha]; cbn in Ha.
      * split; [left; rewrite Epop; set_solver|]. intros ->. apply (Hd _ Ha). set_solver.
      * split; [by right | lia].
  - apply pop_None in Epop. rewrite Epop in Hc. cbn in Hc.
    set (l := last_pml1_slot (slots k)) in *. destruct (Hfr l) as (Hst & g & Hg & Hout & Hkt); [right; lia|].
    unfold kmodify at 1. unfold kbind at 1. rewrite (proj2 (Z.eqb_neq (l + 1) 510)) by lia.
    exists l, g. eexists. split; [unfold kret, kmodify, kbind; reflexivity|].
    split; cbn; auto; try lia.
    + right. lia.
    + apply (Hz l); [lia | done].
    + intros s' [Ha | Ha]; cbn in Ha; [rewrite Epop in Ha; set_solver|]. split; [right; lia | lia].
Qed.

(** *** One level

    What one step of [map_to] leaves as it was: the tables that were reached still
    are, and their entries keep their flags. *)
Record grows (m m' : Z → Z → Z) (P : Z) : Prop := {
  gr_node : ∀ p x, table_path p → node m P p = Some x → node m' P p = Some x;
  gr_flags : ∀ p i f fl, table_path (p ++ [i]) → node m P p = Some f →
    is_Some (entry_get_frame (m f i)) → contains (entry_flags (m f i)) fl = true → contains (entry_flags (m' f i)) fl = true;
  gr_f1 : ∀ p, table_path p → node m' P p = Some f1 ↔ node m P p = Some f1;
  gr_leaf : ∀ page, ¬ temp_page f1 t m P page → leaf m' P page = leaf m P page;
}.

Lemma grows_trans m1 m2 m3 P : grows m1 m2 P → grows m2 m3 P →
  (∀ p i f, table_path (p ++ [i]) → node m1 P p = Some f → is_Some (entry_get_frame (m1 f i)) → is_Some (entry_get_frame (m2 f i))) →
  grows m1 m3 P.
Proof.
  intros [N1 F1 T1 L1] [N2 F2 T2 L2] He. split.
  - auto.
  - intros p i f fl Hp Hf Hs Hc. pose proof Hp as (Hp' & _)%table_path_snoc.
    apply (F2 p); eauto.
  - intros p Hp. by rewrite T2, T1.
  - intros page Htp. rewrite L2, L1; [done|done|]. unfold temp_page. by rewrite (T1 _ (leaf_path page)).
Qed.

(** The state after the entry [i] of the table [f] at [p0] was upgraded: only flags
    were added, to that entry. *)
Record upgraded m m' (f i fl : Z) : Prop := {
  up_differs : differs f1 t m m' f i None;
  up_frame : entry_get_frame (m' f i) = entry_get_frame (m f i);
  up_flags : ∀ fl', contains (entry_flags (m f i)) fl' = true → contains (entry_flags (m' f i)) fl' = true;
  up_new : contains (entry_flags (m' f i)) fl = true;
  up_entry : 0 ≤ m' f i ∧ Z.testbit (entry_flags (m' f i)) 7 = false;
}.

Lemma upgraded_grows m m' P p0 f i fl : upgraded m m' f i fl → tree_ok m P → low m P f1 →
  table_path (p0 ++ [i]) → node m P p0 = Some f → grows m m' P.
Proof.
  intros [Hd Hfr Hfl _ _] Ht Hl Hp0 Hn0. apply table_path_snoc in Hp0 as (Hp0 & Hlen0 & Hi).
  pose proof (λ p x, node_same f1 t m m' P f i x p Hd Hfr Hl) as Hns. split.
  - intros p x Hp Hn. by apply Hns.
  - intros p j h fl' Hpj Hh _ Hc. apply table_path_snoc in Hpj as (Hp & Hlen & Hj).
    destruct (decide (h = f ∧ j = i)) as [[-> ->]|Hne]; [by apply Hfl|].
    rewrite (Hd h j); [done | done | done |]. intros [-> _]. by apply (Hl p).
  - intros p Hp. by apply Hns.
  - intros page Htp. by apply (same_leaf f1 t m m' P f i p0 page).
Qed.

(** The conditions that both kinds of step keep. *)
Lemma region_keeps k k' : region k → cr3 k' = cr3 k → temp k' = temp k →
  (∀ f i, region_table f → entry_get_frame (phys k f i) ≠ None → ¬ (f = f1 ∧ i = t) →
    entry_get_frame (phys k' f i) = entry_get_frame (phys k f i)) → region k'.
Proof.
  intros [[H3 H2 H1 Hs Hk Hk3] Hc Ht Hen Hr Hn] Ec Et He. unfold region_table in He.
  split; [| congruence | congruence | congruence | done | done].
  split; (rewrite He; [done | tauto | congruence | intros [? ?]; try congruence; lia]).
Qed.

Lemma upgraded_good k k' P n p0 f i fl : good k P n → upgraded (phys k) (phys k') f i fl →
  is_Some (entry_get_frame (phys k f i)) → table_path (p0 ++ [i]) → node (phys k) P p0 = Some f →
  cr3 k' = cr3 k → slots k' = slots k → temp k' = temp k → good k' P n.
Proof.
  intros [Hr Ht Hl He Hlv Hs] Hu [gi Hgi] Hp0 Hn0 Ec Es Et. pose proof Hu as [Hd Hfr Hfl Hnew Hen].
  apply table_path_snoc in Hp0 as (Hp0 & Hlen0 & Hi).
  pose proof (λ p x, node_same f1 t (phys k) (phys k') P f i x p Hd Hfr Hl) as Hns.
  destruct (same_tree f1 t (phys k) (phys k') P f i Hd Hfr Ht Hl) as (Ht' & Hl' & Ho').
  assert (Hf1 : f ≠ f1) by (intros ->; by apply (Hl p0)).
  assert (Hcell : ∀ f' i', ¬ (f' = f ∧ i' = i) → ¬ (f' = f1 ∧ i' = t) → phys k' f' i' = phys k f' i') by (intros; by apply Hd).
  split; [|done|done| | |].
  - apply (region_keeps k); [done|done|done|]. intros f' i' _ _ Hne.
    destruct (decide (f' = f ∧ i' = i)) as [[-> ->]|]; [done|]. by rewrite Hcell.
  - intros p j h Hpj Hh. pose proof Hpj as (Hp & Hlen & Hj)%table_path_snoc. apply (Hns _ _ Hp) in Hh.
    destruct (decide (h = f ∧ j = i)) as [[-> ->]|].
    + right. rewrite Hfr, Hgi. split; [apply Hen | split; [done | apply Hen]].
    + rewrite Hcell; [by apply (He p) | done |]. intros [-> _]. by apply (Hl p).
  - intros p x Hp Hlen Hx. apply (Hns _ _ Hp) in Hx. by apply (Hlv p).
  - destruct Hs as [Hsi Hsl Hsf Hsn Hsfr Hsin Hsz Hsc].
    assert (Hat : ∀ s g, avail (slots k) s → table_at f1 k' s g ↔ table_at f1 k s g).
    { intros s g Hav. destruct (Hsfr s Hav) as (Hst & _). unfold table_at.
      rewrite Hcell; [done | | lia]. intros [? _]. by apply Hf1. }
    split; rewrite ?Es; auto.
    + intros s Hav. destruct (Hsfr s Hav) as (Hst & g & Hg & Hout & Hkt). split; [done|]. exists g. split; [by apply Hat|]. auto.
    + intros s s' g Hav Hav' Hg Hg'. apply Hat in Hg; [|done]. apply Hat in Hg'; [|done]. by apply (Hsin s s' g).
    + intros s g Hsr Hg j. apply Hat in Hg; [|by right]. destruct (Hsfr s (or_intror Hsr)) as (_ & g' & Hg' & Hout & Hkt).
      assert (g' = g) as -> by (destruct Hg as [_ Hg], Hg' as [_ Hg']; congruence).
      rewrite Hcell; [by apply (Hsz s) | |].
      * intros [-> _]. by apply (Hout p0).
      * intros [-> _]. apply Hkt. unfold region_table. tauto.
Qed.

(** The state after a fresh table was hung into an empty entry. *)
Lemma hung_good k ka k' P n p0 f i s g fl : good k P (S n) → allocated k ka P n s g →
  hangs f1 t (phys k) (phys k') P p0 f i g →
  cr3 k' = cr3 k → slots k' = slots ka → temp k' = temp k →
  table_flags fl → phys k' f i = Z.lor (g * 4096) fl → frame_ok g → good k' P n.
Proof.
  intros [Hr Ht Hl He Hlv Hs] Hal Hh Ec Es Et Hfl Hv Hg. destruct (table_flags_spec fl Hfl) as (Hflo & Hflp & Hfle & Hfl7).
  assert (Hf1g : f1 ≠ g) by (intros <-; apply (al_kernel _ _ _ _ _ _ Hal); unfold region_table; tauto).
  destruct (hangs_tree f1 t _ _ P p0 f i g Hh Ht Hl Hf1g) as (Ht' & Hl' & Ho').
  pose proof (λ p x, hangs_node f1 t _ _ P p0 f i g p x Hh Ht Hl) as Hns.
  pose proof Hh as [Hd Hp0 Hn0 Hno Hnew Hz Hout]. apply table_path_snoc in Hp0 as (Hp0 & Hlen0 & Hi).
  assert (Hf1 : f ≠ f1) by (intros ->; by apply (Hl p0)).
  assert (Hcell : ∀ f' i', f' ≠ g → ¬ (f' = f ∧ i' = i) → ¬ (f' = f1 ∧ i' = t) → phys k' f' i' = phys k f' i').
  { intros f' i' Hne ? ?. apply Hd; [by intros [= ->] | done | done]. }
  split; [|done|done| | |].
  - apply (region_keeps k); [done|done|done|]. intros f' i' Hkt Hsome Hne. rewrite Hcell; [done| | |done].
    + intros ->. by apply (al_kernel _ _ _ _ _ _ Hal).
    + intros [-> ->]. done.
  - intros p j h Hpj Hhh. pose proof Hpj as (Hp & Hlen & Hj)%table_path_snoc.
    apply (Hns _ _ Hp) in Hhh as [Hhh | [-> ->]]; [|by left].
    destruct (decide (h = f ∧ j = i)) as [[-> ->]|].
    + right. rewrite Hnew, Hv, entry_flags_set, Hfle by done. split; [|done].
      apply Z.lor_nonneg. split; [unfold frame_ok in Hg; lia | apply Hflo].
    + rewrite Hcell; [by apply (He p) | | done |].
      * intros ->. by apply (Hout p).
      * intros [-> _]. by apply (Hl p).
  - intros p x Hp Hlen Hx. apply (Hns _ _ Hp) in Hx as [Hx | [_ ->]]; [by apply (Hlv p)|].
    right. apply (al_kernel _ _ _ _ _ _ Hal).
  - destruct Hs as [Hsi Hsl Hsf Hsn Hsfr Hsin Hsz Hsc].
    destruct Hal as [Hane Haold Haat Haout Hak Haz Haph _ _ _ Hai Hala Haf Han Haav Hac].
    assert (Havs : ∀ s' g', avail (slots ka) s' → table_at f1 k s' g' → g' ≠ g).
    { intros s' g' Hav Hg' ->. destruct (Haav s' Hav) as [Hav' Hne]. apply Hne. by apply (Hsin s' s g). }
    assert (Hat : ∀ s g, avail (slots k) s → table_at f1 k' s g ↔ table_at f1 k s g).
    { intros s' g' Hav. destruct (Hsfr s' Hav) as (Hst & _). unfold table_at.
      rewrite Hcell; [done | done | intros [? _]; by apply Hf1 | lia]. }
    split; rewrite ?Es; auto; [lia| | | |].
    + intros a Ha. destruct (Hsf a (Haf a Ha)) as (s' & -> & ?). exists s'. split; [done | lia].
    + intros s' Hav. destruct (Haav s' Hav) as [Hav' Hne]. destruct (Hsfr s' Hav') as (Hst & g' & Hg' & Hout' & Hkt).
      split; [done|]. exists g'. split; [by apply Hat|]. split; [|done]. apply Ho'; [done|]. by apply (Havs s').
    + intros s' s'' g' [Hav _]%Haav [Hav' _]%Haav Hg1 Hg2. apply Hat in Hg1; [|done]. apply Hat in Hg2; [|done].
      by apply (Hsin s' s'' g').
    + intros s' g' Hsr Hg' j. assert (Hav : avail (slots ka) s') by by right. destruct (Haav s' Hav) as [Hav' Hne].
      apply Hat in Hg'; [|done]. destruct (Hsfr s' Hav') as (_ & g'' & Hg'' & Hout' & Hkt).
      assert (g'' = g') as -> by (destruct Hg' as [_ Hg'], Hg'' as [_ Hg'']; congruence).
      rewrite Hcell; [apply (Hsz s'); [lia | done] | by apply (Havs s') | |].
      * intros [-> _]. by apply (Hout' p0).
      * intros [-> _]. apply Hkt. unfold region_table. tauto.
Qed.

Lemma hangs_grows m m' P p0 f i g : hangs f1 t m m' P p0 f i g → tree_ok m P → low m P f1 → f1 ≠ g → grows m m' P.
Proof.
  intros Hh Ht Hl Hne. pose proof (λ p x, hangs_node f1 t _ _ P p0 f i g p x Hh Ht Hl) as Hns. split.
  - intros p x Hp Hn. apply Hns; auto.
  - intros p j h fl Hpj Hhh [e He] Hc. apply table_path_snoc in Hpj as (Hp & Hlen & Hj).
    rewrite (hg_differs _ _ _ _ _ _ _ _ _ Hh h j); [done| | |].
    + intros [= ->]. by apply (hg_out _ _ _ _ _ _ _ _ _ Hh p).
    + intros [-> ->]. rewrite (hg_none _ _ _ _ _ _ _ _ _ Hh) in He. done.
    + intros [-> _]. by apply (Hl p).
  - intros p Hp. rewrite (Hns _ _ Hp). split; [|tauto]. intros [?|[_ ->]]; [tauto | done].
  - intros page Htp. by apply (hangs_leaf f1 t m m' P p0 f i g).
Qed.
(** What [next_table_create] makes of an entry that names a table. *)
Definition upgrade (e g fl : Z) : Z :=
  if contains (entry_flags e) fl then e else Z.lor (g * 4096) (Z.lor (entry_flags e) fl).

Lemma upgrade_upgraded m m' f i g fl : table_flags fl → entry_get_frame (m f i) = Some g →
  0 ≤ m f i → Z.testbit (entry_flags (m f i)) 7 = false →
  m' f i = upgrade (m f i) g fl → differs f1 t m m' f i None → upgraded m m' f i fl.
Proof.
  intros Hfl Hg H0 H7 Hv Hd. destruct (table_flags_spec fl Hfl) as (Hflo & Hflp & Hfle & Hfl7).
  unfold upgrade in Hv. pose proof (entry_get_frame_ok _ _ Hg) as Hgo. pose proof (entry_flags_ok _ H0) as Heo.
  destruct (contains (entry_flags (m f i)) fl) eqn:Ec; [split; rewrite ?Hv; auto|].
  assert (Ef : entry_flags (m' f i) = Z.lor (entry_flags (m f i)) fl)
    by (rewrite Hv, entry_flags_set, entry_flags_lor, Hfle, entry_flags_idem by done; done).
  split; [done | | | |]; rewrite ?Ef.
  - rewrite Hv, Hg. apply set_get_frame; [done | by apply flags_ok_lor | by apply contains_lor_r].
  - intros fl'. apply contains_lor_l.
  - apply contains_lor_r. apply Z.eqb_eq. apply Z.land_diag.
  - split; [|by rewrite Z.lor_spec, H7, Hfl7].
    rewrite Hv. apply Z.lor_nonneg. split; [unfold frame_ok in Hgo; lia|]. apply Z.lor_nonneg. split; [apply Heo | apply Hflo].
Qed.

(** What a step of [map_to] achieves: the table [g] is reached, at the slot [s']. *)
Record stepped k k' (P : Z) (n : nat) (p0 : list Z) (f i fl s' g : Z) : Prop := {
  st_good : good k' P n;
  st_grows : grows (phys k) (phys k') P;
  st_at : table_at f1 k' s' g;
  st_node : node (phys k') P (p0 ++ [i]) = Some g;
  st_flags : contains (entry_flags (phys k' f i)) fl = true;
  st_frames : frames k' = frames k;
}.

Section Create.
Context (alloc : kst (machine A) (option Z)).

Lemma not_identity s : 0 ≤ s → is_phys_identity (slot_addr s) = false.
Proof. intros Hs. apply Z.ltb_ge. unfold slot_addr. lia. Qed.

Lemma create_existing k s f P p0 i n fl g :
  good k P n → table_at f1 k s f → table_path (p0 ++ [i]) → node (phys k) P p0 = Some f → table_flags fl →
  entry_get_frame (phys k f i) = Some g →
  ∃ k', next_table_create alloc (slot_addr s) i false fl k = Done (slot_addr t, k') ∧ stepped k k' P n p0 f i fl t g.
Proof.
  intros Hgd Hat Hp0 Hn0 Hfl Hg. pose proof Hgd as [Hr Ht Hl He _ _].
  destruct (He p0 i f Hp0 Hn0) as [E0 | (H0 & _ & H7)]; [by rewrite E0 in Hg|].
  assert (Hf1 : f ≠ f1) by (intros ->; apply table_path_snoc in Hp0 as (? & ? & _); by apply (Hl p0)).
  pose proof (entry_get_frame_ok _ _ Hg) as Hgo.
  set (k1 := if contains (entry_flags (phys k f i)) fl then k else set_phys (upd (phys k) f i (upgrade (phys k f i) g fl)) k).
  assert (Ek1 : (if negb (contains (entry_flags (phys k f i)) fl) && negb (contains (entry_flags (phys k f i)) HUGE_PAGE) then
       match entry_get_frame (phys k f i) with
       | Some frame => let* v := entry_set frame (Z.lor (entry_flags (phys k f i)) fl) in write_word (slot_addr s) i v
       | None => kret tt
       end
     else kret tt) k = Done (tt, k1)).
  { rewrite contains_huge, H7, Hg. unfold k1, upgrade. destruct (contains _ fl); [done|]. cbn [negb andb].
    rewrite (kbind_done _ _ _ _ _ (entry_set_ok g _ k Hgo)). by rewrite (write_word_ok _ _ _ _ _ _ _ k s f i _ Hr Hat). }
  assert (Ev1 : phys k1 f i = upgrade (phys k f i) g fl).
  { unfold k1, upgrade. destruct (contains _ fl); [done|]. cbn. apply upd_eq. }
  assert (Ed1 : ∀ f' i', ¬ (f' = f ∧ i' = i) → phys k1 f' i' = phys k f' i').
  { intros f' i' Hne. unfold k1. destruct (contains _ fl); [done|]. by apply upd_ne. }
  assert (Ec1 : cr3 k1 = cr3 k ∧ slots k1 = slots k ∧ temp k1 = temp k ∧ frames k1 = frames k) by (unfold k1; by destruct (contains _ fl)).
  destruct Ec1 as (Ec1 & Es1 & Et1 & Ef1).
  assert (Hu1 : upgraded (phys k) (phys k1) f i fl) by (apply (upgrade_upgraded _ _ _ _ g); [.. | intros ? ? ? ? ?]; auto).
  assert (Hg1 : good k1 P n) by (by apply (upgraded_good k k1 P n p0 f i fl)).
  set (k' := remapped f1 t g k1).
  assert (Hu : upgraded (phys k) (phys k') f i fl).
  { apply (upgrade_upgraded _ _ _ _ g); auto.
    - cbn. rewrite upd_ne; [done|]. intros [? _]. done.
    - intros f' i' _ ? ?. cbn. rewrite upd_ne by done. by apply Ed1. }
  assert (Hg' : good k' P n) by (apply (upgraded_good k k' P n p0 f i fl); auto).
  assert (Hat1 : table_at f1 k1 s f) by (destruct Hat as [Hs Hsf]; split; [done|]; rewrite Ed1; [done | intros [? _]; by apply Hf1]).
  pose proof (next_table_temp_ok _ _ _ _ _ _ _ k1 s f i (gd_region _ _ _ Hg1) Hat1) as Hnt.
  rewrite (up_frame _ _ _ _ _ Hu1), Hg in Hnt.
  exists k'. split.
  - unfold next_table_create. rewrite (kbind_done _ _ _ _ _ (read_word_ok _ _ _ _ _ _ _ k s f i Hr Hat)).
    rewrite (get_frame_used _ _ Hg). cbn [negb]. rewrite (kbind_done _ _ _ _ _ Ek1). by rewrite (kbind_done _ _ _ _ _ Hnt).
  - split; [done | by apply (upgraded_grows _ _ _ p0 f i fl) | | | apply (up_new _ _ _ _ _ Hu) | done].
    + apply (remapped_at c f3 f2 f1 kp t s1); [apply Hg1 | done].
    + apply node_snoc. exists f. split; [|by rewrite (up_frame _ _ _ _ _ Hu)].
      apply (upgraded_grows _ _ _ p0 f i fl Hu); auto. by apply table_path_snoc in Hp0 as (? & _).
Qed.
(** Saving the temporary mapping, finding the frame of the new slot through it, and
    restoring it. *)
Lemma find_slot_frame k s0 f s g : region k → table_at f1 k s g → s ≠ t → table_at f1 k s0 f →
  ∃ kb k', get_current_phys k = Done (entry_get_frame (phys k f1 t), k)
    ∧ translate_to_phys PAGE_TABLE_REGION_START (slot_addr s) k = Done (Some g, kb)
    ∧ (match entry_get_frame (phys k f1 t) with
       | Some restore_phys => let* _a := temp_set restore_phys in kret tt
       | None => kret tt
       end) kb = Done (tt, k')
    ∧ same f1 t k k' ∧ table_at f1 k' s0 f.
Proof.
  intros Hr [Hs Hg] Hst Hat.
  destruct (translate_slot_ok c f3 f2 f1 kp t s1 k s Hr Hs Hst) as (kb & Sb & Eb). rewrite Hg in Eb.
  pose proof (region_same _ _ _ _ _ _ _ _ _ Hr Sb) as Hrb. exists kb.
  pose proof (get_current_phys_ok _ _ _ _ _ _ _ k Hr) as Eg.
  destruct (entry_get_frame (phys k f1 t)) as [r|] eqn:Er.
  - pose proof (entry_get_frame_ok _ _ Er) as Hro. exists (remapped f1 t r kb).
    split_and!; [done | done | | |].
    + by rewrite (kbind_done _ _ _ _ _ (temp_set_ok _ _ _ _ _ _ _ kb r Hrb Hro)).
    + exact (same_trans _ _ _ _ _ Sb (remapped_same f1 t r kb)).
    + destruct (decide (s0 = t)) as [->|Hne].
      * destruct Hat as [_ Hat]. assert (r = f) as -> by congruence. by apply (remapped_at c f3 f2 f1 kp t s1).
      * apply (table_at_same f1 t kb); [apply remapped_same | done|]. by apply (table_at_same f1 t k).
  - exists kb. split_and!; [done | done | done | done |]. apply (table_at_same f1 t k); [done | | done].
    intros ->. destruct Hat as [_ Hat]. congruence.
Qed.

Lemma create_new k ka s0 f P p0 i n fl s g :
  good k P (S n) → table_at f1 k s0 f → table_path (p0 ++ [i]) → node (phys k) P p0 = Some f → table_flags fl →
  phys k f i = 0 → alloc k = Done (Some (slot_addr s), ka) → allocated k ka P n s g →
  ∃ k', next_table_create alloc (slot_addr s0) i false fl k = Done (slot_addr s, k') ∧ stepped k k' P n p0 f i fl s g.
Proof.
  intros Hgd Hat Hp0 Hn0 Hfl E0 Ea Hal. pose proof Hgd as [Hr Ht Hl He _ _].
  destruct (table_flags_spec fl Hfl) as (Hflo & Hflp & Hfle & Hfl7).
  pose proof Hp0 as (Hp0' & Hlen0 & Hi)%table_path_snoc.
  assert (Hf1 : f ≠ f1) by (intros ->; by apply (Hl p0)).
  pose proof Hal as [Hst _ Hsat Hout Hkt Hz Hph Hc Hfr Htm _ _ _ _ _ _].
  assert (Hgk : ∀ h, region_table h → h ≠ g) by (intros h Hh ->; done).
  assert (Hf1g : f1 ≠ g) by (apply Hgk; unfold region_table; tauto).
  assert (Hfg : f ≠ g) by (intros ->; by apply (Hout p0)).
  pose proof (entry_get_frame_ok _ _ (proj2 Hsat)) as Hgo.
  assert (Hra : region ka) by (apply (region_keeps k); [done.. |]; intros h j Hh _ _; by rewrite Hph by (by apply Hgk)).
  assert (Hata : ∀ s f, table_at f1 k s f → table_at f1 ka s f) by (intros s' f' [? ?]; split; [done | by rewrite Hph]).
  destruct (find_slot_frame ka s0 f s g Hra (Hata _ _ Hsat) Hst (Hata _ _ Hat)) as (kb & kc & E1 & E2 & E3 & Sc & Hatc).
  pose proof (region_same _ _ _ _ _ _ _ _ _ Hra Sc) as Hrc.
  set (k' := set_phys (upd (phys kc) f i (Z.lor (g * 4096) fl)) kc). exists k'.
  assert (Hh : hangs f1 t (phys k) (phys k') P p0 f i g).
  { split; try done.
    - intros f' i' Hne ? ?. cbn. rewrite upd_ne by done. rewrite (sm_phys _ _ _ _ Sc) by done. apply Hph. congruence.
    - by rewrite E0.
    - cbn. rewrite upd_eq. by apply set_get_frame.
    - intros j. cbn. rewrite upd_ne by (intros [? _]; congruence). rewrite (sm_phys _ _ _ _ Sc); [done|]. intros [? _]. congruence. }
  split.
  - unfold next_table_create. rewrite (kbind_done _ _ _ _ _ (read_word_ok _ _ _ _ _ _ _ k s0 f i Hr Hat)), E0.
    cbn [entry_is_unused negb Z.eqb]. rewrite (kbind_done _ _ _ _ _ Ea). unfold or_panic at 1. unfold kbind at 1, kret at 1.
    rewrite not_identity by apply Hat. rewrite !kbind_assoc. rewrite (kbind_done _ _ _ _ _ E1). rewrite !kbind_assoc.
    rewrite (kbind_done _ _ _ _ _ E2). unfold or_panic at 1. rewrite !kbind_assoc. unfold kbind at 1 2, kret at 1 2. cbn [fst snd].
    rewrite (kbind_done _ _ _ _ _ E3). unfold table_set. rewrite !kbind_assoc.
    rewrite (kbind_done _ _ _ _ _ (entry_set_ok g fl kc Hgo)).
    by rewrite (kbind_done _ _ _ _ _ (write_word_ok _ _ _ _ _ _ _ kc s0 f i _ Hrc Hatc)).
  - split.
    + apply (hung_good k ka k' P n p0 f i s g fl); auto; cbn.
      * rewrite (sm_cr3 _ _ _ _ Sc). done.
      * by apply (sm_slots _ _ _ _ Sc).
      * rewrite (sm_temp _ _ _ _ Sc). done.
      * by rewrite upd_eq.
    + by apply (hangs_grows _ _ P p0 f i g).
    + destruct Hsat as [Hs Hsg]. split; [done|]. cbn. rewrite upd_ne by (intros [? _]; congruence).
      rewrite (sm_phys _ _ _ _ Sc) by lia. by rewrite Hph.
    + apply (hangs_node f1 t _ _ P p0 f i g _ _ Hh Ht Hl Hp0). by right.
    + cbn. rewrite upd_eq, entry_flags_set, Hfle by done. apply Z.eqb_eq. apply Z.land_diag.
    + cbn. rewrite (sm_frames _ _ _ _ Sc). done.
Qed.

(** One level, whether its table exists or not. *)
Lemma create_ok k s0 f P p0 i n fl fuel :
  good k P (S n) → table_at f1 k s0 f → table_path (p0 ++ [i]) → node (phys k) P p0 = Some f → table_flags fl →
  alloc = slot_alloc (S fuel) →
  ∃ s g k', next_table_create alloc (slot_addr s0) i false fl k = Done (slot_addr s, k') ∧ stepped k k' P n p0 f i fl s g.
Proof.
  intros Hgd Hat Hp0 Hn0 Hfl Ha. destruct (gd_entries _ _ _ Hgd p0 i f Hp0 Hn0) as [E0 | (H0 & [g Hg] & _)].
  - destruct (slot_alloc_ok k P n fuel (gd_region _ _ _ Hgd) (gd_supply _ _ _ Hgd)) as (s & g & ka & Ea & Hal).
    rewrite <- Ha in Ea. destruct (create_new k ka s0 f P p0 i n fl s g) as (k' & ? & ?); auto. by exists s, g, k'.
  - destruct (create_existing k s0 f P p0 i n fl g) as (k' & ? & ?); auto.
    + destruct Hgd as [? ? ? ? ? [? ? ? ? ? ? ? ?]]. split; auto. split; auto. lia.
    + by exists t, g, k'.
Qed.
End Create.

(** The entry of the page itself. *)
Lemma leaf_good k P n page g v : good k P n →
  node (phys k) P [p4_index page; p3_index page; p2_index page] = Some g → g ≠ f1 →
  good (set_phys (upd (phys k) g (p1_index page) v) k) P n.
Proof.
  intros [Hr Ht Hl He Hlv Hs] Hn Hg1. set (k' := set_phys _ k). pose proof (leaf_path page) as Hpp.
  assert (Hd : differs f1 t (phys k) (phys k') g (p1_index page) None) by (intros f i _ ? _; by apply upd_ne).
  pose proof (λ p x Hp, write_node f1 t _ _ P page g p x Hn Hd Ht Hl Hp) as Hns.
  assert (Hgk : ¬ region_table g) by (destruct (Hlv _ g Hpp eq_refl Hn); done).
  assert (Hcell : ∀ f i, f ≠ g → phys k' f i = phys k f i) by (intros; apply upd_ne; tauto).
  split.
  - apply (region_keeps k); [done.. |]. intros f i Hk _ _. rewrite Hcell; [done|]. by intros ->.
  - intros p p' x Hp Hp' H1 H2. apply Hns in H1; [|done]. apply Hns in H2; [|done]. by apply (Ht p p' x).
  - intros p Hp Hlen H1. apply Hns in H1; [|done]. by apply (Hl p).
  - intros p i f Hpi Hf. pose proof Hpi as (Hp & Hlen & Hi)%table_path_snoc. apply Hns in Hf; [|done].
    rewrite Hcell; [by apply (He p)|]. intros ->. pose proof (Ht _ _ _ Hp Hpp Hf Hn) as ->. cbn in Hlen. lia.
  - intros p x Hp Hlen Hx. apply Hns in Hx; [|done]. by apply (Hlv p).
  - destruct Hs as [Hsi Hsl Hsf Hsn Hsfr Hsin Hsz Hsc].
    assert (Hat : ∀ s h, table_at f1 k' s h ↔ table_at f1 k s h) by (intros; unfold table_at; by rewrite Hcell).
    split; auto.
    + intros s Hav. destruct (Hsfr s Hav) as (? & h & Hh & Ho & Hk). split; [done|]. exists h. split; [by apply Hat|].
      split; [|done]. intros p Hp Hx. apply Hns in Hx; [|done]. by apply (Ho p).
    + intros s s' h ? ? ?%Hat ?%Hat. by apply (Hsin s s' h).
    + intros s h Hsr Hh%Hat j. destruct (Hsfr s (or_intror Hsr)) as (_ & h' & Hh' & Ho & _).
      assert (h' = h) as -> by (destruct Hh as [_ Hh], Hh' as [_ Hh']; congruence).
      rewrite Hcell; [by apply (Hsz s)|]. intros ->. by apply (Ho _ Hpp).
Qed.

Definition flags_of_tables (flags : Z) : Z := if contains flags RING3_ACCESSIBLE then Z.lor PW RING3_ACCESSIBLE else PW.

(** The entries on the way to a page allow what the mapping needs. *)
Definition path_flags m (P page fl : Z) : Prop :=
  ∃ g3 g2, node m P [p4_index page] = Some g3 ∧ node m P [p4_index page; p3_index page] = Some g2
    ∧ contains (entry_flags (m P (p4_index page))) fl = true
    ∧ contains (entry_flags (m g3 (p3_index page))) fl = true
    ∧ contains (entry_flags (m g2 (p2_index page))) fl = true.

Lemma flags_of_tables_ok flags : table_flags (flags_of_tables flags).
Proof. unfold table_flags, flags_of_tables. destruct (contains _ _); auto. Qed.

Lemma path_1 page : table_path [p4_index page].
Proof. split; [cbn; lia|]. repeat constructor; apply index_range; lia. Qed.
Lemma path_2 page : table_path [p4_index page; p3_index page].
Proof. split; [cbn; lia|]. repeat constructor; apply index_range; lia. Qed.

Lemma grows_entry k k' P p i f : good k P 0 → grows (phys k) (phys k') P → table_path (p ++ [i]) →
  node (phys k) P p = Some f → is_Some (entry_get_frame (phys k f i)) → is_Some (entry_get_frame (phys k' f i)).
Proof.
  intros Hg Hgr Hp Hn [x Hx]. exists x.
  assert (Hx' : node (phys k) P (p ++ [i]) = Some x) by (apply node_snoc; eauto).
  apply (gr_node _ _ _ Hgr _ _ Hp) in Hx'. apply node_snoc in Hx' as (f' & Hf' & Hx').
  apply table_path_snoc in Hp as (Hp & _). apply (gr_node _ _ _ Hgr _ _ Hp) in Hn. congruence.
Qed.

Lemma good_0 k P n : good k P n → good k P 0.
Proof. intros [? ? ? ? ? [? ? ? ? ? ? ? ?]]. split; auto. split; auto. lia. Qed.

(** The three tables of a mapping. *)
Lemma tables_ok k s0 P page n fuel fl :
  good k P (3 + n) → table_at f1 k s0 P → table_flags fl →
  ∃ s3 s2 s1' g1 k3,
    (∀ B (rest : Z → Z → Z → kst (machine A) B),
      (let* pml3 := next_table_create (slot_alloc (S fuel)) (slot_addr s0) (p4_index page) false fl in
       let* pml2 := next_table_create (slot_alloc (S fuel)) pml3 (p3_index page) false fl in
       let* pml1 := next_table_create (slot_alloc (S fuel)) pml2 (p2_index page) false fl in
       rest pml3 pml2 pml1) k = rest (slot_addr s3) (slot_addr s2) (slot_addr s1') k3)
    ∧ good k3 P n ∧ grows (phys k) (phys k3) P ∧ frames k3 = frames k ∧ table_at f1 k3 s1' g1
    ∧ node (phys k3) P [p4_index page; p3_index page; p2_index page] = Some g1 ∧ path_flags (phys k3) P page fl.
Proof.
  intros Hgd Hat Hfl. set (al := slot_alloc (S fuel)).
  destruct (create_ok al k s0 P P [] (p4_index page) (2 + n) fl fuel Hgd Hat (path_1 page) eq_refl Hfl eq_refl)
    as (s3 & g3 & k1 & E1 & [G1 W1 A1 N1 F1 R1]). cbn [app] in N1.
  destruct (create_ok al k1 s3 g3 P [p4_index page] (p3_index page) (1 + n) fl fuel G1 A1 (path_2 page) N1 Hfl eq_refl)
    as (s2 & g2 & k2 & E2 & [G2 W2 A2 N2 F2 R2]). cbn [app] in N2.
  destruct (create_ok al k2 s2 g2 P [p4_index page; p3_index page] (p2_index page) n fl fuel G2 A2 (leaf_path page) N2 Hfl eq_refl)
    as (s1' & g1 & k3 & E3 & [G3 W3 A3 N3 F3 R3]). cbn [app] in N3.
  exists s3, s2, s1', g1, k3.
  pose proof (good_0 _ _ _ Hgd) as Z0. pose proof (good_0 _ _ _ G1) as Z1. pose proof (good_0 _ _ _ G2) as Z2.
  assert (W12 : grows (phys k1) (phys k3) P).
  { apply (grows_trans _ (phys k2)); [done | done|]. intros p i f. by apply grows_entry. }
  assert (W02 : grows (phys k) (phys k3) P).
  { apply (grows_trans _ (phys k1)); [done | done|]. intros p i f. by apply grows_entry. }
  split_and!; [|done|done|congruence|done|done|].
  - intros B rest. rewrite (kbind_done _ _ _ _ _ E1), (kbind_done _ _ _ _ _ E2), (kbind_done _ _ _ _ _ E3). done.
  - assert (P3 : is_Some (entry_get_frame (phys k1 P (p4_index page)))).
    { apply (node_snoc _ _ []) in N1 as (f & [= <-] & ?). eauto. }
    assert (P2 : is_Some (entry_get_frame (phys k2 g3 (p3_index page)))).
    { apply (node_snoc _ _ [p4_index page]) in N2 as (f & Hf & ?).
      assert (f = g3) as -> by (apply (gr_node _ _ _ W2 _ _ (path_1 page)) in N1; congruence). eauto. }
    exists g3, g2. split_and!; [| | | |done].
    + by apply (gr_node _ _ _ W12 _ _ (path_1 page)).
    + by apply (gr_node _ _ _ W3 _ _ (path_2 page)).
    + by apply (gr_flags _ _ _ W12 [] (p4_index page) P fl (path_1 page) eq_refl).
    + apply (gr_flags _ _ _ W3 [p4_index page] (p3_index page) g3 fl (path_2 page)); [|done|done].
      by apply (gr_node _ _ _ W2 _ _ (path_1 page)).
Qed.

(** C4: Mapping a page in a tree of live page tables, with the slots for the
    tables at hand: [map_to] finishes, the CPU then translates the page to the
    frame, its entry has exactly the requested flags, every table on the way
    admits the access the mapping needs (also where the table was there before, with
    fewer rights), every other page of the address space but the temporary page
    keeps its entry, no frame is taken, and the tables still form a tree. *)
Theorem map_to_spec k s0 P page frame flags n fuel :
  good k P (3 + n) → table_at f1 k s0 P → 0 ≤ page < 2 ^ 36 → frame_ok frame → flags_ok flags →
  node (phys k) P [p4_index page; p3_index page; p2_index page] ≠ Some f1 →
  ∃ chain k', map_to (slot_alloc (S fuel)) (slot_addr s0) page frame flags k = Done (chain, k')
    ∧ good k' P n ∧ frames k' = frames k
    ∧ walk (phys k') P page = Some frame
    ∧ leaf (phys k') P page = Z.lor (frame * 4096) (Z.lor flags PRESENT)
    ∧ path_flags (phys k') P page (flags_of_tables flags)
    ∧ ∀ page', 0 ≤ page' < 2 ^ 36 → page' ≠ page → ¬ temp_page f1 t (phys k) P page' →
        leaf (phys k') P page' = leaf (phys k) P page'.
Proof.
  intros Hgd Hat Hpg Hfo Hfl Hnt. unfold map_to. rewrite not_identity by apply Hat.
  change (if contains flags RING3_ACCESSIBLE then Z.lor (Z.lor PRESENT WRITABLE) RING3_ACCESSIBLE else Z.lor PRESENT WRITABLE)
    with (flags_of_tables flags).
  destruct (tables_ok k s0 P page n fuel _ Hgd Hat (flags_of_tables_ok flags))
    as (s3 & s2 & s1' & g1 & k3 & E & G3 & W & F3 & A3 & N3 & PF). rewrite E. clear E.
  set (v := Z.lor (frame * 4096) (Z.lor flags PRESENT)).
  assert (Hfl' : flags_ok (Z.lor flags PRESENT)) by (by apply flags_ok_lor).
  assert (Hg1 : g1 ≠ f1) by (intros ->; apply Hnt; by apply (gr_f1 _ _ _ W _ (leaf_path page))).
  set (k' := set_phys (upd (phys k3) g1 (p1_index page) v) k3). eexists _, k'. split.
  { unfold table_set. rewrite !kbind_assoc. rewrite (kbind_done _ _ _ _ _ (entry_set_ok frame (Z.lor flags PRESENT) k3 Hfo)).
    rewrite (kbind_done _ _ _ _ _ (write_word_ok _ _ _ _ _ _ _ k3 s1' g1 _ _ (gd_region _ _ _ G3) A3)). reflexivity. }
  assert (Hd : differs f1 t (phys k3) (phys k') g1 (p1_index page) None) by (intros f i _ ? _; by apply upd_ne).
  destruct (write_leaf f1 t _ _ P page g1 N3 Hd (gd_tree _ _ _ G3) (gd_low _ _ _ G3)) as [Hlf Hothers].
  pose proof (λ p x Hp, write_node f1 t _ _ P page g1 p x N3 Hd (gd_tree _ _ _ G3) (gd_low _ _ _ G3) Hp) as Hns.
  assert (Hv : phys k' g1 (p1_index page) = v) by apply upd_eq.
  split_and!; [by apply leaf_good | done | | by rewrite Hlf | |].
  - unfold walk. change [p4_index page; p3_index page; p2_index page; p1_index page]
      with ([p4_index page; p3_index page; p2_index page] ++ [p1_index page]).
    apply node_snoc. exists g1. split; [by apply Hns, N3; apply leaf_path|]. rewrite Hv.
    apply set_get_frame; [done | done | by apply contains_lor_r].
  - destruct PF as (g3 & g2 & N1 & N2 & P4 & P3 & P2). exists g3, g2.
    assert (Hne : ∀ p h, table_path p → (length p ≤ 2)%nat → node (phys k3) P p = Some h → h ≠ g1).
    { intros p h Hp Hlen Hh ->. pose proof (gd_tree _ _ _ G3 _ _ _ Hp (leaf_path page) Hh N3) as ->. cbn in Hlen. lia. }
    cbn [phys set_phys k']. rewrite !upd_ne.
    + split_and!; auto; apply Hns; auto using path_1, path_2.
    + intros [Eg _]. by apply (Hne _ g2 (path_2 page)).
    + intros [Eg _]. apply (Hne _ g3 (path_1 page)); auto.
    + intros [Eg _]. apply (Hne [] P); [split; [cbn; lia | constructor] | cbn; lia | done | done].
  - intros page' Hpg' Hne Htp. rewrite Hothers; [by apply (gr_leaf _ _ _ W) | done.. |].
    intros [Hf Hi]. apply Htp. split; [|done]. by apply (gr_f1 _ _ _ W _ (leaf_path page')).
Qed.
End Map.
