(* ===== verification/PageExample.v ===== *)
(** * PageExample: one memory with live page tables

    A process whose PML4 (frame 25, slot 5) shares the page table region with the
    kernel and maps one page of its own, on which the theorems on [map_to] and on
    user pointers are evaluated. *)

From S2P Require Import Prelude Frames Paging PageTree PageWalk PageCheck PageMap.

(** The entries above the leaves, and one leaf, as (table, index, frame, flags). *)
Definition links : list (Z * Z * Z * Z) :=
  [(25, R4, 2, 3); (1, R4, 2, 3); (2, R3, 3, 3); (3, R2, 4, 3);
   (25, 0, 1000, 7); (1000, 0, 1001, 7); (1001, 0, 1002, 7); (1002, 1, 1003, 7)].

(** Frame 4 is the PML1 of the region, which slot 3 maps; slot 4 is temporary. *)
Definition memory (f i : Z) : Z :=
  if f =? 4 then Z.lor ((if i =? 0 then 1 else if i =? 3 then 4 else 20 + i) * 4096) PW
  else match List.find (λ l : Z * Z * Z * Z, (l.1.1.1 =? f) && (l.1.1.2 =? i)) links with
       | Some l => Z.lor (l.1.2 * 4096) l.2
       | None => 0
       end.

Definition kernel_slots : PageTableSlotAllocator :=
  {| region_start := PAGE_TABLE_REGION_START; first_phys_frame := 4096; pml1_count := 1; last_pml1_slot := 6;
     pml2_addr := slot_addr 2; init_done := true; allocated_page_tables := 6; free_slots := [] |}.

Definition running : machine SimplePageFrameAllocator :=
  {| phys := memory; cr3 := Some 25; frames := simple_new 0x200000 0x300000; slots := kernel_slots;
     temp := {| temp_addr := slot_addr 4; temp_entry_addr := slot_addr 3 + 8 * 4 |} |}.

Lemma memory_link f i x : f ≠ 4 → entry_get_frame (memory f i) = Some x →
  ∃ l, l ∈ links ∧ l.1.1.1 = f ∧ l.1.1.2 = i ∧ l.1.2 = x.
Proof.
  intros Hf. unfold memory. rewrite (proj2 (Z.eqb_neq f 4) Hf).
  destruct (List.find _ links) as [l|] eqn:E; [|done].
  apply find_some in E as [Hin Hb]. apply andb_true_iff in Hb as [H1%Z.eqb_eq H2%Z.eqb_eq].
  intros Hx. exists l. split_and!; [by apply list_elem_of_In | done | done |].
  assert (Hall : Forall (λ l : Z * Z * Z * Z, entry_get_frame (Z.lor (l.1.2 * 4096) l.2) = Some l.1.2) links)
    by (repeat constructor).
  rewrite List.Forall_forall in Hall. specialize (Hall l Hin). cbv beta in Hall. congruence.
Qed.

Lemma running_region : region_ok 25 2 3 4 1 4 3 running.
Proof. split; [split; by vm_compute | done | done | done | lia | lia]. Qed.

(** The conditions on a tree, from a list of the tables of the tree. *)
Section Tree.
Context (P : Z) (tables : list (list Z * Z)).

Definition listed (Q : list Z * Z → Prop) `{∀ e, Decision (Q e)} : Prop := bool_decide (Forall Q tables) = true.

Context (Hroot : ([], P) ∈ tables)
  (Hstep : listed (λ e, Forall (λ l : Z * Z * Z * Z, l.1.1.1 = e.2 → (length e.1 ≤ 2)%nat →
    (e.1 ++ [l.1.1.2], l.1.2) ∈ tables) links))
  (Honce : listed (λ e, Forall (λ e', e.2 = e'.2 → e.1 = e'.1) tables))
  (Hlow : listed (λ e, (length e.1 ≤ 2)%nat → e.2 ≠ 4))
  (Hleaves : listed (λ e, length e.1 = 3%nat → e.2 = 4 ∨ ¬ (e.2 = 25 ∨ e.2 = 2 ∨ e.2 = 3 ∨ e.2 = 4 ∨ e.2 = 1)))
  (Hfree : listed (λ e, e.2 < 26 ∨ 529 ≤ e.2)).

Lemma tables_check (Q : list Z * Z → Prop) `{∀ e, Decision (Q e)} p x : listed Q → (p, x) ∈ tables → Q (p, x).
Proof. intros Hb Hin. apply bool_decide_eq_true in Hb. rewrite Forall_forall in Hb. by apply Hb. Qed.

Lemma memory_node p x : table_path p → node memory P p = Some x → (p, x) ∈ tables.
Proof.
  revert x. induction p as [|i p IH] using rev_ind; intros x Hp Hn; [cbn in Hn; by injection Hn as <-|].
  apply table_path_snoc in Hp as (Hp & Hlen & Hi). apply node_snoc in Hn as (f & Hf & Hx).
  apply (IH f Hp) in Hf.
  assert (Hf4 : f ≠ 4) by (by apply (tables_check _ _ _ Hlow Hf)).
  apply (memory_link f i x Hf4) in Hx as (l & Hl & <- & <- & <-).
  pose proof (tables_check _ _ _ Hstep Hf) as Hs. rewrite Forall_forall in Hs. by apply Hs.
Qed.

Lemma running_supply n : Z.of_nat n ≤ 503 → supply 25 2 3 4 1 4 running P n.
Proof.
  intros Hn503.
  assert (Hat : ∀ s, 6 ≤ s < 509 → table_at 4 running s (20 + s)).
  { intros s Hs. split; [lia|]. cbn [phys running]. unfold memory. cbn [Z.eqb Pos.eqb].
    rewrite (proj2 (Z.eqb_neq s 0)), (proj2 (Z.eqb_neq s 3)) by lia. apply set_get_frame; [unfold frame_ok; lia | done | done]. }
  assert (Hav : ∀ s, avail kernel_slots s → 6 ≤ s < 509) by (intros s [Hs|Hs]; cbn in Hs; [by apply elem_of_nil in Hs | lia]).
  assert (Hgt : ∀ s g, avail kernel_slots s → table_at 4 running s g → g = 20 + s).
  { intros s g Hs [_ Hg]. destruct (Hat s (Hav s Hs)) as [_ Hg']. congruence. }
  split; cbn [slots running]; auto.
  - cbn. lia.
  - intros a Ha. cbn in Ha. by apply elem_of_nil in Ha.
  - constructor.
  - intros s Hs. pose proof (Hav s Hs). split; [lia|]. exists (20 + s). split; [by apply Hat|]. split.
    + intros p Hp Hx%memory_node; [|done]. pose proof (tables_check _ _ _ Hfree Hx). cbn in *. lia.
    + unfold region_table. lia.
  - intros s s' g Hs Hs' ->%Hgt; [|done]. intros Eg%Hgt; [lia | done].
  - intros s g Hs ->%Hgt; [|by right]. cbn in Hs. intros i. cbn [phys running]. unfold memory, links. cbn [List.find fst snd].
    rewrite (proj2 (Z.eqb_neq (20 + s) 4)) by lia. repeat rewrite (proj2 (Z.eqb_neq _ (20 + s))) by lia. done.
Qed.

Lemma running_good_tree n : Z.of_nat n ≤ 503 → good 25 2 3 4 1 4 3 running P n.
Proof.
  intros Hn503. pose proof memory_node as Hn. split; [apply running_region | | | | | by apply running_supply].
  - intros p p' x Hp Hp' H1%Hn H2%Hn; [|done|done].
    pose proof (tables_check _ _ _ Honce H1) as Hs. rewrite Forall_forall in Hs. by apply (Hs _ H2).
  - intros p Hp Hlen Hx%Hn; [|done]. by apply (tables_check _ _ _ Hlow Hx).
  - intros p i f Hpi Hf. pose proof Hpi as (Hp & Hlen & Hi)%table_path_snoc.
    apply Hn in Hf; [|done]. pose proof (tables_check _ _ _ Hlow Hf Hlen) as Hf4. cbn in Hf4.
    cbn [phys running]. unfold memory. rewrite (proj2 (Z.eqb_neq f 4) Hf4).
    destruct (List.find _ links) as [l|] eqn:E; [|by left]. right. apply find_some in E as [Hin _].
    assert (Hall : Forall (λ l : Z * Z * Z * Z, 0 ≤ Z.lor (l.1.2 * 4096) l.2
        ∧ is_Some (entry_get_frame (Z.lor (l.1.2 * 4096) l.2)) ∧ Z.testbit (entry_flags (Z.lor (l.1.2 * 4096) l.2)) 7 = false) links)
      by (apply (bool_decide_eq_true (Forall _ _)); by vm_compute).
    rewrite List.Forall_forall in Hall. apply (Hall l Hin).
  - intros p x Hp Hlen Hx%Hn; [|done]. by apply (tables_check _ _ _ Hleaves Hx).
Qed.
End Tree.

(** The tables that are reached from frame 25, and from the kernel's PML4. *)
Lemma running_good n : Z.of_nat n ≤ 503 → good 25 2 3 4 1 4 3 running 25 n.
Proof.
  apply (running_good_tree 25
    [([], 25); ([R4], 2); ([R4; R3], 3); ([R4; R3; R2], 4); ([0], 1000); ([0; 0], 1001); ([0; 0; 0], 1002)]);
    [constructor | by vm_compute ..].
Qed.

Lemma running_good_kernel n : Z.of_nat n ≤ 503 → good 25 2 3 4 1 4 3 running 1 n.
Proof.
  apply (running_good_tree 1 [([], 1); ([R4], 2); ([R4; R3], 3); ([R4; R3; R2], 4)]); [constructor | by vm_compute ..].
Qed.

Lemma running_process : table_at 4 running 5 25.
Proof. split; [lia | by vm_compute]. Qed.

(** Page 513 shares a PML2 with the page that is mapped, but has no PML1 yet. *)
Lemma map_to_spec_witness :
  good 25 2 3 4 1 4 3 running 25 3 ∧
  ∃ chain k', map_to (slot_alloc 1) (slot_addr 5) 513 0x300 (Z.lor WRITABLE RING3_ACCESSIBLE) running = Done (chain, k')
    ∧ walk (phys k') 25 513 = Some 0x300 ∧ leaf (phys k') 25 1 = leaf memory 25 1.
Proof.
  split; [by apply running_good|].
  destruct (map_to_spec 25 2 3 4 1 4 3 running 5 25 513 0x300 (Z.lor WRITABLE RING3_ACCESSIBLE) 0 0)
    as (chain & k' & E & _ & _ & Hw & _ & _ & Hl).
  - by apply running_good.
  - apply running_process.
  - lia.
  - unfold frame_ok. lia.
  - done.
  - by vm_compute.
  - exists chain, k'. split; [done|]. split; [done|]. apply Hl; [lia | lia |]. intros [Hf _]. by vm_compute in Hf.
Defined.

