(* ===== verification/MemCtl.v ===== *)
(** * MemCtl: the memory controller and the stack allocator

    (src/src/mem/mod.rs, stack_allocator.rs, stack.rs, the rest of
    paging/mod.rs and slot_allocator.rs).  The controller owns the machine of
    Paging and the allocator of stacks; [init] builds the first page tables while the
    boot tables, which map every address to itself, are active.  The boot
    information (crate multiboot2) is a record of what the code reads from it. *)

From S2P Require Import Prelude Heap Frames Paging.

(** ** Data *)

Record Stack := { top : Z; bottom : Z }.

Record FreeStackRange := {
  fs_start : Z;
  fs_end : Z;
  user_pages : Z;
}.

(** [range] is a [PageIter]: the next page and the last one. *)
Record StackAllocator := {
  range : Z * Z;
  free_ranges : list FreeStackRange;
}.

Definition stack_allocator_new (range : Z * Z) : StackAllocator := {| range := range; free_ranges := [] |}.

Record MemoryController (A : Type) := {
  kernel_machine : machine A;
  active_table : Z;
  kernel_table : Z;
  stack_allocator : StackAllocator;
}.
Arguments kernel_machine {A} _.
Arguments active_table {A} _.
Arguments kernel_table {A} _.
Arguments stack_allocator {A} _.

Definition set_machine {A} (k : machine A) (c : MemoryController A) : MemoryController A :=
  {| kernel_machine := k; active_table := active_table c; kernel_table := kernel_table c; stack_allocator := stack_allocator c |}.
Definition set_active {A} (t : Z) (c : MemoryController A) : MemoryController A :=
  {| kernel_machine := kernel_machine c; active_table := t; kernel_table := kernel_table c; stack_allocator := stack_allocator c |}.
Definition set_stacks {A} (s : StackAllocator) (c : MemoryController A) : MemoryController A :=
  {| kernel_machine := kernel_machine c; active_table := active_table c; kernel_table := kernel_table c; stack_allocator := s |}.
Definition set_cr3 {A} (frame : Z) (k : machine A) : machine A :=
  {| phys := phys k; cr3 := Some frame; frames := frames k; slots := slots k; temp := temp k |}.

(** [PageIter::next] on the pair, and [Iterator::nth]. *)
Definition range_next (r : Z * Z) : option Z * (Z * Z) :=
  match iter_next r.1 r.2 with
  | None => (None, r)
  | Some (page, start) => (Some page, (start, r.2))
  end.
Fixpoint range_nth (n : nat) (r : Z * Z) : option Z * (Z * Z) :=
  match n with
  | O => range_next r
  | S n => match range_next r with (None, r) => (None, r) | (Some _, r) => range_nth n r end
  end.

(** [position]. *)
Fixpoint position_pages (pages : Z) (l : list FreeStackRange) : option nat :=
  match l with
  | [] => None
  | r :: l => if user_pages r =? pages then Some 0%nat else option_map S (position_pages pages l)
  end.

Section Controller.
Context {A : Type} `{PageFrameAllocator A}.
Abbreviation pm := (kst (machine A)).
Abbreviation mcm := (kst (MemoryController A)).

(** The slot allocator as the rest of the memory system uses it: extending the
    region allocates once more. *)
Definition alloc_slot : pm (option Z) := slot_alloc 2.

Definition in_machine {B} (m : pm B) : mcm B := zoom kernel_machine set_machine m.

(** ** Stacks *)

Definition map_stack (table start end_ flags : Z) : mcm (option Stack) :=
  in_machine (map_range alloc_slot table start end_ flags) ;;*
  kret (Some {| top := page_start_address end_ + PAGE_SIZE; bottom := page_start_address start |}).

(** [StackAllocator::alloc]. *)
Definition stack_alloc (table pages_to_alloc flags : Z) : mcm (option Stack) :=
  if pages_to_alloc =? 0 then kret None
  else
    let* sa := kgets stack_allocator in
    match position_pages pages_to_alloc (free_ranges sa) with
    | Some index =>
        match free_ranges sa !! index with
        | Some r =>
            kmodify (set_stacks {| range := range sa; free_ranges := delete index (free_ranges sa) |}) ;;*
            map_stack table (fs_start r) (fs_end r) flags
        | None => kfault Panic
        end
    | None =>
        let '(guard, r) := range_next (range sa) in
        let '(start, r) := range_next r in
        let '(end_, r) := if pages_to_alloc =? 1 then (start, r) else range_nth (Z.to_nat (pages_to_alloc - 2)) r in
        match guard, start, end_ with
        | Some _, Some start, Some end_ =>
            kmodify (set_stacks {| range := r; free_ranges := free_ranges sa |}) ;;*
            map_stack table start end_ flags
        | _, _, _ => kret None
        end
    end.

(** [StackAllocator::free]. *)
Definition stack_free (stack : Stack) (sa : StackAllocator) : StackAllocator :=
  if (bottom stack <? PAGE_SIZE) || (top stack <=? bottom stack) then sa
  else {| range := range sa;
          free_ranges := free_ranges sa ++
            [{| fs_start := page_for_address (bottom stack); fs_end := page_for_address (top stack - 1);
                user_pages := (top stack - bottom stack) / PAGE_SIZE |}] |}.

(** ** The controller *)

Definition alloc_stack (pages_to_alloc : Z) (user : bool) : mcm (option Stack) :=
  let flags := if user then Z.lor WRITABLE RING3_ACCESSIBLE else WRITABLE in
  let* table := kgets active_table in
  stack_alloc table pages_to_alloc flags.

Definition mc_identity_map (start end_ flags : Z) : mcm unit :=
  let* table := kgets active_table in
  let* unused := in_machine (is_unused table (page_for_address (frame_start_address start))) in
  if negb unused then kret tt else in_machine (map_range_identity alloc_slot table start end_ flags).

Definition translate_to_physical (addr : Z) : mcm (option Z) :=
  let* table := kgets active_table in in_machine (translate_to_phys table addr).

Definition mc_map (start end_ flags : Z) : mcm unit :=
  let* table := kgets active_table in in_machine (map_range alloc_slot table start end_ flags).

Definition unmap_pages (table : Z) (pages : list Z) : pm unit :=
  for_each (λ page,
    let* frame := unmap table page in
    match frame with Some frame => in_frames (falloc_free frame) | None => kret tt end) pages.

Definition mc_unmap (start end_ : Z) : mcm unit :=
  let* table := kgets active_table in in_machine (unmap_pages table (page_range start end_)).

(** [write_bytes(addr, 0, len)], both multiples of the size of a word. *)
Definition zero_words (addr len page : Z) : pm unit := λ k,
  match translate (phys k) (cr3 k) (page_start_address page) with
  | Some f =>
      Done (tt, set_phys (λ f' i, if (f' =? f) && (addr <=? page_start_address page + 8 * i)
                                     && (page_start_address page + 8 * i <? addr + len) then 0 else phys k f' i) k)
  | None => Fault Undefined
  end.
Definition zero_bytes (addr len : Z) : pm unit :=
  for_each (zero_words addr len) (page_range (page_for_address addr) (page_for_address (addr + len - 1))).

Definition mc_free_stack (stack : Stack) : mcm unit :=
  if top stack <=? bottom stack then kret tt
  else
    in_machine (zero_bytes (bottom stack) (top stack - bottom stack)) ;;*
    mc_unmap (page_for_address (bottom stack)) (page_for_address (top stack - 1)) ;;*
    kmodify (λ c, set_stacks (stack_free stack (stack_allocator c)) c).

(** [copy_to_nonoverlapping] of a page. *)
Definition copy_page (src dst : Z) : pm unit := λ k,
  match translate (phys k) (cr3 k) src, translate (phys k) (cr3 k) dst with
  | Some f, Some g => Done (tt, set_phys (λ f' i, if f' =? g then phys k f i else phys k f' i) k)
  | _, _ => Fault Undefined
  end.

Definition clone_kernel_table : mcm (option Z) :=
  let? slot := in_machine alloc_slot in
  let* kernel_addr := kgets kernel_table in
  in_machine (copy_page kernel_addr slot) ;;*
  kret (Some slot).

(** The old table is returned; the TLB is flushed. *)
Definition mc_switch_table (addr : Z) : mcm (option Z) :=
  if addr <? PAGE_TABLE_REGION_START then kret None
  else
    let* table := kgets active_table in
    let? phys_frame := in_machine (translate_to_phys table addr) in
    in_machine (kmodify (set_cr3 phys_frame)) ;;*
    kmodify (set_active addr) ;;*
    kret (Some table).

(** ** The first page tables *)

Definition update_slots (f : PageTableSlotAllocator → PageTableSlotAllocator) : pm unit :=
  kmodify (λ k, set_slots (f (slots k)) k).

Definition slots_with_first (first : Z) (s : PageTableSlotAllocator) : PageTableSlotAllocator :=
  {| region_start := region_start s; first_phys_frame := first; pml1_count := pml1_count s;
     last_pml1_slot := last_pml1_slot s + 1; pml2_addr := pml2_addr s; init_done := init_done s;
     allocated_page_tables := allocated_page_tables s + 1; free_slots := free_slots s |}.
Definition slots_with_pml2 (pml2 : Z) (s : PageTableSlotAllocator) : PageTableSlotAllocator :=
  {| region_start := region_start s; first_phys_frame := first_phys_frame s; pml1_count := pml1_count s + 1;
     last_pml1_slot := last_pml1_slot s; pml2_addr := pml2; init_done := init_done s;
     allocated_page_tables := allocated_page_tables s; free_slots := free_slots s |}.
Definition slots_with_init (b : bool) (s : PageTableSlotAllocator) : PageTableSlotAllocator :=
  {| region_start := region_start s; first_phys_frame := first_phys_frame s; pml1_count := pml1_count s;
     last_pml1_slot := last_pml1_slot s; pml2_addr := pml2_addr s; init_done := b;
     allocated_page_tables := allocated_page_tables s; free_slots := free_slots s |}.

(** The loop of [alloc_master_table]: [chain] is the chain of the last mapping. *)
Fixpoint map_region (pml4 : Z) (indices : list Z) (frame : Z) (chain : option PageTableMappingChain) :
    pm (option PageTableMappingChain) :=
  match indices with
  | [] => kret chain
  | idx :: indices =>
      let page := page_for_address (PAGE_TABLE_REGION_START + idx * PAGE_SIZE) in
      let* chain := map_to alloc_slot pml4 page frame (Z.lor PRESENT WRITABLE) in
      let* frame := in_frames falloc in
      let* frame := or_panic frame in
      map_region pml4 indices frame (Some chain)
  end.

Definition alloc_master_table : pm (Z * TempMapper) :=
  let* frame := in_frames falloc in
  let* frame := or_panic frame in
  let pml4 := frame_start_address frame in
  update_slots (slots_with_first pml4) ;;*
  let* chain := map_region pml4 (seqZ 0 512) frame None in
  let* chain := or_panic chain in
  update_slots (slots_with_pml2 (chain_pml2 chain)) ;;*
  update_slots (slots_with_init true) ;;*
  let* temp_addr := alloc_slot in
  let* temp_addr := or_panic temp_addr in
  update_slots (slots_with_init false) ;;*
  let temp_p1_index := p1_index (page_for_address temp_addr) in
  let* s := kgets slots in
  let* pml1_addr_offset := usub (chain_pml1 chain) (first_phys_frame s) in
  let pml1_virt_addr := PAGE_TABLE_REGION_START + pml1_addr_offset in
  kret (pml4, {| temp_addr := temp_addr; temp_entry_addr := pml1_virt_addr + temp_p1_index * 8 |}).

(** What the code reads of a section of the kernel's ELF file. *)
Record ElfSection := {
  section_start : Z;
  section_end : Z;
  section_allocated : bool;
  section_writable : bool;
  section_executable : bool;
}.

Definition from_elf_section_flags (s : ElfSection) : Z :=
  let flags := if section_allocated s then PRESENT else 0 in
  let flags := if section_writable s then Z.lor flags WRITABLE else flags in
  if negb (section_executable s) then Z.lor flags NO_EXECUTE else flags.

Record BootInformation := {
  boot_start : Z;
  boot_end : Z;
  elf_sections : list ElfSection;
  (** the end addresses of the memory areas *)
  memory_area_ends : list Z;
}.

Fixpoint map_sections (pml4 : Z) (sections : list ElfSection) : pm unit :=
  match sections with
  | [] => kret tt
  | s :: sections =>
      if negb (section_allocated s) then map_sections pml4 sections
      else if negb (section_start s mod PAGE_SIZE =? 0) then kfault Panic
      else
        map_range_identity alloc_slot pml4 (frame_from_address (section_start s))
          (frame_from_address (section_end s - 1)) (from_elf_section_flags s) ;;*
        map_sections pml4 sections
  end.

Definition map_kernel (pml4 : Z) (boot_info : BootInformation) : pm unit :=
  map_range_identity alloc_slot pml4 (frame_from_address (boot_start boot_info))
    (frame_from_address (boot_end boot_info - 1)) PRESENT ;;*
  map_sections pml4 (elf_sections boot_info).
End Controller.

(** [mem::init]: [active_table] is [PAGE_TABLE_REGION_START], where the first
    table is mapped.  The last memory area is skipped. *)
Definition STACK_ALLOCATOR_PAGES : Z := 4096.

Definition mem_init (boot_info : BootInformation) : kst (machine SimplePageFrameAllocator) (MemoryController SimplePageFrameAllocator) :=
  let* n := usub (Z.of_nat (length (memory_area_ends boot_info))) 2 in
  let* memory_end := or_panic (lookupZ (memory_area_ends boot_info) n) in
  kmodify (set_frames (simple_new (boot_end boot_info) memory_end)) ;;*
  let* skipped := in_frames falloc in
  let* _f := or_panic skipped in
  kmodify (set_slots (slots_new PAGE_TABLE_REGION_START)) ;;*
  let* first := alloc_master_table in
  kmodify (set_temp first.2) ;;*
  map_kernel first.1 boot_info ;;*
  kmodify (set_cr3 (frame_from_address first.1)) ;;*
  update_slots (slots_with_init true) ;;*
  let heap_start := page_for_address HEAP_START in
  let heap_end := page_for_address (HEAP_START + HEAP_SIZE - 1) in
  map_range alloc_slot PAGE_TABLE_REGION_START heap_start heap_end WRITABLE ;;*
  let stack_start := heap_end + 1 in
  let stack_end := stack_start + (STACK_ALLOCATOR_PAGES - 1) in
  let* k := kget in
  kret {| kernel_machine := k; active_table := PAGE_TABLE_REGION_START; kernel_table := PAGE_TABLE_REGION_START;
          stack_allocator := stack_allocator_new (stack_start, stack_end) |}.
