(* ===== verification/Stacks.v ===== *)
(** * Stacks: the stacks the memory controller hands out

    Runs of [alloc_stack] and [free_stack] in any order keep the stacks in use and
    the ranges that wait for reuse apart, with a guard page below each. *)

From S2P Require Import Prelude Frames Paging PageWalk PageExample MemCtl.

(** Ranges of pages, both ends included; the page below belongs to the range. *)
Definition apart (a b : Z * Z) : Prop := a.2 < b.1 - 1 ∨ b.2 < a.1 - 1.

Lemma apart_sym a b : apart a b → apart b a.
Proof. unfold apart. tauto. Qed.

Definition separate (l : list (Z * Z)) : Prop := ForallOrdPairs apart l.

Lemma separate_cons a l : separate (a :: l) ↔ Forall (apart a) l ∧ separate l.
Proof.
  split; [intros Hs; inversion Hs; subst; split; [by apply List.Forall_forall, List.Forall_forall | done] |].
  intros [? ?]. by constructor.
Qed.

Lemma separate_Permutation l l' : l ≡ₚ l' → separate l → separate l'.
Proof.
  induction 1 as [| a l l' Hp IH | a b l | l1 l2 l3 _ IH1 _ IH2]; [done | | | by auto].
  - rewrite !separate_cons. intros [Ha Hs]. split; [by rewrite <- Hp | auto].
  - rewrite !separate_cons, !Forall_cons. intros [[Hab Hb] [Ha Hs]]. split_and!; auto using apart_sym.
Qed.

Lemma separate_lookup l i j a b : separate l → i ≠ j → l !! i = Some a → l !! j = Some b → apart a b.
Proof.
  revert i j. induction l as [|x l IH]; intros i j Hs Hne Hi Hj; [done|]. apply separate_cons in Hs as [Hx Hs].
  rewrite Forall_forall in Hx. destruct i as [|i], j as [|j]; cbn in Hi, Hj; simplify_eq.
  - apply Hx. by eapply list_elem_of_lookup_2.
  - apply apart_sym, Hx. by eapply list_elem_of_lookup_2.
  - apply (IH i j); auto.
Qed.

Definition stack_pages (s : Stack) : Z * Z := (page_for_address (bottom s), page_for_address (top s - 1)).
Definition range_pages (r : FreeStackRange) : Z * Z := (fs_start r, fs_end r).

Definition stack_of (p : Z * Z) : Stack := {| top := page_start_address p.2 + PAGE_SIZE; bottom := page_start_address p.1 |}.

Lemma stack_of_pages p : stack_pages (stack_of p) = p.
Proof.
  destruct p as [lo hi]. unfold stack_pages, stack_of, page_for_address, page_start_address, PAGE_SIZE. cbn. f_equal.
  - by rewrite Z.div_mul.
  - Z.to_euclidean_division_equations. lia.
Qed.

Section Runs.
Context {A : Type} `{PageFrameAllocator A}.
Context (r0 r1 : Z).
Implicit Types (c : MemoryController A).

(** Stacks in use after calls of [alloc_stack] and [free_stack]. *)
Inductive stack_history : MemoryController A → list Stack → Prop :=
| stacks_new c : stack_allocator c = stack_allocator_new (r0, r1) → stack_history c []
| stacks_alloc c live n user s c' :
    stack_history c live → 0 ≤ n → alloc_stack n user c = Done (Some s, c') → stack_history c' (s :: live)
| stacks_none c live n user c' :
    stack_history c live → 0 ≤ n → alloc_stack n user c = Done (None, c') → stack_history c' live
| stacks_free c live s live' c' :
    stack_history c live → live ≡ₚ s :: live' → mc_free_stack s c = Done (tt, c') → stack_history c' live'.

Record stack_inv (sa : StackAllocator) (live : list Stack) : Prop := {
  si_range : r0 ≤ (range sa).1 ≤ r1 + 1 ∧ (range sa).2 = r1;
  si_live : Forall (λ s, s = stack_of (stack_pages s)) live;
  si_pages : Forall (λ r, user_pages r = fs_end r - fs_start r + 1) (free_ranges sa);
  si_in : Forall (λ p : Z * Z, r0 < p.1 ≤ p.2 ∧ p.2 < (range sa).1)
            (List.map stack_pages live ++ List.map range_pages (free_ranges sa));
  si_separate : separate (List.map stack_pages live ++ List.map range_pages (free_ranges sa));
}.

Lemma position_pages_Some n l i : position_pages n l = Some i → ∃ r, l !! i = Some r ∧ user_pages r = n.
Proof.
  revert i. induction l as [|r l IH]; intros i; cbn; [done|]. destruct (Z.eqb_spec (user_pages r) n).
  - intros [= <-]. by exists r.
  - destruct (position_pages n l) as [j|]; [|done]. intros [= <-]. cbn. by apply IH.
Qed.

Lemma map_stack_inv table start end_ flags c o c' :
  map_stack table start end_ flags c = Done (o, c') →
  o = Some (stack_of (start, end_)) ∧ stack_allocator c' = stack_allocator c.
Proof.
  unfold map_stack. intros (u & c1 & E1 & E2)%kbind_inv. unfold kret in E2. injection E2 as <- <-. split; [done|].
  unfold in_machine, zoom in E1. destruct (map_range _ _ _ _ _ _) as [[? ?]|]; [|done]. by simplify_eq.
Qed.

Lemma range_nth_spec n x y : x ≤ y + 1 →
  range_nth n (x, y) = if decide (x + Z.of_nat n ≤ y) then (Some (x + Z.of_nat n), (x + Z.of_nat n + 1, y)) else (None, (y + 1, y)).
Proof.
  revert x. induction n as [|n IH]; intros x Hx; cbn [range_nth]; unfold range_next, iter_next; cbn [fst snd];
    destruct (Z.ltb_spec y x).
  - rewrite decide_False by lia. assert (x = y + 1) as -> by lia. done.
  - rewrite decide_True by lia. change (Z.of_nat 0) with 0. by rewrite Z.add_0_r.
  - rewrite decide_False by lia. assert (x = y + 1) as -> by lia. done.
  - rewrite IH by lia. replace (x + 1 + Z.of_nat n) with (x + Z.of_nat (S n)) by lia. done.
Qed.

(** A range that was never used. *)
Lemma fresh_range x n : x ≤ r1 + 1 → 0 < n →
  (let '(guard, r) := range_next (x, r1) in
   let '(start, r) := range_next r in
   let '(end_, r) := if n =? 1 then (start, r) else range_nth (Z.to_nat (n - 2)) r in
   match guard, start, end_ with Some _, Some start, Some end_ => Some (start, end_, r) | _, _, _ => None end) =
  if decide (x + n ≤ r1) then Some (x + 1, x + n, (x + n + 1, r1)) else None.
Proof.
  intros Hx Hn. unfold range_next, iter_next. cbn [fst snd].
  destruct (Z.ltb_spec r1 x); cbn [fst snd].
  { rewrite decide_False by lia. rewrite (proj2 (Z.ltb_lt r1 x)) by done. by destruct (if n =? 1 then _ else _). }
  destruct (Z.ltb_spec r1 (x + 1)); cbn [fst snd].
  { rewrite decide_False by lia. by destruct (if n =? 1 then _ else _). }
  destruct (Z.eqb_spec n 1) as [->|Hn1].
  - rewrite decide_True by lia. done.
  - rewrite range_nth_spec by lia. destruct (decide _), (decide _); try lia; [|done].
    replace (x + 1 + 1 + Z.of_nat (Z.to_nat (n - 2))) with (x + n) by lia. done.
Qed.

(** What [alloc_stack] does to the ranges. *)
Lemma stack_alloc_inv sa live table n flags c o c' :
  0 ≤ r0 → stack_allocator c = sa → stack_inv sa live → 0 ≤ n → stack_alloc table n flags c = Done (o, c') →
  match o with
  | Some s => stack_inv (stack_allocator c') (s :: live) ∧ top s - bottom s = n * PAGE_SIZE ∧ 0 < n
  | None => stack_inv (stack_allocator c') live
  end.
Proof.
  intros H0 Ec [[Hr Hr1] Hl Hp Hi Hs] Hn. unfold stack_alloc. destruct (Z.eqb_spec n 0) as [->|Hn0].
  { unfold kret. intros [= <- <-]. by rewrite Ec. }
  unfold kgets at 1. unfold kbind at 1. rewrite Ec. destruct sa as [[x y] fr]. cbn [range free_ranges fst snd] in *. subst y.
  destruct (position_pages n fr) as [i|] eqn:Epos.
  - destruct (position_pages_Some _ _ _ Epos) as (r & Hri & Hup). rewrite Hri.
    unfold kmodify. unfold kbind at 1. intros [-> Ec']%map_stack_inv. rewrite Ec'. cbn [stack_allocator set_stacks].
    pose proof (delete_Permutation fr i r Hri) as Hperm.
    assert (Hperm' : List.map stack_pages live ++ List.map range_pages fr
        ≡ₚ List.map stack_pages (stack_of (fs_start r, fs_end r) :: live) ++ List.map range_pages (delete i fr)).
    { cbn. rewrite stack_of_pages. transitivity (List.map stack_pages live ++ range_pages r :: List.map range_pages (delete i fr)).
      - apply Permutation_app_head. by apply (Permutation_map range_pages) in Hperm.
      - symmetry. apply (Permutation_middle (List.map stack_pages live)). }
    assert (Hrn : user_pages r = fs_end r - fs_start r + 1) by (rewrite Forall_forall in Hp; apply Hp; by eapply list_elem_of_lookup_2).
    split; [|cbn; unfold page_start_address, PAGE_SIZE; lia].
    split; cbn [range free_ranges fst snd]; [done | | | by rewrite <- Hperm' | by eapply separate_Permutation].
    + constructor; [by rewrite stack_of_pages | done].
    + rewrite Hperm in Hp. by inversion Hp.
  - pose proof (fresh_range x n ltac:(lia) ltac:(lia)) as Hf.
    destruct (range_next (x, r1)) as [guard r]. destruct (range_next r) as [start r'].
    destruct (if n =? 1 then (start, r') else range_nth (Z.to_nat (n - 2)) r') as [end_ r''].
    destruct (decide (x + n ≤ r1)) as [Hle|].
    2: { assert (Hnone : ∀ (g s e : option Z) (X : Z → Z → kst (MemoryController A) (option Stack)),
           match g, s, e with Some _, Some a, Some b => Some (a, b, r'') | _, _, _ => None end = None →
           match g, s, e with Some _, Some a, Some b => X a b | _, _, _ => kret None end = kret None) by (by intros [?|] [?|] [?|]).
         rewrite (Hnone _ _ _ _ Hf). unfold kret. intros [= <- <-]. rewrite Ec. by split. }
    destruct guard as [g|], start as [lo|], end_ as [hi|]; try done. injection Hf as -> -> ->.
    unfold kmodify. unfold kbind at 1. intros [-> Ec']%map_stack_inv. rewrite Ec'. cbn [stack_allocator set_stacks].
    split; [|cbn; unfold page_start_address, PAGE_SIZE; lia].
    split; cbn [range free_ranges fst snd List.map app]; rewrite ?stack_of_pages; [lia | | done | |].
    + constructor; [by rewrite stack_of_pages | done].
    + constructor; [cbn; lia|]. eapply Forall_impl; [exact Hi|]. intros p Hpp. cbn in Hpp. lia.
    + apply separate_cons. split; [|done]. eapply Forall_impl; [exact Hi|]. intros p Hpp. cbn in Hpp. unfold apart. cbn. lia.
Qed.

Lemma history_stack_inv c live : 0 ≤ r0 → r0 ≤ r1 + 1 → stack_history c live → stack_inv (stack_allocator c) live.
Proof.
  intros H0 H1. induction 1 as [c Ec | c live n user s c' _ IH Hn E | c live n user c' _ IH Hn E | c live s live' c' _ IH Hperm E].
  - rewrite Ec. split; cbn; try constructor; [lia | done].
  - unfold alloc_stack, kgets, kbind in E. by apply (stack_alloc_inv _ live _ _ _ c (Some s) c' H0 eq_refl IH Hn) in E as (? & _).
  - unfold alloc_stack, kgets, kbind in E. by apply (stack_alloc_inv _ live _ _ _ c None c' H0 eq_refl IH Hn) in E.
  - destruct IH as [Hr Hl Hp Hi Hs].
    assert (Hlm : List.map stack_pages live ≡ₚ List.map stack_pages (s :: live')) by (by apply Permutation_map).
    rewrite Hperm in Hl. inversion Hl as [|? ? Hse Hl']. subst.
    assert (Hb : r0 < (stack_pages s).1 ≤ (stack_pages s).2 ∧ (stack_pages s).2 < (range (stack_allocator c)).1).
    { rewrite Hlm in Hi. by inversion Hi. }
    assert (Hsz : bottom s = (stack_pages s).1 * 4096 ∧ top s = ((stack_pages s).2 + 1) * 4096).
    { rewrite Hse at 1 3. cbn. unfold page_start_address, PAGE_SIZE. lia. }
    assert (Ec : stack_allocator c' = stack_free s (stack_allocator c)).
    { unfold mc_free_stack in E. destruct (Z.leb_spec (top s) (bottom s)); [lia|].
      apply kbind_inv in E as ([] & c1 & E1 & E). apply kbind_inv in E as ([] & c2 & E2 & E). unfold kmodify in E. injection E as <-.
      cbn. f_equal. unfold in_machine, zoom in E1. destruct (zero_bytes _ _ _) as [[? ?]|]; [|done]. simplify_eq.
      unfold mc_unmap, kgets, kbind, in_machine, zoom in E2. destruct (unmap_pages _ _ _) as [[? ?]|]; [|done]. by simplify_eq. }
    rewrite Ec. unfold stack_free, PAGE_SIZE.
    destruct (Z.ltb_spec (bottom s) 4096); [lia|]. destruct (Z.leb_spec (top s) (bottom s)); [lia|]. cbn [orb].
    assert (Hperm' : List.map stack_pages live ++ List.map range_pages (free_ranges (stack_allocator c)) ≡ₚ
      List.map stack_pages live' ++ List.map range_pages (free_ranges (stack_allocator c) ++
        [{| fs_start := page_for_address (bottom s); fs_end := page_for_address (top s - 1); user_pages := (top s - bottom s) / 4096 |}])).
    { rewrite Hlm, List.map_app, app_assoc. cbn. rewrite <- Permutation_cons_append. done. }
    split; cbn [range free_ranges]; [done | done | | by rewrite <- Hperm' | by eapply separate_Permutation].
    apply Forall_app. split; [done|]. constructor; [|done]. cbn. destruct Hsz as [Hs1 Hs2].
    change (page_for_address (bottom s)) with (stack_pages s).1. change (page_for_address (top s - 1)) with (stack_pages s).2.
    rewrite Hs1, Hs2. Z.to_euclidean_division_equations. lia.
Qed.

(** The stacks of an allocator in good order. *)
Lemma stack_inv_apart sa live : stack_inv sa live →
  (∀ s, s ∈ live → bottom s mod PAGE_SIZE = 0 ∧ top s mod PAGE_SIZE = 0
     ∧ r0 * PAGE_SIZE + PAGE_SIZE ≤ bottom s < top s ∧ top s ≤ (r1 + 1) * PAGE_SIZE) ∧
  ∀ i j a b, i ≠ j → live !! i = Some a → live !! j = Some b →
    top a + PAGE_SIZE ≤ bottom b ∨ top b + PAGE_SIZE ≤ bottom a.
Proof.
  intros [Hr Hl Hp Hi Hs]. apply Forall_app in Hi as [Hi _].
  assert (Hform : ∀ s, s ∈ live → bottom s = (stack_pages s).1 * 4096 ∧ top s = ((stack_pages s).2 + 1) * 4096).
  { intros s Hin. rewrite Forall_forall in Hl. rewrite (Hl s Hin) at 1 3. cbn. unfold page_start_address, PAGE_SIZE. lia. }
  assert (Hrng : ∀ s, s ∈ live → r0 < (stack_pages s).1 ≤ (stack_pages s).2 ∧ (stack_pages s).2 < (range sa).1).
  { intros s Hin. rewrite Forall_map, Forall_forall in Hi. by apply Hi. }
  unfold PAGE_SIZE. split.
  - intros s Hin. destruct (Hform s Hin) as [-> ->]. pose proof (Hrng s Hin). rewrite !Z.mod_mul by done. lia.
  - intros i j a b Hne Ha Hb.
    assert (Hap : apart (stack_pages a) (stack_pages b)).
    { apply (separate_lookup _ i j _ _ Hs Hne); apply lookup_app_l_Some; rewrite list_lookup_fmap, ?Ha, ?Hb; done. }
    apply list_elem_of_lookup_2 in Ha. apply list_elem_of_lookup_2 in Hb.
    destruct (Hform a Ha) as [-> ->], (Hform b Hb) as [-> ->]. unfold apart in Hap. lia.
Qed.

(** C27: Stacks are kept apart: after any sequence of allocations and frees, the
    stacks in use are page aligned, lie in the range of the allocator, and between
    any two of them - and below each - there is at least one page that belongs to no
    stack; a further allocation returns a stack of exactly the pages asked for that
    is apart from all of them. *)
Theorem stacks_separate c live n user c' s :
  0 ≤ r0 → r0 ≤ r1 + 1 → stack_history c live → 0 ≤ n → alloc_stack n user c = Done (Some s, c') →
  top s - bottom s = n * PAGE_SIZE ∧
  (∀ s', s' ∈ s :: live → bottom s' mod PAGE_SIZE = 0 ∧ top s' mod PAGE_SIZE = 0
     ∧ r0 * PAGE_SIZE + PAGE_SIZE ≤ bottom s' < top s' ∧ top s' ≤ (r1 + 1) * PAGE_SIZE) ∧
  ∀ i j a b, i ≠ j → (s :: live) !! i = Some a → (s :: live) !! j = Some b →
    top a + PAGE_SIZE ≤ bottom b ∨ top b + PAGE_SIZE ≤ bottom a.
Proof.
  intros H0 H1 Hh Hn E. pose proof (history_stack_inv c live H0 H1 Hh) as Hinv.
  unfold alloc_stack, kgets, kbind in E.
  apply (stack_alloc_inv _ live _ _ _ c (Some s) c' H0 eq_refl Hinv Hn) in E as (Hinv' & Hsz & Hpos).
  split; [done|]. by apply (stack_inv_apart (stack_allocator c')).
Qed.
End Runs.

(** A controller in front of the memory of PageExample. *)
Definition controller : MemoryController SimplePageFrameAllocator :=
  {| kernel_machine := running; active_table := slot_addr 5; kernel_table := slot_addr 0;
     stack_allocator := stack_allocator_new (600, 700) |}.

Lemma stacks_separate_witness :
  ∃ s c' s' c'', alloc_stack 2 true controller = Done (Some s, c') ∧ alloc_stack 3 false c' = Done (Some s', c'')
    ∧ top s' - bottom s' = 12288.
Proof.
  assert (Hok : match alloc_stack 2 true controller with
    | Done (Some s, c') => match alloc_stack 3 false c' with Done (Some s', _) => true | _ => false end
    | _ => false end = true) by by vm_compute.
  destruct (alloc_stack 2 true controller) as [[[s|] c']|] eqn:E; [|discriminate Hok|discriminate Hok].
  destruct (alloc_stack 3 false c') as [[[s'|] c'']|] eqn:E'; [|discriminate Hok|discriminate Hok].
  exists s, c', s', c''. split; [reflexivity|]. split; [exact E'|].
  apply (stacks_separate 600 700 c' [s] 3 false c'' s'); [lia | lia | | lia | exact E'].
  apply (stacks_alloc 600 700 controller [] 2 true); [apply stacks_new; reflexivity | lia | exact E].
Defined.
