(* ===== verification/Interrupts.v ===== *)
(** * Interrupts: descriptor tables and interrupt handlers

    (src/src/arch/x86_64/gdt.rs, idt.rs and timer_isr.rs).  A gate of the IDT is what
    the code asks of the x86_64 crate for it: a handler, the stack it runs on, the
    privilege that may call it; a vector without a gate is not present.  The timer
    handler is the one of Sched.v with its accesses to the serial port and the
    interrupt controller in place. *)

From Stdlib Require Import String.
From S2P Require Import Prelude Context Time Devices DevicesSpec Frames Paging PageExample MemCtl Stacks Sched.

(** ** Interrupt stacks *)

Definition PIT_STACK_INDEX : nat := 0.
Definition SYSCALL_STACK_INDEX : nat := 1.
Definition DOUBLE_FAULT_STACK_INDEX : nat := 2.

Record TaskStateSegment := {
  interrupt_stack_table : list Z;
  privilege_stack_table : list Z;
}.
Definition tss_new : TaskStateSegment := {| interrupt_stack_table := replicate 7 0; privilege_stack_table := replicate 3 0 |}.

Section Stacks.
Context {A : Type} `{PageFrameAllocator A}.

(** The stack is logged as missing before the panic. *)
Definition alloc_ist_stack : kst (MemoryController A) Z :=
  let* s := alloc_stack 16 false in
  match s with Some s => kret (top s) | None => kfault Panic end.

Definition init_tss : kst (MemoryController A) TaskStateSegment :=
  let tss := tss_new in
  let* pit_stack := alloc_ist_stack in
  let tss := {| interrupt_stack_table := <[PIT_STACK_INDEX := pit_stack]> (interrupt_stack_table tss);
                privilege_stack_table := privilege_stack_table tss |} in
  let* syscall_stack := alloc_ist_stack in
  let tss := {| interrupt_stack_table := <[SYSCALL_STACK_INDEX := syscall_stack]> (interrupt_stack_table tss);
                privilege_stack_table := privilege_stack_table tss |} in
  let* double_fault_stack := alloc_ist_stack in
  let tss := {| interrupt_stack_table := <[DOUBLE_FAULT_STACK_INDEX := double_fault_stack]> (interrupt_stack_table tss);
                privilege_stack_table := privilege_stack_table tss |} in
  let* ring0_stack := alloc_ist_stack in
  kret {| interrupt_stack_table := interrupt_stack_table tss;
          privilege_stack_table := <[0%nat := ring0_stack]> (privilege_stack_table tss) |}.
End Stacks.

(** ** The interrupt descriptor table *)

Inductive handler :=
| breakpoint_isr | double_fault_isr | gpf_isr | page_fault_isr | debug_isr | timer_trampoline | syscall_trampoline
| at_address (addr : Z).

Record gate := {
  g_handler : handler;
  g_stack : option nat;
  g_dpl : Z;
}.

Abbreviation idt := (gmap Z gate).

(** A gate as it is before it is set: ring 0, no stack of its own. *)
Definition set_handler (vector : Z) (h : handler) (t : idt) : idt :=
  match t !! vector with
  | Some g => <[vector := {| g_handler := h; g_stack := g_stack g; g_dpl := g_dpl g |}]> t
  | None => <[vector := {| g_handler := h; g_stack := None; g_dpl := 0 |}]> t
  end.
Definition set_stack_index (vector : Z) (index : nat) (t : idt) : idt :=
  alter (λ g, {| g_handler := g_handler g; g_stack := Some index; g_dpl := g_dpl g |}) vector t.
Definition set_privilege_level (vector : Z) (dpl : Z) (t : idt) : idt :=
  alter (λ g, {| g_handler := g_handler g; g_stack := g_stack g; g_dpl := dpl |}) vector t.

Definition IRQ0 : Z := 0x20.
(** The vectors of the CPU's exceptions. *)
Definition BREAKPOINT : Z := 3.
Definition DOUBLE_FAULT : Z := 8.
Definition GENERAL_PROTECTION : Z := 13.
Definition PAGE_FAULT : Z := 14.

Definition register_interrupt (vector addr : Z) (is_ring3 : bool) (t : idt) : idt :=
  let dpl := if is_ring3 then 0 else 3 in
  set_privilege_level vector dpl (set_handler vector (at_address addr) t).

Definition init_idt (t : idt) : idt :=
  let t := set_handler BREAKPOINT breakpoint_isr t in
  let t := set_stack_index DOUBLE_FAULT DOUBLE_FAULT_STACK_INDEX (set_handler DOUBLE_FAULT double_fault_isr t) in
  let t := set_handler GENERAL_PROTECTION gpf_isr t in
  let t := set_handler PAGE_FAULT page_fault_isr t in
  let t := set_stack_index IRQ0 PIT_STACK_INDEX (set_handler IRQ0 timer_trampoline t) in
  let t := set_handler 0x34 debug_isr t in
  set_privilege_level 0x80 3 (set_stack_index 0x80 SYSCALL_STACK_INDEX (set_handler 0x80 syscall_trampoline t)).

(** What [int n] at a privilege level reaches: the CPU refuses a gate of a more
    privileged level, and one that is not present. *)
Definition software_interrupt (t : idt) (cpl n : Z) : option handler :=
  match t !! n with
  | Some g => if cpl <=? g_dpl g then Some (g_handler g) else None
  | None => None
  end.
(** What an interrupt line reaches: no privilege is asked for. *)
Definition hardware_interrupt (t : idt) (b : board) (irq : Z) : option handler := g_handler <$> t !! irq_vector b irq.

(** ** The handlers *)

Section Handlers.
Context {S : Type} `{PortIo S}.
Context (fuel : nat).

(** [dump] is the interrupt stack frame as the x86_64 crate prints it; every handler
    but the one of the debug interrupt ends in [loop {}]. *)
Definition stop_with (dump : list Z) : kst S unit :=
  log_write fuel Log.ERR (Log.text "Dumping stack frame" ++ [10] ++ dump) ;;* kfault Hang.

Definition run_breakpoint : kst S unit := log_write fuel Log.EXCEPTION (Log.text "Breakpoint interrupt called!") ;;* kfault Hang.
Definition run_double_fault (dump : list Z) (err_code : Z) : kst S unit :=
  log_write fuel Log.EXCEPTION (Log.text "Double fault, err_code: 0x" ++ Log.hex false err_code) ;;* stop_with dump.
Definition run_gpf (dump : list Z) (err_code : Z) : kst S unit :=
  log_write fuel Log.EXCEPTION (Log.text "General protection fault! With error code: 0x" ++ Log.hex true err_code) ;;* stop_with dump.
Definition run_page_fault (dump : list Z) (err_code cr2 : Z) : kst S unit :=
  log_write fuel Log.EXCEPTION
    (Log.text "Page fault! With error code: 0x" ++ Log.hex true err_code ++ Log.text ", and cr2: 0x" ++ Log.hex true cr2) ;;*
  stop_with dump.
Definition run_debug : kst S unit := log_write fuel Log.OK (Log.text "Debug isr called!").
End Handlers.

Section Timer.
Context {M D F G K T S : Type} `{ProcMemory M G K T} `{PortIo S} (fuel : nat).
Abbreviation state := (kernel M D F G K T * S)%type.

Definition on_kernel {A} (m : kst (kernel M D F G K T) A) : kst state A := zoom fst (λ k x, (k, x.2)) m.
Definition on_ports {A} (m : kst S A) : kst state A := zoom snd (λ s x, (x.1, s)) m.

(** [timer_isr]; interrupts are off. *)
Definition timer_interrupt (frame : FullInterruptStackFrame) : kst state (option dispatch) :=
  on_kernel (zoom CLOCKS set_clocks tick) ;;*
  let* sched_enabled := on_kernel (kgets SCHEDULING_ENABLED) in
  on_ports (end_of_interrupt 0) ;;*
  if sched_enabled then
    let* received := on_ports serial_received in
    (if (received : bool) then let* input := on_ports (read_serial fuel) in on_kernel (process_input input) else kret tt) ;;*
    let* d := on_kernel (schedule (Some frame)) in
    kret (Some d)
  else kret None.
End Timer.

(** ** Gates *)

Lemma set_handler_ne v h (t : idt) n : v ≠ n → set_handler v h t !! n = t !! n.
Proof. intros Hne. unfold set_handler. destruct (t !! v); by rewrite lookup_insert_ne. Qed.

Lemma init_idt_gates n : init_idt ∅ !! n =
  if n =? 3 then Some {| g_handler := breakpoint_isr; g_stack := None; g_dpl := 0 |}
  else if n =? 8 then Some {| g_handler := double_fault_isr; g_stack := Some DOUBLE_FAULT_STACK_INDEX; g_dpl := 0 |}
  else if n =? 13 then Some {| g_handler := gpf_isr; g_stack := None; g_dpl := 0 |}
  else if n =? 14 then Some {| g_handler := page_fault_isr; g_stack := None; g_dpl := 0 |}
  else if n =? 0x20 then Some {| g_handler := timer_trampoline; g_stack := Some PIT_STACK_INDEX; g_dpl := 0 |}
  else if n =? 0x34 then Some {| g_handler := debug_isr; g_stack := None; g_dpl := 0 |}
  else if n =? 0x80 then Some {| g_handler := syscall_trampoline; g_stack := Some SYSCALL_STACK_INDEX; g_dpl := 3 |}
  else None.
Proof.
  repeat match goal with |- context [n =? ?v] => destruct (Z.eqb_spec n v) as [->|]; [by vm_compute|] end.
  unfold init_idt, set_privilege_level, set_stack_index, BREAKPOINT, DOUBLE_FAULT, GENERAL_PROTECTION, PAGE_FAULT, IRQ0.
  repeat first [rewrite lookup_alter_ne by done | rewrite set_handler_ne by done]. apply lookup_empty.
Qed.

(** Programs reach one gate of the kernel: whatever software interrupt a user
    program executes, the CPU refuses it, unless it is the system call. *)
Theorem user_gates n : software_interrupt (init_idt ∅) 3 n = if n =? 0x80 then Some syscall_trampoline else None.
Proof.
  unfold software_interrupt. rewrite init_idt_gates.
  repeat match goal with |- context [n =? ?v] => destruct (Z.eqb_spec n v) as [->|]; [done|] end. done.
Qed.

(** A gate that is registered for the kernel alone is open to user programs, and
    one for user programs is closed to them. *)
Lemma register_interrupt_inverted v addr b t :
  software_interrupt (register_interrupt v addr b t) 3 v = if b then None else Some (at_address addr).
Proof.
  unfold software_interrupt, register_interrupt, set_privilege_level, set_handler.
  rewrite lookup_alter_eq. destruct (t !! v); rewrite lookup_insert_eq; by destruct b.
Qed.

(** Every line is open, but only line 0 has a gate. *)
Theorem lines_without_gate {S : Type} `{Board S} (s : S) : ∃ s', remap_pic s = Done (tt, s')
  ∧ hardware_interrupt (init_idt ∅) (chips s') 0 = Some timer_trampoline
  ∧ ∀ irq, 0 < irq < 16 → hardware_interrupt (init_idt ∅) (chips s') irq = None
      ∧ Z.testbit (p_mask (if irq <? 8 then master (chips s') else slave (chips s'))) (irq mod 8) = false.
Proof.
  destruct (remap_pic_run s) as (s' & E & C). exists s'. split; [done|]. rewrite C. split; [by vm_compute|].
  intros irq Hi. unfold hardware_interrupt, irq_vector. cbn [master slave p_offset pic_ready]. rewrite init_idt_gates.
  destruct (Z.ltb_spec irq 8); cbn [p_mask pic_ready]; rewrite Z.bits_0; (split; [|done]);
    repeat match goal with |- context [?a =? ?v] => rewrite (proj2 (Z.eqb_neq a v)) by lia end; done.
Qed.

(** ** Interrupt stacks *)

Section StackProps.
Context {A : Type} `{PageFrameAllocator A} (r0 r1 : Z).

Lemma alloc_ist_stack_run c v c' live : stack_history r0 r1 c live → alloc_ist_stack c = Done (v, c') →
  ∃ s, v = top s ∧ alloc_stack 16 false c = Done (Some s, c') ∧ stack_history r0 r1 c' (s :: live).
Proof.
  intros Hh ([s|] & c1 & E & E')%kbind_inv; [|done]. injection E' as <- <-. exists s. split_and!; [done | done |].
  by apply (stacks_alloc _ _ c live 16 false).
Qed.

(** C29: The stacks on which the kernel is entered are its own: the timer, the system
    calls, double faults and the exceptions of user programs each get 16 pages of
    kernel stack, and no two of these stacks, nor one of them and any other stack in
    use, overlap or touch. *)
Theorem interrupt_stacks_apart c live tss c' :
  0 ≤ r0 → r0 ≤ r1 + 1 → stack_history r0 r1 c live → init_tss c = Done (tss, c') →
  ∃ sp ss sd sr,
    interrupt_stack_table tss = [top sp; top ss; top sd; 0; 0; 0; 0] ∧ privilege_stack_table tss = [top sr; 0; 0]
    ∧ Forall (λ s, top s - bottom s = 16 * PAGE_SIZE) [sr; sd; ss; sp]
    ∧ ∀ i j a b, i ≠ j → ([sr; sd; ss; sp] ++ live) !! i = Some a → ([sr; sd; ss; sp] ++ live) !! j = Some b →
        top a + PAGE_SIZE ≤ bottom b ∨ top b + PAGE_SIZE ≤ bottom a.
Proof.
  intros H0 H1 Hh E. unfold init_tss in E.
  assert (Hsize : ∀ c l s c', stack_history r0 r1 c l → alloc_stack 16 false c = Done (Some s, c') → top s - bottom s = 16 * PAGE_SIZE).
  { intros c2 l s c3 Hc Ea. unfold alloc_stack, kgets, kbind in Ea.
    by apply (stack_alloc_inv r0 r1 _ l _ _ _ c2 (Some s) c3 H0 eq_refl (history_stack_inv r0 r1 c2 l H0 H1 Hc)) in Ea as (_ & Hsz & _). }
  apply kbind_inv in E as (v1 & c1 & E1 & E). apply (alloc_ist_stack_run _ _ _ live) in E1 as (sp & -> & A1 & Hh1); [|done].
  apply kbind_inv in E as (v2 & c2 & E2 & E). apply (alloc_ist_stack_run _ _ _ (sp :: live)) in E2 as (ss & -> & A2 & Hh2); [|done].
  apply kbind_inv in E as (v3 & c3 & E3 & E). apply (alloc_ist_stack_run _ _ _ (ss :: sp :: live)) in E3 as (sd & -> & A3 & Hh3); [|done].
  apply kbind_inv in E as (v4 & c4 & E4 & E). apply (alloc_ist_stack_run _ _ _ (sd :: ss :: sp :: live)) in E4 as (sr & -> & A4 & Hh4); [|done].
  injection E as <- <-. exists sp, ss, sd, sr. split_and!; [done | done | |].
  - rewrite !Forall_cons. split_and!; [by eapply Hsize; [|eassumption] .. | constructor].
  - apply (stack_inv_apart r0 r1 (stack_allocator c4)). by apply history_stack_inv.
Qed.
End StackProps.

(** ** The timer *)

Section TimerProps.
Context {M D F G K T S : Type} `{ProcMemory M G K T} `{Board S}.
Implicit Types (k : kernel M D F G K T) (s : S).

Lemma on_ports_done {A} (m : kst S A) k s a s' : m s = Done (a, s') → on_ports (D := D) (F := F) m (k, s) = Done (a, (k, s')).
Proof. intros E. unfold on_ports, zoom. cbn. by rewrite E. Qed.

Lemma kbind_run {X A B} (m : kst X A) (f : A → kst X B) x :
  kbind m f x = match m x with Done (a, x') => f a x' | Fault e => Fault e end.
Proof. done. Qed.

Lemma on_kernel_run {A} (m : kst (kernel M D F G K T) A) k s :
  on_kernel m (k, s) = match m k with Done (a, k') => Done (a, (k', s)) | Fault e => Fault e end.
Proof. unfold on_kernel, zoom. cbn. by destruct (m k) as [[? ?]|]. Qed.

(** What a poll of the receiver finds. *)
Lemma received_run s : ∃ s', serial_received s = Done (negb (length (u_rx (serial (chips s))) =? 0)%nat, s')
  ∧ chips s' = with_serial (set_busy (pred (u_busy (serial (chips s)))) (serial (chips s))) (chips s).
Proof.
  destruct (status_run s) as (s' & E & C). exists s'. split; [|done]. unfold serial_received. rewrite (kbind_done _ _ _ _ _ E).
  by destruct (length _ =? 0)%nat, (u_busy _ =? 0)%nat.
Qed.

Lemma read_serial_run fuel s x rx : u_dlab (serial (chips s)) = false → u_rx (serial (chips s)) = x :: rx → (0 < fuel)%nat →
  ∃ s', read_serial fuel s = Done (x, s') ∧ u_rx (serial (chips s')) = rx
    ∧ ∃ u, chips s' = with_serial u (chips s) ∧ u_sent u = u_sent (serial (chips s)).
Proof.
  intros Hd Hx Hf. destruct fuel as [|fuel]; [lia|]. destruct (received_run s) as (s1 & E1 & C1). rewrite Hx in E1. cbn [length Nat.eqb negb] in E1.
  destruct (board_in s1 PORT) as (s2 & E2 & C2). exists s2. unfold read_serial, wait_for. cbn [loopM].
  unfold kbind at 1 2 3. rewrite E1. cbn [kret]. rewrite C1 in E2, C2. rewrite <- (Z.add_0_r PORT), serial_read in E2, C2 by lia.
  cbn [fst snd serial with_serial] in E2, C2. rewrite uart_read_data in E2, C2 by exact Hd.
  cbn [fst snd u_rx set_busy set_lines] in E2, C2. rewrite Hx in E2, C2. cbn [hd tl] in E2, C2. rewrite Z.add_0_r in E2.
  split; [done|]. rewrite C2. split; [done|]. by eexists.
Qed.

(** The port accesses, whatever the kernel does between them. *)
Lemma timer_ports fuel s (enabled : bool) : u_dlab (serial (chips s)) = false → (0 < fuel)%nat →
  let rx := u_rx (serial (chips s)) in
  ∃ s1 s2 s', end_of_interrupt 0 s = Done (tt, s1)
    ∧ (if enabled then serial_received s1 = Done (negb (length rx =? 0)%nat, s2) else s2 = s1)
    ∧ (if enabled then match rx with [] => s' = s2 | x :: _ => read_serial fuel s2 = Done (x, s') end else s' = s1)
    ∧ p_service (master (chips s')) = tl (p_service (master (chips s)))
    ∧ u_rx (serial (chips s')) = (if enabled then tl rx else rx)
    ∧ u_sent (serial (chips s')) = u_sent (serial (chips s)).
Proof.
  intros Hd Hf rx. destruct (out_last 0x20 0x20 s) as ([] & s1 & E1 & C1). cbn [write_all] in C1.
  assert (Hs1 : serial (chips s1) = serial (chips s) ∧ p_service (master (chips s1)) = tl (p_service (master (chips s)))) by (by rewrite C1).
  destruct Hs1 as [Hs1 Hm1]. destruct enabled; [|exists s1, s1, s1; rewrite Hs1; by split_and!].
  destruct (received_run s1) as (s2 & E2 & C2). rewrite Hs1 in E2, C2. destruct rx as [|x rx'] eqn:Erx.
  - exists s1, s2, s2. unfold rx in Erx. rewrite Erx in E2. rewrite C2. split_and!; try done.
  - destruct (read_serial_run fuel s2 x rx') as (s3 & E3 & R3 & u & C3 & U3); [by rewrite C2 | by rewrite C2 | done |].
    exists s1, s2, s3. unfold rx in Erx. rewrite Erx in E2. split_and!; try done; rewrite C3, ?C2; [done|]. cbn. by rewrite U3, C2.
Qed.

(** C8: The timer interrupt as the machine runs it is the scheduler's: with the line
    set up, [timer_interrupt] does to the kernel exactly what [timer_isr] does when
    it is given the oldest character that has arrived - none, if there is none or if
    scheduling is off - and it has told the controller that the interrupt is over,
    taken that character, and no other, from the line, and sent nothing. *)
Theorem timer_interrupt_refines fuel frame k s :
  u_dlab (serial (chips s)) = false → (0 < fuel)%nat →
  let rx := u_rx (serial (chips s)) in
  match timer_isr frame (if SCHEDULING_ENABLED k then head rx else None) k with
  | Done (d, k') => ∃ s', timer_interrupt fuel frame (k, s) = Done (d, (k', s'))
      ∧ p_service (master (chips s')) = tl (p_service (master (chips s)))
      ∧ u_rx (serial (chips s')) = (if SCHEDULING_ENABLED k then tl rx else rx)
      ∧ u_sent (serial (chips s')) = u_sent (serial (chips s))
  | Fault e => timer_interrupt fuel frame (k, s) = Fault e
  end.
Proof.
  intros Hd Hf rx. destruct (timer_ports fuel s (SCHEDULING_ENABLED k) Hd Hf) as (s1 & s2 & s' & E1 & E2 & E3 & Hpost).
  assert (E : timer_interrupt fuel frame (k, s) =
    match timer_isr frame (if SCHEDULING_ENABLED k then head rx else None) k with Done (d, k') => Done (d, (k', s')) | Fault e => Fault e end).
  2: { rewrite E. destruct (timer_isr _ _ k) as [[d k']|]; [by exists s' | done]. }
  clear Hpost. unfold timer_interrupt, timer_isr. rewrite !kbind_run, on_kernel_run.
  destruct (zoom CLOCKS set_clocks tick k) as [[[] k1]|] eqn:Et; [|done].
  assert (Hse : SCHEDULING_ENABLED k1 = SCHEDULING_ENABLED k).
  { unfold zoom in Et. destruct (tick (CLOCKS k)) as [[? ?]|]; [|done]. by injection Et as _ <-. }
  rewrite (kbind_done _ _ (k1, s) (SCHEDULING_ENABLED k) (k1, s)) by (rewrite on_kernel_run; unfold kgets; by rewrite Hse).
  rewrite (kbind_done _ _ k1 (SCHEDULING_ENABLED k) k1) by (unfold kgets; by rewrite Hse).
  rewrite (kbind_done _ _ _ _ _ (on_ports_done _ k1 s _ _ E1)).
  destruct (SCHEDULING_ENABLED k); [|by rewrite E3]. rewrite (kbind_done _ _ _ _ _ (on_ports_done _ k1 s1 _ _ E2)).
  fold rx in E3 |- *. destruct rx as [|x rx']; cbn [length Nat.eqb negb head].
  - subst s'. unfold kbind, kret. rewrite on_kernel_run. by destruct (schedule (Some frame) k1) as [[? ?]|].
  - unfold kbind at 1. rewrite (kbind_done _ _ _ _ _ (on_ports_done _ k1 s2 _ _ E3)), on_kernel_run. unfold kbind at 2.
    destruct (process_input x k1) as [[? k2]|]; [|done]. unfold kbind. rewrite on_kernel_run.
    by destruct (schedule (Some frame) k2) as [[? ?]|].
Qed.
End TimerProps.

(** ** Witnesses *)

Lemma interrupt_stacks_apart_witness :
  ∃ tss c', init_tss controller = Done (tss, c') ∧ length (interrupt_stack_table tss) = 7%nat.
Proof.
  assert (Hok : match init_tss controller with Done _ => true | Fault _ => false end = true) by (vm_compute; reflexivity).
  destruct (init_tss controller) as [[tss c']|] eqn:E; [|discriminate Hok]. exists tss, c'. split; [reflexivity|].
  destruct (interrupt_stacks_apart 600 700 controller [] tss c') as (sp & ss & sd & sr & Ht & _).
  - lia.
  - lia.
  - apply stacks_new. reflexivity.
  - exact E.
  - rewrite Ht. reflexivity.
Defined.

(** The timer interrupts process 1; "q" has arrived. *)
Lemma timer_interrupt_refines_witness :
  ∃ d b', timer_interrupt 1 (run_frame 0x500040 7) (run4, power_on)
      = Done (d, (state_after (timer_isr (run_frame 0x500040 7) (Some 113)) run4, b'))
    ∧ u_rx (serial b') = [114].
Proof.
  pose proof (timer_interrupt_refines (S := board) 1 (run_frame 0x500040 7) run4 power_on eq_refl ltac:(lia)) as H.
  destruct (timer_isr (run_frame 0x500040 7) (Some 113) run4) as [[d k']|] eqn:Et; [|vm_compute in Et; discriminate Et].
  assert (Ek : state_after (timer_isr (run_frame 0x500040 7) (Some 113)) run4 = k') by (unfold state_after; rewrite Et; reflexivity).
  assert (Ei : (if SCHEDULING_ENABLED run4 then head (u_rx (serial (chips power_on))) else None) = Some 113) by (vm_compute; reflexivity).
  cbv zeta in H. rewrite Ei, Et in H. destruct H as (s' & E & _ & Hr & _). exists d, s'. rewrite Ek. split; [exact E|].
  etransitivity; [exact Hr | vm_compute; reflexivity].
Defined.
