(* ===== verification/PageSpace.v ===== *)
(** * PageSpace: address spaces

    Unmapping pages gives their frames back; a process gets the kernel's mappings
    by cloning its PML4, and runs in them after the switch. *)

From S2P Require Import Prelude Frames Paging PageTree PageWalk PageCheck PageMap PageExample MemCtl Stacks.

Section Space.
Context {A : Type} `{PageFrameAllocator A}.
Context (c f3 f2 f1 kp t s1 : Z).
Implicit Types (k : machine A).
Abbreviation region := (region_ok c f3 f2 f1 kp t s1).
Abbreviation ok := (good c f3 f2 f1 kp t s1).

Lemma good_same k k' P n : ok k P n → same f1 t k k' → ok k' P n.
Proof.
  intros [Hr Ht Hl He Hlv [Hsi Hsl Hsf Hsn Hsfr Hsin Hsz Hsc]] S.
  pose proof (λ p x, same_node f1 t k k' P p x S Hl) as Hns.
  assert (Hat : ∀ s g, avail (slots k) s → table_at f1 k' s g ↔ table_at f1 k s g).
  { intros s g Hav. destruct (Hsfr s Hav) as (Hst & _). unfold table_at. by rewrite (sm_phys _ _ _ _ S) by lia. }
  split; [by eapply region_same | by eapply same_tree_ok | by eapply same_low | | |].
  - intros p i f Hpi Hf. pose proof Hpi as (Hp & Hlen & _)%table_path_snoc. apply Hns in Hf; [|done].
    rewrite (sm_phys _ _ _ _ S); [by apply (He p)|]. intros [-> _]. by apply (Hl p).
  - intros p x Hp Hlen Hx. apply Hns in Hx; [|done]. by apply (Hlv p).
  - split; rewrite ?(sm_slots _ _ _ _ S); auto.
    + intros s Hav. destruct (Hsfr s Hav) as (Hst & g & Hg & Ho & Hk). split; [done|]. exists g.
      split; [by apply Hat|]. split; [|done]. intros p Hp Hx. apply Hns in Hx; [|done]. by apply (Ho p).
    + intros s s' g Hav Hav' Hg%Hat Hg'%Hat; [|done|done]. by apply (Hsin s s' g).
    + intros s g Hsr Hg%Hat j; [|by right]. destruct (Hsfr s (or_intror Hsr)) as (_ & g' & Hg' & _ & Hk).
      assert (g' = g) as -> by (destruct Hg as [_ Hg], Hg' as [_ Hg']; congruence).
      rewrite (sm_phys _ _ _ _ S); [by apply (Hsz s)|]. intros [-> _]. apply Hk. unfold region_table. tauto.
Qed.

(** The page's own table is not the region's. *)
Definition plain k (P page : Z) : Prop :=
  0 ≤ page < 2 ^ 36 ∧ node (phys k) P [p4_index page; p3_index page; p2_index page] ≠ Some f1.

Lemma plain_not_temp k P page : plain k P page → ¬ temp_page f1 t (phys k) P page.
Proof. intros [_ Hn] [Hf _]. done. Qed.

(** What unmapping a page leaves. *)
Record unmapped k k' (P : Z) (pages : list Z) : Prop := {
  um_frames : frames k' = frames k;
  um_none : ∀ page, page ∈ pages → entry_get_frame (leaf (phys k') P page) = None;
  um_others : ∀ page, 0 ≤ page < 2 ^ 36 → (page ∉ pages) → ¬ temp_page f1 t (phys k) P page →
    leaf (phys k') P page = leaf (phys k) P page;
  um_node : ∀ page, node (phys k') P [p4_index page; p3_index page; p2_index page]
                    = node (phys k) P [p4_index page; p3_index page; p2_index page];
}.

Lemma option_same {B} (o o' : option B) : (∀ x, o = Some x ↔ o' = Some x) → o = o'.
Proof. intros E. destruct o as [x|]; [symmetry; by apply E|]. destruct o' as [x|]; [|done]. by apply E. Qed.

Lemma unmap_ok k s P page n : ok k P n → table_at f1 k s P → plain k P page →
  ∃ k', unmap (slot_addr s) page k = Done (entry_get_frame (leaf (phys k) P page), k')
    ∧ ok k' P n ∧ unmapped k k' P [page] ∧ (s ≠ t → table_at f1 k' s P).
Proof.
  intros Hgd Hat Hpl. pose proof Hpl as [Hpg Hnf1]. pose proof Hgd as [Hr Ht Hl _ _ _].
  destruct (walk_temp_ok _ _ _ _ _ _ _ k s P page Hr Hat (low_clear _ _ _ _ Hl)) as (k1 & S & Hw).
  pose proof (good_same k k1 P n Hgd S) as G1. pose proof (λ p x, same_node f1 t k k1 P p x S Hl) as Hns.
  assert (Hnode1 : ∀ page, node (phys k1) P [p4_index page; p3_index page; p2_index page]
      = node (phys k) P [p4_index page; p3_index page; p2_index page]).
  { intros pg. apply option_same. intros x. by apply Hns, leaf_path. }
  pose proof (leaf_same f1 t k k1 P page S (plain_not_temp k P page Hpl)) as Hlf.
  assert (Hothers1 : ∀ pg, ¬ temp_page f1 t (phys k) P pg → leaf (phys k1) P pg = leaf (phys k) P pg) by (intros; by apply (same_leaf_eq f1 t)).
  assert (Hat1 : s ≠ t → table_at f1 k1 s P) by (intros; by apply (table_at_same f1 t k)).
  unfold unmap. destruct (node (phys k) P [p4_index page; p3_index page; p2_index page]) as [g|] eqn:En.
  2: { exists k1. rewrite (ktry_none _ _ _ _ Hw), Hlf. split; [done|]. split; [done|]. split; [|done].
       split; [apply S | | auto | done]. intros pg ->%list_elem_of_singleton.
       rewrite Hothers1 by (by apply plain_not_temp). by rewrite Hlf. }
  destruct Hw as [Hw Hg]. rewrite (ktry_some _ _ _ _ _ Hw).
  rewrite (kbind_done _ _ _ _ _ (read_word_ok _ _ _ _ _ _ _ k1 t g _ (gd_region _ _ _ _ _ _ _ _ _ _ G1) Hg)). rewrite Hlf.
  destruct (entry_get_frame (leaf (phys k) P page)) as [fr|] eqn:Efr.
  2: { exists k1. split; [done|]. split; [done|]. split; [|done].
       split; [apply S | | auto | done]. intros pg ->%list_elem_of_singleton.
       by rewrite Hothers1 by (by apply plain_not_temp). }
  rewrite (kbind_done _ _ _ _ _ (write_word_ok _ _ _ _ _ _ _ k1 t g _ 0 (gd_region _ _ _ _ _ _ _ _ _ _ G1) Hg)).
  assert (Hgf1 : g ≠ f1) by congruence. rewrite <- Hnode1 in En.
  set (k2 := set_phys (upd (phys k1) g (p1_index page) 0) k1). exists k2.
  assert (Hd : differs f1 t (phys k1) (phys k2) g (p1_index page) None) by (intros f i _ ? _; by apply upd_ne).
  destruct (write_leaf f1 t _ _ P page g En Hd (gd_tree _ _ _ _ _ _ _ _ _ _ G1) (gd_low _ _ _ _ _ _ _ _ _ _ G1)) as [Hlf2 Hoth2].
  split; [done|]. split; [by apply leaf_good|]. split.
  - split; [apply S | | |].
    + intros pg ->%list_elem_of_singleton. rewrite Hlf2. cbn. by rewrite upd_eq.
    + intros pg Hpgr Hne Htp. rewrite list_elem_of_singleton in Hne. rewrite Hoth2; [by apply Hothers1 | done | done | done |].
      intros Htp1. apply Htp. by apply (same_temp_page f1 t k k1 P pg S Hl).
    + intros pg. rewrite <- Hnode1. apply option_same. intros x.
      apply (write_node f1 t _ _ P page g _ x En Hd (gd_tree _ _ _ _ _ _ _ _ _ _ G1) (gd_low _ _ _ _ _ _ _ _ _ _ G1) (leaf_path pg)).
  - intros Hst. destruct (Hat1 Hst) as [Hs Hsf]. split; [done|]. cbn. by rewrite upd_ne by (intros [? _]; congruence).
Qed.

Lemma good_frames a k P n : ok k P n → ok (set_frames a k) P n.
Proof. intros [[? ? ? ? ? ?] ? ? ? ? [? ? ? ? ? ? ? ?]]. by split. Qed.

Lemma unmapped_plain k k' P pages page : unmapped k k' P pages → plain k P page → plain k' P page.
Proof. intros [_ _ _ Hn] [? ?]. split; [done|]. by rewrite Hn. Qed.
End Space.

(** ** Unmapping a range, with the frame allocator of the kernel *)

Section Unmap.
Context (c f3 f2 f1 kp t s1 : Z).
Abbreviation ok := (good (A := SimplePageFrameAllocator) c f3 f2 f1 kp t s1).
Implicit Types (k : machine SimplePageFrameAllocator).

Definition give_back (l : list Z) (a : SimplePageFrameAllocator) : SimplePageFrameAllocator :=
  {| frame_head := frame_head a; mem_end := mem_end a; free_frames := free_frames a ++ l |}.

Definition mapped_frames k (P : Z) (pages : list Z) : list Z :=
  omap (λ page, entry_get_frame (leaf (phys k) P page)) pages.

Lemma mapped_frames_same k k' P pages :
  (∀ page, page ∈ pages → leaf (phys k') P page = leaf (phys k) P page) → mapped_frames k' P pages = mapped_frames k P pages.
Proof.
  intros E. unfold mapped_frames. induction pages as [|page pages IH]; cbn; [done|].
  rewrite E by constructor. rewrite IH; [done|]. intros pg Hpg. apply E. by constructor.
Qed.

Lemma unmap_pages_ok s P n pages k : s ≠ t → NoDup pages → ok k P n → table_at f1 k s P →
  Forall (plain f1 k P) pages →
  ∃ k', unmap_pages (slot_addr s) pages k = Done (tt, k') ∧ ok k' P n
    ∧ frames k' = give_back (mapped_frames k P pages) (frames k)
    ∧ (∀ page, page ∈ pages → entry_get_frame (leaf (phys k') P page) = None)
    ∧ (∀ page, 0 ≤ page < 2 ^ 36 → (page ∉ pages) → ¬ temp_page f1 t (phys k) P page →
         leaf (phys k') P page = leaf (phys k) P page)
    ∧ (∀ page, temp_page f1 t (phys k') P page ↔ temp_page f1 t (phys k) P page).
Proof.
  intros Hst. revert k. induction pages as [|page pages IH]; intros k Hnd Hgd Hat Hpl.
  { exists k. split_and!; [done | done | | by intros pg ?%elem_of_nil | done | done].
    unfold give_back. cbn. rewrite app_nil_r. by destruct (frames k). }
  inversion Hnd as [|? ? Hnin Hnd']. inversion Hpl as [|? ? Hp0 Hpl']. subst.
  destruct (unmap_ok c f3 f2 f1 kp t s1 k s P page n Hgd Hat Hp0) as (k1 & E1 & G1 & Hum & Hat1).
  set (k2 := match entry_get_frame (leaf (phys k) P page) with
             | Some fr => set_frames (give_back [fr] (frames k1)) k1 | None => k1 end).
  assert (E2 : (match entry_get_frame (leaf (phys k) P page) with
                | Some frame => in_frames (falloc_free frame) | None => kret tt end) k1 = Done (tt, k2))
    by (unfold k2; by destruct (entry_get_frame _)).
  assert (Hk2 : phys k2 = phys k1) by (unfold k2; by destruct (entry_get_frame _)).
  destruct (IH k2) as (k' & E' & G' & Fr' & None' & Oth' & Tp').
  - done.
  - unfold k2. destruct (entry_get_frame _); [by apply good_frames | done].
  - unfold table_at. rewrite Hk2. by apply Hat1.
  - eapply Forall_impl; [exact Hpl'|]. intros pg Hpg. unfold plain. rewrite Hk2.
    by apply (unmapped_plain f1 t k k1 P [page] pg).
  - destruct Hum as [Hfr Hnone Hoth Hnode].
    assert (Htp1 : ∀ pg, temp_page f1 t (phys k2) P pg ↔ temp_page f1 t (phys k) P pg)
      by (intros pg; unfold temp_page; by rewrite Hk2, Hnode).
    assert (Hoth1 : ∀ pg, 0 ≤ pg < 2 ^ 36 → pg ≠ page → ¬ temp_page f1 t (phys k) P pg → leaf (phys k2) P pg = leaf (phys k) P pg).
    { intros pg ? ? ?. rewrite Hk2. apply Hoth; [done | by rewrite list_elem_of_singleton | done]. }
    assert (Hpg2 : ∀ pg, pg ∈ pages → 0 ≤ pg < 2 ^ 36 ∧ pg ≠ page ∧ ¬ temp_page f1 t (phys k) P pg).
    { intros pg Hin. rewrite Forall_forall in Hpl'. pose proof (Hpl' pg Hin) as Hpp. split; [apply Hpp|].
      split; [by intros -> | by apply (plain_not_temp f1)]. }
    exists k'. split_and!; [| done | | | |].
    + unfold unmap_pages, for_each. rewrite !kbind_assoc. rewrite (kbind_done _ _ _ _ _ E1).
      rewrite (kbind_done _ _ _ _ _ E2). exact E'.
    + rewrite Fr'. rewrite (mapped_frames_same k k2) by (intros pg Hin; destruct (Hpg2 pg Hin) as (? & ? & ?); by apply Hoth1).
      unfold k2, mapped_frames at 2. cbn [omap list_omap]. fold (mapped_frames k P pages).
      destruct (entry_get_frame (leaf (phys k) P page)); cbn; rewrite Hfr; unfold give_back; cbn; [|done].
      by rewrite <- app_assoc.
    + intros pg [-> | Hin]%elem_of_cons; [|by apply None'].
      assert (Hr := Hp0). destruct Hr as [Hr _]. rewrite Oth'; [| done | done |].
      * rewrite Hk2. apply Hnone. constructor.
      * rewrite Htp1. by apply (plain_not_temp f1).
    + intros pg Hr Hnin2 Htp. apply not_elem_of_cons in Hnin2 as [Hne Hnin2].
      rewrite Oth'; [by apply Hoth1 | done | done | by rewrite Htp1].
    + intros pg. by rewrite Tp'.
Qed.

(** Unmapping a range of pages: no page of the range is mapped afterwards,
    every other page of the address space but the temporary page keeps its entry,
    and exactly the frames that were mapped in the range go back to the frame
    allocator, each once per page, in the order of the pages. *)
Theorem mc_unmap_spec (mc : MemoryController SimplePageFrameAllocator) s P n start end_ :
  active_table mc = slot_addr s → s ≠ t → ok (kernel_machine mc) P n → table_at f1 (kernel_machine mc) s P →
  (∀ page, start ≤ page ≤ end_ → plain f1 (kernel_machine mc) P page) →
  ∃ mc', mc_unmap start end_ mc = Done (tt, mc')
    ∧ active_table mc' = active_table mc ∧ stack_allocator mc' = stack_allocator mc
    ∧ ok (kernel_machine mc') P n
    ∧ frames (kernel_machine mc') = give_back (mapped_frames (kernel_machine mc) P (page_range start end_)) (frames (kernel_machine mc))
    ∧ (∀ page, start ≤ page ≤ end_ → walk (phys (kernel_machine mc')) P page = None)
    ∧ (∀ page, 0 ≤ page < 2 ^ 36 → ¬ (start ≤ page ≤ end_) → ¬ temp_page f1 t (phys (kernel_machine mc)) P page →
         leaf (phys (kernel_machine mc')) P page = leaf (phys (kernel_machine mc)) P page).
Proof.
  intros Ha Hst Hgd Hat Hpl.
  assert (Hin : ∀ page, page ∈ page_range start end_ ↔ start ≤ page ≤ end_).
  { intros page. unfold page_range. rewrite elem_of_seqZ. lia. }
  destruct (unmap_pages_ok s P n (page_range start end_) (kernel_machine mc) Hst) as (k' & E & G & Fr & Hnone & Hoth & _); auto.
  { apply NoDup_seqZ. }
  { apply Forall_forall. intros page ?%Hin. by apply Hpl. }
  exists (set_machine k' mc). split_and!; auto.
  - unfold mc_unmap, kgets, kbind. rewrite Ha. unfold in_machine, zoom. by rewrite E.
  - intros page Hp%Hin. pose proof (Hnone page Hp) as Hz. unfold walk, leaf in *. cbn [kernel_machine set_machine].
    change [p4_index page; p3_index page; p2_index page; p1_index page]
      with ([p4_index page; p3_index page; p2_index page] ++ [p1_index page]).
    rewrite node_app. destruct (node (phys k') P _) as [g|]; [|done]. cbn. by rewrite Hz.
  - intros page Hr Hnin Htp. apply Hoth; [done | by rewrite Hin | done].
Qed.
End Unmap.

(** ** A new address space *)

Section Clone.
Context {A : Type} `{PageFrameAllocator A}.
Context (c f3 f2 f1 kp t s1 : Z).
Implicit Types (k : machine A).
Abbreviation region := (region_ok c f3 f2 f1 kp t s1).
Abbreviation ok := (good c f3 f2 f1 kp t s1).

(** A write to a table outside a tree. *)
Lemma outside_node m m' P g p x : (∀ f i, f ≠ g → m' f i = m f i) → outside m P g → table_path p →
  node m' P p = Some x ↔ node m P p = Some x.
Proof.
  intros Hc Ho. revert x. induction p as [|j p IH] using rev_ind; intros x Hp; [done|].
  apply table_path_snoc in Hp as (Hp & _ & _). rewrite !node_snoc.
  assert (Hcell : ∀ h, node m P p = Some h → m' h j = m h j).
  { intros h Hh. apply Hc. intros ->. by apply (Ho p). }
  split; intros (h & Hh & He); exists h.
  - apply (IH h Hp) in Hh. by rewrite <- (Hcell h Hh).
  - split; [by apply (IH h Hp) | by rewrite (Hcell h Hh)].
Qed.

(** The slots that remain after one was taken and the table behind it written. *)
Lemma supply_keeps k ka k' P P' n s g : supply c f3 f2 f1 kp t k P (S n) → allocated c f3 f2 f1 kp t k ka P n s g →
  slots k' = slots ka → (∀ f i, f ≠ g → phys k' f i = phys k f i) →
  (∀ x, outside (phys k) P x → x ≠ g → outside (phys k') P' x) → supply c f3 f2 f1 kp t k' P' n.
Proof.
  intros [Hsi Hsl Hsf Hsn Hsfr Hsin Hsz Hsc] [Hane Haold Haat Haout Hak Haz Haph _ _ _ Hai Hala Haf Han Haav Hac] Es Hc Ho.
  assert (Hf1 : f1 ≠ g) by (intros <-; apply Hak; unfold region_table; tauto).
  assert (Hat : ∀ s g, table_at f1 k' s g ↔ table_at f1 k s g) by (intros; unfold table_at; by rewrite Hc).
  assert (Hne : ∀ s' g', avail (slots ka) s' → table_at f1 k s' g' → g' ≠ g).
  { intros s' g' Hav Hg' ->. destruct (Haav s' Hav) as [Hav' Hne]. apply Hne. by apply (Hsin s' s g). }
  split; rewrite ?Es; auto; [lia | | | |].
  - intros a Ha. destruct (Hsf a (Haf a Ha)) as (s' & -> & ?). exists s'. split; [done | lia].
  - intros s' Hav. destruct (Haav s' Hav) as [Hav' _]. destruct (Hsfr s' Hav') as (Hst & g' & Hg' & Hout' & Hkt).
    split; [done|]. exists g'. split; [by apply Hat|]. split; [|done]. apply Ho; [done|]. by apply (Hne s').
  - intros s' s'' g' [Hav _]%Haav [Hav' _]%Haav Hg1%Hat Hg2%Hat. by apply (Hsin s' s'' g').
  - intros s' g' Hsr Hg'%Hat j. rewrite Hc; [apply (Hsz s'); [lia | done]|]. by apply (Hne s'); [right|].
Qed.

(** The state after the kernel's PML4 was copied to a new table [g]. *)
Record cloned k k' (n : nat) (s g : Z) : Prop := {
  cl_ne : s ≠ t;
  cl_at : table_at f1 k' s g;
  cl_out : g ≠ f1 ∧ outside (phys k) kp g;
  cl_fresh : avail (slots k) s;
  cl_others : ∀ f i, f ≠ g → phys k' f i = phys k f i;
  cl_copy : ∀ i, phys k' g i = phys k kp i;
  cl_kernel : ok k' kp n;
  cl_table : ok k' g n;
}.

Lemma cloned_leaf k k' n s g page : cloned k k' n s g →
  leaf (phys k') g page = leaf (phys k) kp page ∧ leaf (phys k') kp page = leaf (phys k) kp page.
Proof.
  intros [_ _ [_ Hout] _ Hoth Hcopy _ _]. pose proof (leaf_path page) as Hp.
  assert (Hk : leaf (phys k') kp page = leaf (phys k) kp page).
  { unfold leaf. rewrite (option_same (node (phys k') kp _) (node (phys k) kp [p4_index page; p3_index page; p2_index page]))
      by (intros x; by apply (outside_node _ _ kp g)).
    destruct (node (phys k) kp _) as [f|] eqn:E; [|done]. apply Hoth. intros ->. by apply (Hout _ Hp). }
  split; [|done]. rewrite <- Hk. unfold leaf. cbn [node]. rewrite Hcopy, Hoth; [done|].
  intros ->. by apply (Hout []); [split; [cbn; lia | constructor]|].
Qed.

(** The nodes of the copy. *)
Lemma copied_node k k' g : kp ≠ g → outside (phys k) kp g → (∀ f i, f ≠ g → phys k' f i = phys k f i) →
  (∀ i, phys k' g i = phys k kp i) →
  (∀ p x, table_path p → node (phys k') kp p = Some x ↔ node (phys k) kp p = Some x)
  ∧ (∀ p x, table_path p → p ≠ [] → node (phys k') g p = Some x ↔ node (phys k) kp p = Some x).
Proof.
  intros Hk Hout Hoth Hcopy.
  assert (Hnk : ∀ p x, table_path p → node (phys k') kp p = Some x ↔ node (phys k) kp p = Some x)
    by (intros; by apply (outside_node _ _ kp g)).
  split; [done|]. intros p x Hp Hne. rewrite <- (Hnk p x Hp). destruct p as [|i p]; [done|].
  cbn [node]. by rewrite Hcopy, Hoth.
Qed.

Lemma copied_good k k' n g : ok k kp n → region k' → kp ≠ g → g ≠ f1 → outside (phys k) kp g →
  (∀ f i, f ≠ g → phys k' f i = phys k f i) → (∀ i, phys k' g i = phys k kp i) →
  supply c f3 f2 f1 kp t k' kp n → supply c f3 f2 f1 kp t k' g n → ok k' kp n ∧ ok k' g n.
Proof.
  intros [_ Ht Hl He Hlv _] Hr' Hk Hg Hout Hoth Hcopy Hsk Hsg.
  destruct (copied_node k k' g Hk Hout Hoth Hcopy) as [Hnk Hng]. split; (split; [done | | | | | done]).
  - intros p p' x Hp Hp' H1%Hnk H2%Hnk; [|done|done]. by apply (Ht p p' x).
  - intros p Hp Hlen H1%Hnk; [|done]. by apply (Hl p).
  - intros p i f Hpi Hf. pose proof Hpi as (Hp & _ & _)%table_path_snoc. apply Hnk in Hf; [|done].
    rewrite Hoth; [by apply (He p)|]. intros ->. by apply (Hout p).
  - intros p x Hp Hlen Hx%Hnk; [|done]. by apply (Hlv p).
  - intros p p' x Hp Hp' H1 H2. destruct (decide (p = [])) as [->|Hne], (decide (p' = [])) as [->|Hne']; [done | | |].
    + cbn in H1. injection H1 as <-. exfalso. apply (Hng p') in H2; [by apply (Hout p' Hp') | done | done].
    + cbn in H2. injection H2 as <-. exfalso. apply (Hng p) in H1; [by apply (Hout p Hp) | done | done].
    + apply (Ht p p' x); [done | done | by apply Hng | by apply Hng].
  - intros p Hp Hlen H1. destruct (decide (p = [])) as [->|Hne]; [cbn in H1; congruence|].
    apply Hng in H1; [|done|done]. by apply (Hl p).
  - intros p i f Hpi Hf. pose proof Hpi as (Hp & _ & _)%table_path_snoc. destruct (decide (p = [])) as [->|Hne].
    + cbn in Hf. injection Hf as <-. rewrite Hcopy. by apply (He []).
    + apply Hng in Hf; [|done|done]. rewrite Hoth; [by apply (He p)|]. intros ->. by apply (Hout p).
  - intros p x Hp Hlen Hx. apply Hng in Hx; [by apply (Hlv p) | done | by intros ->].
Qed.

Lemma clone_ok k n : ok k kp (S n) →
  ∃ s g ka k', alloc_slot k = Done (Some (slot_addr s), ka) ∧ copy_page (slot_addr 0) (slot_addr s) ka = Done (tt, k')
    ∧ cloned k k' n s g.
Proof.
  intros Hgd. pose proof Hgd as [Hr Ht Hl He Hlv Hs].
  destruct (slot_alloc_ok c f3 f2 f1 kp t s1 k kp n 1 Hr Hs) as (s & g & ka & Ea & Hal).
  pose proof Hal as [Hst Hav Hat Hout Hkt Hz Hph Hcr _ Htm _ _ _ _ _ _].
  assert (Hkn : ∀ h, region_table c f3 f2 f1 kp h → h ≠ g) by (intros h Hh ->; done).
  assert (Hk : kp ≠ g) by (apply Hkn; unfold region_table; tauto).
  assert (Hf1 : f1 ≠ g) by (apply Hkn; unfold region_table; tauto).
  set (k' := set_phys (λ f i, if f =? g then phys ka kp i else phys ka f i) ka).
  assert (Hoth : ∀ f i, f ≠ g → phys k' f i = phys k f i).
  { intros f i Hne. cbn. rewrite (proj2 (Z.eqb_neq f g) Hne). by apply Hph. }
  assert (Hcopy : ∀ i, phys k' g i = phys k kp i) by (intros i; cbn; rewrite Z.eqb_refl; by apply Hph).
  assert (Hra : region ka).
  { apply (region_keeps c f3 f2 f1 kp t s1 k); [done | done | done|]. intros f i Hf _ _. rewrite Hph; [done | by apply Hkn]. }
  assert (Hr' : region k').
  { apply (region_keeps c f3 f2 f1 kp t s1 k); [done | done | done|]. intros f i Hf _ _. rewrite Hoth; [done | by apply Hkn]. }
  destruct (copied_node k k' g Hk Hout Hoth Hcopy) as [Hnk Hng].
  exists s, g, ka, k'. split; [done|]. split.
  { unfold copy_page. rewrite (translate_slot _ _ _ _ _ _ _ ka 0 Hra ltac:(lia)), (rg_kp _ _ _ _ _ _ _ (rg_mem _ _ _ _ _ _ _ _ Hra)).
    destruct Hat as [Hsr Hg]. rewrite (translate_slot _ _ _ _ _ _ _ ka s Hra Hsr). by rewrite (Hph f1 s Hf1), Hg. }
  assert (Hgd' : ok k kp n) by (split; auto; destruct Hs; split; auto; lia).
  destruct (copied_good k k' n g Hgd' Hr' Hk) as [Ok Og]; auto.
  - apply (supply_keeps k ka k' kp kp n s g); [done | done | done | done|]. intros x Hx _ p Hp Hn%Hnk; [|done]. by apply (Hx p).
  - apply (supply_keeps k ka k' kp g n s g); [done | done | done | done|].
    intros x Hx Hxg p Hp Hn. destruct (decide (p = [])) as [->|Hne]; [cbn in Hn; congruence|].
    apply Hng in Hn; [|done|done]. by apply (Hx p).
  - split; try done. unfold table_at. by rewrite Hoth.
Qed.

(** Switching to a table: what was good stays good, with the new
    table as the active one. *)
Lemma switch_good k n g : ok k g n → entry_get_frame (phys k g R4) = Some f3 → g ≠ f1 →
  good g f3 f2 f1 kp t s1 (set_cr3 g k) g n.
Proof.
  intros [[[H3 H2 H1 Hs Hk Hk3] Hc Htm Hen Hrg Hne] Ht Hl He Hlv [Hsi Hsl Hsf Hsn Hsfr Hsin Hsz Hsc]] H4 Hg.
  assert (Hroot : table_path []) by (split; [cbn; lia | constructor]).
  split; [split; [by split | done | done | done | done | by destruct Hne as (? & ? & ? & ?)] | done | done | done | |].
  - intros p x Hp Hlen Hx. destruct (Hlv p x Hp Hlen Hx) as [|Hnot]; [by left|]. right. unfold region_table in *.
    intros [-> | Hrest]; [|tauto]. pose proof (Ht p [] g Hp Hroot Hx eq_refl) as ->. done.
  - split; auto. intros s' Hav. destruct (Hsfr s' Hav) as (? & x & Hx & Ho & Hnot). split; [done|]. exists x.
    split; [done|]. split; [done|]. unfold region_table in *. intros [-> | Hrest]; [|tauto]. by apply (Ho [] Hroot).
Qed.
Lemma walk_leaf m P page : walk m P page = entry_get_frame (leaf m P page).
Proof.
  unfold walk, leaf. change [p4_index page; p3_index page; p2_index page; p1_index page]
    with ([p4_index page; p3_index page; p2_index page] ++ [p1_index page]).
  rewrite node_app. destruct (node m P _) as [g|]; [|done]. cbn. by destruct (entry_get_frame _).
Qed.

(** Finding the frame of a slot through the tables of any address space that shares
    the region. *)
Lemma translate_shared k sa P s g : region k → table_at f1 k sa P → low (phys k) P f1 →
  node (phys k) P [R4; R3; R2] = Some f1 → table_at f1 k s g → s ≠ t →
  ∃ k', same f1 t k k' ∧ translate_to_phys (slot_addr sa) (slot_addr s) k = Done (Some g, k').
Proof.
  intros Hr HP Hl Hn [Hs Hg] Hst. destruct (slot_indices s Hs) as (I4 & I3 & I2 & I1).
  assert (Hpage : page_for_address (slot_addr s) = REGION + s) by apply slot_page.
  destruct (translate_ok c f3 f2 f1 kp t s1 k sa P (slot_addr s) Hr HP) as (k' & S & E).
  - by apply low_clear.
  - rewrite Hpage. intros [_ Hi]. congruence.
  - exists k'. split; [done|]. rewrite E, Hpage. unfold leaf. rewrite I4, I3, I2, I1, Hn. by rewrite Hg.
Qed.

(** C18: A new address space: cloning the kernel's PML4 takes a free slot and a table
    of its own; after switching to it the CPU translates every page exactly as in
    the kernel's tables (the temporary page aside), the old table is returned, and
    the new tables satisfy all the conditions under which mapping, unmapping and the
    check of user pointers work.  The kernel's own mappings do not change. *)
Theorem new_address_space (mc : MemoryController A) n sa P :
  kernel_table mc = slot_addr 0 → active_table mc = slot_addr sa →
  ok (kernel_machine mc) kp (S n) → entry_get_frame (phys (kernel_machine mc) kp R4) = Some f3 →
  table_at f1 (kernel_machine mc) sa P → low (phys (kernel_machine mc)) P f1 →
  node (phys (kernel_machine mc)) P [R4; R3; R2] = Some f1 → supply c f3 f2 f1 kp t (kernel_machine mc) P (S n) →
  ∃ s g mc1 mc2,
    clone_kernel_table mc = Done (Some (slot_addr s), mc1)
    ∧ mc_switch_table (slot_addr s) mc1 = Done (Some (active_table mc), mc2)
    ∧ active_table mc2 = slot_addr s ∧ cr3 (kernel_machine mc2) = Some g ∧ table_at f1 (kernel_machine mc2) s g
    ∧ good g f3 f2 f1 kp t s1 (kernel_machine mc2) g n
    ∧ ∀ page, ¬ temp_page f1 t (phys (kernel_machine mc)) kp page →
        walk (phys (kernel_machine mc2)) g page = walk (phys (kernel_machine mc)) kp page
        ∧ walk (phys (kernel_machine mc2)) kp page = walk (phys (kernel_machine mc)) kp page.
Proof.
  intros Hkt Hat Hgd HkR4 HP HlP HPr HsP. set (k := kernel_machine mc) in *.
  destruct (clone_ok k n Hgd) as (s & g & ka & k1 & Ea & Ec & Hcl).
  pose proof Hcl as [Hst Hsg [Hg Hout] Hav Hoth Hcopy Gk Gg]. pose proof (gd_region _ _ _ _ _ _ _ _ _ _ Gk) as Hr1.
  assert (Hk : kp ≠ g) by (intros <-; by apply (Hout []); [split; [cbn; lia | constructor]|]).
  assert (HoutP : outside (phys k) P g).
  { destruct (sp_fresh _ _ _ _ _ _ _ _ _ HsP s Hav) as (_ & g' & [_ Hg'] & Ho & _). destruct Hsg as [_ Hsg].
    rewrite Hoth in Hsg by done. assert (g' = g) as <- by congruence. done. }
  pose proof (λ p x, outside_node (phys k) (phys k1) P g p x Hoth HoutP) as HnP.
  destruct (translate_shared k1 sa P s g Hr1) as (k2 & S & Et); [| | |done|done|].
  { destruct HP as [? HP]. split; [done|]. by rewrite Hoth. }
  { intros p Hp Hlen Hn%HnP; [|done]. by apply (HlP p). }
  { apply HnP; [|done]. split; [cbn; lia|]. repeat constructor; apply index_range; lia. }
  pose proof (good_same _ _ _ _ _ _ _ k1 k2 g n Gg S) as G2.
  assert (HR4 : entry_get_frame (phys k2 g R4) = Some f3).
  { rewrite (sm_phys _ _ _ _ S) by (intros [? _]; done). by rewrite Hcopy. }
  exists s, g, (set_machine k1 mc), (set_active (slot_addr s) (set_machine (set_cr3 g k2) mc)).
  split_and!; [| | done | done | | by apply switch_good |].
  - unfold clone_kernel_table. unfold in_machine at 1. rewrite (ktry_some _ _ _ (slot_addr s) (set_machine ka mc)) by (unfold zoom; fold k; by rewrite Ea).
    unfold kgets at 1. unfold kbind at 1. cbn [kernel_table set_machine]. rewrite Hkt.
    rewrite (kbind_done _ _ _ tt (set_machine k1 mc)) by (unfold in_machine, zoom; cbn [kernel_machine set_machine]; by rewrite Ec). done.
  - unfold mc_switch_table. pose proof (not_identity s (proj1 (proj1 Hsg))) as Hni. unfold is_phys_identity in Hni. rewrite Hni.
    unfold kgets at 1. unfold kbind at 1. cbn [active_table set_machine]. rewrite Hat.
    rewrite (ktry_some _ _ _ g (set_machine k2 mc)) by (unfold in_machine, zoom; cbn [kernel_machine set_machine]; by rewrite Et). done.
  - change (table_at f1 k2 s g). by apply (table_at_same f1 t k1).
  - intros page Htp. destruct (cloned_leaf k k1 n s g page Hcl) as [L1 L2].
    destruct (copied_node k k1 g Hk Hout Hoth Hcopy) as [Hnk Hng]. pose proof (leaf_path page) as Hp.
    cbn [kernel_machine set_active set_machine set_cr3 phys]. rewrite !walk_leaf.
    rewrite (same_leaf_eq f1 t k1 k2 g page S (gd_low _ _ _ _ _ _ _ _ _ _ Gg)) by (intros [Hx Hi]; apply Htp; split; [by apply Hng | done]).
    rewrite (same_leaf_eq f1 t k1 k2 kp page S (gd_low _ _ _ _ _ _ _ _ _ _ Gk)) by (intros [Hx Hi]; apply Htp; split; [by apply Hnk | done]).
    by rewrite L1, L2.
Qed.
End Clone.

(** ** The memory of PageExample *)

Lemma mc_unmap_spec_witness :
  mapped_frames running 25 (page_range 1 1) = [1003] ∧
  ∃ mc', mc_unmap 1 1 controller = Done (tt, mc') ∧ free_frames (frames (kernel_machine mc')) = [1003]
    ∧ walk (phys (kernel_machine mc')) 25 1 = None.
Proof.
  split; [by vm_compute|].
  destruct (mc_unmap_spec 25 2 3 4 1 4 3 controller 5 25 0 1 1) as (mc' & E & _ & _ & _ & Hf & Hw & _).
  - reflexivity.
  - done.
  - by apply running_good.
  - apply running_process.
  - intros page Hp. assert (page = 1) as -> by lia. split; [lia|]. by vm_compute.
  - exists mc'. split; [exact E|]. split; [rewrite Hf; vm_compute; reflexivity | apply Hw; lia].
Defined.

Lemma new_address_space_witness :
  walk memory 25 1 = Some 1003 ∧
  ∃ s mc1 mc2, clone_kernel_table controller = Done (Some (slot_addr s), mc1)
    ∧ mc_switch_table (slot_addr s) mc1 = Done (Some (slot_addr 5), mc2).
Proof.
  split; [by vm_compute|].
  destruct (new_address_space 25 2 3 4 1 4 3 controller 0 5 25) as (s & g & mc1 & mc2 & E1 & E2 & _).
  - reflexivity.
  - reflexivity.
  - by apply running_good_kernel.
  - by vm_compute.
  - apply running_process.
  - by apply (running_good 0).
  - by vm_compute.
  - by apply (running_good 1).
  - exists s, mc1, mc2. split; [exact E1 | exact E2].
Defined.
