(* ===== verification/MemBoot.v ===== *)
(** * MemBoot: the first page tables

    [alloc_master_table] builds, while every address still is its own translation,
    the tables through which the kernel later reaches all of its page tables.  The
    conditions that the theorems on live tables ask for hold in the memory it
    leaves. *)

From S2P Require Import Prelude Heap Frames Paging PageTree PageWalk PageMap MemCtl.

Section Boot.
Abbreviation mach := (machine SimplePageFrameAllocator).
Implicit Types (k : mach) (m : Z → Z → Z).

(** The first frame and the end of memory. *)
Context (f0 e : Z) (m0 : Z → Z → Z).
Context (Hf0 : 0 < f0) (He : f0 + 513 < e) (Hend : e * 4096 ≤ PAGE_TABLE_REGION_START).
Context (Hzero : ∀ f i, f0 ≤ f < f0 + 512 → m0 f i = 0).

Definition boot_slots (l : Z) : PageTableSlotAllocator :=
  {| region_start := PAGE_TABLE_REGION_START; first_phys_frame := f0 * 4096; pml1_count := 0; last_pml1_slot := l;
     pml2_addr := 0; init_done := false; allocated_page_tables := l; free_slots := [] |}.
Definition boot_frames (h : Z) : SimplePageFrameAllocator := {| frame_head := h; mem_end := e; free_frames := [] |}.

Lemma region_end_value : PAGE_TABLE_REGION_START = 28939649024 * 4096.
Proof. reflexivity. Qed.

Lemma boot_frame_ok f : 0 ≤ f < e → frame_ok f.
Proof. unfold frame_ok. rewrite region_end_value in Hend. lia. Qed.

Lemma boot_falloc h : 0 ≤ h → h + 2 ≤ e → simple_falloc (boot_frames h) = Done (Some (h + 1), boot_frames (h + 1)).
Proof.
  intros H0 Hh. unfold simple_falloc, kget, boot_frames. unfold kbind at 1. cbn [free_frames pop last].
  unfold frame_start_address, PAGE_SIZE. cbn [mem_end frame_head]. rewrite region_end_value in Hend.
  rewrite (kbind_done _ _ _ _ _ (uadd_ok (h * 4096) 4096 _ ltac:(unfold usize_max; lia))).
  rewrite (kbind_done _ _ _ _ _ (usub_ok (e * 4096) (h * 4096 + 4096) _ ltac:(lia))).
  rewrite (proj2 (Z.ltb_ge _ 4096)) by lia.
  replace (frame_from_address (h * 4096 + 4096)) with (h + 1); [done|].
  unfold frame_from_address, PAGE_SIZE. replace (h * 4096 + 4096) with ((h + 1) * 4096) by lia. by rewrite Z.div_mul.
Qed.

(** Every address is its own translation. *)
Lemma boot_read k f i : cr3 k = None → read_word (f * 4096) i k = Done (phys k f i, k).
Proof. intros Hc. unfold read_word, translate. rewrite Hc. unfold PAGE_SIZE. by rewrite Z.div_mul. Qed.
Lemma boot_write k f i v : cr3 k = None → write_word (f * 4096) i v k = Done (tt, set_phys (upd (phys k) f i v) k).
Proof. intros Hc. unfold write_word, translate. rewrite Hc. unfold PAGE_SIZE. by rewrite Z.div_mul. Qed.

Lemma boot_identity f : f < e → is_phys_identity (f * 4096) = true.
Proof. intros Hf. apply Z.ltb_lt. lia. Qed.

Lemma boot_existing al k f i g : cr3 k = None → frame_ok g → phys k f i = Z.lor (g * 4096) PW →
  next_table_create al (f * 4096) i true PW k = Done (g * 4096, k).
Proof.
  intros Hc Hg Hv. unfold next_table_create. rewrite (kbind_done _ _ _ _ _ (boot_read k f i Hc)), Hv.
  assert (Hgf : entry_get_frame (Z.lor (g * 4096) PW) = Some g) by (by apply set_get_frame).
  rewrite (get_frame_used _ _ Hgf). cbn [negb]. rewrite (entry_flags_set g PW Hg). change (contains (entry_flags PW) PW) with true.
  cbn [negb andb]. unfold kret at 1. unfold kbind at 1. rewrite (kbind_done _ _ _ _ _ (boot_read k f i Hc)), Hv, Hgf. done.
Qed.

Lemma boot_new k f i l : cr3 k = None → slots k = boot_slots l → 0 ≤ l < 509 → 0 ≤ f < e → phys k f i = 0 → f0 + l < e →
  next_table_create alloc_slot (f * 4096) i true PW k =
    Done ((f0 + l) * 4096, set_phys (upd (phys k) f i (Z.lor ((f0 + l) * 4096) PW)) (set_slots (boot_slots (l + 1)) k)).
Proof.
  intros Hc Hs Hl Hf Hv Hlt. unfold next_table_create. rewrite (kbind_done _ _ _ _ _ (boot_read k f i Hc)), Hv.
  cbn [entry_is_unused negb Z.eqb].
  assert (Ea : alloc_slot k = Done (Some ((f0 + l) * 4096), set_slots (boot_slots (l + 1)) k)).
  { unfold alloc_slot. cbn [slot_alloc]. unfold kgets at 1. unfold kbind at 1. rewrite Hs. cbn [init_done boot_slots].
    cbn [last_pml1_slot boot_slots first_phys_frame]. rewrite (proj2 (Z.eqb_neq (l + 1) 510)) by lia.
    unfold kmodify, kret, kbind, PAGE_SIZE. rewrite Z.mul_add_distr_r. rewrite Hs. done. }
  rewrite (kbind_done _ _ _ _ _ Ea). unfold or_panic at 1. unfold kret at 1. unfold kbind at 1. rewrite boot_identity by lia.
  unfold kret at 1. unfold kbind at 1. cbn [fst snd]. unfold kret at 1. unfold kbind at 1.
  unfold table_set, frame_from_address, PAGE_SIZE. rewrite Z.div_mul by done. rewrite !kbind_assoc.
  rewrite (kbind_done _ _ _ _ _ (entry_set_ok (f0 + l) PW _ (boot_frame_ok (f0 + l) ltac:(lia)))).
  by rewrite (kbind_done _ _ _ _ _ (boot_write (set_slots (boot_slots (l + 1)) k) f i _ Hc)).
Qed.

(** The tables after [n] of the 512 pages were mapped. *)
Record booting (n : Z) k : Prop := {
  bt_cr3 : cr3 k = None;
  bt_4 : ∀ i, phys k f0 i = if i =? R4 then Z.lor ((f0 + 1) * 4096) PW else 0;
  bt_3 : ∀ i, phys k (f0 + 1) i = if i =? R3 then Z.lor ((f0 + 2) * 4096) PW else 0;
  bt_2 : ∀ i, phys k (f0 + 2) i = if i =? R2 then Z.lor ((f0 + 3) * 4096) PW else 0;
  bt_1 : ∀ i, phys k (f0 + 3) i = if (0 <=? i) && (i <? n) then Z.lor ((f0 + i) * 4096) PW else 0;
  bt_others : ∀ f i, ¬ (f0 ≤ f ≤ f0 + 3) → phys k f i = m0 f i;
  bt_slots : slots k = boot_slots 4;
  bt_frames : frames k = boot_frames (f0 + n);
}.

Definition boot_chain : PageTableMappingChain :=
  {| chain_pml3 := (f0 + 1) * 4096; chain_pml2 := (f0 + 2) * 4096; chain_pml1 := (f0 + 3) * 4096 |}.

(** The last level of a mapping, and the frame for the next page. *)
Lemma boot_leaf k n : cr3 k = None → 0 ≤ n < 512 → frames k = boot_frames (f0 + n) →
  (table_set ((f0 + 3) * 4096) n (f0 + n) (Z.lor PW PRESENT) ;;*
   kret boot_chain) k =
    Done (boot_chain, set_phys (upd (phys k) (f0 + 3) n (Z.lor ((f0 + n) * 4096) PW)) k)
  ∧ in_frames falloc (set_phys (upd (phys k) (f0 + 3) n (Z.lor ((f0 + n) * 4096) PW)) k) =
    Done (Some (f0 + n + 1), set_frames (boot_frames (f0 + n + 1))
                               (set_phys (upd (phys k) (f0 + 3) n (Z.lor ((f0 + n) * 4096) PW)) k)).
Proof.
  intros Hc Hn Hfr. split.
  - unfold table_set. rewrite !kbind_assoc. change (Z.lor PW PRESENT) with PW.
    rewrite (kbind_done _ _ _ _ _ (entry_set_ok (f0 + n) PW k (boot_frame_ok (f0 + n) ltac:(lia)))).
    by rewrite (kbind_done _ _ _ _ _ (boot_write k (f0 + 3) n _ Hc)).
  - unfold in_frames, zoom. cbn [frames set_phys]. rewrite Hfr. change (falloc (A := SimplePageFrameAllocator)) with simple_falloc.
    by rewrite boot_falloc by lia.
Qed.

Lemma boot_step k n : booting n k → 1 ≤ n < 512 →
  ∃ k', map_to alloc_slot (f0 * 4096) (REGION + n) (f0 + n) PW k = Done (boot_chain, k')
    ∧ ∃ k'', in_frames falloc k' = Done (Some (f0 + n + 1), k'') ∧ booting (n + 1) k''.
Proof.
  intros [Hc H4 H3 H2 H1 Ho Hs Hfr] Hn. destruct (slot_indices n ltac:(lia)) as (I4 & I3 & I2 & I1).
  destruct (boot_leaf k n Hc ltac:(lia) Hfr) as [El Ef]. eexists. split.
  - unfold map_to. rewrite boot_identity by lia. change (contains PW RING3_ACCESSIBLE) with false.
    change (Z.lor PRESENT WRITABLE) with PW. cbv iota zeta. rewrite I4, I3, I2, I1.
    rewrite (kbind_done _ _ _ _ _ (boot_existing alloc_slot k f0 R4 (f0 + 1) Hc (boot_frame_ok (f0 + 1) ltac:(lia)) ltac:(rewrite H4; by rewrite Z.eqb_refl))).
    rewrite (kbind_done _ _ _ _ _ (boot_existing alloc_slot k (f0 + 1) R3 (f0 + 2) Hc (boot_frame_ok (f0 + 2) ltac:(lia)) ltac:(rewrite H3; by rewrite Z.eqb_refl))).
    rewrite (kbind_done _ _ _ _ _ (boot_existing alloc_slot k (f0 + 2) R2 (f0 + 3) Hc (boot_frame_ok (f0 + 3) ltac:(lia)) ltac:(rewrite H2; by rewrite Z.eqb_refl))).
    exact El.
  - eexists. split; [exact Ef|]. split; cbn [phys set_phys set_frames cr3 slots frames]; try done.
    + intros i. by rewrite upd_ne by lia.
    + intros i. by rewrite upd_ne by lia.
    + intros i. by rewrite upd_ne by lia.
    + intros i. unfold upd. rewrite Z.eqb_refl. cbn [andb]. destruct (Z.eqb_spec i n) as [->|].
      * by rewrite (proj2 (Z.leb_le 0 n)), (proj2 (Z.ltb_lt n (n + 1))) by lia.
      * rewrite H1. destruct (Z.leb_spec 0 i), (Z.ltb_spec i n), (Z.ltb_spec i (n + 1)); try lia; done.
    + intros f i Hf. rewrite upd_ne by lia. by apply Ho.
    + f_equal. lia.
Qed.

Lemma boot_first k : cr3 k = None → phys k = m0 → slots k = boot_slots 1 → frames k = boot_frames f0 →
  ∃ k', map_to alloc_slot (f0 * 4096) REGION f0 PW k = Done (boot_chain, k')
    ∧ ∃ k'', in_frames falloc k' = Done (Some (f0 + 1), k'') ∧ booting 1 k''.
Proof.
  intros Hc Hp Hs Hfr. destruct (slot_indices 0 ltac:(lia)) as (_ & _ & _ & I1). rewrite Z.add_0_r in I1.
  pose proof (boot_new k f0 R4 1 Hc Hs ltac:(lia) ltac:(lia) ltac:(rewrite Hp; apply Hzero; lia) ltac:(lia)) as E4.
  set (k1 := set_phys (upd (phys k) f0 R4 (Z.lor ((f0 + 1) * 4096) PW)) (set_slots (boot_slots (1 + 1)) k)) in E4.
  assert (P1 : phys k1 = upd m0 f0 R4 (Z.lor ((f0 + 1) * 4096) PW)) by (cbn; by rewrite Hp).
  pose proof (boot_new k1 (f0 + 1) R3 2 Hc eq_refl ltac:(lia) ltac:(lia)
    ltac:(rewrite P1, upd_ne by lia; apply Hzero; lia) ltac:(lia)) as E3.
  set (k2 := set_phys (upd (phys k1) (f0 + 1) R3 (Z.lor ((f0 + 2) * 4096) PW)) (set_slots (boot_slots (2 + 1)) k1)) in E3.
  pose proof (boot_new k2 (f0 + 2) R2 3 Hc eq_refl ltac:(lia) ltac:(lia)
    ltac:(cbn [phys k2 set_phys set_slots]; rewrite upd_ne by lia; rewrite P1, upd_ne by lia; apply Hzero; lia) ltac:(lia)) as E2.
  set (k3 := set_phys (upd (phys k2) (f0 + 2) R2 (Z.lor ((f0 + 3) * 4096) PW)) (set_slots (boot_slots (3 + 1)) k2)) in E2.
  assert (P3 : phys k3 = upd (upd (upd m0 f0 R4 (Z.lor ((f0 + 1) * 4096) PW)) (f0 + 1) R3 (Z.lor ((f0 + 2) * 4096) PW))
                            (f0 + 2) R2 (Z.lor ((f0 + 3) * 4096) PW)) by (cbn; by rewrite Hp).
  destruct (boot_leaf k3 0 Hc ltac:(lia)) as [El Ef]; [cbn; by rewrite Z.add_0_r|]. rewrite Z.add_0_r in *.
  eexists. split.
  - unfold map_to. rewrite boot_identity by lia. change (contains PW RING3_ACCESSIBLE) with false.
    change (Z.lor PRESENT WRITABLE) with PW. cbv iota zeta. rewrite I1.
    rewrite (kbind_done _ _ _ _ _ E4), (kbind_done _ _ _ _ _ E3), (kbind_done _ _ _ _ _ E2). exact El.
  - eexists. split; [exact Ef|]. split; cbn [phys set_phys set_frames cr3 slots frames]; rewrite ?P3; try done.
    + intros i. do 3 rewrite upd_ne by lia. unfold upd. rewrite Z.eqb_refl. cbn [andb]. rewrite Hzero by lia. done.
    + intros i. do 2 rewrite upd_ne by lia. unfold upd at 1. rewrite Z.eqb_refl. cbn [andb].
      rewrite upd_ne by lia. rewrite Hzero by lia. done.
    + intros i. rewrite upd_ne by lia. unfold upd at 1. rewrite Z.eqb_refl. cbn [andb].
      do 2 rewrite upd_ne by lia. rewrite Hzero by lia. done.
    + intros i. unfold upd at 1. rewrite Z.eqb_refl. cbn [andb]. destruct (Z.eqb_spec i 0) as [->|].
      * rewrite Z.add_0_r. done.
      * do 3 rewrite upd_ne by lia. rewrite Hzero by lia. destruct (Z.leb_spec 0 i), (Z.ltb_spec i 1); try lia; done.
    + intros f i Hf. by do 4 rewrite upd_ne by lia.
Qed.

Lemma boot_rest j n k : booting n k → 1 ≤ n → n + Z.of_nat j = 512 →
  ∃ k', map_region (f0 * 4096) (seqZ n (Z.of_nat j)) (f0 + n) (Some boot_chain) k = Done (Some boot_chain, k') ∧ booting 512 k'.
Proof.
  revert n k. induction j as [|j IH]; intros n k Hb Hn Hj.
  { exists k. assert (n = 512) as -> by lia. by split. }
  rewrite seqZ_cons by lia. cbn [map_region].
  change (page_for_address (PAGE_TABLE_REGION_START + n * PAGE_SIZE)) with (slot_addr n / PAGE_SIZE). rewrite slot_page.
  change (Z.lor PRESENT WRITABLE) with PW.
  destruct (boot_step k n Hb ltac:(lia)) as (k1 & E1 & k2 & E2 & Hb2).
  rewrite (kbind_done _ _ _ _ _ E1), (kbind_done _ _ _ _ _ E2). unfold or_panic at 1. unfold kret at 1. unfold kbind at 1.
  replace (Z.pred (Z.of_nat (S j))) with (Z.of_nat j) by lia. replace (Z.succ n) with (n + 1) by lia.
  rewrite <- Z.add_assoc. apply IH; [done | lia | lia].
Qed.

(** The machine once the kernel has switched to the tables. *)
Definition live (tm : TempMapper) k : mach := set_cr3 f0 (set_temp tm (set_slots (slots_with_init true (slots k)) k)).

Definition boot_temp : TempMapper := {| temp_addr := slot_addr 4; temp_entry_addr := slot_addr 3 + 8 * 4 |}.

Definition final_slots (s : PageTableSlotAllocator) : Prop := init_done s = false ∧ last_pml1_slot s = 5 ∧ free_slots s = [].

(** The slot of the temporary page, taken as if the switch had happened. *)
Lemma boot_temp_slot k a : slots k = slots_with_init true (slots_with_pml2 a (boot_slots 4)) →
  ∃ sl, alloc_slot k = Done (Some (slot_addr 4), set_slots sl k)
    ∧ last_pml1_slot sl = 5 ∧ free_slots sl = [] ∧ first_phys_frame sl = f0 * 4096.
Proof.
  intros Hs. unfold alloc_slot. cbn [slot_alloc]. unfold kgets at 1. unfold kbind at 1. rewrite Hs.
  unfold kmodify, kret, kbind. cbn. rewrite Hs. eexists. split; [reflexivity|]. by split_and!.
Qed.

Lemma alloc_master_table_ok k : cr3 k = None → phys k = m0 → slots k = slots_new PAGE_TABLE_REGION_START →
  frames k = boot_frames (f0 - 1) →
  ∃ kb k', alloc_master_table k = Done ((f0 * 4096, boot_temp), k') ∧ booting 512 kb ∧ phys k' = phys kb
    ∧ frames k' = frames kb ∧ final_slots (slots k').
Proof.
  intros Hc Hp Hs Hfr. unfold alloc_master_table.
  assert (Ef : in_frames falloc k = Done (Some f0, set_frames (boot_frames f0) k)).
  { unfold in_frames, zoom. rewrite Hfr. change (falloc (A := SimplePageFrameAllocator)) with simple_falloc.
    rewrite boot_falloc by lia. by replace (f0 - 1 + 1) with f0 by lia. }
  rewrite (kbind_done _ _ _ _ _ Ef). unfold or_panic at 1. unfold kret at 1. unfold kbind at 1.
  set (k1 := set_slots (boot_slots 1) (set_frames (boot_frames f0) k)).
  assert (Eu : update_slots (slots_with_first (frame_start_address f0)) (set_frames (boot_frames f0) k) = Done (tt, k1)).
  { unfold update_slots, kmodify. cbn [slots set_frames]. by rewrite Hs. }
  rewrite (kbind_done _ _ _ _ _ Eu). rewrite (seqZ_cons 0 512) by lia. cbn [map_region].
  change (page_for_address (PAGE_TABLE_REGION_START + 0 * PAGE_SIZE)) with REGION. change (Z.lor PRESENT WRITABLE) with PW.
  change (frame_start_address f0) with (f0 * 4096).
  destruct (boot_first k1 Hc Hp eq_refl eq_refl) as (k2 & E1 & k3 & E2 & Hb1).
  rewrite !kbind_assoc. rewrite (kbind_done _ _ _ _ _ E1). rewrite !kbind_assoc. rewrite (kbind_done _ _ _ _ _ E2).
  rewrite !kbind_assoc. unfold or_panic at 1. unfold kret at 1. unfold kbind at 1.
  destruct (boot_rest 511 1 k3 Hb1 ltac:(lia) eq_refl) as (kb & E3 & Hb).
  change (Z.succ 0) with 1. change (Z.pred 512) with (Z.of_nat 511). rewrite (kbind_done _ _ _ _ _ E3).
  exists kb. destruct Hb as [Hbc Hb4 Hb3 Hb2 Hb1' Hbo Hbs Hbf].
  set (k4 := set_slots (slots_with_init true (slots_with_pml2 ((f0 + 2) * 4096) (boot_slots 4)))
               (set_slots (slots_with_pml2 ((f0 + 2) * 4096) (boot_slots 4)) kb)).
  destruct (boot_temp_slot k4 _ eq_refl) as (sl & Ea & Hl & Hfree & Hfirst).
  set (sl' := slots_with_init false sl). exists (set_slots sl' (set_slots sl k4)). split.
  - unfold or_panic at 1. unfold kret at 1. unfold kbind at 1. cbn [chain_pml2 boot_chain chain_pml1].
    unfold update_slots, kmodify. unfold kbind at 1 2. rewrite Hbs.
    change (slots (set_slots ?x kb)) with x. fold k4. rewrite (kbind_done _ _ _ _ _ Ea).
    unfold or_panic at 1. unfold kret at 1. unfold kbind at 1 2. change (slots (set_slots sl k4)) with sl. fold sl'.
    unfold kgets at 1. unfold kbind at 1. change (slots (set_slots sl' ?x)) with sl'.
    change (first_phys_frame sl') with (first_phys_frame sl). rewrite Hfirst.
    rewrite (kbind_done _ _ _ _ _ (usub_ok ((f0 + 3) * 4096) (f0 * 4096) _ ltac:(lia))).
    replace ((f0 + 3) * 4096 - f0 * 4096) with (3 * 4096) by lia. unfold kret. reflexivity.
  - by split_and!.
Qed.

(** *** The tables that are reached *)

Definition boot_node_at (p : list Z) (x : Z) : Prop :=
  (p = [] ∧ x = f0) ∨ (p = [R4] ∧ x = f0 + 1) ∨ (p = [R4; R3] ∧ x = f0 + 2) ∨ (p = [R4; R3; R2] ∧ x = f0 + 3).

Lemma boot_entry g : frame_ok g → entry_get_frame (Z.lor (g * 4096) PW) = Some g.
Proof. intros Hg. by apply set_get_frame. Qed.

Lemma boot_node k p x : booting 512 k → table_path p → node (phys k) f0 p = Some x → boot_node_at p x.
Proof.
  intros Hb. revert x. induction p as [|i p IH] using rev_ind; intros x Hp Hn; [cbn in Hn; injection Hn as <-; by left|].
  apply table_path_snoc in Hp as (Hp & Hlen & Hi). apply node_snoc in Hn as (f & Hf & Hx).
  unfold boot_node_at. apply (IH f Hp) in Hf as [[-> ->] | [[-> ->] | [[-> ->] | [-> ->]]]]; [| | | by cbn in Hlen; lia].
  - rewrite (bt_4 _ _ Hb) in Hx. destruct (Z.eqb_spec i R4) as [->|]; [|done]. rewrite boot_entry in Hx by (apply boot_frame_ok; lia). injection Hx as <-. cbn. tauto.
  - rewrite (bt_3 _ _ Hb) in Hx. destruct (Z.eqb_spec i R3) as [->|]; [|done]. rewrite boot_entry in Hx by (apply boot_frame_ok; lia). injection Hx as <-. cbn. tauto.
  - rewrite (bt_2 _ _ Hb) in Hx. destruct (Z.eqb_spec i R2) as [->|]; [|done]. rewrite boot_entry in Hx by (apply boot_frame_ok; lia). injection Hx as <-. cbn. tauto.
Qed.

Lemma boot_table_at k (kl : mach) s : booting 512 k → phys kl = phys k → 0 ≤ s < 512 → table_at (f0 + 3) kl s (f0 + s).
Proof.
  intros Hb Hp Hs. split; [done|]. rewrite Hp, (bt_1 _ _ Hb). rewrite (proj2 (Z.leb_le 0 s)), (proj2 (Z.ltb_lt s 512)) by lia.
  apply boot_entry, boot_frame_ok. lia.
Qed.

Lemma boot_region k k' : booting 512 k → phys k' = phys k →
  region_ok f0 (f0 + 1) (f0 + 2) (f0 + 3) f0 4 3 (live boot_temp k').
Proof.
  intros Hb Hp. pose proof (λ s, boot_table_at k (live boot_temp k') s Hb Hp) as Hat.
  assert (Hok : ∀ j, 0 ≤ j < 512 → frame_ok (f0 + j)) by (intros; apply boot_frame_ok; lia).
  split; [| done | done | done | lia | lia]. cbn [phys live set_cr3 set_temp set_slots]. rewrite Hp. split.
  - rewrite (bt_4 _ _ Hb), Z.eqb_refl. apply boot_entry, Hok. lia.
  - rewrite (bt_3 _ _ Hb), Z.eqb_refl. apply boot_entry, Hok. lia.
  - rewrite (bt_2 _ _ Hb), Z.eqb_refl. apply boot_entry, Hok. lia.
  - rewrite <- Hp. apply (Hat 3). lia.
  - rewrite <- Hp. destruct (Hat 0 ltac:(lia)) as [_ Ha]. by rewrite Z.add_0_r in Ha.
  - rewrite (bt_4 _ _ Hb), Z.eqb_refl. apply boot_entry, Hok. lia.
Qed.

Lemma boot_supply k k' : booting 512 k → phys k' = phys k → final_slots (slots k') →
  supply f0 (f0 + 1) (f0 + 2) (f0 + 3) f0 4 (live boot_temp k') f0 504.
Proof.
  intros Hb Hp (Hi & Hl & Hf). pose proof (λ s, boot_table_at k (live boot_temp k') s Hb Hp) as Hat.
  assert (Hav : ∀ s, avail (slots (live boot_temp k')) s → 5 ≤ s < 509).
  { intros s [Hs|Hs]; cbn in Hs; [rewrite Hf in Hs; by apply elem_of_nil in Hs | lia]. }
  assert (Hgt : ∀ s g, avail (slots (live boot_temp k')) s → table_at (f0 + 3) (live boot_temp k') s g → g = f0 + s).
  { intros s g Hs [_ Hg]. destruct (Hat s ltac:(pose proof (Hav s Hs); lia)) as [_ Hg']. congruence. }
  split; cbn [slots live set_cr3 set_temp set_slots]; auto.
  - cbn. lia.
  - intros a Ha. cbn in Ha. rewrite Hf in Ha. by apply elem_of_nil in Ha.
  - cbn. rewrite Hf. constructor.
  - intros s Hs. pose proof (Hav s Hs). split; [lia|]. exists (f0 + s). split; [apply Hat; lia|]. split.
    + intros p Hpp Hx. cbn [phys live set_cr3 set_temp set_slots] in Hx. rewrite Hp in Hx.
      apply (boot_node k p _ Hb Hpp) in Hx. unfold boot_node_at in Hx. lia.
    + unfold region_table. lia.
  - intros s s' g Hs Hs' ->%Hgt; [|done]. intros Eg%Hgt; [lia | done].
  - intros s g Hs ->%Hgt; [|by right]. cbn in Hs. intros i. cbn [phys live set_cr3 set_temp set_slots]. rewrite Hp.
    rewrite (bt_others _ _ Hb) by lia. apply Hzero. lia.
  - cbn. rewrite Hl, Hf. cbn. lia.
Qed.

End Boot.

Definition boot_machine : machine SimplePageFrameAllocator :=
  {| phys := λ _ _, 0; cr3 := None; frames := boot_frames 8192 512; slots := slots_new PAGE_TABLE_REGION_START;
     temp := {| temp_addr := 0; temp_entry_addr := 0 |} |}.

