(* ===== verification/Elf.v ===== *)
(** * Elf: loading programs

    (src/src/elf/loader.rs, elf/mod.rs).  The file is its bytes, at the address its
    region names; a read outside of them is undefined.  The linked list of regions is
    a list.  What the loader writes to the new address space goes byte by byte through
    [store_byte], for which the machine's translated memory is one instance. *)

From S2P Require Import Prelude BlockDev Frames Paging MemCtl.

(** ** Data *)

(** A [Region] whose bytes are not at hand. *)
Record span := { sp_addr : Z; sp_size : Z }.

Record ElfHeader64 := {
  ident : list Z;
  elf_type : Z;
  e_machine : Z;
  version : Z;
  entry_addr : Z;
  ph_offset : Z;
  sh_offset : Z;
  e_flags : Z;
  eh_size : Z;
  ph_entry_size : Z;
  ph_num : Z;
  sh_entry_size : Z;
  sh_num : Z;
  sh_str_hdr_index : Z;
}.

Record ElfProgramHeader64 := {
  ph_type : Z;
  ph_flags : Z;
  ph_file_offset : Z;
  virt_addr : Z;
  phys_addr : Z;
  file_size : Z;
  memory_size : Z;
  align : Z;
}.

Record ElfRegion := {
  er_region : span;
  er_flags : Z;
  origin_buffer : span;
}.

Record ProcessEntry := {
  pe_entry : Z;
  pe_start_region : list ElfRegion;
  ring3_page_table : option Z;
  pe_stack : option Stack;
  initial_rsp : Z;
}.

(** [ElfProgramHeaderFlags]. *)
Definition PF_X : Z := 1.
Definition PF_W : Z := 2.

Definition to_entry_flags (f : Z) : Z :=
  let flags := if negb (f =? 0) then RING3_ACCESSIBLE else 0 in
  let flags := if contains f PF_W then Z.lor flags WRITABLE else flags in
  if negb (contains f PF_X) then Z.lor flags NO_EXECUTE else flags.

(** ** The loader *)

Section Loader.
Context {S : Type}.
Implicit Types file : list Z.

(** An integer of [n] bytes at an offset of the file. *)
Definition field file (off : Z) (n : nat) : kst S Z :=
  if (off <? 0) || (Z.of_nat (length file) <? off + Z.of_nat n) then kfault Undefined
  else kret (le_value (take n (drop (Z.to_nat off) file))).

Definition read_header file : kst S ElfHeader64 :=
  let* ty := field file 16 2 in
  let* mach := field file 18 2 in
  let* ver := field file 20 4 in
  let* entry := field file 24 8 in
  let* phoff := field file 32 8 in
  let* shoff := field file 40 8 in
  let* fl := field file 48 4 in
  let* ehsize := field file 52 2 in
  let* phentsize := field file 54 2 in
  let* phnum := field file 56 2 in
  let* shentsize := field file 58 2 in
  let* shnum := field file 60 2 in
  let* shstrndx := field file 62 2 in
  kret {| ident := take 16 file; elf_type := ty; e_machine := mach; version := ver; entry_addr := entry;
          ph_offset := phoff; sh_offset := shoff; e_flags := fl; eh_size := ehsize; ph_entry_size := phentsize;
          ph_num := phnum; sh_entry_size := shentsize; sh_num := shnum; sh_str_hdr_index := shstrndx |}.

Definition read_program_header file (off : Z) : kst S ElfProgramHeader64 :=
  let* ty := field file off 4 in
  let* fl := field file (off + 4) 4 in
  let* foff := field file (off + 8) 8 in
  let* va := field file (off + 16) 8 in
  let* pa := field file (off + 24) 8 in
  let* fsz := field file (off + 32) 8 in
  let* msz := field file (off + 40) 8 in
  let* al := field file (off + 48) 8 in
  kret {| ph_type := ty; ph_flags := fl; ph_file_offset := foff; virt_addr := va; phys_addr := pa;
          file_size := fsz; memory_size := msz; align := al |}.

(** [u16] multiplication, which panics on overflow. *)
Definition umul16 (a b : Z) : kst S Z := if a * b <? 2 ^ 16 then kret (a * b) else kfault Panic.

(** What the loop makes of one header: skip it ([inl]), or a region. *)
Definition load_ph_header (elf : Region) (entry : ElfProgramHeader64) : option (option ElfRegion) :=
  if negb (ph_type entry =? 1) then Some None
  else if memory_size entry =? 0 then None
  else if memory_size entry <? file_size entry then None
  else
    match checked_add (ph_file_offset entry) (file_size entry) with
    | None => None
    | Some ph_file_end =>
        if reg_size elf <? ph_file_end then None
        else Some (Some {| er_region := {| sp_addr := virt_addr entry; sp_size := memory_size entry |};
                           er_flags := ph_flags entry;
                           origin_buffer := {| sp_addr := reg_addr elf + ph_file_offset entry;
                                               sp_size := file_size entry |} |})
    end.

(** Appending to the list through [last_region], which stays at the first node. *)
Definition link_region (start : list ElfRegion) (r : ElfRegion) : list ElfRegion :=
  match start with
  | [] => [r]
  | first :: _ => [first; r]
  end.

Fixpoint load_ph_loop (elf : Region) (header : ElfHeader64) (is_ : list Z) (start : list ElfRegion) :
    kst S (option (list ElfRegion)) :=
  match is_ with
  | [] => kret (Some start)
  | i :: is_ =>
      let* off := umul16 i (ph_entry_size header) in
      let* entry := read_program_header (reg_bytes elf) (ph_offset header + off) in
      match load_ph_header elf entry with
      | None => kret None
      | Some None => load_ph_loop elf header is_ start
      | Some (Some r) => load_ph_loop elf header is_ (link_region start r)
      end
  end.

Definition load_ph_headers (header : ElfHeader64) (elf : Region) : kst S (option (list ElfRegion)) :=
  let? ph_table_size := kret (checked_mul (ph_num header) (ph_entry_size header)) in
  let? ph_table_end := kret (checked_add (ph_offset header) ph_table_size) in
  if reg_size elf <? ph_table_end then kret None
  else
    let? start := load_ph_loop elf header (seqZ 0 (ph_num header)) [] in
    match start with [] => kret None | _ => kret (Some start) end.

Definition elf_magic (ident : list Z) : Z :=
  let b i := default 0 (ident !! i) in
  Z.lor (Z.lor (Z.lor (Z.shiftl (b 0%nat) 24) (Z.shiftl (b 1%nat) 16)) (Z.shiftl (b 2%nat) 8)) (b 3%nat).

(** [loader::load]. *)
Definition loader_load (elf : Region) : kst S (option ProcessEntry) :=
  if reg_size elf <? 64 then kret None
  else
    let* header := read_header (reg_bytes elf) in
    if negb (elf_magic (ident header) =? 0x7f454c46) then kret None
    else
      let? start := load_ph_headers header elf in
      kret (Some {| pe_entry := entry_addr header; pe_start_region := start; ring3_page_table := None;
                    pe_stack := None; initial_rsp := 0 |}).
End Loader.

(** ** Writing to the new address space *)

Class ByteMem (M : Type) := store_byte : Z → Z → kst M unit.

Section Args.
Context {M : Type} `{ByteMem M}.

Fixpoint store_bytes (addr : Z) (bs : list Z) : kst M unit :=
  match bs with [] => kret tt | b :: bs => store_byte addr b ;;* store_bytes (addr + 1) bs end.

Definition store_word (addr v : Z) : kst M unit := store_bytes addr (le_bytes 8 v).

(** [sum] of the lengths. *)
Fixpoint sum_lengths (argv : list (list Z)) : kst M Z :=
  match argv with
  | [] => kret 0
  | arg :: argv => let* n := sum_lengths argv in uadd n (Z.of_nat (length arg) + 1)
  end.

(** The loop over the arguments, from [index] on. *)
Fixpoint write_args (frame : Z) (index : Z) (string_addr : Z) (argv : list (list Z)) : kst M unit :=
  match argv with
  | [] => kret tt
  | arg :: argv =>
      store_word (frame + 8 * (1 + index)) string_addr ;;*
      store_bytes string_addr arg ;;*
      store_byte (string_addr + Z.of_nat (length arg)) 0 ;;*
      write_args frame (index + 1) (string_addr + Z.of_nat (length arg) + 1) argv
  end.

Definition write_args_frame (stack : Stack) (argv : list (list Z)) : kst M (option Z) :=
  let* string_bytes := sum_lengths argv in
  let? strings_base := kret (checked_sub (top stack) string_bytes) in
  let argc := Z.of_nat (length argv) in
  let? frame_words := kret (checked_add argc 3) in
  let? frame_size := kret (checked_mul frame_words 8) in
  let? base := kret (checked_sub strings_base frame_size) in
  let frame_base := Z.land base (Z.lnot 15) in
  if frame_base <? bottom stack then kret None
  else
    store_word frame_base argc ;;*
    write_args frame_base 0 strings_base argv ;;*
    store_word (frame_base + 8 * (1 + argc)) 0 ;;*
    store_word (frame_base + 8 * (2 + argc)) 0 ;;*
    kret (Some frame_base).
End Args.

(** ** Loading *)

Section Load.
Context {A : Type} `{PageFrameAllocator A}.
Abbreviation pm := (kst (machine A)).
Abbreviation mcm := (kst (MemoryController A)).

Definition USER_STACK_PAGES : Z := 32.

(** Replaces byte [j] of a word. *)
Definition set_byte (w j v : Z) : Z := Z.lor (Z.ldiff w (Z.shiftl 255 (8 * j))) (Z.shiftl v (8 * j)).

#[global] Instance machine_bytes : ByteMem (machine A) := λ addr v k,
  match translate (phys k) (cr3 k) addr with
  | Some f =>
      let i := addr mod PAGE_SIZE / 8 in
      Done (tt, set_phys (upd (phys k) f i (set_byte (phys k f i) (addr mod 8) v)) k)
  | None => Fault Undefined
  end.

Fixpoint for_regions (f : ElfRegion → mcm unit) (l : list ElfRegion) : mcm unit :=
  match l with [] => kret tt | r :: l => f r ;;* for_regions f l end.

(** The last page of a region: [addr + size - 1]. *)
Definition end_page (r : ElfRegion) : mcm Z :=
  let* e := uadd (sp_addr (er_region r)) (sp_size (er_region r)) in
  let* e := usub e 1 in
  kret (page_for_address e).

Definition unmap_regions_from_active_table (start_region : list ElfRegion) : mcm unit :=
  for_regions (λ r,
    if sp_size (er_region r) =? 0 then kret tt
    else
      in_machine (store_bytes (sp_addr (er_region r)) (repeat 0 (Z.to_nat (sp_size (er_region r))))) ;;*
      let* last := end_page r in
      mc_unmap (page_for_address (sp_addr (er_region r))) last) start_region.

Definition map_regions (table : Z) (start_region : list ElfRegion) : mcm unit :=
  for_regions (λ r,
    let* last := end_page r in
    in_machine (map_range alloc_slot table (page_for_address (sp_addr (er_region r))) last
                  (to_entry_flags (er_flags r)))) start_region.

(** The bytes of the file a region is loaded from. *)
Definition origin_bytes (elf : Region) (r : ElfRegion) : list Z :=
  take (Z.to_nat (sp_size (origin_buffer r))) (drop (Z.to_nat (sp_addr (origin_buffer r) - reg_addr elf)) (reg_bytes elf)).

(** [false]: the copy was refused. *)
Fixpoint copy_regions (elf : Region) (l : list ElfRegion) : mcm bool :=
  match l with
  | [] => kret true
  | r :: l =>
      let size := sp_size (er_region r) in
      let ph_file_size := sp_size (origin_buffer r) in
      if size <? ph_file_size then kret false
      else
        in_machine (store_bytes (sp_addr (er_region r)) (origin_bytes elf r)) ;;*
        (if 0 <? size - ph_file_size then
           in_machine (store_bytes (sp_addr (er_region r) + ph_file_size) (repeat 0 (Z.to_nat (size - ph_file_size))))
         else kret tt) ;;*
        copy_regions elf l
  end.

(** [elf::load], with the memory controller initialized. *)
Definition elf_load (elf : Region) (argv : list (list Z)) : mcm (option ProcessEntry) :=
  let? entry := loader_load elf in
  let start_region := pe_start_region entry in
  let? ring3_table := clone_kernel_table in
  let? prev_table := mc_switch_table ring3_table in
  map_regions ring3_table start_region ;;*
  let* copied := copy_regions elf start_region in
  let abandon :=
    unmap_regions_from_active_table start_region ;;*
    let* _t := mc_switch_table prev_table in
    kret None in
  if negb copied then abandon
  else
    let* stack := stack_alloc ring3_table USER_STACK_PAGES (Z.lor WRITABLE RING3_ACCESSIBLE) in
    match stack with
    | None => abandon
    | Some stack =>
        let* rsp := in_machine (write_args_frame stack argv) in
        match rsp with
        | None => mc_free_stack stack ;;* abandon
        | Some rsp =>
            let? _t := mc_switch_table prev_table in
            kret (Some {| pe_entry := pe_entry entry; pe_start_region := start_region;
                          ring3_page_table := Some ring3_table; pe_stack := Some stack; initial_rsp := rsp |})
        end
    end.

(** [elf::unmap]. *)
Definition elf_unmap (start_region : list ElfRegion) : mcm unit := unmap_regions_from_active_table start_region.
End Load.
