(* ===== verification/ElfLoad.v ===== *)
(** * ElfLoad: what the loader accepts, and the frame a program starts with *)

From S2P Require Import Prelude BlockDev Frames Paging MemCtl Elf.

(** ** Program headers *)

(** The program header at an offset of the file. *)
Definition le_at (file : list Z) (off : Z) (n : nat) : Z := le_value (take n (drop (Z.to_nat off) file)).
Definition header_at (file : list Z) (off : Z) : ElfProgramHeader64 :=
  {| ph_type := le_at file off 4; ph_flags := le_at file (off + 4) 4; ph_file_offset := le_at file (off + 8) 8;
     virt_addr := le_at file (off + 16) 8; phys_addr := le_at file (off + 24) 8; file_size := le_at file (off + 32) 8;
     memory_size := le_at file (off + 40) 8; align := le_at file (off + 48) 8 |}.

Definition is_load (e : ElfProgramHeader64) : bool := ph_type e =? 1.

(** A LOAD header that fits into the file and into memory. *)
Definition load_valid (elf : Region) (e : ElfProgramHeader64) : bool :=
  (0 <? memory_size e) && (file_size e <=? memory_size e)
  && (ph_file_offset e + file_size e <=? Z.min usize_max (reg_size elf)).

Definition region_of (elf : Region) (e : ElfProgramHeader64) : ElfRegion :=
  {| er_region := {| sp_addr := virt_addr e; sp_size := memory_size e |}; er_flags := ph_flags e;
     origin_buffer := {| sp_addr := reg_addr elf + ph_file_offset e; sp_size := file_size e |} |}.

(** The first and the last of a list. *)
Definition first_last {X} (l : list X) : list X :=
  match l with
  | [] => []
  | x :: rest => match last rest with None => [x] | Some y => [x; y] end
  end.

Lemma fold_link rs start : start ≠ [] → List.fold_left link_region rs start =
  match start with [] => [] | x :: rest => match last rs with None => start | Some y => [x; y] end end.
Proof.
  revert start. induction rs as [|r rs IH]; intros [|x rest] Hne; try done. cbn [List.fold_left link_region].
  rewrite IH by done. rewrite (last_cons r). by destruct (last rs).
Qed.

Lemma fold_link_nil rs : List.fold_left link_region rs [] = first_last rs.
Proof. destruct rs as [|r rs]; [done|]. cbn [List.fold_left link_region]. by rewrite fold_link. Qed.

Section Loader.
Context {S : Type}.
Implicit Types (s : S) (elf : Region).

Lemma field_ok file off n s : 0 ≤ off → off + Z.of_nat n ≤ Z.of_nat (length file) →
  field file off n s = Done (le_at file off n, s).
Proof.
  intros H0 Hn. unfold field. rewrite (proj2 (Z.ltb_ge off 0)), (proj2 (Z.ltb_ge (Z.of_nat (length file)) _)) by lia. done.
Qed.

Lemma read_program_header_ok file off s : 0 ≤ off → off + 56 ≤ Z.of_nat (length file) →
  read_program_header file off s = Done (header_at file off, s).
Proof.
  intros H0 Hn. unfold read_program_header.
  repeat (erewrite kbind_done by (apply field_ok; lia)). done.
Qed.

Lemma load_ph_header_spec elf e :
  0 ≤ memory_size e →
  load_ph_header elf e =
    if negb (is_load e) then Some None else if load_valid elf e then Some (Some (region_of elf e)) else None.
Proof.
  intros Hm. unfold load_ph_header, is_load, load_valid. destruct (ph_type e =? 1); [|done]. cbn [negb].
  unfold checked_add. destruct (Z.eqb_spec (memory_size e) 0), (Z.ltb_spec 0 (memory_size e)); try lia; [done|].
  destruct (Z.ltb_spec (memory_size e) (file_size e)), (Z.leb_spec (file_size e) (memory_size e)); try lia; [done|].
  destruct (Z.leb_spec (ph_file_offset e + file_size e) usize_max).
  - destruct (Z.ltb_spec (reg_size elf) (ph_file_offset e + file_size e)),
      (Z.leb_spec (ph_file_offset e + file_size e) (Z.min usize_max (reg_size elf))); try lia; done.
  - by rewrite (proj2 (Z.leb_gt _ _)) by lia.
Qed.

(** The program headers of a table. *)
Definition headers elf (h : ElfHeader64) (is_ : list Z) : list ElfProgramHeader64 :=
  List.map (λ i, header_at (reg_bytes elf) (ph_offset h + i * ph_entry_size h)) is_.

Lemma headers_nonneg elf h is_ e : bytes (reg_bytes elf) → e ∈ headers elf h is_ → 0 ≤ memory_size e.
Proof.
  intros Hb. unfold headers. rewrite list_elem_of_fmap. intros (i & -> & _). cbn. unfold le_at.
  apply le_value_bound. by apply Forall_take, Forall_drop.
Qed.

Lemma load_ph_loop_ok elf h is_ start s : bytes (reg_bytes elf) →
  Forall (λ i, 0 ≤ ph_offset h + i * ph_entry_size h ∧ ph_offset h + i * ph_entry_size h + 56 ≤ reg_size elf
               ∧ i * ph_entry_size h < 2 ^ 16) is_ →
  load_ph_loop elf h is_ start s =
    Done (if forallb (λ e, negb (is_load e) || load_valid elf e) (headers elf h is_)
          then Some (List.fold_left link_region (List.map (region_of elf) (List.filter is_load (headers elf h is_))) start)
          else None, s).
Proof.
  intros Hb Hin. revert start. induction Hin as [|i is_ (H0 & H1 & H2) _ IH]; intros start; [done|].
  cbn [load_ph_loop headers List.map forallb List.filter].
  fold (headers elf h is_). set (e := header_at (reg_bytes elf) (ph_offset h + i * ph_entry_size h)).
  rewrite (kbind_done _ _ s (i * ph_entry_size h) s) by (unfold umul16; by rewrite (proj2 (Z.ltb_lt _ (2 ^ 16)))).
  rewrite (kbind_done _ _ _ _ _ (read_program_header_ok _ _ s H0 H1)). fold e.
  assert (Hm : 0 ≤ memory_size e) by (apply (headers_nonneg elf h [i]); [done | by constructor]).
  rewrite load_ph_header_spec by done. destruct (is_load e); cbn [negb orb]; [|apply IH].
  destruct (load_valid elf e); cbn [andb]; [apply IH | done].
Qed.

Lemma existsb_first_last elf l : existsb is_load l =
  match first_last (List.map (region_of elf) (List.filter is_load l)) with [] => false | _ => true end.
Proof.
  induction l as [|e l IH]; [done|]. cbn [existsb List.filter].
  destruct (is_load e); cbn [orb List.map first_last]; [by destruct (last _) | done].
Qed.

Definition elf_table (h : ElfHeader64) : list Z := seqZ 0 (ph_num h).

(** C25: What the loader accepts: for every file whose program headers have at least
    their standard size and whose table is below 64 KiB, [load_ph_headers] neither
    reads outside of the file nor panics.  It succeeds exactly if the table lies in
    the file, every LOAD header describes file bytes inside the file that fit into a
    non-empty region, and there is a LOAD header at all; the regions it then returns
    are those of the first and the last LOAD header (the ones between are dropped,
    for the list is always extended at its first node). *)
Theorem load_ph_headers_spec elf h s :
  bytes (reg_bytes elf) → 0 ≤ ph_num h → 0 ≤ ph_offset h → 56 ≤ ph_entry_size h → ph_num h * ph_entry_size h < 2 ^ 16 →
  load_ph_headers h elf s =
    Done (if (ph_offset h + ph_num h * ph_entry_size h <=? Z.min usize_max (reg_size elf))
             && forallb (λ e, negb (is_load e) || load_valid elf e) (headers elf h (elf_table h))
             && existsb is_load (headers elf h (elf_table h))
          then Some (first_last (List.map (region_of elf) (List.filter is_load (headers elf h (elf_table h)))))
          else None, s).
Proof.
  intros Hb Hn Ho Hsz Hmul. unfold load_ph_headers. unfold checked_mul.
  rewrite (proj2 (Z.leb_le (ph_num h * ph_entry_size h) usize_max)) by (unfold usize_max; lia).
  rewrite (ktry_some _ _ s (ph_num h * ph_entry_size h) s) by done. unfold checked_add.
  destruct (Z.leb_spec (ph_offset h + ph_num h * ph_entry_size h) usize_max).
  2: { rewrite (ktry_none _ _ s s) by done. by rewrite (proj2 (Z.leb_gt _ _)) by lia. }
  rewrite (ktry_some _ _ s (ph_offset h + ph_num h * ph_entry_size h) s) by done.
  destruct (Z.ltb_spec (reg_size elf) (ph_offset h + ph_num h * ph_entry_size h)).
  { by rewrite (proj2 (Z.leb_gt _ _)) by lia. }
  rewrite (proj2 (Z.leb_le _ (Z.min usize_max (reg_size elf)))) by lia. cbn [andb].
  assert (Hl := load_ph_loop_ok elf h (elf_table h) [] s Hb).
  unfold ktry at 1. erewrite kbind_done.
  2: { apply Hl. apply Forall_forall. intros i Hi%elem_of_seqZ. split; [nia|]. split; nia. }
  destruct (forallb _ _); [|done]. cbn [andb]. rewrite fold_link_nil.
  rewrite (existsb_first_last elf). by destruct (first_last _).
Qed.
End Loader.

(** ** The argument frame

    On plain bytes: an address space is a function. *)

#[local] Instance flat_bytes : ByteMem (Z → Z) := λ addr v m, Done (tt, λ a, if a =? addr then v else m a).

Definition stored (m : Z → Z) (addr : Z) (bs : list Z) (m' : Z → Z) : Prop :=
  ∀ a, m' a = if (addr <=? a) && (a <? addr + Z.of_nat (length bs)) then nth (Z.to_nat (a - addr)) bs 0 else m a.

Definition load_bytes (m : Z → Z) (addr : Z) (n : nat) : list Z := List.map (λ i, m (addr + Z.of_nat i)) (seq 0 n).
Definition load_word (m : Z → Z) (addr : Z) : Z := le_value (load_bytes m addr 8).

Lemma store_bytes_ok addr bs m : ∃ m', store_bytes addr bs m = Done (tt, m') ∧ stored m addr bs m'.
Proof.
  revert addr m. induction bs as [|b bs IH]; intros addr m.
  { exists m. split; [done|]. intros a. cbn [length]. destruct (Z.leb_spec addr a), (Z.ltb_spec a (addr + Z.of_nat 0)); try lia; done. }
  cbn [store_bytes]. destruct (IH (addr + 1) (λ a, if a =? addr then b else m a)) as (m' & E & Hm).
  exists m'. split; [unfold store_byte, flat_bytes; by rewrite (kbind_done _ _ _ tt (λ a, if a =? addr then b else m a))|].
  intros a. rewrite Hm. cbv beta. cbn [length]. destruct (Z.eqb_spec a addr) as [->|Hne].
  - rewrite (proj2 (Z.leb_gt (addr + 1) addr)) by lia. rewrite (proj2 (Z.leb_le addr addr)), (proj2 (Z.ltb_lt addr (addr + Z.of_nat (S (length bs))))) by lia.
    cbn [andb]. by rewrite Z.sub_diag.
  - destruct (Z.leb_spec (addr + 1) a), (Z.leb_spec addr a), (Z.ltb_spec a (addr + 1 + Z.of_nat (length bs))),
      (Z.ltb_spec a (addr + Z.of_nat (S (length bs)))); try lia; cbn [andb]; try done.
    replace (Z.to_nat (a - addr)) with (S (Z.to_nat (a - (addr + 1)))) by lia. done.
Qed.

Lemma load_stored m addr bs m' : stored m addr bs m' → load_bytes m' addr (length bs) = bs.
Proof.
  intros Hm. apply nth_ext with 0 0; [unfold load_bytes; by rewrite List.length_map, length_seq|].
  intros i Hi. unfold load_bytes in *. rewrite List.length_map, length_seq in Hi.
  rewrite nth_indep with (d' := m' (addr + Z.of_nat 0)) by (by rewrite List.length_map, length_seq).
  rewrite List.map_nth with (d := 0%nat). rewrite List.seq_nth by done. rewrite Hm.
  rewrite (proj2 (Z.leb_le _ _)), (proj2 (Z.ltb_lt _ _)) by lia. cbn [andb]. f_equal. lia.
Qed.

Lemma load_bytes_ext m m' addr n : (∀ a, addr ≤ a < addr + Z.of_nat n → m' a = m a) → load_bytes m' addr n = load_bytes m addr n.
Proof.
  intros E. unfold load_bytes. apply List.map_ext_in. intros i Hi%in_seq. apply E. lia.
Qed.

Lemma stored_other m addr bs m' a : stored m addr bs m' → ¬ (addr ≤ a < addr + Z.of_nat (length bs)) → m' a = m a.
Proof.
  intros Hm Ha. rewrite Hm. destruct (Z.leb_spec addr a), (Z.ltb_spec a (addr + Z.of_nat (length bs))); try lia; done.
Qed.

Lemma load_word_stored m addr v m' : 0 ≤ v ≤ usize_max → stored m addr (le_bytes 8 v) m' → load_word m' addr = v.
Proof.
  intros Hv Hm. unfold load_word. pose proof (load_stored _ _ _ _ Hm) as E. rewrite length_le_bytes in E. rewrite E.
  apply le_value_bytes. change (256 ^ Z.of_nat 8) with (2 ^ 64). unfold usize_max in Hv. lia.
Qed.

(** The bytes the strings take, with their terminators. *)
Fixpoint string_size (argv : list (list Z)) : Z :=
  match argv with [] => 0 | arg :: argv => Z.of_nat (length arg) + 1 + string_size argv end.

Lemma string_size_nonneg argv : 0 ≤ string_size argv.
Proof. induction argv; cbn [string_size]; lia. Qed.

Lemma sum_lengths_ok argv (m : Z → Z) : string_size argv ≤ usize_max → sum_lengths argv m = Done (string_size argv, m).
Proof.
  induction argv as [|arg argv IH]; [done|]. cbn [sum_lengths string_size]. intros Hs.
  rewrite (kbind_done _ _ _ _ _ (IH ltac:(lia))). rewrite uadd_ok by lia. do 2 f_equal. lia.
Qed.

(** The arguments from [index] on are in memory. *)
Definition args_at (m : Z → Z) (frame index : Z) (lo hi : Z) (argv : list (list Z)) : Prop :=
  ∀ i arg, argv !! i = Some arg →
    ∃ p, load_word m (frame + 8 * (1 + index + Z.of_nat i)) = p ∧ lo ≤ p ∧ p + Z.of_nat (length arg) < hi
      ∧ load_bytes m p (length arg) = arg ∧ m (p + Z.of_nat (length arg)) = 0.

Lemma write_args_ok frame index sa argv m :
  0 ≤ index → 0 ≤ sa → sa + string_size argv ≤ usize_max → frame + 8 * (1 + index + Z.of_nat (length argv)) ≤ sa →
  ∃ m', write_args frame index sa argv m = Done (tt, m')
    ∧ args_at m' frame index sa (sa + string_size argv) argv
    ∧ ∀ a, ¬ (frame + 8 * (1 + index) ≤ a < frame + 8 * (1 + index + Z.of_nat (length argv))) →
           ¬ (sa ≤ a < sa + string_size argv) → m' a = m a.
Proof.
  revert index sa m. induction argv as [|arg argv IH]; intros index sa m Hi Hsa Hmax Hfr.
  { exists m. split; [done|]. split; [|done]. intros i arg Hl. done. }
  cbn [write_args string_size length] in *. pose proof (string_size_nonneg argv) as Hnn.
  destruct (store_bytes_ok (frame + 8 * (1 + index)) (le_bytes 8 sa) m) as (m1 & E1 & S1).
  destruct (store_bytes_ok sa arg m1) as (m2 & E2 & S2).
  destruct (store_bytes_ok (sa + Z.of_nat (length arg)) [0] m2) as (m3 & E3 & S3).
  destruct (IH (index + 1) (sa + Z.of_nat (length arg) + 1) m3) as (m' & E' & Ha & Ho); [lia | lia | lia | lia |].
  exists m'. split_and!.
  - unfold store_word. rewrite (kbind_done _ _ _ _ _ E1), (kbind_done _ _ _ _ _ E2).
    unfold store_bytes in E3. rewrite (kbind_done _ _ _ tt m3) by (unfold store_byte, flat_bytes in *; unfold kbind, kret in E3; injection E3 as <-; done).
    done.
  - assert (Hkeep : ∀ a, frame + 8 * (1 + index) ≤ a < frame + 8 * (1 + index) + 8 ∨ sa ≤ a ≤ sa + Z.of_nat (length arg) → m' a = m3 a) by (intros a Hr; apply Ho; lia).
    intros [|i] arg' Hl; cbn in Hl.
    + injection Hl as <-. exists sa. split_and!; [| lia | lia | |].
      * replace (frame + 8 * (1 + index + Z.of_nat 0)) with (frame + 8 * (1 + index)) by lia. unfold load_word.
        rewrite (load_bytes_ext m1); [apply (load_word_stored m); [lia | done]|].
        intros a Hr. rewrite Hkeep by lia. rewrite (stored_other _ _ _ _ a S3) by (cbn; lia). apply (stored_other _ _ _ _ a S2). lia.
      * rewrite (load_bytes_ext m2); [by apply (load_stored m1)|]. intros a Hr. rewrite Hkeep by lia.
        apply (stored_other _ _ _ _ a S3). cbn. lia.
      * rewrite Hkeep by lia. rewrite S3. cbn [length]. rewrite (proj2 (Z.leb_le _ _)), (proj2 (Z.ltb_lt _ _)) by lia. by rewrite Z.sub_diag.
    + destruct (Ha i arg' Hl) as (p & Hw & Hlo & Hhi & Hb & Hz). exists p.
      replace (1 + index + Z.of_nat (S i)) with (1 + (index + 1) + Z.of_nat i) by lia. split_and!; [done | lia | lia | done | done].
  - intros a Hn1 Hn2. rewrite Ho by lia. rewrite (stored_other _ _ _ _ a S3) by (cbn; lia).
    rewrite (stored_other _ _ _ _ a S2) by lia. apply (stored_other _ _ _ _ a S1). rewrite length_le_bytes. lia.
Qed.

Lemma args_at_ext m m' frame index lo hi argv :
  args_at m frame index lo hi argv →
  (∀ a, frame + 8 * (1 + index) ≤ a < frame + 8 * (1 + index + Z.of_nat (length argv)) → m' a = m a) →
  (∀ a, lo ≤ a < hi → m' a = m a) → args_at m' frame index lo hi argv.
Proof.
  intros Ha Hf Hs i arg Hl. destruct (Ha i arg Hl) as (p & Hw & Hlo & Hhi & Hb & Hz). exists p.
  pose proof (lookup_lt_Some _ _ _ Hl) as Hlen. split_and!; [| lia | lia | |].
  - rewrite <- Hw. unfold load_word. f_equal. apply load_bytes_ext. intros a Hr. apply Hf. lia.
  - rewrite <- Hb at 2. apply load_bytes_ext. intros a Hr. apply Hs. lia.
  - rewrite Hs by lia. done.
Qed.

Lemma align16 a : Z.land a (Z.lnot 15) = a / 16 * 16.
Proof.
  rewrite <- Z.ldiff_land. change 15 with (Z.ones 4). rewrite Z.ldiff_ones_r by lia.
  rewrite Z.shiftr_div_pow2, Z.shiftl_mul_pow2 by lia. done.
Qed.

(** The frame a program starts with: if [argc], the pointers, the two null words
    and the strings fit between the ends of the stack, the stack pointer is aligned
    to 16 bytes, the word there is the number of arguments, the word [1 + i] points
    to argument [i] with a zero byte after it, at the top of the stack, two null
    words follow the pointers, and no byte outside of the frame is touched;
    otherwise nothing is written and the load fails. *)
Theorem args_frame_spec stack argv (m : Z → Z) :
  0 ≤ bottom stack → top stack ≤ usize_max → string_size argv ≤ usize_max →
  8 * (Z.of_nat (length argv) + 3) ≤ usize_max →
  let argc := Z.of_nat (length argv) in
  let base := top stack - string_size argv - 8 * (argc + 3) in
  let rsp := base / 16 * 16 in
  if decide (0 ≤ base ∧ bottom stack ≤ rsp) then
    ∃ m', write_args_frame stack argv m = Done (Some rsp, m')
      ∧ load_word m' rsp = argc
      ∧ args_at m' rsp 0 (top stack - string_size argv) (top stack) argv
      ∧ load_word m' (rsp + 8 * (1 + argc)) = 0 ∧ load_word m' (rsp + 8 * (2 + argc)) = 0
      ∧ ∀ a, ¬ (rsp ≤ a < top stack) → m' a = m a
  else write_args_frame stack argv m = Done (None, m).
Proof.
  intros Hbot Htop Hss Hfs argc base rsp. pose proof (string_size_nonneg argv) as Hnn.
  assert (Hrsp : base - 15 ≤ rsp ≤ base) by (unfold rsp; Z.to_euclidean_division_equations; lia).
  assert (Hw : checked_add argc 3 = Some (argc + 3)) by (unfold checked_add; by rewrite (proj2 (Z.leb_le (argc + 3) usize_max)) by lia).
  assert (Hz : checked_mul (argc + 3) 8 = Some ((argc + 3) * 8))
    by (unfold checked_mul; by rewrite (proj2 (Z.leb_le ((argc + 3) * 8) usize_max)) by lia).
  unfold write_args_frame. rewrite !(kbind_done _ _ _ _ _ (sum_lengths_ok argv m Hss)). fold argc. unfold checked_sub.
  destruct (Z.ltb_spec (top stack) (string_size argv)).
  { rewrite decide_False by lia. by rewrite (ktry_none _ _ m m). }
  rewrite !(ktry_some _ _ m (top stack - string_size argv) m) by done.
  rewrite Hw, !(ktry_some _ _ m (argc + 3) m) by done. rewrite Hz, !(ktry_some _ _ m ((argc + 3) * 8) m) by done.
  destruct (Z.ltb_spec (top stack - string_size argv) ((argc + 3) * 8)).
  { rewrite decide_False by lia. by rewrite (ktry_none _ _ m m). }
  rewrite !(ktry_some _ _ m base m) by (unfold kret; do 3 f_equal; lia). rewrite align16. fold rsp.
  destruct (Z.ltb_spec rsp (bottom stack)).
  { rewrite decide_False by lia. done. }
  rewrite decide_True by lia.
  destruct (store_bytes_ok rsp (le_bytes 8 argc) m) as (m1 & E1 & S1).
  destruct (write_args_ok rsp 0 (top stack - string_size argv) argv m1) as (m2 & E2 & A2 & O2); [lia | lia | lia | lia |].
  destruct (store_bytes_ok (rsp + 8 * (1 + argc)) (le_bytes 8 0) m2) as (m3 & E3 & S3).
  destruct (store_bytes_ok (rsp + 8 * (2 + argc)) (le_bytes 8 0) m3) as (m4 & E4 & S4).
  pose proof (λ a, stored_other _ _ _ _ a S1) as O1. pose proof (λ a, stored_other _ _ _ _ a S3) as O3.
  pose proof (λ a, stored_other _ _ _ _ a S4) as O4. rewrite length_le_bytes in O1, O3, O4.
  exists m4. split_and!.
  - unfold store_word. by rewrite (kbind_done _ _ _ _ _ E1), (kbind_done _ _ _ _ _ E2), (kbind_done _ _ _ _ _ E3), (kbind_done _ _ _ _ _ E4).
  - unfold load_word. rewrite (load_bytes_ext m1); [apply (load_word_stored m); [unfold usize_max in *; lia | done]|].
    intros a Ha. rewrite O4, O3, O2 by lia. done.
  - replace (top stack - string_size argv + string_size argv) with (top stack) in A2 by lia.
    apply (args_at_ext m2); [done | |]; intros a Ha; rewrite O4, O3 by lia; done.
  - unfold load_word. rewrite (load_bytes_ext m3); [apply (load_word_stored m2); [by vm_compute | done]|]. intros a Ha. apply O4. lia.
  - apply (load_word_stored m3); [by vm_compute | done].
  - intros a Ha. rewrite O4, O3, O2, O1 by lia. done.
Qed.

(** ** Concrete programs *)

Definition demo_stack : Stack := {| top := 0x8000; bottom := 0x7000 |}.

Lemma args_frame_spec_witness :
  string_size [[108; 115]; [47]] = 5 ∧
  ∃ m', write_args_frame demo_stack [[108; 115]; [47]] (λ _, 7) = Done (Some 0x7FD0, m') ∧ load_word m' 0x7FD0 = 2.
Proof.
  split; [done|].
  destruct (args_frame_spec demo_stack [[108; 115]; [47]] (λ _, 7)) as (m' & E & Hc & _);
    [by vm_compute | by vm_compute | by vm_compute | by vm_compute | exists m'; split; [exact E | exact Hc]].
Defined.

(** A file of two LOAD headers with one byte each, and a table at offset 64. *)
Definition demo_ph (addr : Z) : list Z :=
  le_bytes 4 1 ++ le_bytes 4 5 ++ le_bytes 8 0 ++ le_bytes 8 addr ++ le_bytes 8 0 ++ le_bytes 8 1 ++ le_bytes 8 2 ++ le_bytes 8 0.
Definition demo_file : Region :=
  {| reg_addr := 0x100000; reg_bytes := repeat 0 64 ++ demo_ph 0x1000 ++ demo_ph 0x2000 ++ demo_ph 0x3000 |}.
Definition demo_header : ElfHeader64 :=
  {| ident := []; elf_type := 2; e_machine := 62; version := 1; entry_addr := 0x1000; ph_offset := 64; sh_offset := 0;
     e_flags := 0; eh_size := 64; ph_entry_size := 56; ph_num := 3; sh_entry_size := 0; sh_num := 0; sh_str_hdr_index := 0 |}.

(** Three LOAD headers: the second region is lost. *)
Lemma load_ph_headers_spec_witness :
  ph_num demo_header = 3 ∧
  ∃ a b, load_ph_headers demo_header demo_file tt = Done (Some [a; b], tt)
    ∧ sp_addr (er_region a) = 0x1000 ∧ sp_addr (er_region b) = 0x3000.
Proof.
  split; [done|]. rewrite (load_ph_headers_spec demo_file demo_header tt).
  - eexists _, _. split; [vm_compute; reflexivity|]. by split.
  - apply (Forall_forall is_byte). intros b Hb. unfold is_byte.
    assert (Hall : forallb (λ b, (0 <=? b) && (b <? 256)) (reg_bytes demo_file) = true) by by vm_compute.
    rewrite forallb_forall in Hall. specialize (Hall b ltac:(by apply list_elem_of_In)). bool_to_prop. lia.
  - by vm_compute.
  - by vm_compute.
  - by vm_compute.
  - by vm_compute.
Defined.
