(* ===== verification/Syscalls.v ===== *)
(** * Syscalls: the system calls

    (src/src/syscall/*.rs, the dispatcher of arch/x86_64/idt.rs, the functions of
    scheduling/mod.rs that work for the current process, and the copies from and to
    user memory of scheduling/process.rs).  What the handlers ask of the memory
    subsystem is the class [UserMem], next to the scheduler's [ProcMemory].  The
    console is what [write] prints; log messages are left out.  A handler returns a
    value for [rax], or hands the CPU to the scheduler and never comes back. *)

From S2P Require Import Prelude Text Context Time BlockDev Descriptors Paths Sched.

Class UserMem (M G K T : Type) := {
  (** [Process::validate_user_pointer] *)
  um_validate : T → Z → Z → bool → kst M bool;
  (** the bytes of the current address space *)
  um_load : Z → Z → kst M (list Z);
  um_store : Z → list Z → kst M unit;
  (** [elf::load] *)
  um_elf_load : Region → list (list Z) → kst M (option (ProcessEntry G K T));
}.

Record system (M FS D F G K T : Type) := {
  kern : kernel M D F G K T;
  files : FS;
  console : list (list Z);
}.
Arguments kern {M FS D F G K T} _.
Arguments files {M FS D F G K T} _.
Arguments console {M FS D F G K T} _.

Inductive sysres :=
| Return (rax : option Z)
| Dispatched (d : dispatch).

Section Syscalls.
Context {M FS D F G K T : Type} `{ProcMemory M G K T, UserMem M G K T, FileOps FS F, DirOps FS D F}.
(** The root directory, and the padding the compiler leaves in a [SyscallDirEntry]. *)
Context (root : D) (padding : list Z) (user_code user_data : Z).

Abbreviation sys := (system M FS D F G K T).
Abbreviation sm := (kst sys).

Definition set_kern (k : kernel M D F G K T) (s : sys) : sys := {| kern := k; files := files s; console := console s |}.
Definition set_files (f : FS) (s : sys) : sys := {| kern := kern s; files := f; console := console s |}.
Definition print (text : list Z) : sm unit := kmodify (λ s, {| kern := kern s; files := files s; console := console s ++ [text] |}).

Definition in_kernel {A} (m : kst (kernel M D F G K T) A) : sm A := zoom kern set_kern m.
Definition in_memory {A} (m : kst M A) : sm A := in_kernel (in_mem m).
Definition in_files {A} (m : kst FS A) : sm A := zoom files set_files m.

(** ** Copies from and to user memory *)

Definition can_process_pointer (t : T) (addr size : Z) (writable : bool) : sm bool := in_memory (um_validate t addr size writable).

Definition copy_from_user (t : T) (addr size : Z) : sm (option (list Z)) :=
  let* valid := can_process_pointer t addr size false in
  if negb valid then kret None
  else if size =? 0 then kret (Some [])
  else let* bs := in_memory (um_load addr size) in kret (Some bs).

Definition copy_to_user (t : T) (addr : Z) (bs : list Z) : sm (option unit) :=
  let* valid := can_process_pointer t addr (Z.of_nat (length bs)) true in
  if negb valid then kret None
  else match bs with
       | [] => kret (Some tt)
       | _ => in_memory (um_store addr bs) ;;* kret (Some tt)
       end.

(** A value as its bytes. *)
Definition copy_value_to_user (t : T) (addr : Z) (value : list Z) : sm (option unit) :=
  if Z.of_nat (length value) =? 0 then kret (Some tt) else copy_to_user t addr value.

(** [values], as their bytes, of [size] bytes each. *)
Definition copy_slice_to_user (t : T) (addr size : Z) (values : list (list Z)) : sm (option unit) :=
  let? total := kret (checked_mul size (Z.of_nat (length values))) in
  let* valid := can_process_pointer t addr total true in
  if negb valid then kret None
  else if total =? 0 then kret (Some tt)
  else in_memory (um_store addr (concat values)) ;;* kret (Some tt).

(** ** The current process *)

Definition page_table : sm (option T) := in_kernel get_current_process_page_table.

(** An operation on the descriptors of the current process. *)
Definition with_current_fds {A} (m : fdm (S := FS) (F := F) A) (none : A) : sm A := λ s,
  match PROCESSES (kern s) !! CURRENT_INDEX (kern s) with
  | None => Done (none, s)
  | Some p =>
      match m (proc_fds p, files s) with
      | Done (a, (fds, f)) =>
          Done (a, {| kern := set_processes (<[CURRENT_INDEX (kern s) := set_fds fds p]> (PROCESSES (kern s))) (kern s);
                      files := f; console := console s |})
      | Fault e => Fault e
      end
  end.

Definition close_current_file_descriptor (fd : Z) : sm bool :=
  with_current_fds (λ x, let '(b, t) := close_fd (Z.to_nat fd) x.1 in Done (b, (t, x.2))) false.
Definition read_current_file_descriptor (fd size : Z) : sm (option (list Z)) :=
  with_current_fds (read_fd (Z.to_nat fd) size) None.
Definition write_current_file_descriptor (fd : Z) (bs : list Z) : sm (option Z) :=
  with_current_fds (write_fd (Z.to_nat fd) bs) None.
Definition truncate_current_file_descriptor (fd size : Z) : sm (option unit) :=
  with_current_fds (truncate_fd (Z.to_nat fd) size) None.
Definition open_current (file : F) (readable writable : bool) : sm (option Z) :=
  with_current_fds (λ x, let '(fd, t) := open_file file readable writable x.1 in Done (Some (Z.of_nat fd), (t, x.2))) None.

(** The directory of relative paths; it is asked for only for those. *)
Definition cwd_for (path : list Z) : sm D :=
  match strip_prefix (tilde ++ [slash]) path, strip_prefix [slash] path with
  | None, None => in_kernel (get_current_cwd root)
  | _, _ => kret root
  end.

Definition curr_process_open_file (path : list Z) (readable writable : bool) : sm (option Z) :=
  let* cwd := cwd_for path in
  let? file := in_files (find_file_from_path root cwd path) in
  open_current file readable writable.

Definition curr_process_create_file (path : list Z) (readable writable : bool) : sm (option Z) :=
  let* cwd := cwd_for path in
  let? file := in_files (create_file_from_path root cwd path) in
  open_current file readable writable.

(** [change_cwd]; the message it prints names the directory. *)
Definition change_cwd_named (cwd : D) : sm unit :=
  let* k := kgets kern in
  if (length (PROCESSES k) =? 0)%nat then kret tt
  else let* _name := in_files (d_name cwd) in in_kernel (change_cwd cwd).

(** ** Handlers *)

Definition ret (v : Z) : sm sysres := kret (Return (Some v)).
Definition bool_ret (b : bool) : sm sysres := ret (if b then 1 else 0).

(** [schedule(..)], which does not return. *)
Definition yield_to (frame : option FullInterruptStackFrame) : sm sysres :=
  let* d := in_kernel (schedule frame) in kret (Dispatched d).

(** The page table, or [Some(0)]. *)
Definition with_table (k : T → sm sysres) : sm sysres :=
  let* t := page_table in
  match t with None => ret 0 | Some t => k t end.

(** A buffer copied from the user, or [Some(0)]. *)
Definition with_buffer (t : T) (addr size : Z) (k : list Z → sm sysres) : sm sysres :=
  let* b := copy_from_user t addr size in
  match b with None => ret 0 | Some b => k b end.

(** The string in it, or [Some(0)]. *)
Definition with_str (buffer : list Z) (k : list Z → sm sysres) : sm sysres :=
  match utf8_decode buffer with None => ret 0 | Some s => k s end.

(** The trimmed path the first two arguments name. *)
Definition with_path (frame : FullInterruptStackFrame) (k : list Z → sm sysres) : sm sysres :=
  with_table (λ t, with_buffer t (rdi frame) (rsi frame) (λ buffer, with_str buffer (λ path, k (trim path)))).

(** [.or(Some(0))]. *)
Definition or_zero (m : sm (option Z)) : sm sysres := let* o := m in ret (default 0 o).

Definition cwd_for_directory (path : list Z) : sm D :=
  if bool_decide (path = tilde) then kret root else cwd_for path.

Definition cd (frame : FullInterruptStackFrame) : sm sysres :=
  with_path frame (λ path,
    if bool_decide (path = []) then ret 0
    else
      let* cwd := cwd_for_directory path in
      let* new_dir := in_files (find_directory_from_path root cwd path) in
      match new_dir with
      | None => ret 0
      | Some d => change_cwd_named d ;;* ret 1
      end).

(** The bytes of a [Timespec]. *)
Definition timespec_bytes (ts : Timespec) : list Z := le_bytes 8 (wrap 64 (tv_sec ts)) ++ le_bytes 8 (wrap 64 (tv_nsec ts)).
Definition timespec_of_bytes (bs : list Z) : Timespec :=
  {| tv_sec := as_i64 (le_value (take 8 bs)); tv_nsec := as_i64 (le_value (take 8 (drop 8 bs))) |}.

Definition clock_gettime (frame : FullInterruptStackFrame) : sm sysres :=
  let answer (m : kst clocks Timespec) : sm sysres :=
    let* ts := in_kernel (zoom CLOCKS set_clocks m) in
    with_table (λ t,
      let* r := copy_slice_to_user t (rsi frame) 16 [timespec_bytes ts] in
      match r with None => ret 0 | Some _ => ret 1 end) in
  if rdi frame =? 0 then answer realtime_timespec
  else if rdi frame =? 1 then answer monotonic_timespec
  else ret 0.

Definition close (frame : FullInterruptStackFrame) : sm sysres :=
  let* closed := close_current_file_descriptor (rdi frame) in bool_ret closed.

Definition create (frame : FullInterruptStackFrame) : sm sysres :=
  with_path frame (λ path,
    if bool_decide (path = []) then ret 0 else or_zero (curr_process_create_file path true true)).

Definition open (frame : FullInterruptStackFrame) : sm sysres :=
  with_path frame (λ path, or_zero (curr_process_open_file path true true)).

(** The three calls that change a directory. *)
Definition directory_call (op : D → list Z → kst FS bool) (frame : FullInterruptStackFrame) : sm sysres :=
  with_path frame (λ path, let* cwd := cwd_for path in let* b := in_files (op cwd path) in bool_ret b).

Definition mkdir : FullInterruptStackFrame → sm sysres := directory_call (λ cwd, curr_process_create_directory root cwd).
Definition unlink : FullInterruptStackFrame → sm sysres := directory_call (λ cwd, curr_process_unlink_file root cwd).
Definition rmdir : FullInterruptStackFrame → sm sysres := directory_call (λ cwd, curr_process_remove_directory root cwd).

Definition ARGS_MAX_BYTES : Z := 4096.
Definition ARGS_MAX_COUNT : nat := 64.
Definition shell_elf : list Z := [115; 104; 101; 108; 108; 46; 101; 108; 102].

(** [split_ascii_whitespace]. *)
Fixpoint split_words (word : list Z) (s : list Z) : list (list Z) :=
  match s with
  | [] => match word with [] => [] | _ => [word] end
  | c :: s =>
      if is_ascii_whitespace c then match word with [] => split_words [] s | _ => word :: split_words [] s end
      else split_words (word ++ [c]) s
  end.

(** The arguments, or [Some(0)]. *)
Definition with_args (t : T) (addr size : Z) (k : list Z → sm sysres) : sm sysres :=
  if ARGS_MAX_BYTES <? size then ret 0
  else if size =? 0 then with_str [] k
  else with_buffer t addr size (λ buffer, with_str buffer k).

Definition execute (frame : FullInterruptStackFrame) : sm sysres :=
  with_table (λ t, with_buffer t (rdi frame) (rsi frame) (λ buffer, with_str buffer (λ path,
    if bool_decide (last (split_on slash path) = Some shell_elf) then ret 0
    else
      with_args t (rdx frame) (r10 frame) (λ args,
        let argv := path :: split_words [] args in
        if (ARGS_MAX_COUNT <? length argv)%nat then ret 0
        else
          let* cwd := cwd_for path in
          let* file := in_files (find_file_from_path root cwd path) in
          match file with
          | None => ret 0
          | Some file =>
              let* _name := in_files (f_name file) in
              let* region := in_files (f_read file) in
              match region with
              | None => ret 0
              | Some region =>
                  let* entry := in_memory (um_elf_load region (List.map utf8_encode argv)) in
                  match entry with
                  | None => ret 0
                  | Some entry =>
                      let* pid := in_kernel (deploy root user_code user_data entry true) in ret pid
                  end
              end
          end)))).

Definition exit : sm sysres := in_kernel exit_current ;;* yield_to None.

Definition nanosleep (frame : FullInterruptStackFrame) : sm sysres :=
  with_table (λ t, with_buffer t (rdi frame) 16 (λ buffer,
    let ts := timespec_of_bytes buffer in
    if (tv_sec ts <? 0) || (tv_nsec ts <? 0) || (NANOSECONDS_PER_SECOND <=? tv_nsec ts) then ret 0
    else
      match duration_to_ticks (tv_sec ts) (tv_nsec ts) with
      | None => ret 0
      | Some ticks =>
          if ticks =? 0 then ret 1
          else
            let* now := in_kernel (zoom CLOCKS set_clocks current_ticks) in
            let* deadline := uadd now ticks in
            in_kernel (sleep_current_until deadline) ;;*
            yield_to (Some (set_rax 1 frame))
      end)).

Definition read (frame : FullInterruptStackFrame) : sm sysres :=
  if 3 <=? rdi frame then
    with_table (λ t,
      let* can := can_process_pointer t (rsi frame) (rdx frame) true in
      if negb can then ret 0
      else
        let* bs := read_current_file_descriptor (rdi frame) (rdx frame) in
        match bs with
        | None => ret 0
        | Some bs =>
            let* r := copy_to_user t (rsi frame) bs in
            match r with None => ret 0 | Some _ => ret (Z.of_nat (length bs)) end
        end)
  else in_kernel block_current ;;* yield_to (Some frame).

Definition DIR_ENTRY_NAME_CAPACITY : nat := 256.

(** The bytes of a [SyscallDirEntry]. *)
Definition dir_entry (name : list Z) (attr : Z) : list Z :=
  let name := take DIR_ENTRY_NAME_CAPACITY (utf8_encode name) in
  name ++ replicate (DIR_ENTRY_NAME_CAPACITY - length name) 0 ++ [attr] ++ padding ++ le_bytes 4 0.

Fixpoint named_entries {A} (name_of : A → kst FS (list Z)) (attr : Z) (items : list A) : sm (list (list Z)) :=
  match items with
  | [] => kret []
  | x :: items =>
      let* n := in_files (name_of x) in
      let* rest := named_entries name_of attr items in
      kret (dir_entry n attr :: rest)
  end.

Definition read_dir (frame : FullInterruptStackFrame) : sm sysres :=
  let max_items := rsi frame in
  with_table (λ t,
    match checked_mul max_items 264 with
    | None => ret 0
    | Some buffer_size =>
        let* can := can_process_pointer t (rdi frame) buffer_size true in
        if negb can then ret 0
        else
          let* cwd := in_kernel (get_current_cwd root) in
          let* entries := in_files (d_list cwd) in
          let* dirs := named_entries d_name 0x10 (take (Z.to_nat max_items) entries.1) in
          let remaining_items := Z.max 0 (max_items - Z.of_nat (length dirs)) in
          let* fs := named_entries f_name 0 (take (Z.to_nat remaining_items) entries.2) in
          let* r := copy_slice_to_user t (rdi frame) 264 (dirs ++ fs) in
          match r with None => ret 0 | Some _ => ret (Z.of_nat (length (dirs ++ fs))) end
    end).

Definition truncate (frame : FullInterruptStackFrame) : sm sysres :=
  let* r := truncate_current_file_descriptor (rdi frame) (rsi frame) in
  match r with None => ret 0 | Some _ => ret 1 end.

Definition wait_for_process (frame : FullInterruptStackFrame) : sm sysres :=
  in_kernel (current_wait_for_process (rdi frame)) ;;* yield_to (Some frame).

Definition write (frame : FullInterruptStackFrame) : sm sysres :=
  with_table (λ t, with_buffer t (rsi frame) (rdx frame) (λ buffer,
    let* fd := in_kernel (get_current_file_descriptor (Z.to_nat (rdi frame))) in
    match fd with
    | Some Stdout | Some Stderr =>
        with_str buffer (λ string, print string ;;* ret (Z.of_nat (length buffer)))
    | Some (FileFd _) => or_zero (write_current_file_descriptor (rdi frame) buffer)
    | _ => ret 0
    end)).

Definition yld (frame : FullInterruptStackFrame) : sm sysres := yield_to (Some frame).

(** ** The dispatcher *)

Definition syscall (frame : FullInterruptStackFrame) : sm sysres :=
  match rax frame with
  | 1 => exit
  | 2 => write frame
  | 3 => read frame
  | 4 => execute frame
  | 5 => yld frame
  | 6 => wait_for_process frame
  | 7 => read_dir frame
  | 8 => cd frame
  | 9 => open frame
  | 10 => close frame
  | 11 => truncate frame
  | 12 => create frame
  | 13 => mkdir frame
  | 14 => unlink frame
  | 15 => rmdir frame
  | 16 => clock_gettime frame
  | 17 => nanosleep frame
  | _ => kret (Return None)
  end.

(** What the CPU does next: the trampoline returns to the frame, or the scheduler
    has jumped. *)
Definition syscall_isr (frame : FullInterruptStackFrame) : sm dispatch :=
  let* r := syscall frame in
  match r with
  | Return (Some v) => kret (Jump (set_rax v frame))
  | Return None => kret (Jump frame)
  | Dispatched d => kret d
  end.
End Syscalls.
