(* ===== verification/SyscallSafe.v ===== *)
(** * SyscallSafe: what every system call guarantees *)

From S2P Require Import Prelude Text Context Time BlockDev Descriptors Paths Sched Syscalls.

Section Safe.
Context {M FS D F G K T : Type} `{ProcMemory M G K T, UserMem M G K T, FileOps FS F, DirOps FS D F}.
Context (root : D) (padding : list Z) (user_code user_data : Z).
Abbreviation sys := (system M FS D F G K T).
Abbreviation sm := (kst sys).
Implicit Types (s : sys) (frame : FullInterruptStackFrame).

(** ** Every call answers *)

(** [m] ends with a value for [rax], or, if [b] allows it, with a dispatch. *)
Definition answers (b : bool) (m : sm sysres) : Prop := ∀ s r s', m s = Done (r, s') →
  match r with Return o => is_Some o | Dispatched _ => b = true end.

Lemma answers_bind {A} b (m : sm A) k : (∀ a, answers b (k a)) → answers b (kbind m k).
Proof. intros Hk s r s' (a & s1 & _ & E)%kbind_inv. by apply (Hk a s1 r s'). Qed.

Lemma answers_ret b v : answers b (ret v).
Proof. intros s r s' [= <- <-]. by eexists. Qed.

Lemma answers_yield o : answers true (yield_to o).
Proof. intros s r s' (d & s1 & _ & E)%kbind_inv. by injection E as <- <-. Qed.

Lemma answers_table b k : (∀ t, answers b (k t)) → answers b (with_table k).
Proof. intros Hk. apply answers_bind. intros [t|]; [apply Hk | apply answers_ret]. Qed.

Lemma answers_buffer b t a n k : (∀ bs, answers b (k bs)) → answers b (with_buffer t a n k).
Proof. intros Hk. apply answers_bind. intros [bs|]; [apply Hk | apply answers_ret]. Qed.

Lemma answers_str b bs k : (∀ str, answers b (k str)) → answers b (with_str bs k).
Proof. intros Hk. unfold with_str. destruct (utf8_decode bs); [apply Hk | apply answers_ret]. Qed.

Lemma answers_path b frame k : (∀ p, answers b (k p)) → answers b (with_path frame k).
Proof. intros Hk. apply answers_table. intros t. apply answers_buffer. intros bs. apply answers_str. intros p. apply Hk. Qed.

Lemma answers_or_zero b m : answers b (or_zero m).
Proof. apply answers_bind. intros o. apply answers_ret. Qed.

Lemma answers_args b t a n k : (∀ str, answers b (k str)) → answers b (with_args t a n k).
Proof.
  intros Hk. unfold with_args. destruct (_ <? n); [apply answers_ret|]. destruct (n =? 0); [by apply answers_str|].
  apply answers_buffer. intros bs. by apply answers_str.
Qed.
End Safe.

(** Splits the tests and matches on the way. *)
Ltac answer :=
  repeat first
    [ apply answers_ret | apply answers_yield | apply answers_or_zero
    | apply answers_table; intros ? | apply answers_buffer; intros ? | apply answers_str; intros ?
    | apply answers_path; intros ? | apply answers_args; intros ? | apply answers_bind; intros ?
    | match goal with |- answers _ (if ?b then _ else _) => destruct b | |- answers _ (match ?x with _ => _ end) => destruct x end ].

Section Calls.
Context {M FS D F G K T : Type} `{ProcMemory M G K T, UserMem M G K T, FileOps FS F, DirOps FS D F}.
Context (root : D) (padding : list Z) (user_code user_data : Z).
Abbreviation sys := (system M FS D F G K T).
Implicit Types (s : sys) (frame : FullInterruptStackFrame).

Lemma read_answers frame : answers true (read (FS := FS) (D := D) frame).
Proof. unfold read. answer. Qed.
Lemma nanosleep_answers frame : answers true (nanosleep (FS := FS) (D := D) (F := F) frame).
Proof. unfold nanosleep. answer. Qed.

(** The calls that never give the CPU away. *)
Definition returning (n : Z) : bool := (n =? 2) || (n =? 4) || ((7 <=? n) && (n <=? 16)).

Lemma syscall_answers frame : returning (rax frame) = true → answers false (syscall root padding user_code user_data frame).
Proof.
  unfold returning. intros Hr. assert (Hc : rax frame = 2 ∨ rax frame = 4 ∨ 7 ≤ rax frame ≤ 16) by lia.
  unfold syscall.
  assert (rax frame = 2 ∨ rax frame = 4 ∨ rax frame = 7 ∨ rax frame = 8 ∨ rax frame = 9 ∨ rax frame = 10 ∨ rax frame = 11
    ∨ rax frame = 12 ∨ rax frame = 13 ∨ rax frame = 14 ∨ rax frame = 15 ∨ rax frame = 16) as Hn by lia.
  destruct Hn as [->|[->|[->|[->|[->|[->|[->|[->|[->|[->|[->| ->]]]]]]]]]]].
  - unfold write. answer.
  - unfold execute. answer.
  - unfold read_dir. answer.
  - unfold cd. answer.
  - unfold open. answer.
  - unfold close, bool_ret. answer.
  - unfold truncate. answer.
  - unfold create. answer.
  - unfold mkdir, directory_call, bool_ret. answer.
  - unfold unlink, directory_call, bool_ret. answer.
  - unfold rmdir, directory_call, bool_ret. answer.
  - unfold clock_gettime. answer.
Qed.

Lemma syscall_unknown frame : ¬ (1 ≤ rax frame ≤ 17) → syscall root padding user_code user_data frame = kret (Return None).
Proof.
  intros Hn. unfold syscall. destruct (rax frame) as [|p|p]; [done| |done].
  do 5 (destruct p as [p|p|]; try lia; try done).
Qed.


(** ** Bad pointers *)

(** The buffer a call names before it does anything. *)
Definition pointer_args frame : option (Z * Z * bool) :=
  match rax frame with
  | 2 => Some (rsi frame, rdx frame, false)
  | 3 => if 3 <=? rdi frame then Some (rsi frame, rdx frame, true) else None
  | 4 | 8 | 9 | 12 | 13 | 14 | 15 => Some (rdi frame, rsi frame, false)
  | 7 => match checked_mul (rsi frame) 264 with Some n => Some (rdi frame, n, true) | None => None end
  | 17 => Some (rdi frame, 16, false)
  | _ => None
  end.

Lemma refused_pointer t addr size w s m' :
  um_validate t addr size w (MEM (kern s)) = Done (false, m') →
  can_process_pointer (FS := FS) (D := D) (F := F) t addr size w s = Done (false, set_kern (set_mem m' (kern s)) s).
Proof. intros E. unfold can_process_pointer, in_memory, in_kernel, in_mem, zoom. by rewrite E. Qed.

Lemma refused_buffer t addr size k s m' :
  um_validate t addr size false (MEM (kern s)) = Done (false, m') →
  with_buffer (FS := FS) (D := D) (F := F) t addr size k s = Done (Return (Some 0), set_kern (set_mem m' (kern s)) s).
Proof.
  intros E. unfold with_buffer, copy_from_user. rewrite kbind_assoc.
  by rewrite (kbind_done _ _ _ _ _ (refused_pointer t addr size false s m' E)).
Qed.

Lemma current_table k s t : PROCESSES (kern s) !! CURRENT_INDEX (kern s) ≫= ring3_page_table = Some t →
  with_table (FS := FS) (D := D) (F := F) k s = k t s.
Proof.
  intros Ht. unfold with_table, page_table, in_kernel, zoom, get_current_process_page_table, kgets, kbind.
  rewrite Ht. by destruct s.
Qed.

End Calls.

(** ** Writes to user memory *)

Section Guard.
Context {M FS D F G K T : Type} `{ProcMemory M G K T, UserMem M G K T, FileOps FS F, DirOps FS D F}.
Context (root : D) (padding : list Z) (user_code user_data : Z).
Abbreviation sys := (system M FS D F G K T).
Abbreviation sm := (kst sys).
Abbreviation km := (kst (kernel M D F G K T)).
Implicit Types (s : sys) (frame : FullInterruptStackFrame).

(** A property of memory that is kept by everything but stores, and by a store of
    bytes that the check, asked last, has allowed for exactly their range. *)
Record guarded (I : M → Prop) : Prop := {
  gu_validate t a n w m b m' : I m → um_validate t a n w m = Done (b, m') → I m';
  gu_load a n m bs m' : I m → um_load a n m = Done (bs, m') → I m';
  gu_elf r argv m o m' : I m → um_elf_load r argv m = Done (o, m') → I m';
  gu_switch t m o m' : I m → switch_table t m = Done (o, m') → I m';
  gu_unmap g m u m' : I m → elf_unmap g m = Done (u, m') → I m';
  gu_stack st m u m' : I m → free_stack st m = Done (u, m') → I m';
  gu_tables t m u m' : I m → free_user_subtables t m = Done (u, m') → I m';
  gu_slot t m u m' : I m → slot_free t m = Done (u, m') → I m';
  gu_store t a bs m0 m u m' : I m0 → um_validate t a (Z.of_nat (length bs)) true m0 = Done (true, m) →
    um_store a bs m = Done (u, m') → I m';
}.

Context (I : M → Prop) (HI : guarded I) (Hpad : length padding = 3%nat).

Definition keeps {A} (m : sm A) : Prop := ∀ s a s', I (MEM (kern s)) → m s = Done (a, s') → I (MEM (kern s')).
Definition kkeeps {A} (m : km A) : Prop := ∀ k a k', I (MEM k) → m k = Done (a, k') → I (MEM k').

Lemma user_keeps_bind {A B} (m : sm A) (k : A → sm B) : keeps m → (∀ a, keeps (k a)) → keeps (kbind m k).
Proof. intros Hm Hk s a s' Hs (x & s1 & E1 & E2)%kbind_inv. apply (Hk x s1 a s'); [by apply (Hm s x s1) | done]. Qed.
Lemma user_keeps_try {A B} (m : sm (option A)) (k : A → sm (option B)) : keeps m → (∀ a, keeps (k a)) → keeps (ktry m k).
Proof. intros Hm Hk. apply user_keeps_bind; [done|]. intros [a|]; [apply Hk|]. by intros s a s' Hs [= <- <-]. Qed.
Lemma user_keeps_ret {A} (a : A) : keeps (kret a).
Proof. by intros s x s' Hs [= <- <-]. Qed.
Lemma user_keeps_fault {A} f : keeps (kfault (A := A) f).
Proof. done. Qed.
Lemma kkeeps_bind {A B} (m : km A) (k : A → km B) : kkeeps m → (∀ a, kkeeps (k a)) → kkeeps (kbind m k).
Proof. intros Hm Hk s a s' Hs (x & s1 & E1 & E2)%kbind_inv. apply (Hk x s1 a s'); [by apply (Hm s x s1) | done]. Qed.
Lemma kkeeps_ret {A} (a : A) : kkeeps (kret a).
Proof. by intros s x s' Hs [= <- <-]. Qed.
Lemma kkeeps_fault {A} f : kkeeps (kfault (A := A) f).
Proof. done. Qed.
Lemma kkeeps_gets {A} (f : kernel M D F G K T → A) : kkeeps (kgets f).
Proof. by intros s x s' Hs [= <- <-]. Qed.
Lemma kkeeps_get : kkeeps kget.
Proof. by intros s x s' Hs [= <- <-]. Qed.
Lemma kkeeps_modify f : (∀ k, MEM (f k) = MEM k) → kkeeps (kmodify f).
Proof. intros Hf s x s' Hs [= <- <-]. by rewrite Hf. Qed.
Lemma kkeeps_mem {A} (m : kst M A) : (∀ x a x', I x → m x = Done (a, x') → I x') → kkeeps (in_mem m).
Proof. intros Hm k a k' Hk. unfold in_mem, zoom. destruct (m (MEM k)) as [[b x]|] eqn:E; [|done]. intros [= <- <-]. by apply (Hm (MEM k) b x). Qed.
Lemma kkeeps_panic {A} (o : option A) : kkeeps (or_panic o).
Proof. destruct o; [apply kkeeps_ret | apply kkeeps_fault]. Qed.
Lemma kkeeps_loop {X R} (body : X → km (X + R)) n x : (∀ x, kkeeps (body x)) → kkeeps (loopM n body x).
Proof.
  intros Hb. revert x. induction n as [|n IH]; intros x; [apply kkeeps_fault|]. apply kkeeps_bind; [apply Hb|].
  intros [x'|r]; [apply IH | apply kkeeps_ret].
Qed.

Lemma user_keeps_kernel {A} (m : km A) : kkeeps m → keeps (in_kernel m).
Proof. intros Hm s a s' Hs. unfold in_kernel, zoom. destruct (m (kern s)) as [[b k]|] eqn:E; [|done]. intros [= <- <-]. by apply (Hm (kern s) b k). Qed.
Lemma user_keeps_files {A} (m : kst FS A) : keeps (in_files m).
Proof. intros s a s' Hs. unfold in_files, zoom. destruct (m (files s)) as [[b f]|]; [|done]. by intros [= <- <-]. Qed.
Lemma user_keeps_fds {A} (m : fdm A) none : keeps (with_current_fds m none).
Proof.
  intros s a s' Hs. unfold with_current_fds. destruct (PROCESSES (kern s) !! _) as [p|]; [|by intros [= <- <-]].
  destruct (m _) as [[b [fds f]]|]; [|done]. by intros [= <- <-].
Qed.

(** The copies to user memory store only what the check has just allowed. *)
Lemma user_keeps_validated {A} t a n (bs : list Z) (none some : A) :
  n = Z.of_nat (length bs) →
  keeps (let* valid := can_process_pointer t a n true in
         if negb valid then kret none else in_memory (um_store a bs) ;;* kret some).
Proof.
  intros Hn s x s' Hs. unfold can_process_pointer, in_memory, in_kernel, in_mem, zoom, kbind at 1.
  destruct (um_validate t a n true (MEM (kern s))) as [[b m1]|] eqn:E1; [|done]. destruct b; cbn [negb].
  - unfold kbind. cbn [kern set_kern MEM set_mem]. destruct (um_store a bs m1) as [[u m2]|] eqn:E2; [|done].
    intros [= <- <-]. cbn. subst n. by apply (gu_store I HI t a bs (MEM (kern s)) m1 u).
  - intros [= <- <-]. cbn. by apply (gu_validate I HI t a n true (MEM (kern s)) false).
Qed.

Lemma user_keeps_check t a n w : keeps (can_process_pointer t a n w).
Proof. apply user_keeps_kernel, kkeeps_mem. intros x b x' Hx E. by apply (gu_validate I HI t a n w x b). Qed.

Lemma user_keeps_copy_from t a n : keeps (copy_from_user t a n).
Proof.
  apply user_keeps_bind; [apply user_keeps_check|]. intros [|]; cbn [negb]; [|apply user_keeps_ret]. destruct (n =? 0); [apply user_keeps_ret|].
  apply user_keeps_bind; [|intros; apply user_keeps_ret]. apply user_keeps_kernel, kkeeps_mem. intros x b x' Hx E. by apply (gu_load I HI a n x b).
Qed.

Lemma user_keeps_copy_to t a bs : keeps (copy_to_user t a bs).
Proof.
  destruct bs as [|b bs].
  - unfold copy_to_user. apply user_keeps_bind; [apply user_keeps_check|]. intros [|]; apply user_keeps_ret.
  - exact (user_keeps_validated t a _ (b :: bs) None (Some tt) eq_refl).
Qed.

Lemma user_keeps_copy_value t a v : keeps (copy_value_to_user t a v).
Proof. unfold copy_value_to_user. destruct (_ =? 0); [apply user_keeps_ret | apply user_keeps_copy_to]. Qed.

Lemma user_keeps_copy_slice t a n values : Forall (λ v, Z.of_nat (length v) = n) values → keeps (copy_slice_to_user t a n values).
Proof.
  intros Hv. assert (Hl : Z.of_nat (length (concat values)) = n * Z.of_nat (length values)).
  { induction Hv as [|v l Hv _ IH]; [cbn; lia|]. cbn [concat length]. rewrite length_app. lia. }
  unfold copy_slice_to_user, checked_mul. destruct (_ <=? usize_max); [|by intros s x s' Hs [= <- <-]].
  change (keeps (let* valid := can_process_pointer t a (n * Z.of_nat (length values)) true in
    if negb valid then kret None else if n * Z.of_nat (length values) =? 0 then kret (Some tt)
    else in_memory (um_store a (concat values)) ;;* kret (Some tt))).
  destruct (_ =? 0).
  - apply user_keeps_bind; [apply user_keeps_check|]. intros [|]; apply user_keeps_ret.
  - by apply user_keeps_validated.
Qed.

(** *** The scheduler *)

Ltac kkeep :=
  repeat first
    [ apply kkeeps_ret | apply kkeeps_fault | apply kkeeps_get | apply kkeeps_gets | apply kkeeps_panic
    | apply kkeeps_modify; intros ?; reflexivity
    | apply kkeeps_loop; intros ?
    | apply kkeeps_bind; intros
    | match goal with |- kkeeps (if ?b then _ else _) => destruct b | |- kkeeps (match ?x with _ => _ end) => destruct x end ].

Lemma kkeeps_schedule o : kkeeps (schedule o).
Proof.
  unfold schedule, next_process, save_context, next_pass, uadd, set_process. kkeep.
  apply kkeeps_mem. intros x r x' Hx E. by eapply (gu_switch I HI).
Qed.

Lemma kkeeps_exit : kkeeps exit_current.
Proof.
  unfold exit_current. kkeep; apply kkeeps_mem; intros x r x' Hx E;
    first [by eapply (gu_unmap I HI) | by eapply (gu_stack I HI) | by eapply (gu_tables I HI) | by eapply (gu_slot I HI)].
Qed.

Lemma kkeeps_update f : kkeeps (update_current f).
Proof. unfold update_current, set_process. kkeep. Qed.

Lemma kkeeps_wait n : kkeeps (current_wait_for_process n).
Proof. unfold current_wait_for_process, set_process. kkeep. Qed.

Lemma kkeeps_deploy e b : kkeeps (deploy root user_code user_data e b).
Proof. unfold deploy, uadd. kkeep. Qed.

Lemma kkeeps_cwd : kkeeps (get_current_cwd root).
Proof. unfold get_current_cwd. kkeep. Qed.

Lemma kkeeps_clocks {A} (m : kst clocks A) : kkeeps (zoom CLOCKS set_clocks m).
Proof. intros k a k' Hk. unfold zoom. destruct (m (CLOCKS k)) as [[x c]|]; [|done]. by intros [= <- <-]. Qed.

(** *** The handlers *)

Lemma user_keeps_table k : (∀ t, keeps (k t)) → keeps (with_table k).
Proof. intros Hk. apply user_keeps_bind; [apply user_keeps_kernel, kkeeps_gets|]. intros [t|]; [apply Hk | apply user_keeps_ret]. Qed.
Lemma user_keeps_buffer t a n k : (∀ bs, keeps (k bs)) → keeps (with_buffer t a n k).
Proof. intros Hk. apply user_keeps_bind; [apply user_keeps_copy_from|]. intros [bs|]; [apply Hk | apply user_keeps_ret]. Qed.
Lemma user_keeps_str bs k : (∀ str, keeps (k str)) → keeps (with_str bs k).
Proof. intros Hk. unfold with_str. destruct (utf8_decode bs); [apply Hk | apply user_keeps_ret]. Qed.
Lemma user_keeps_path frame k : (∀ p, keeps (k p)) → keeps (with_path frame k).
Proof. intros Hk. apply user_keeps_table. intros t. apply user_keeps_buffer. intros bs. apply user_keeps_str. intros p. apply Hk. Qed.
Lemma user_keeps_or_zero m : keeps m → keeps (or_zero m).
Proof. intros Hm. apply user_keeps_bind; [done|]. intros o. apply user_keeps_ret. Qed.
Lemma user_keeps_cwd_for path : keeps (cwd_for root path).
Proof. unfold cwd_for. destruct (strip_prefix (tilde ++ [slash]) path), (strip_prefix [slash] path); try apply user_keeps_ret. apply user_keeps_kernel, kkeeps_cwd. Qed.
Lemma user_keeps_yield o : keeps (yield_to o).
Proof. apply user_keeps_bind; [apply user_keeps_kernel, kkeeps_schedule|]. intros d. apply user_keeps_ret. Qed.
Lemma user_keeps_open_current f r w : keeps (open_current f r w).
Proof. apply user_keeps_fds. Qed.
Lemma user_keeps_print t : keeps (print t).
Proof. by intros s x s' Hs [= <- <-]. Qed.
Lemma user_keeps_gets {A} (f : sys → A) : keeps (kgets f).
Proof. by intros s x s' Hs [= <- <-]. Qed.

Lemma user_keeps_named {A} (name_of : A → kst FS (list Z)) attr l : keeps (named_entries padding name_of attr l).
Proof.
  induction l as [|x l IH]; [apply user_keeps_ret|]. apply user_keeps_bind; [apply user_keeps_files|]. intros n.
  apply user_keeps_bind; [apply IH|]. intros rest. apply user_keeps_ret.
Qed.

Lemma length_dir_entry name attr : length (dir_entry padding name attr) = 264%nat.
Proof.
  unfold dir_entry. rewrite !length_app, length_replicate, length_take, length_le_bytes, Hpad. cbn [length].
  unfold DIR_ENTRY_NAME_CAPACITY. lia.
Qed.

Lemma named_entries_sizes {A} (name_of : A → kst FS (list Z)) attr l s r s' :
  named_entries padding name_of attr l s = Done (r, s') → Forall (λ v, Z.of_nat (length v) = 264) r.
Proof.
  revert s r s'. induction l as [|x l IH]; intros s r s' E; [injection E as <- <-; constructor|].
  apply kbind_inv in E as (n & s1 & _ & E). apply kbind_inv in E as (rest & s2 & E1 & E). injection E as <- <-.
  constructor; [by rewrite length_dir_entry | by apply (IH s1 rest s2)].
Qed.

Ltac keep :=
  repeat first
    [ apply user_keeps_ret | apply user_keeps_fault | apply user_keeps_gets | apply user_keeps_yield | apply user_keeps_files | apply user_keeps_fds | apply user_keeps_print
    | apply user_keeps_cwd_for | apply user_keeps_check | apply user_keeps_copy_to | apply user_keeps_open_current
    | apply user_keeps_kernel; first [apply kkeeps_update | apply kkeeps_wait | apply kkeeps_deploy | apply kkeeps_cwd | apply kkeeps_exit
                                | apply kkeeps_clocks | apply kkeeps_gets]
    | apply user_keeps_table; intros ? | apply user_keeps_buffer; intros ? | apply user_keeps_str; intros ? | apply user_keeps_path; intros ?
    | apply user_keeps_or_zero | apply user_keeps_try; intros | apply user_keeps_bind; intros
    | match goal with |- keeps (if ?b then _ else _) => destruct b | |- keeps (match ?x with _ => _ end) => destruct x end ].

Lemma user_keeps_read_dir frame : keeps (read_dir root padding frame).
Proof.
  unfold read_dir. apply user_keeps_table. intros t. destruct (checked_mul _ _); [|apply user_keeps_ret].
  apply user_keeps_bind; [apply user_keeps_check|]. intros [|]; cbn [negb]; [|apply user_keeps_ret].
  apply user_keeps_bind; [apply user_keeps_kernel, kkeeps_cwd|]. intros cwd. apply user_keeps_bind; [apply user_keeps_files|]. intros entries.
  intros s x s' Hs (dirs & s1 & E1 & E)%kbind_inv. apply kbind_inv in E as (fs & s2 & E2 & E).
  pose proof (named_entries_sizes _ _ _ _ _ _ E1) as L1. pose proof (named_entries_sizes _ _ _ _ _ _ E2) as L2.
  apply user_keeps_named in E1; [|done]. apply user_keeps_named in E2; [|done].
  apply (user_keeps_bind (copy_slice_to_user t (rdi frame) 264 (dirs ++ fs))
    (λ r, match r with None => ret 0 | Some _ => ret (Z.of_nat (length (dirs ++ fs))) end)) in E; [done | | | done].
  - apply user_keeps_copy_slice. by apply Forall_app.
  - intros r. destruct r; apply user_keeps_ret.
Qed.

Lemma user_keeps_clock_gettime frame : keeps (clock_gettime frame).
Proof.
  assert (Ha : ∀ m : kst clocks Timespec, keeps (let* ts := in_kernel (zoom CLOCKS set_clocks m) in
    with_table (λ t, let* r := copy_slice_to_user t (rsi frame) 16 [timespec_bytes ts] in
      match r with None => ret 0 | Some _ => ret 1 end))).
  { intros m. apply user_keeps_bind; [apply user_keeps_kernel, kkeeps_clocks|]. intros ts. apply user_keeps_table. intros t.
    apply user_keeps_bind; [|intros []; apply user_keeps_ret]. apply user_keeps_copy_slice. constructor; [|constructor].
    unfold timespec_bytes. by rewrite length_app, !length_le_bytes. }
  unfold clock_gettime. destruct (_ =? 0); [apply Ha|]. destruct (_ =? 1); [apply Ha | apply user_keeps_ret].
Qed.

Lemma user_keeps_args t a n k : (∀ str, keeps (k str)) → keeps (with_args t a n k).
Proof.
  intros Hk. unfold with_args. destruct (_ <? n); [apply user_keeps_ret|]. destruct (n =? 0); [by apply user_keeps_str|].
  apply user_keeps_buffer. intros bs. by apply user_keeps_str.
Qed.

Lemma user_keeps_elf r argv : keeps (in_memory (um_elf_load r argv)).
Proof. apply user_keeps_kernel, kkeeps_mem. intros x o x' Hx E. by apply (gu_elf I HI r argv x o). Qed.

Lemma user_keeps_execute frame : keeps (execute root user_code user_data frame).
Proof. unfold execute. repeat first [apply user_keeps_args; intros ? | apply user_keeps_elf | progress keep]. Qed.

End Guard.
