(* ===== verification/SyscallFile.v ===== *)
(** * SyscallFile: what the calls on open files and on the console do

    [UserSpec] is what the handlers may rely on in user memory: while
    [user_has m t a w bs], the process whose tables are [t] may read (and write, if
    [w]) the bytes from [a] on, which are [bs].  Under it and [FileSpec] the calls
    [read], [write], [open] and [close] do to the file, the descriptor, the console
    and the memory of the caller what they promise. *)

From S2P Require Import Prelude Text Context Time BlockDev Descriptors Paths Sched Syscalls SyscallSafe.

(** Two ranges of addresses that have no byte in common. *)
Definition apart_from (a n b k : Z) : Prop := b + k ≤ a ∨ a + n ≤ b.

Class UserSpec (M G K T : Type) `{UserMem M G K T} := {
  user_has : M → T → Z → bool → list Z → Prop;
  us_bytes m t a w bs : user_has m t a w bs → bytes bs;
  us_readable m t a w bs : user_has m t a w bs → user_has m t a false bs;
  us_split m t a w xs ys : user_has m t a w (xs ++ ys) ↔
    user_has m t a w xs ∧ user_has m t (a + Z.of_nat (length xs)) w ys;
  us_validate m t a w bs : user_has m t a w bs →
    ∃ m', um_validate t a (Z.of_nat (length bs)) w m = Done (true, m')
      ∧ ∀ b w' ds, user_has m t b w' ds → user_has m' t b w' ds;
  us_load m t a w bs : user_has m t a w bs →
    ∃ m', um_load a (Z.of_nat (length bs)) m = Done (bs, m')
      ∧ ∀ b w' ds, user_has m t b w' ds → user_has m' t b w' ds;
  us_store m t a old d : user_has m t a true old → bytes d → length d = length old →
    ∃ m', um_store a d m = Done (tt, m') ∧ user_has m' t a true d
      ∧ ∀ b w' ds, user_has m t b w' ds → apart_from a (Z.of_nat (length d)) b (Z.of_nat (length ds)) →
          user_has m' t b w' ds;
}.

Section Calls.
Context {M FS D F G K T : Type} `{ProcMemory M G K T, UserSpec M G K T, FileSpec FS F, DirOps FS D F}.
Context (root : D) (padding : list Z) (user_code user_data : Z).
Abbreviation sys := (system M FS D F G K T).
Implicit Types (s : sys) (frame : FullInterruptStackFrame) (m : M).

Abbreviation proc := (Process D F G K T).
Definition current s : option proc := PROCESSES (kern s) !! CURRENT_INDEX (kern s).
Definition with_memory m s : sys := set_kern (set_mem m (kern s)) s.

(** What the process has in memory outside of [a..a+n] is still there. *)
Definition user_kept m m' (t : T) (a n : Z) : Prop :=
  ∀ b w ds, user_has m t b w ds → apart_from a n b (Z.of_nat (length ds)) → user_has m' t b w ds.

(** ** Copies *)

Lemma in_memory_done {A} (f : kst M A) s a m' :
  f (MEM (kern s)) = Done (a, m') → in_memory (FS := FS) (D := D) (F := F) f s = Done (a, with_memory m' s).
Proof. intros E. unfold in_memory, in_kernel, in_mem, zoom. by rewrite E. Qed.

(** The current process is [p], with the tables [t]. *)
Definition runs s (p : proc) (t : T) : Prop := current s = Some p ∧ ring3_page_table p = Some t.

Lemma running_memory s p t m' : runs s p t → runs (with_memory m' s) p t.
Proof. done. Qed.

Lemma running_table s p t k : runs s p t → with_table k s = k t s.
Proof. intros [Hp Ht]. apply current_table. unfold current in Hp. by rewrite Hp. Qed.

Lemma check_accepts s t a w bs : user_has (MEM (kern s)) t a w bs →
  ∃ m', can_process_pointer (FS := FS) (D := D) (F := F) t a (Z.of_nat (length bs)) w s = Done (true, with_memory m' s)
    ∧ ∀ b w' ds, user_has (MEM (kern s)) t b w' ds → user_has m' t b w' ds.
Proof.
  intros Hu. destruct (us_validate _ _ _ _ _ Hu) as (m' & E & Hk). exists m'. split; [by apply in_memory_done | done].
Qed.

Lemma copy_from_user_ok s t a w bs : user_has (MEM (kern s)) t a w bs →
  ∃ m', copy_from_user (FS := FS) (D := D) (F := F) t a (Z.of_nat (length bs)) s = Done (Some bs, with_memory m' s)
    ∧ ∀ b w' ds, user_has (MEM (kern s)) t b w' ds → user_has m' t b w' ds.
Proof.
  intros Hu%us_readable. unfold copy_from_user. destruct (check_accepts s t a false bs Hu) as (m1 & E1 & K1).
  rewrite (kbind_done _ _ _ _ _ E1). cbn [negb]. destruct (Z.eqb_spec (Z.of_nat (length bs)) 0) as [E0|E0].
  - exists m1. destruct bs; [by split | cbn in E0; lia].
  - destruct (us_load m1 t a false bs (K1 _ _ _ Hu)) as (m2 & E2 & K2). exists m2.
    rewrite (kbind_done _ _ _ _ _ (in_memory_done _ (with_memory m1 s) _ _ E2)). split; [done|]. intros. by apply K2, K1.
Qed.

Lemma copy_to_user_ok s t a old d : user_has (MEM (kern s)) t a true old → bytes d → length d = length old →
  ∃ m', copy_to_user (FS := FS) (D := D) (F := F) t a d s = Done (Some tt, with_memory m' s)
    ∧ user_has m' t a true d ∧ user_kept (MEM (kern s)) m' t a (Z.of_nat (length d)).
Proof.
  intros Hu Hb Hl. unfold copy_to_user. rewrite Hl. destruct (check_accepts s t a true old Hu) as (m1 & E1 & K1).
  rewrite (kbind_done _ _ _ _ _ E1). cbn [negb]. destruct d as [|x d].
  - destruct old; [|done]. exists m1. split_and!; [done | by apply K1 |]. intros b w ds Hd _. by apply K1.
  - destruct (us_store m1 t a old (x :: d) (K1 _ _ _ Hu) Hb Hl) as (m2 & E2 & U2 & K2). exists m2.
    rewrite (kbind_done _ _ _ _ _ (in_memory_done _ (with_memory m1 s) _ _ E2)). split_and!; [done | done |].
    intros b w ds Hd Ha. rewrite <- Hl in *. by apply K2; [apply K1|].
Qed.

(** ** Descriptors of the current process *)

(** The state after an operation on the descriptors. *)
Definition after_fds (fds : fd_table F) (f : FS) s : sys :=
  match current s with
  | Some p => {| kern := set_processes (<[CURRENT_INDEX (kern s) := set_fds fds p]> (PROCESSES (kern s))) (kern s);
                 files := f; console := console s |}
  | None => s
  end.

Lemma current_fds_done {A} (op : fdm (S := FS) (F := F) A) none s p t a fds' f' :
  runs s p t → op (proc_fds p, files s) = Done (a, (fds', f')) →
  with_current_fds (M := M) (D := D) (G := G) (K := K) (T := T) op none s = Done (a, after_fds fds' f' s).
Proof. intros [Hp _] E. unfold with_current_fds, after_fds. unfold current in *. rewrite Hp, E. done. Qed.

Lemma running_after s p t fds' f' : runs s p t → runs (after_fds fds' f' s) (set_fds fds' p) t.
Proof.
  intros [Hp Ht]. split; [|done]. unfold after_fds. rewrite Hp. unfold current in *. cbn.
  by rewrite list_lookup_insert_eq by (by eapply lookup_lt_Some).
Qed.

Lemma after_files s p t fds' f' : runs s p t → files (after_fds fds' f' s) = f'.
Proof. intros [Hp _]. unfold after_fds. by rewrite Hp. Qed.
Lemma after_console fds' f' s : console (after_fds fds' f' s) = console s.
Proof. unfold after_fds. by destruct (current s). Qed.
Lemma after_mem fds' f' s : MEM (kern (after_fds fds' f' s)) = MEM (kern s).
Proof. unfold after_fds. by destruct (current s). Qed.

(** ** Reading *)

(** Room for [chunk] at the start of a buffer. *)
Lemma buffer_prefix m t a buf n : user_has m t a true buf → (n ≤ length buf)%nat →
  user_has m t a true (take n buf) ∧ user_has m t (a + Z.of_nat n) true (drop n buf).
Proof.
  intros Hu Hn. rewrite <- (take_drop n buf) in Hu. apply us_split in Hu. by rewrite length_take, Nat.min_l in Hu by done.
Qed.

Lemma read_run frame s p t o c buf :
  3 ≤ rdi frame → rdx frame = Z.of_nat (length buf) → runs s p t →
  get_fd (Z.to_nat (rdi frame)) (proc_fds p) = Some (FileFd o) → of_readable o = true → 0 ≤ of_offset o →
  holds (files s) (of_file o) c → Z.of_nat (length c) ≤ usize_max →
  user_has (MEM (kern s)) t (rsi frame) true buf →
  let chunk := take (length buf) (drop (Z.to_nat (of_offset o)) c) in
  let end_ := Z.max (of_offset o) (Z.min (of_offset o + rdx frame) (Z.of_nat (length c))) in
  ∃ s' fds', read (FS := FS) (D := D) frame s = Done (Return (Some (Z.of_nat (length chunk))), s')
    ∧ user_has (MEM (kern s')) t (rsi frame) true (chunk ++ drop (length chunk) buf)
    ∧ user_kept (MEM (kern s)) (MEM (kern s')) t (rsi frame) (rdx frame)
    ∧ runs s' (set_fds fds' p) t ∧ get_fd (Z.to_nat (rdi frame)) fds' = Some (FileFd (set_offset end_ o))
    ∧ (∀ j, j ≠ Z.to_nat (rdi frame) → get_fd j fds' = get_fd j (proc_fds p))
    ∧ holds (files s') (of_file o) c ∧ console s' = console s.
Proof.
  intros Hfd Hn Hr Ho Hread Hoff Hh Hc Hu chunk end_. unfold read. rewrite (proj2 (Z.leb_le _ _)) by done.
  rewrite (running_table s p t _ Hr), Hn. destruct (check_accepts s t _ true buf Hu) as (m1 & E1 & K1).
  rewrite (kbind_done _ _ _ _ _ E1). cbn [negb].
  destruct (read_fd_run (proc_fds p) (files s) _ o (rdx frame) c Hh Ho Hread Hoff ltac:(lia) Hc) as (fds' & f' & E2 & Hh' & Hg & Hj).
  rewrite Hn in E2. unfold read_current_file_descriptor.
  pose proof (running_memory s p t m1 Hr) as Hr1.
  rewrite (kbind_done _ _ _ _ _ (current_fds_done _ _ (with_memory m1 s) p t _ _ _ Hr1 E2)).
  rewrite Nat2Z.id. fold chunk. set (s2 := after_fds fds' f' (with_memory m1 s)).
  assert (Hl : (length chunk ≤ length buf)%nat) by (unfold chunk; rewrite length_take; lia).
  assert (Hu2 : user_has (MEM (kern s2)) t (rsi frame) true buf) by (unfold s2; rewrite after_mem; by apply K1).
  destruct (buffer_prefix _ _ _ _ _ Hu2 Hl) as [Hp Hq].
  destruct (copy_to_user_ok s2 t (rsi frame) (take (length chunk) buf) chunk Hp) as (m3 & E3 & U3 & K3).
  { apply Forall_take, Forall_drop. by eapply bytes_law. }
  { rewrite length_take. lia. }
  rewrite (kbind_done _ _ _ _ _ E3). eexists _, fds'. split; [done|]. cbn [kern set_kern with_memory MEM set_mem].
  split_and!.
  - apply us_split. split; [done|]. apply K3; [done|]. right. lia.
  - intros b w ds Hb Ha. apply K3; [unfold s2; rewrite after_mem; by apply K1|]. unfold apart_from in *. lia.
  - apply running_memory. unfold s2. by eapply running_after.
  - by rewrite Hg.
  - done.
  - unfold s2. change (files (with_memory m3 (after_fds fds' f' (with_memory m1 s)))) with (files (after_fds fds' f' (with_memory m1 s))).
    by rewrite (after_files _ _ _ _ _ Hr1).
  - unfold s2. change (console (with_memory m3 (after_fds fds' f' (with_memory m1 s)))) with (console (after_fds fds' f' (with_memory m1 s))).
    by rewrite after_console.
Qed.

(** ** Writing *)

Lemma buffer_ok s t a w bs k : user_has (MEM (kern s)) t a w bs →
  ∃ m', with_buffer (FS := FS) (D := D) (F := F) t a (Z.of_nat (length bs)) k s = k bs (with_memory m' s)
    ∧ ∀ b w' ds, user_has (MEM (kern s)) t b w' ds → user_has m' t b w' ds.
Proof.
  intros Hu. destruct (copy_from_user_ok s t a w bs Hu) as (m' & E & Hk). exists m'. split; [|done].
  unfold with_buffer. by rewrite (kbind_done _ _ _ _ _ E).
Qed.

(** The write call has copied the buffer and looked the descriptor up. *)
Lemma write_start frame s p t w d fd :
  rdx frame = Z.of_nat (length d) → runs s p t → user_has (MEM (kern s)) t (rsi frame) w d →
  get_fd (Z.to_nat (rdi frame)) (proc_fds p) = fd →
  ∃ m', (∀ b w' ds, user_has (MEM (kern s)) t b w' ds → user_has m' t b w' ds) ∧
    write (FS := FS) (D := D) frame s =
      match fd with
      | Some Stdout | Some Stderr => with_str d (λ string, print string ;;* ret (Z.of_nat (length d)))
      | Some (FileFd _) => or_zero (write_current_file_descriptor (rdi frame) d)
      | _ => ret 0
      end (with_memory m' s).
Proof.
  intros Hn Hr Hu Hfd. unfold write. rewrite (running_table s p t _ Hr), Hn.
  destruct (buffer_ok s t (rsi frame) w d (λ buffer,
    let* fd := in_kernel (get_current_file_descriptor (Z.to_nat (rdi frame))) in
    match fd with
    | Some Stdout | Some Stderr => with_str buffer (λ string, print string ;;* ret (Z.of_nat (length buffer)))
    | Some (FileFd _) => or_zero (write_current_file_descriptor (rdi frame) buffer)
    | _ => ret 0
    end) Hu) as (m1 & -> & K1).
  exists m1. split; [done|]. rewrite (kbind_done _ _ _ fd (with_memory m1 s)); [done|].
  unfold in_kernel, get_current_file_descriptor, kgets, zoom. cbn. destruct Hr as [Hp _]. unfold current in Hp.
  rewrite Hp. cbn. rewrite Hfd. by destruct s.
Qed.

Lemma write_run frame s p t w o c d :
  rdx frame = Z.of_nat (length d) → runs s p t → user_has (MEM (kern s)) t (rsi frame) w d →
  get_fd (Z.to_nat (rdi frame)) (proc_fds p) = Some (FileFd o) → of_writable o = true → 0 ≤ of_offset o →
  of_offset o + Z.of_nat (length d) ≤ usize_max → holds (files s) (of_file o) c →
  (of_offset o + Z.of_nat (length d) ≤ Z.of_nat (length c)
   ∨ may_grow (files s) (of_file o) (of_offset o + Z.of_nat (length d))) →
  let end_ := (Z.to_nat (of_offset o) + length d)%nat in
  let o' := set_offset (of_offset o + Z.of_nat (length d)) o in
  ∃ s', write (FS := FS) (D := D) frame s = Done (Return (Some (Z.of_nat (length d))), s')
    ∧ runs s' (set_fds (<[Z.to_nat (rdi frame) := Some (FileFd o')]> (proc_fds p)) p) t
    ∧ holds (files s') (of_file o) (splice (c ++ replicate (end_ - length c) 0) (Z.to_nat (of_offset o)) d)
    ∧ (∀ b w' ds, user_has (MEM (kern s)) t b w' ds → user_has (MEM (kern s')) t b w' ds)
    ∧ console s' = console s.
Proof.
  intros Hn Hr Hu Ho Hw Hoff Hmax Hh Hg end_ o'.
  destruct (write_start frame s p t w d _ Hn Hr Hu Ho) as (m1 & K1 & ->).
  destruct (write_fd_ok (proc_fds p) (files s) _ o d c Hh Ho Hw Hoff Hmax (us_bytes _ _ _ _ _ Hu) Hg) as (f' & E & Hh').
  fold o' in E. set (fds' := <[Z.to_nat (rdi frame) := _]> (proc_fds p)) in *.
  pose proof (running_memory s p t m1 Hr) as Hr1.
  exists (after_fds fds' f' (with_memory m1 s)). split_and!.
  - unfold or_zero, write_current_file_descriptor. by rewrite (kbind_done _ _ _ _ _ (current_fds_done _ _ (with_memory m1 s) p t _ _ _ Hr1 E)).
  - by apply running_after.
  - by rewrite (after_files _ _ _ _ _ Hr1).
  - intros b w' ds Hb. rewrite after_mem. by apply K1.
  - by rewrite after_console.
Qed.

(** Text that is not UTF-8 is not printed. *)
Lemma console_run frame s p t w d :
  rdx frame = Z.of_nat (length d) → runs s p t → user_has (MEM (kern s)) t (rsi frame) w d →
  get_fd (Z.to_nat (rdi frame)) (proc_fds p) = Some Stdout →
  ∃ s', write (FS := FS) (D := D) frame s = Done (Return (Some (match utf8_decode d with Some _ => Z.of_nat (length d) | None => 0 end)), s')
    ∧ console s' = console s ++ option_list (utf8_decode d)
    ∧ runs s' p t ∧ files s' = files s
    ∧ (∀ b w' ds, user_has (MEM (kern s)) t b w' ds → user_has (MEM (kern s')) t b w' ds).
Proof.
  intros Hn Hr Hu Ho. destruct (write_start frame s p t w d _ Hn Hr Hu Ho) as (m1 & K1 & ->). unfold with_str.
  destruct (utf8_decode d) as [str|]; eexists; (split; [reflexivity|]); cbn; rewrite ?app_nil_r; done.
Qed.

(** ** Opening and closing *)

(** Where a relative path starts. *)
Definition start_dir (p : proc) (path : list Z) : D :=
  match strip_prefix (tilde ++ [slash]) path, strip_prefix [slash] path with
  | None, None => curr_working_dir p
  | _, _ => root
  end.

Lemma cwd_for_ok s p t path : runs s p t → cwd_for root path s = Done (start_dir p path, s).
Proof.
  intros [Hp _]. unfold cwd_for, start_dir.
  destruct (strip_prefix (tilde ++ [slash]) path), (strip_prefix [slash] path); try done.
  unfold in_kernel, get_current_cwd, zoom, kget, kbind. unfold current in Hp.
  destruct (PROCESSES (kern s)) as [|x l] eqn:El; [by rewrite lookup_nil in Hp|]. cbn [length Nat.eqb].
  rewrite Hp. cbn. by destruct s.
Qed.

Lemma open_run frame s p t w d path f fs' c :
  rsi frame = Z.of_nat (length d) → runs s p t → user_has (MEM (kern s)) t (rdi frame) w d →
  utf8_decode d = Some path →
  find_file_from_path root (start_dir p (trim path)) (trim path) (files s) = Done (Some f, fs') → holds fs' f c →
  let '(fd, fds') := open_file f true true (proc_fds p) in
  ∃ s', open root frame s = Done (Return (Some (Z.of_nat fd)), s')
    ∧ runs s' (set_fds fds' p) t ∧ holds (files s') f c
    ∧ (∀ b w' ds, user_has (MEM (kern s)) t b w' ds → user_has (MEM (kern s')) t b w' ds)
    ∧ console s' = console s.
Proof.
  intros Hn Hr Hu Hd Hf Hh. destruct (open_file f true true (proc_fds p)) as [fd fds'] eqn:Eo.
  unfold open, with_path. rewrite (running_table s p t _ Hr), Hn.
  destruct (buffer_ok s t (rdi frame) w d (λ buffer, with_str buffer (λ path, or_zero (curr_process_open_file root (trim path) true true))) Hu)
    as (m1 & -> & K1).
  unfold with_str. rewrite Hd. pose proof (running_memory s p t m1 Hr) as Hr1. unfold or_zero, curr_process_open_file.
  set (s1 := with_memory m1 s) in *. set (s2 := set_files fs' s1).
  assert (E2 : in_files (find_file_from_path root (start_dir p (trim path)) (trim path)) s1 = Done (Some f, s2)).
  { unfold in_files, zoom. cbn. by rewrite Hf. }
  assert (Hr2 : runs s2 p t) by done.
  assert (E3 : open_current f true true s2 = Done (Some (Z.of_nat fd), after_fds fds' fs' s2)).
  { unfold open_current. apply (current_fds_done _ _ s2 p t _ _ _ Hr2). cbn [fst snd]. rewrite Eo. done. }
  exists (after_fds fds' fs' s2). split.
  - unfold kbind at 1. rewrite (kbind_done _ _ _ _ _ (cwd_for_ok s1 p t (trim path) Hr1)).
    by rewrite (ktry_some _ _ _ _ _ E2), E3.
  - split_and!; [by apply running_after | by rewrite (after_files _ _ _ _ _ Hr2) | | by rewrite after_console].
    intros b w' ds Hb. rewrite after_mem. by apply K1.
Qed.

Lemma close_run frame s p t fd o :
  runs s p t → Z.to_nat (rdi frame) = fd → (3 ≤ fd)%nat → get_fd fd (proc_fds p) = Some (FileFd o) →
  ∃ s', close (FS := FS) (D := D) frame s = Done (Return (Some 1), s')
    ∧ runs s' (set_fds (<[fd := None]> (proc_fds p)) p) t ∧ files s' = files s
    ∧ MEM (kern s') = MEM (kern s) ∧ console s' = console s.
Proof.
  intros Hr Hfd Hge Ho. unfold close, close_current_file_descriptor. rewrite Hfd.
  assert (Hl : (fd < length (proc_fds p))%nat).
  { unfold get_fd in Ho. destruct (proc_fds p !! fd) eqn:E; [|done]. by eapply lookup_lt_Some. }
  assert (Ec : close_fd fd (proc_fds p) = (true, <[fd := None]> (proc_fds p))).
  { unfold close_fd. by rewrite (proj2 (Nat.ltb_ge _ _)), (proj2 (Nat.leb_gt _ _)) by lia. }
  exists (after_fds (<[fd := None]> (proc_fds p)) (files s) s).
  rewrite (kbind_done _ _ _ true (after_fds (<[fd := None]> (proc_fds p)) (files s) s)).
  2: { apply (current_fds_done _ _ s p t _ _ _ Hr). cbn [fst snd]. by rewrite Ec. }
  split_and!; [done | by apply running_after | by rewrite (after_files _ _ _ _ _ Hr) | by rewrite after_mem | by rewrite after_console].
Qed.

(** ** The calls *)

Abbreviation isr := (syscall_isr root padding user_code user_data).

Lemma isr_returns frame s v s' :
  syscall root padding user_code user_data frame s = Done (Return (Some v), s') → isr frame s = Done (Jump (set_rax v frame), s').
Proof. intros E. unfold syscall_isr. by rewrite (kbind_done _ _ _ _ _ E). Qed.

(** C12: The read call on an open file returns to its caller with the number of bytes it
    delivers: the next bytes of the file, as many as fit the buffer and are there, at
    the caller's address.  The rest of the buffer and every other byte of the process
    keep their contents, the descriptor has moved past what was read, and the file,
    the other descriptors and the console are as they were. *)
Theorem read_call_delivers frame s p t o c buf :
  rax frame = 3 → 3 ≤ rdi frame → rdx frame = Z.of_nat (length buf) → runs s p t →
  get_fd (Z.to_nat (rdi frame)) (proc_fds p) = Some (FileFd o) → of_readable o = true → 0 ≤ of_offset o →
  holds (files s) (of_file o) c → Z.of_nat (length c) ≤ usize_max →
  user_has (MEM (kern s)) t (rsi frame) true buf →
  let chunk := take (length buf) (drop (Z.to_nat (of_offset o)) c) in
  ∃ s' fds', isr frame s = Done (Jump (set_rax (Z.of_nat (length chunk)) frame), s')
    ∧ user_has (MEM (kern s')) t (rsi frame) true (chunk ++ drop (length chunk) buf)
    ∧ user_kept (MEM (kern s)) (MEM (kern s')) t (rsi frame) (rdx frame)
    ∧ runs s' (set_fds fds' p) t
    ∧ get_fd (Z.to_nat (rdi frame)) fds' = Some (FileFd (set_offset (of_offset o + Z.of_nat (length chunk)) o))
    ∧ (∀ j, j ≠ Z.to_nat (rdi frame) → get_fd j fds' = get_fd j (proc_fds p))
    ∧ holds (files s') (of_file o) c ∧ console s' = console s.
Proof.
  intros Hx Hfd Hn Hr Ho Hread Hoff Hh Hc Hu chunk.
  destruct (read_run frame s p t o c buf Hfd Hn Hr Ho Hread Hoff Hh Hc Hu) as (s' & fds' & E & Hrest).
  exists s', fds'. split; [apply isr_returns; unfold syscall; by rewrite Hx|].
  replace (of_offset o + Z.of_nat (length chunk))
    with (Z.max (of_offset o) (Z.min (of_offset o + rdx frame) (Z.of_nat (length c)))); [done|].
  unfold chunk. rewrite length_take, length_drop, Hn. lia.
Qed.

(** C13: The write call on an open file takes the bytes at the caller's address,
    stores all of them at the descriptor's offset - the file grows with zeros up to
    there when it is shorter - reports their number and moves the offset past them.
    The memory of the process, the other descriptors and the console do not change. *)
Theorem write_call_stores frame s p t w o c d :
  rax frame = 2 → rdx frame = Z.of_nat (length d) → runs s p t → user_has (MEM (kern s)) t (rsi frame) w d →
  get_fd (Z.to_nat (rdi frame)) (proc_fds p) = Some (FileFd o) → of_writable o = true → 0 ≤ of_offset o →
  of_offset o + Z.of_nat (length d) ≤ usize_max → holds (files s) (of_file o) c →
  (of_offset o + Z.of_nat (length d) ≤ Z.of_nat (length c)
   ∨ may_grow (files s) (of_file o) (of_offset o + Z.of_nat (length d))) →
  let end_ := (Z.to_nat (of_offset o) + length d)%nat in
  let o' := set_offset (of_offset o + Z.of_nat (length d)) o in
  ∃ s', isr frame s = Done (Jump (set_rax (Z.of_nat (length d)) frame), s')
    ∧ runs s' (set_fds (<[Z.to_nat (rdi frame) := Some (FileFd o')]> (proc_fds p)) p) t
    ∧ holds (files s') (of_file o) (splice (c ++ replicate (end_ - length c) 0) (Z.to_nat (of_offset o)) d)
    ∧ (∀ b w' ds, user_has (MEM (kern s)) t b w' ds → user_has (MEM (kern s')) t b w' ds)
    ∧ console s' = console s.
Proof.
  intros Hx Hn Hr Hu Ho Hw Hoff Hmax Hh Hg end_ o'.
  destruct (write_run frame s p t w o c d Hn Hr Hu Ho Hw Hoff Hmax Hh Hg) as (s' & E & Hrest).
  exists s'. split; [apply isr_returns; unfold syscall; by rewrite Hx | done].
Qed.
End Calls.
