(* ===== verification/Boot.v ===== *)
(** * Boot: bringing the kernel up (src/src/lib.rs)

    [boot_cpu] and [boot_interrupts] are the parts of [rust_main] that set up the line, the
    processor, the interrupt path and the clock, with their messages; [start_shell] is the
    part that loads the shell and starts scheduling.  RustMain joins them with the
    initializers of MemCtl, Heap, Pci, Ahci and FatMount that lie between them.
    In [start_shell] the messages are left out, but the directories they name are listed;
    interrupts, which it turns on once more, are on. *)

From S2P Require Import Prelude Text Context Time Devices DevicesSpec BlockDev Descriptors Paths Frames Paging PageExample MemCtl Stacks.
From S2P Require Import Sched Interrupts Rtc Syscalls SyscallFile.
From Stdlib Require Import Ascii String.

(** ** The processor *)

Record cpu := {
  efer : Z;
  cr0 : Z;
  interrupts : bool;
  loaded_idt : idt;
  loaded_tss : option TaskStateSegment;
}.

Definition NO_EXECUTE_ENABLE : Z := 2 ^ 11.
Definition WRITE_PROTECT : Z := 2 ^ 16.

Definition enable_nxe_bit (c : cpu) : cpu :=
  {| efer := Z.lor (efer c) NO_EXECUTE_ENABLE; cr0 := cr0 c; interrupts := interrupts c; loaded_idt := loaded_idt c; loaded_tss := loaded_tss c |}.
Definition enable_write_protect_bit (c : cpu) : cpu :=
  {| efer := efer c; cr0 := Z.lor (cr0 c) WRITE_PROTECT; interrupts := interrupts c; loaded_idt := loaded_idt c; loaded_tss := loaded_tss c |}.
Definition set_interrupts (b : bool) (c : cpu) : cpu :=
  {| efer := efer c; cr0 := cr0 c; interrupts := b; loaded_idt := loaded_idt c; loaded_tss := loaded_tss c |}.
Definition load_tables (i : idt) (t : option TaskStateSegment) (c : cpu) : cpu :=
  {| efer := efer c; cr0 := cr0 c; interrupts := interrupts c; loaded_idt := i; loaded_tss := t |}.

(** [memory] is the controller that [mem::init] leaves. *)
Record computer (S A : Type) := {
  ports : S;
  core : cpu;
  memory : MemoryController A;
  wall : clocks;
}.
Arguments ports {S A} _.
Arguments core {S A} _.
Arguments memory {S A} _.
Arguments wall {S A} _.

Abbreviation text := Log.text.

Section Interrupts.
Context {S A : Type} `{PortIo S} `{PageFrameAllocator A}.
Abbreviation bm := (kst (computer S A)).
Context (fuel : nat).

Definition at_ports {B} (m : kst S B) : bm B :=
  zoom ports (λ s c, {| ports := s; core := core c; memory := memory c; wall := wall c |}) m.
Definition at_memory {B} (m : kst (MemoryController A) B) : bm B :=
  zoom memory (λ x c, {| ports := ports c; core := core c; memory := x; wall := wall c |}) m.
Definition at_core (f : cpu → cpu) : bm unit :=
  kmodify (λ c, {| ports := ports c; core := f (core c); memory := memory c; wall := wall c |}).
Definition log (t : Log.LogType) (message : list Z) : bm unit := at_ports (log_write fuel t message).

(** [serial_init(); enable_nxe_bit(); enable_write_protect_bit();]. *)
Definition boot_cpu : bm unit :=
  at_ports (serial_init fuel) ;;* at_core enable_nxe_bit ;;* at_core enable_write_protect_bit.

(** The task state segment is built when the GDT is first used. *)
Definition init_gdt : bm unit :=
  let* tss := at_memory init_tss in at_core (λ c, load_tables (loaded_idt c) (Some tss) c).

(** [time::init]. *)
Definition time_init : bm unit :=
  let* unix_seconds := at_ports (read_clock fuel) in
  kmodify (λ c, {| ports := ports c; core := core c; memory := memory c;
                   wall := {| TICKS := TICKS (wall c); BOOT_UNIX_SECONDS := unix_seconds |} |}) ;;*
  log Log.OK (text "Initialized wall clock, unix time: " ++ Log.decimal unix_seconds).

(** [int n] in the kernel; the debug handler is the one that returns. *)
Definition kernel_interrupt (n : Z) : bm unit :=
  let* c := kgets core in
  match software_interrupt (loaded_idt c) 0 n with
  | Some debug_isr => at_ports (run_debug fuel)
  | _ => kfault Undefined
  end.

(** The panic handler; [message] is the formatted location and message. *)
Definition panic (message : list Z) : bm unit := log Log.ERR message ;;* kfault Hang.

(** From the heap to the test of the interrupt table, which is static and empty
    before. *)
Definition boot_interrupts : bm unit :=
  log Log.OK (text "Initialized kernel heap...") ;;*
  log Log.OK (text "Off... 0x4BA") ;;*
  init_gdt ;;*
  log Log.OK (text "Initialized kernel GDT") ;;*
  at_core (set_interrupts false) ;;*
  at_ports remap_pic ;;*
  at_core (λ c, load_tables (init_idt ∅) (loaded_tss c) c) ;;*
  at_ports (init_pit fuel) ;;*
  time_init ;;*
  at_core (set_interrupts true) ;;*
  log Log.OK (text "Initialized IDT") ;;*
  kernel_interrupt 0x34 ;;*
  log Log.OK (text "Returned from interrupt").

(** What is on the serial line then. *)
Definition boot_log (unix_seconds : Z) : list Z := List.concat (Log.line Log.OK <$>
  [text "Initialized kernel heap..."; text "Off... 0x4BA"; text "Initialized kernel GDT"; text "Initialized PIT, divisor: 11931";
   text "Initialized wall clock, unix time: " ++ Log.decimal unix_seconds; text "Initialized IDT"; text "Debug isr called!";
   text "Returned from interrupt"]).
End Interrupts.

(** ** The shell *)

Section Shell.
Context {M FS D F G K T : Type} `{ProcMemory M G K T, UserMem M G K T, FileOps FS F, DirOps FS D F}.
Context (root : D) (user_code user_data : Z).
Abbreviation sys := (system M FS D F G K T).
Abbreviation sm := (kst sys).

Definition find_file_recursive (d : D) (path : list Z) : kst FS (option F) := find_file_components d (normalize_path_components path).

Fixpoint name_files (l : list F) : kst FS unit :=
  match l with [] => kret tt | f :: l => let* _name := f_name f in name_files l end.
Fixpoint name_directories (l : list D) : kst FS unit :=
  match l with
  | [] => kret tt
  | d :: l =>
      let* _name := d_name d in
      let* subentries := d_list d in
      name_files subentries.2 ;;*
      name_directories l
  end.

Definition shell_path : list Z := text "bin/shell.elf".
Definition shell_arg : list Z := text "shell".

(** The [loop {}] at the end waits for the timer. *)
Definition start_shell : sm unit :=
  let* root_entries := in_files (d_list root) in
  in_files (name_files root_entries.2) ;;*
  in_files (name_directories root_entries.1) ;;*
  let* shell_elf := in_files (find_file_recursive root shell_path) in
  let* shell_elf := or_panic shell_elf in
  let* shell_binary := in_files (f_read shell_elf) in
  let* shell_binary := or_panic shell_binary in
  let* shell_entry := in_memory (um_elf_load shell_binary [shell_arg]) in
  let* shell_entry := or_panic shell_entry in
  in_kernel (deploy root user_code user_data shell_entry false) ;;*
  in_kernel enable.
End Shell.

(** ** The interrupt path *)

Section InterruptProps.
Context {S A : Type} `{Board S} `{PageFrameAllocator A}.
Context (fuel : nat).
Implicit Types c : computer S A.

Lemma at_ports_done {B} (m : kst S B) c b s' : m (ports c) = Done (b, s') →
  at_ports m c = Done (b, {| ports := s'; core := core c; memory := memory c; wall := wall c |}).
Proof. intros E. unfold at_ports, zoom. by rewrite E. Qed.
Lemma at_memory_done {B} (m : kst (MemoryController A) B) c b x : m (memory c) = Done (b, x) →
  at_memory m c = Done (b, {| ports := ports c; core := core c; memory := x; wall := wall c |}).
Proof. intros E. unfold at_memory, zoom. by rewrite E. Qed.

(** The line is ready, has sent [sent], and the other chips are these. *)
Record line_at (sent : list Z) (ma sl : pic) (ti : pit) (cl : cmos) (s : S) : Prop := {
  la_ready : line_ready fuel (serial (chips s));
  la_sent : u_sent (serial (chips s)) = sent;
  la_chips : master (chips s) = ma ∧ slave (chips s) = sl ∧ timer (chips s) = ti ∧ clock (chips s) = cl;
}.

(** A log message: nothing but the line changes. *)
Lemma log_then {B} t message (k : kst (computer S A) B) s co m w sent ma sl ti cl : line_at sent ma sl ti cl s →
  ∃ s', (log fuel t message ;;* k) {| ports := s; core := co; memory := m; wall := w |}
      = k {| ports := s'; core := co; memory := m; wall := w |}
    ∧ line_at (sent ++ List.map (wrap 8) (Log.line t message)) ma sl ti cl s'.
Proof.
  intros [Hr Hs Hc]. destruct (log_write_sends fuel t message s Hr) as (s' & E & S' & R' & u & C). exists s'. split.
  - by rewrite (kbind_done _ _ _ _ _ (at_ports_done _ {| ports := s; core := co; memory := m; wall := w |} _ _ E)).
  - split; [done | by rewrite S', Hs |]. rewrite C. exact Hc.
Qed.

Lemma init_gdt_then {B} (k : kst (computer S A) B) s co m w tss m' : init_tss m = Done (tss, m') →
  (init_gdt ;;* k) {| ports := s; core := co; memory := m; wall := w |}
  = k {| ports := s; core := load_tables (loaded_idt co) (Some tss) co; memory := m'; wall := w |}.
Proof.
  intros E. unfold init_gdt. rewrite kbind_assoc. by rewrite (kbind_done _ _ _ _ _ (at_memory_done _ {| ports := s; core := co; memory := m; wall := w |} _ _ E)).
Qed.

(** The controllers and the timer. *)
Lemma pic_pit_then {B} (f : cpu → cpu) (k : kst (computer S A) B) s co m w sent ma sl ti cl : line_at sent ma sl ti cl s →
  ∃ s', (at_ports remap_pic ;;* at_core f ;;* at_ports (init_pit fuel) ;;* k) {| ports := s; core := co; memory := m; wall := w |}
      = k {| ports := s'; core := f co; memory := m; wall := w |}
    ∧ line_at (sent ++ List.map (wrap 8) (Log.line Log.OK pit_message)) (master (chips s')) (slave (chips s')) {| t_mode := 3; t_low := None; t_reload := 11931 |} cl s'
    ∧ p_offset (master (chips s')) = 0x20 ∧ Z.testbit (p_mask (master (chips s'))) 0 = false.
Proof.
  intros [Hr Hs (_ & _ & _ & Hc)]. destruct (remap_pic_run s) as (s1 & E1 & C1).
  destruct (init_pit_spec fuel s1) as (s2 & E2 & T2 & R2 & K2 & S2 & M2 & O2); [by rewrite C1 | by rewrite C1 |]. exists s2. split_and!.
  - rewrite (kbind_done _ _ _ _ _ (at_ports_done _ {| ports := s; core := co; memory := m; wall := w |} _ _ E1)).
    unfold at_core at 1, kmodify. unfold kbind at 1. cbn [ports core memory wall].
    by rewrite (kbind_done _ _ _ _ _ (at_ports_done _ {| ports := s1; core := f co; memory := m; wall := w |} _ _ E2)).
  - split; [done | by rewrite S2, C1, <- Hs |]. split_and!; [done | done | done | by rewrite K2, C1].
  - by rewrite O2, C1.
  - rewrite M2. by rewrite Z.clearbit_eq by lia.
Qed.

(** Where the clock chip stands matters to nobody else. *)
Lemma time_init_then {B} (k : kst (computer S A) B) s co m w sent ma sl ti cl n h mi sec :
  line_at sent ma sl ti cl s → displays s (Nat.iter n next_day epoch) h mi sec → (updating s < fuel)%nat →
  let u := Z.of_nat n * 86400 + h * 3600 + mi * 60 + sec in
  ∃ s' cl', (time_init fuel ;;* k) {| ports := s; core := co; memory := m; wall := w |}
      = k {| ports := s'; core := co; memory := m; wall := {| TICKS := TICKS w; BOOT_UNIX_SECONDS := u |} |}
    ∧ line_at (sent ++ List.map (wrap 8) (Log.line Log.OK (text "Initialized wall clock, unix time: " ++ Log.decimal u))) ma sl ti cl' s'.
Proof.
  intros [Hr Hs (Hma & Hsl & Hti & _)] Hd Hu u. destruct (read_clock_spec n h mi sec s fuel Hd Hu) as (s1 & E1 & sel & j & C1).
  assert (L1 : line_at sent ma sl ti (clock (chips s1)) s1) by (by split; rewrite C1).
  unfold time_init. rewrite kbind_assoc. rewrite (kbind_done _ _ _ _ _ (at_ports_done _ {| ports := s; core := co; memory := m; wall := w |} _ _ E1)).
  rewrite kbind_assoc. unfold kmodify. unfold kbind at 1. cbn [ports core memory wall]. fold u.
  destruct (log_then Log.OK (text "Initialized wall clock, unix time: " ++ Log.decimal u) k s1 co m
    {| TICKS := TICKS w; BOOT_UNIX_SECONDS := u |} _ _ _ _ _ L1) as (s2 & E2 & L2). by exists s2, (clock (chips s1)).
Qed.

Lemma log_unit t message c : log fuel t message c = (log fuel t message ;;* kret tt) c.
Proof. unfold kbind. by destruct (log fuel t message c) as [[[] ?]|]. Qed.

(** The next message of the goal; the next change of the processor. *)
Ltac log_step := match goal with L : line_at _ _ _ _ _ ?s |- context [kbind (log fuel ?t ?msg) (λ _, ?k) (Build_computer _ _ ?s ?co ?m ?w)] =>
  let E := fresh in let L' := fresh "L" in let s' := fresh "s" in
  destruct (log_then t msg k s co m w _ _ _ _ _ L) as (s' & E & L'); rewrite E; clear E end.
Ltac core_step := unfold at_core at 1, kmodify at 1; unfold kbind at 1; cbn [ports core memory wall].

(** [boot_interrupts] on a line that is ready. *)
Lemma boot_interrupts_run s co m w tss m' sent ma sl ti cl n h mi sec :
  line_at sent ma sl ti cl s → init_tss m = Done (tss, m') →
  displays s (Nat.iter n next_day epoch) h mi sec → (updating s < fuel)%nat →
  let u := Z.of_nat n * 86400 + h * 3600 + mi * 60 + sec in
  ∃ s' cl', boot_interrupts fuel {| ports := s; core := co; memory := m; wall := w |}
      = Done (tt, {| ports := s'; core := set_interrupts true (load_tables (init_idt ∅) (Some tss) co); memory := m';
                     wall := {| TICKS := TICKS w; BOOT_UNIX_SECONDS := u |} |})
    ∧ line_at (sent ++ List.map (wrap 8) (boot_log u)) (master (chips s')) (slave (chips s'))
        {| t_mode := 3; t_low := None; t_reload := 11931 |} cl' s'
    ∧ p_offset (master (chips s')) = 0x20 ∧ Z.testbit (p_mask (master (chips s'))) 0 = false.
Proof.
  intros L0 Ht Hd Hu u. assert (Hc : ∀ s', clock (chips s') = clock (chips s) → displays s' (Nat.iter n next_day epoch) h mi sec ∧ (updating s' < fuel)%nat).
  { intros s' E. unfold updating. rewrite E. split; [by apply (displays_same s) | done]. }
  unfold boot_interrupts. do 2 log_step. rewrite (init_gdt_then _ _ _ _ _ _ _ Ht). log_step. core_step.
  match goal with L : line_at _ _ _ _ _ _ |- context [kbind (at_ports remap_pic) (λ _, kbind (at_core ?f) (λ _, kbind _ (λ _, ?k))) (Build_computer _ _ ?s ?co ?m ?w)] =>
    destruct (pic_pit_then f k s co m w _ _ _ _ _ L) as (s4 & -> & L4 & O4 & M4) end.
  destruct (Hc s4) as [Hd4 Hu4]; [rewrite (proj2 (proj2 (proj2 (la_chips _ _ _ _ _ _ L4)))); symmetry; apply (la_chips _ _ _ _ _ _ L0)|].
  match goal with |- context [kbind (time_init fuel) (λ _, ?k) (Build_computer _ _ ?s ?co ?m ?w)] =>
    destruct (time_init_then k s co m w _ _ _ _ _ n h mi sec L4 Hd4 Hu4) as (s5 & cl5 & -> & L5) end. fold u in L5 |- *. core_step.
  log_step. unfold kernel_interrupt at 1. rewrite kbind_assoc. unfold kgets. unfold kbind at 1. cbn [core set_interrupts load_tables loaded_idt].
  unfold software_interrupt at 1. rewrite init_idt_gates. cbn [Z.eqb Pos.eqb g_dpl g_handler]. change (0 <=? 0) with true. cbn match.
  change (at_ports (run_debug fuel)) with (log (A := A) fuel Log.OK (text "Debug isr called!")). log_step. rewrite log_unit. log_step.
  eexists _, cl5. split; [reflexivity|]. match goal with L : line_at _ _ _ _ _ ?x |- context [boot_log] => rename L into L9; rename x into s9 end.
  destruct (la_chips _ _ _ _ _ _ L9) as (-> & -> & _). split; [|done].
  unfold boot_log. cbn [fmap list_fmap List.concat]. rewrite app_nil_r, !(map_app _ (Log.line _ _)), !app_assoc. exact L9.
Qed.

(** C9: Booting opens the way for interrupts: whatever state the chips and the
    processor are in, once the interrupt stacks are allocated the boot sequence runs
    through.  Then the processor honours the no-execute and write protection bits of
    the page tables; line 0 is open and leads to the timer's handler, on a rate of
    1193182 / 11931 Hz; interrupts are on; a user program's [int] instruction reaches
    nothing but the system call; the wall clock is the one of the clock chip, in
    seconds since 1970; and the messages of these steps are on the serial line, in
    order, with that of the debug interrupt among them. *)
Theorem boot_ready c tss mc' n h mi sec :
  (u_busy (serial (chips (ports c))) < fuel)%nat → Forall (λ n, (n < fuel)%nat) (u_delays (serial (chips (ports c)))) →
  displays (ports c) (Nat.iter n next_day epoch) h mi sec → (updating (ports c) < fuel)%nat →
  init_tss (memory c) = Done (tss, mc') →
  let u := Z.of_nat n * 86400 + h * 3600 + mi * 60 + sec in
  ∃ c', (boot_cpu fuel ;;* boot_interrupts fuel) c = Done (tt, c')
    ∧ Z.testbit (efer (core c')) 11 = true ∧ Z.testbit (cr0 (core c')) 16 = true ∧ interrupts (core c') = true
    ∧ memory c' = mc' ∧ loaded_tss (core c') = Some tss
    ∧ hardware_interrupt (loaded_idt (core c')) (chips (ports c')) 0 = Some timer_trampoline
    ∧ Z.testbit (p_mask (master (chips (ports c')))) 0 = false ∧ t_reload (timer (chips (ports c'))) = 11931
    ∧ (∀ n, software_interrupt (loaded_idt (core c')) 3 n = if n =? 0x80 then Some syscall_trampoline else None)
    ∧ BOOT_UNIX_SECONDS (wall c') = u
    ∧ u_sent (serial (chips (ports c'))) = u_sent (serial (chips (ports c))) ++ List.map (wrap 8) (boot_log u).
Proof.
  intros Hb Hd Hds Hu Ht u. destruct c as [s k m w]. cbn [ports core memory wall] in *.
  destruct (serial_init_ready fuel s Hb Hd) as (s1 & E1 & R1 & _ & S1 & _ & K1).
  destruct (boot_interrupts_run s1 (enable_write_protect_bit (enable_nxe_bit k)) m w tss mc' (u_sent (serial (chips s)))
    (master (chips s1)) (slave (chips s1)) (timer (chips s1)) (clock (chips s1)) n h mi sec) as (s2 & cl & E2 & [R2 S2 (_ & _ & T2 & _)] & O2 & M2).
  - by split.
  - done.
  - by apply (displays_same s).
  - unfold updating. by rewrite K1.
  - eexists. split.
    { unfold boot_cpu. rewrite kbind_assoc. rewrite (kbind_done _ _ _ _ _ (at_ports_done _ {| ports := s; core := k; memory := m; wall := w |} _ _ E1)).
      rewrite kbind_assoc. unfold at_core at 1 2, kmodify. unfold kbind at 1 2. cbn [ports core memory wall]. exact E2. }
    cbn [ports core memory wall]. cbn [efer cr0 interrupts loaded_tss loaded_idt set_interrupts load_tables enable_write_protect_bit enable_nxe_bit].
    split_and!; try done.
    + rewrite Z.lor_spec. by apply orb_true_r.
    + rewrite Z.lor_spec. by apply orb_true_r.
    + unfold hardware_interrupt, irq_vector. cbn [Z.ltb Z.compare]. rewrite O2. by rewrite init_idt_gates.
    + by rewrite T2.
    + apply user_gates.
Qed.
End InterruptProps.

(** ** What the shell starts with *)

Section ShellProps.
Context {M FS D F G K T : Type} `{ProcMemory M G K T, UserMem M G K T, FileOps FS F, DirOps FS D F}.
Context (root : D) (user_code user_data : Z).
Abbreviation sys := (system M FS D F G K T).
Implicit Types s : sys.

Lemma in_files_done {A} (m : kst FS A) s a f' : m (files s) = Done (a, f') → in_files m s = Done (a, set_files f' s).
Proof. intros E. unfold in_files, zoom. by rewrite E. Qed.

Lemma in_kernel_done {A} (m : kst (kernel M D F G K T) A) s a k' : m (kern s) = Done (a, k') → in_kernel m s = Done (a, set_kern k' s).
Proof. intros E. unfold in_kernel, zoom. by rewrite E. Qed.

(** The first process. *)
Definition shell_process (e : ProcessEntry G K T) (st : K) : Process D F G K T :=
  {| pid := 0; pre_schedule := true; blocking := false; awaiting_process := None; sleep_until_tick := None;
     context := user_segments user_code user_data (set_word 18 (initial_rsp e) (set_word 15 (entry e) empty));
     start_region := entry_start_region e; curr_working_dir := root; stack := st; ring3_page_table := entry_page_table e;
     proc_fds := standard_fd_table |}.
Definition shell_kernel (e : ProcessEntry G K T) (st : K) (c : clocks) (m : M) : kernel M D F G K T :=
  {| PROCESSES := [shell_process e st]; CURRENT_INDEX := 0; PID_COUNTER := 1; SCHEDULING_ENABLED := true; CLOCKS := c; MEM := m |}.

(** The first timer interrupt, whatever it interrupts and whatever was typed. *)
Lemma first_tick frame input e st t c m m' :
  entry_page_table e = Some t → mem_ready m = true → switch_table t m = Done (Some tt, m') →
  ∃ k', timer_isr frame input (shell_kernel e st c m) = Done (Some (Jump (context (shell_process e st))), k').
Proof.
  intros Ht Hm Hs. unfold timer_isr, tick, schedule, next_process, save_context, next_pass, shell_kernel. kunfold. cbn.
  destruct input as [x|]; cbn; rewrite uadd_ok by (unfold usize_max; lia); cbn; rewrite Hm; cbn; rewrite Ht; unfold in_mem, zoom; cbn; rewrite Hs; by eexists.
Qed.

(** Booting ends in the shell: on a volume that has "bin/shell.elf", when the
    loader accepts it, the kernel has one process - number 0, in the root directory,
    with the standard streams - and scheduling is on; and the first timer interrupt,
    whatever it interrupts and whatever was typed, switches to the shell's tables and
    enters it at its entry point with its argument stack, in user mode with interrupts
    on. *)
Theorem start_shell_runs s c m fs1 f fs2 r fs3 e st t m1 m2 :
  kern s = initial c m →
  (let* entries := d_list root in name_files entries.2 ;;* name_directories entries.1) (files s) = Done (tt, fs1) →
  find_file_recursive root shell_path fs1 = Done (Some f, fs2) → f_read f fs2 = Done (Some r, fs3) →
  um_elf_load r [shell_arg] m = Done (Some e, m1) → entry_stack e = Some st → entry_page_table e = Some t →
  mem_ready m1 = true → switch_table t m1 = Done (Some tt, m2) →
  ∃ s' p, start_shell root user_code user_data s = Done (tt, s')
    ∧ PROCESSES (kern s') = [p] ∧ SCHEDULING_ENABLED (kern s') = true
    ∧ pid p = 0 ∧ curr_working_dir p = root ∧ proc_fds p = standard_fd_table
    ∧ ∀ frame input, ∃ k' ctx, timer_isr frame input (kern s') = Done (Some (Jump ctx), k')
        ∧ rip ctx = entry e ∧ rsp ctx = initial_rsp e ∧ cs ctx = user_code ∧ ss ctx = user_data ∧ rflags ctx = 0x202.
Proof.
  intros Hk E1 E2 E3 E4 Hst Ht Hm Hs. exists {| kern := shell_kernel e st c m1; files := fs3; console := console s |}, (shell_process e st).
  split_and!; try done.
  2: { intros frame input. destruct (first_tick frame input e st t c m1 m2 Ht Hm Hs) as [k' E]. by exists k', (context (shell_process e st)). }
  apply kbind_inv in E1 as (entries & fa & Ea & E1). apply kbind_inv in E1 as ([] & fb & Eb & Ec).
  unfold start_shell. rewrite (kbind_done _ _ _ _ _ (in_files_done _ s _ _ Ea)).
  rewrite (kbind_done _ _ _ _ _ (in_files_done _ (set_files fa s) _ _ Eb)), (kbind_done _ _ _ _ _ (in_files_done _ (set_files fb s) _ _ Ec)).
  rewrite (kbind_done _ _ _ _ _ (in_files_done _ (set_files fs1 s) _ _ E2)). cbn [or_panic]. rewrite kret_bind.
  rewrite (kbind_done _ _ _ _ _ (in_files_done _ (set_files fs2 s) _ _ E3)). cbn [or_panic]. rewrite kret_bind.
  rewrite (kbind_done _ _ _ _ _ (in_memory_done _ (set_files fs3 s) _ m1 ltac:(by cbn; rewrite Hk))). cbn [or_panic]. rewrite kret_bind.
  destruct s as [k fs con]. cbn in Hk. subst k.
  rewrite (kbind_done _ _ _ 0 {| kern := set_mem m1 (set_processes [shell_process e st] (set_counter 1 (initial c m))); files := fs3; console := con |}).
  2: { apply in_kernel_done. cbn. unfold deploy. kunfold. cbn. rewrite uadd_ok by (unfold usize_max; lia). cbn. unfold process_from. rewrite Hst, Ht. cbn.
       unfold shell_process. by rewrite Ht. }
  done.
Qed.
End ShellProps.

(** ** Witnesses *)

Definition reset_cpu : cpu := {| efer := 0x500; cr0 := 0x80000011; interrupts := false; loaded_idt := ∅; loaded_tss := None |}.
Definition powered : computer board SimplePageFrameAllocator :=
  {| ports := power_on; core := reset_cpu; memory := controller; wall := {| TICKS := 0; BOOT_UNIX_SECONDS := 0 |} |}.

Lemma boot_ready_witness :
  ∃ c', (boot_cpu 6 ;;* boot_interrupts 6) powered = Done (tt, c') ∧ BOOT_UNIX_SECONDS (wall c') = 1709300279 ∧ interrupts (core c') = true.
Proof.
  assert (Hok : match init_tss controller with Done _ => true | Fault _ => false end = true) by (vm_compute; reflexivity).
  destruct (init_tss controller) as [[tss mc]|] eqn:E; [|discriminate Hok].
  destruct (boot_ready (S := board) 6 powered tss mc 19783 13 37 59) as (c' & Eb & _ & _ & Hi & _ & _ & _ & _ & _ & _ & Hw & _).
  - cbn. lia.
  - repeat constructor; lia.
  - exact power_on_displays.
  - cbn. lia.
  - exact E.
  - exists c'. split; [exact Eb|]. split; [exact Hw | exact Hi].
Defined.

(** A volume with the one file "bin/shell.elf": the files are numbered, the root is
    the directory [true]. *)
#[local] Instance one_file : FileOps unit Z := {
  f_size _ := kret 1;
  f_read _ := kret (Some {| reg_addr := 0; reg_bytes := [127] |});
  f_write _ _ _ := kret None;
  f_truncate _ _ := kret None;
  f_free _ := kret tt;
}.
#[local] Instance one_directory : DirOps unit bool Z := {
  d_name d := kret (if d then [] else text "BIN");
  d_list d := kret (if d then ([false], []) else ([], [7]));
  f_name _ := kret (text "SHELL.ELF");
  d_create_file _ _ := kret None;
  d_create_directory _ _ := kret None;
  d_unlink_file _ _ := kret None;
  d_remove_directory _ _ := kret None;
}.
#[local] Instance one_program : UserMem unit unit unit unit := {
  um_validate _ _ _ _ := kret true;
  um_load _ _ := kret [];
  um_store _ _ := kret tt;
  um_elf_load _ _ := kret (Some (run_entry 0x400000));
}.
Definition mounted : system unit unit bool Z unit unit unit :=
  {| kern := initial {| TICKS := 12; BOOT_UNIX_SECONDS := 0 |} tt; files := tt; console := [] |}.

Lemma start_shell_runs_witness : ∃ s' p, start_shell true 0x1B 0x23 mounted = Done (tt, s') ∧ PROCESSES (kern s') = [p] ∧ pid p = 0.
Proof.
  destruct (start_shell_runs true 0x1B 0x23 mounted {| TICKS := 12; BOOT_UNIX_SECONDS := 0 |} tt tt 7 tt
    {| reg_addr := 0; reg_bytes := [127] |} tt (run_entry 0x400000) tt tt tt tt) as (s' & p & E & Ep & _ & Hp & _);
    try (vm_compute; reflexivity).
  exists s', p. split; [exact E|]. split; [exact Ep | exact Hp].
Defined.
