(* ===== verification/KernelMem.v ===== *)
(** * KernelMem: the kernel put together

    The memory controller as the memory subsystem of the scheduler ([ProcMemory])
    and of the system calls ([UserMem]), with the FAT volume as their file system. *)

From S2P Require Import Prelude Text Context Time BlockDev FatFs FatVolume FatFile FatTruncate Descriptors Paths FatFileApi.
From S2P Require Import Frames Paging PageWalk PageMap PageExample MemCtl Stacks Elf ElfLoad Sched Syscalls SyscallSafe.

Section Instances.
Context {A : Type} `{PageFrameAllocator A}.
Abbreviation mc := (MemoryController A).

(** The byte at an address, as the CPU reads it. *)
Definition load_byte (addr : Z) : kst (machine A) Z := λ k,
  match translate (phys k) (cr3 k) addr with
  | Some f => Done (Z.land (Z.shiftr (phys k f (addr mod PAGE_SIZE / 8)) (8 * (addr mod 8))) 255, k)
  | None => Fault Undefined
  end.
Fixpoint load_range (addr : Z) (n : nat) : kst (machine A) (list Z) :=
  match n with
  | O => kret []
  | S n => let* b := load_byte addr in let* bs := load_range (addr + 1) n in kret (b :: bs)
  end.

(** What [elf::load] returns, as the scheduler takes it. *)
Definition entry_of (e : Elf.ProcessEntry) : Sched.ProcessEntry (list ElfRegion) Stack Z :=
  {| entry := pe_entry e; entry_start_region := pe_start_region e; entry_page_table := Elf.ring3_page_table e;
     entry_stack := pe_stack e; Sched.initial_rsp := Elf.initial_rsp e |}.

#[global] Instance controller_memory : ProcMemory mc (list ElfRegion) Stack Z := {
  mem_ready _ := true;
  switch_table t := let? _old := mc_switch_table t in kret (Some tt);
  Sched.elf_unmap := Elf.elf_unmap;
  free_stack := mc_free_stack;
  free_user_subtables t := in_machine (Paging.free_user_subtables t);
  slot_free t := in_machine (Paging.slot_free t);
}.

#[global] Instance controller_user : UserMem mc (list ElfRegion) Stack Z := {
  um_validate t addr size w := in_machine (validate_user_pointer t addr size w);
  um_load addr size := in_machine (load_range addr (Z.to_nat size));
  um_store addr bs := in_machine (store_bytes addr bs);
  um_elf_load elf argv := let? e := elf_load elf argv in kret (Some (entry_of e));
}.
End Instances.

(** ** A running system

    The memory of PageExample, one process whose tables are at slot 5, and the
    sample volume of FatVolume. *)

Definition sample_process : Process FATDirectory Z (list ElfRegion) Stack Z :=
  {| pid := 1; pre_schedule := false; blocking := false; awaiting_process := None; sleep_until_tick := None;
     context := empty; start_region := []; curr_working_dir := sample_root; stack := {| top := 0x8000; bottom := 0x7000 |};
     ring3_page_table := Some (slot_addr 5); proc_fds := sample_table |}.

Definition sample_kernel : kernel (MemoryController SimplePageFrameAllocator) FATDirectory Z (list ElfRegion) Stack Z :=
  {| PROCESSES := [sample_process]; CURRENT_INDEX := 0%nat; PID_COUNTER := 2; SCHEDULING_ENABLED := true;
     CLOCKS := {| TICKS := 0; BOOT_UNIX_SECONDS := 0 |}; MEM := controller |}.

Definition sample_system : system (MemoryController SimplePageFrameAllocator) (mounted (P := RamDisk)) FATDirectory Z (list ElfRegion) Stack Z :=
  {| kern := sample_kernel; files := sample_mounted; console := [] |}.

Abbreviation run_syscall frame :=
  (syscall_isr (H1 := fat_file_ops 3) (H2 := @fat_dir_ops RamDisk _ ascii_case 3) sample_root [0; 0; 0] 0x1B 0x23 frame).

(** Call [n] with three arguments. *)
Definition call_frame (n a b d : Z) : FullInterruptStackFrame :=
  set_word 14 n (set_word 11 d (set_word 10 b (set_word 9 a empty))).

(** [truncate(9, 0)] of a descriptor that is not open. *)
Lemma sample_call : ∃ d s', run_syscall (call_frame 11 9 0 0) sample_system = Done (d, s').
Proof.
  assert (Hok : match run_syscall (call_frame 11 9 0 0) sample_system with Done _ => true | _ => false end = true)
    by (vm_compute; reflexivity).
  destruct (run_syscall (call_frame 11 9 0 0) sample_system) as [[d s']|]; [by exists d, s' | discriminate Hok].
Qed.



(** ** A memory that records its stores

    One page, at 0x1000, may be written. *)

Definition stores : Type := list (Z * Z).
Definition in_page (p : Z * Z) : Prop := 0x1000 ≤ p.1 ∧ p.1 + p.2 ≤ 0x2000.

#[local] Instance record_proc : ProcMemory stores unit unit unit := {
  mem_ready _ := true;
  switch_table _ := kret (Some tt);
  Sched.elf_unmap _ := kret tt;
  free_stack _ := kret tt;
  free_user_subtables _ := kret tt;
  slot_free _ := kret tt;
}.
#[local] Instance record_user : UserMem stores unit unit unit := {
  um_validate _ a n _ := kret ((0x1000 <=? a) && (a + n <=? 0x2000));
  um_load _ n := kret (replicate (Z.to_nat n) 0);
  um_store a bs := kmodify (λ m, (a, Z.of_nat (length bs)) :: m);
  um_elf_load _ _ := kret None;
}.

Lemma record_guarded : guarded (M := stores) (G := unit) (K := unit) (T := unit) (Forall in_page).
Proof.
  split; try (intros; cbn in *; unfold kret in *; simplify_eq; done).
  intros t a bs m0 m u m' Hm Hv Hs. cbn in Hv, Hs. unfold kret in Hv. unfold kmodify in Hs. injection Hv as Hb ->. injection Hs as <- <-.
  constructor; [|done]. bool_to_prop. unfold in_page. cbn. lia.
Qed.

Definition record_system : system stores (mounted (P := RamDisk)) FATDirectory Z unit unit unit :=
  {| kern := {| PROCESSES := [{| pid := 1; pre_schedule := false; blocking := false; awaiting_process := None;
                                 sleep_until_tick := None; context := empty; start_region := tt;
                                 curr_working_dir := sample_root; stack := tt; ring3_page_table := Some tt;
                                 proc_fds := sample_table |}];
                CURRENT_INDEX := 0%nat; PID_COUNTER := 2; SCHEDULING_ENABLED := true;
                CLOCKS := {| TICKS := 250; BOOT_UNIX_SECONDS := 0 |}; MEM := [] |};
     files := sample_mounted; console := [] |}.

(** [clock_gettime(CLOCK_MONOTONIC, 0x1100)] stores 16 bytes. *)
Lemma clock_call : ∃ d s', run_syscall (call_frame 16 1 0x1100 0) record_system = Done (d, s') ∧ MEM (kern s') = [(0x1100, 16)].
Proof. eexists _, _. split; vm_compute; reflexivity. Qed.

