(* ===== verification/UserBytes.v ===== *)
(** * UserBytes: the memory of a process, through its page tables

    The memory controller implements [UserSpec]: while the tables of the running
    process are in good order and map its pages to frames of their own ([space_ok]),
    the check accepts exactly what [user_has] says, loads return the bytes that are
    there, and a store changes the bytes it names and no others. *)

From S2P Require Import Prelude Text Context BlockDev Descriptors FatFileApi Frames Paging PageTree PageWalk PageCheck PageMap PageExample PageSpace MemCtl Stacks Elf Sched Syscalls SyscallFile KernelMem.

(** ** A byte of a word *)

Definition get_byte (w j : Z) : Z := Z.land (Z.shiftr w (8 * j)) 255.

Lemma get_byte_range w j : 0 ≤ get_byte w j < 256.
Proof. unfold get_byte. change 255 with (Z.ones 8). rewrite Z.land_ones by lia. apply Z.mod_pos_bound. lia. Qed.

Lemma get_byte_bit w j i : 0 ≤ j → 0 ≤ i → Z.testbit (get_byte w j) i = (i <? 8) && Z.testbit w (i + 8 * j).
Proof.
  intros Hj Hi. unfold get_byte. change 255 with (Z.ones 8). rewrite Z.land_spec, Z.shiftr_spec, Z.testbit_ones by lia.
  rewrite (proj2 (Z.leb_le 0 i)) by done. cbn [andb]. apply andb_comm.
Qed.

Lemma set_byte_bit w j v i : 0 ≤ j → 0 ≤ v < 256 → 0 ≤ i →
  Z.testbit (set_byte w j v) i = if (8 * j <=? i) && (i <? 8 * j + 8) then Z.testbit v (i - 8 * j) else Z.testbit w i.
Proof.
  intros Hj Hv Hi. unfold set_byte. change 255 with (Z.ones 8).
  rewrite Z.lor_spec, Z.ldiff_spec, !Z.shiftl_spec by done. rewrite (Z.testbit_ones 8) by lia.
  assert (Hz : 8 ≤ i - 8 * j → Z.testbit v (i - 8 * j) = false).
  { intros Hi8. destruct (decide (v = 0)) as [->|]; [apply Z.bits_0|]. apply Z.bits_above_log2; [lia|].
    apply Z.log2_lt_pow2; [lia|]. pose proof (Z.pow_le_mono_r 2 8 (i - 8 * j) ltac:(lia) Hi8). lia. }
  destruct (Z.leb_spec (8 * j) i), (Z.ltb_spec i (8 * j + 8)), (Z.leb_spec 0 (i - 8 * j)), (Z.ltb_spec (i - 8 * j) 8); try lia; cbn.
  - by rewrite andb_false_r.
  - rewrite Hz by lia. by rewrite andb_true_r, orb_false_r.
  - rewrite (Z.testbit_neg_r v) by lia. by rewrite andb_true_r, orb_false_r.
Qed.

Lemma get_set_byte w j v : 0 ≤ j → 0 ≤ v < 256 → get_byte (set_byte w j v) j = v.
Proof.
  intros Hj Hv. apply Z.bits_inj'. intros i Hi. rewrite get_byte_bit, set_byte_bit by lia.
  destruct (Z.ltb_spec i 8), (Z.leb_spec (8 * j) (i + 8 * j)), (Z.ltb_spec (i + 8 * j) (8 * j + 8)); try lia; cbn.
  - f_equal. lia.
  - symmetry. destruct (decide (v = 0)) as [->|]; [apply Z.bits_0|]. apply Z.bits_above_log2; [lia|].
    apply Z.log2_lt_pow2; [lia|]. pose proof (Z.pow_le_mono_r 2 8 i ltac:(lia) ltac:(lia)). lia.
Qed.

Lemma get_set_other w j v j' : 0 ≤ j → 0 ≤ j' → j ≠ j' → 0 ≤ v < 256 → get_byte (set_byte w j v) j' = get_byte w j'.
Proof.
  intros Hj Hj' Hne Hv. apply Z.bits_inj'. intros i Hi. rewrite !get_byte_bit by done. rewrite set_byte_bit by lia.
  destruct (Z.ltb_spec i 8); cbn; [|done].
  destruct (Z.leb_spec (8 * j) (i + 8 * j')), (Z.ltb_spec (i + 8 * j') (8 * j + 8)); cbn; try done. lia.
Qed.

(** A table outside of which a frame lies does not see its words. *)
Lemma node_upd_outside m P g i v p : outside m P g → table_path p → node (upd m g i v) P p = node m P p.
Proof.
  intros Ho. induction p as [|j p IH] using rev_ind; intros Hp; [done|].
  apply table_path_snoc in Hp as (Hp & Hl & Hj). rewrite !node_app, IH by done.
  destruct (node m P p) as [f|] eqn:E; [|done]. cbn. rewrite upd_ne; [done|]. intros [-> _]. by apply (Ho p Hp).
Qed.

Lemma leaf_upd_outside m P g i v page : outside m P g → leaf (upd m g i v) P page = leaf m P page.
Proof.
  intros Ho. unfold leaf. rewrite node_upd_outside; [|done|apply leaf_path].
  destruct (node m P _) as [f|] eqn:E; [|done]. apply upd_ne. intros [-> _]. by apply (Ho _ (leaf_path page)).
Qed.

Lemma outside_upd m P g i v h : outside m P g → outside m P h → outside (upd m g i v) P h.
Proof. intros Hg Hh p Hp. rewrite node_upd_outside by done. by apply Hh. Qed.

(** ** Address spaces *)

Section Space.
Context {A : Type} `{PageFrameAllocator A}.
(** The active root and the tables of the page table region, as in PageWalk. *)
Context (c f3 f2 f1 kp t s1 : Z).
Implicit Types (k : machine A).
Abbreviation region := (region_ok c f3 f2 f1 kp t s1).

(** Page [p] is open to the process (to write, if [w]), and lies in frame [g]. *)
Definition user_page k (w : bool) (p g : Z) : Prop :=
  ring3_access w (leaf (phys k) c p) ∧ entry_get_frame (leaf (phys k) c p) = Some g.

(** The addresses of user programs. *)
Definition USER_END : Z := 2 ^ 47.
Definition user_number (p : Z) : Prop := 0 ≤ p < USER_END / PAGE_SIZE.

(** The tables at [tbl] are the active ones, and every page of the process has a
    frame of its own, which holds no table. *)
Record space_ok k (tbl : Z) : Prop := {
  sp_region : region k;
  sp_temp : temp_kernel f1 t k;
  sp_low : low (phys k) c f1;
  sp_table : ∃ s, tbl = slot_addr s ∧ s ≠ t ∧ table_at f1 k s c;
  sp_own p g : user_number p → user_page k false p g → outside (phys k) c g ∧ g ≠ kp;
  sp_once p p' g : user_number p → user_number p' → user_page k false p g → user_page k false p' g → p = p';
}.

Definition has_byte k (w : bool) (a b : Z) : Prop :=
  ∃ g, user_page k w (a / PAGE_SIZE) g ∧ get_byte (phys k g (a mod PAGE_SIZE / 8)) (a mod 8) = b.

Definition in_user (a : Z) : Prop := 0 ≤ a < USER_END.

Lemma in_user_page a : in_user a → user_number (a / PAGE_SIZE).
Proof. unfold in_user, user_number, USER_END, PAGE_SIZE. intros. Z.to_euclidean_division_equations. lia. Qed.

Lemma user_page_weaken k w p g : user_page k w p g → user_page k false p g.
Proof. intros [(H0 & H1 & _) Hg]. done. Qed.

Lemma region_nodes k : region k →
  node (phys k) c [R4] = Some f3 ∧ node (phys k) c [R4; R3] = Some f2 ∧ node (phys k) c [R4; R3; R2] = Some f1.
Proof. intros [[H3 H2 H1 _ _ _] _ _ _ _ _]. cbn [node]. rewrite H3, H2, H1. done. Qed.

Lemma outside_tables k g : region k → outside (phys k) c g → g ≠ c ∧ g ≠ f3 ∧ g ≠ f2 ∧ g ≠ f1.
Proof.
  intros Hk Ho. destruct (region_nodes k Hk) as (H3 & H2 & H1).
  split_and!; intros ->.
  - apply (Ho []); [|done]. split; [cbn; lia | constructor].
  - apply (Ho [R4]); [|done]. split; [cbn; lia | by repeat constructor].
  - apply (Ho [R4; R3]); [|done]. split; [cbn; lia | by repeat constructor].
  - apply (Ho [R4; R3; R2]); [|done]. split; [cbn; lia | by repeat constructor].
Qed.

(** *** The temporary mapping *)

Lemma user_not_temp k w p g : temp_kernel f1 t k → user_page k w p g → ¬ temp_page f1 t (phys k) c p.
Proof.
  intros Hk [(_ & Hu & _) _] [Hn Hi]. unfold leaf in Hu. rewrite Hn, Hi in Hu.
  unfold temp_kernel in Hk. change RING3_ACCESSIBLE with (2 ^ 2) in Hk. rewrite contains_bit in Hk by done. congruence.
Qed.

Lemma same_user_page k k' w p g : temp_kernel f1 t k → low (phys k) c f1 →
  same f1 t k k' → user_page k' w p g ↔ user_page k w p g.
Proof.
  intros Hk Hl S. unfold user_page. rewrite <- !user_entry_access, (same_user_entry f1 t w k k' c p S Hl Hk).
  split; intros [Hu Hg]; (split; [done|]).
  - destruct (decide (temp_page f1 t (phys k) c p)) as [[Hn Hi]|Htp].
    + exfalso. unfold leaf in Hu. rewrite Hn, Hi, user_entry_ring3 in Hu; done.
    + by rewrite <- (same_leaf_eq f1 t k k' c p S Hl Htp).
  - rewrite (same_leaf_eq f1 t k k' c p S Hl); [done|]. apply (user_not_temp k w p g Hk). split; [by apply user_entry_access | done].
Qed.

Lemma same_space k k' tbl : same f1 t k k' → space_ok k tbl → space_ok k' tbl.
Proof.
  intros S [Hr Hk Hl (s & -> & Hst & Ht) Ho Hp].
  pose proof (λ w p g, same_user_page k k' w p g Hk Hl S) as Hu. split.
  - by eapply region_same.
  - by eapply same_temp_kernel.
  - by eapply same_low.
  - exists s. split_and!; [done | done |]. by eapply table_at_same.
  - intros p g Hn [Hout Hkp]%Hu%Ho; [|done]. split; [|done]. intros q Hq Hx. apply (Hout q Hq). by apply (same_node f1 t k k' c q g S Hl Hq).
  - intros p p' g Hn Hn' H1%Hu H2%Hu. by eapply Hp.
Qed.

Lemma same_has_byte k k' tbl w a b : same f1 t k k' → space_ok k tbl → in_user a → has_byte k w a b → has_byte k' w a b.
Proof.
  intros S Hs Ha (g & Hu & Hb). exists g. split; [by apply (same_user_page k k' w _ g (sp_temp _ _ Hs) (sp_low _ _ Hs) S)|].
  destruct (sp_own _ _ Hs _ g (in_user_page a Ha) (user_page_weaken _ _ _ _ Hu)) as [Ho _].
  rewrite (sm_phys _ _ _ _ S); [done|]. intros [-> _]. by apply (outside_tables k f1 (sp_region _ _ Hs) Ho).
Qed.

(** *** Bytes *)

Lemma user_translate k tbl w a g : space_ok k tbl → user_page k w (a / PAGE_SIZE) g → translate (phys k) (cr3 k) a = Some g.
Proof. intros Hs [_ Hg]. rewrite (rg_cr3 _ _ _ _ _ _ _ _ (sp_region _ _ Hs)). unfold translate. by rewrite walk_leaf. Qed.

Lemma load_byte_ok k tbl w a b : space_ok k tbl → has_byte k w a b → load_byte a k = Done (b, k).
Proof. intros Hs (g & Hu & <-). unfold load_byte. by rewrite (user_translate k tbl w a g Hs Hu). Qed.

(** The state after a store of one byte. *)
Definition poke (g a v : Z) k : machine A :=
  set_phys (upd (phys k) g (a mod PAGE_SIZE / 8) (set_byte (phys k g (a mod PAGE_SIZE / 8)) (a mod 8) v)) k.

Lemma poke_user_page k g a v w p h : outside (phys k) c g → user_page (poke g a v k) w p h ↔ user_page k w p h.
Proof. intros Ho. unfold user_page, poke. cbn [phys set_phys]. by rewrite leaf_upd_outside. Qed.

Lemma poke_space k tbl g a v : space_ok k tbl → outside (phys k) c g → g ≠ kp → space_ok (poke g a v k) tbl.
Proof.
  intros [Hr Hk Hl (s & -> & Hst & Ht) Ho Hp] Hg Hkp. destruct (outside_tables k g Hr Hg) as (N & N3 & N2 & N1). split.
  - destruct Hr as [[H3 H2 H1 Hs Hk0 Hk3] Hc Htm He Hrg Hn]. split; try done. unfold poke. cbn [phys set_phys].
    split; rewrite upd_ne by (intros [? _]; congruence); done.
  - unfold temp_kernel, poke in *. cbn [phys set_phys]. by rewrite upd_ne by (intros [? _]; congruence).
  - intros q Hq Hlen. unfold poke. cbn [phys set_phys]. rewrite node_upd_outside by done. by apply Hl.
  - exists s. split_and!; [done | done |]. destruct Ht as [Hs Ht]. split; [done|]. unfold poke. cbn [phys set_phys].
    by rewrite upd_ne by (intros [? _]; congruence).
  - intros p h Hn [Hx Hy]%poke_user_page%Ho; [|done|done]. split; [|done]. by apply outside_upd.
  - intros p p' h Hn Hn' H1%poke_user_page H2%poke_user_page; [|done|done]. by eapply Hp.
Qed.

(** Two addresses of the same word and byte are the same address. *)
Lemma address_parts a b : a / PAGE_SIZE = b / PAGE_SIZE → a mod PAGE_SIZE / 8 = b mod PAGE_SIZE / 8 → a mod 8 = b mod 8 → a = b.
Proof. unfold PAGE_SIZE. intros. Z.to_euclidean_division_equations. lia. Qed.

Lemma poke_byte k tbl w g a v : space_ok k tbl → in_user a → user_page k w (a / PAGE_SIZE) g → 0 ≤ v < 256 →
  has_byte (poke g a v k) w a v
  ∧ ∀ w' a' b, in_user a' → a' ≠ a → has_byte k w' a' b → has_byte (poke g a v k) w' a' b.
Proof.
  intros Hs Ha Hu Hv. pose proof (user_page_weaken _ _ _ _ Hu) as Hu0.
  destruct (sp_own _ _ Hs _ g (in_user_page a Ha) Hu0) as [Ho _]. split.
  - exists g. split; [by apply poke_user_page|]. unfold poke. cbn [phys set_phys]. rewrite upd_eq.
    apply get_set_byte; [|done]. apply Z.mod_pos_bound. lia.
  - intros w' a' b Ha' Hne (h & Hh & Hb). exists h. split; [by apply poke_user_page|]. unfold poke. cbn [phys set_phys].
    destruct (decide (h = g ∧ a' mod PAGE_SIZE / 8 = a mod PAGE_SIZE / 8)) as [[-> Hw]|Hn]; [|by rewrite upd_ne].
    rewrite Hw, upd_eq. rewrite Hw in Hb.
    rewrite get_set_other; [done | apply Z.mod_pos_bound; lia | apply Z.mod_pos_bound; lia | | done]. intros E. apply Hne, address_parts; [|done|done].
    apply (sp_once _ _ Hs _ _ g); auto using in_user_page. by eapply user_page_weaken.
Qed.

(** *** Ranges *)

Definition has_bytes k (w : bool) (a : Z) (bs : list Z) : Prop :=
  0 ≤ a ∧ a + Z.of_nat (length bs) ≤ USER_END ∧ ∀ i b, bs !! i = Some b → has_byte k w (a + Z.of_nat i) b.

Lemma has_bytes_in k w a bs i : has_bytes k w a bs → (i < length bs)%nat → in_user (a + Z.of_nat i).
Proof. intros (H0 & H1 & _) Hi. unfold in_user. lia. Qed.

Lemma has_bytes_app k w a xs ys :
  has_bytes k w a (xs ++ ys) ↔ has_bytes k w a xs ∧ has_bytes k w (a + Z.of_nat (length xs)) ys.
Proof.
  unfold has_bytes. rewrite length_app. split.
  - intros (H0 & H1 & Hb). split; (split; [lia|]; split; [lia|]); intros i b Hi.
    + apply Hb. by apply lookup_app_l_Some.
    + rewrite <- Z.add_assoc, <- Nat2Z.inj_add. apply Hb. rewrite lookup_app_r by lia. by rewrite Nat.add_comm, Nat.add_sub.
  - intros [(H0 & H1 & Hx) (H2 & H3 & Hy)]. split; [lia|]. split; [lia|]. intros i b [Hi|[Hge Hi]]%lookup_app_Some; [by apply Hx|].
    replace (a + Z.of_nat i) with (a + Z.of_nat (length xs) + Z.of_nat (i - length xs)) by lia. by apply Hy.
Qed.

Lemma has_bytes_mono k k' w a bs :
  (∀ i b, bs !! i = Some b → has_byte k w (a + Z.of_nat i) b → has_byte k' w (a + Z.of_nat i) b) →
  has_bytes k w a bs → has_bytes k' w a bs.
Proof. intros Hm (H0 & H1 & Hb). split_and!; auto. Qed.

Lemma same_has_bytes k k' tbl w a bs : same f1 t k k' → space_ok k tbl → has_bytes k w a bs → has_bytes k' w a bs.
Proof.
  intros S Hs Hb. apply (has_bytes_mono k); [|done]. intros i b Hi. apply (same_has_byte k k' tbl w _ _ S Hs).
  apply (has_bytes_in k w a bs i Hb). by eapply lookup_lt_Some.
Qed.

Lemma has_bytes_bytes k w a bs : has_bytes k w a bs → bytes bs.
Proof. intros (_ & _ & Hb). apply Forall_lookup. intros i b (g & _ & <-)%Hb. apply get_byte_range. Qed.

Lemma load_range_ok k tbl w a bs : space_ok k tbl → has_bytes k w a bs → load_range a (length bs) k = Done (bs, k).
Proof.
  intros Hs. revert a. induction bs as [|b bs IH]; intros a Hb; [done|]. cbn [load_range length].
  change (b :: bs) with ([b] ++ bs) in Hb. apply has_bytes_app in Hb as [(_ & _ & H1) H2].
  specialize (H1 0%nat b eq_refl). rewrite Z.add_0_r in H1. rewrite (kbind_done _ _ _ _ _ (load_byte_ok k tbl w a b Hs H1)).
  by rewrite (kbind_done _ _ _ _ _ (IH _ H2)).
Qed.

Lemma store_byte_ok k tbl a b v : space_ok k tbl → in_user a → has_byte k true a b → 0 ≤ v < 256 →
  ∃ k', store_byte a v k = Done (tt, k') ∧ space_ok k' tbl ∧ has_byte k' true a v
    ∧ ∀ w' a' b', in_user a' → a' ≠ a → has_byte k w' a' b' → has_byte k' w' a' b'.
Proof.
  intros Hs Ha (g & Hu & _) Hv. exists (poke g a v k).
  destruct (sp_own _ _ Hs _ g (in_user_page a Ha) (user_page_weaken _ _ _ _ Hu)) as [Ho Hkp].
  destruct (poke_byte k tbl true g a v Hs Ha Hu Hv) as [Hb Hk]. split_and!; [|by apply poke_space | done | done].
  unfold store_byte, machine_bytes. by rewrite (user_translate k tbl true a g Hs Hu).
Qed.

Lemma store_range_ok k tbl a old d : space_ok k tbl → has_bytes k true a old → bytes d → length d = length old →
  ∃ k', store_bytes a d k = Done (tt, k') ∧ space_ok k' tbl ∧ has_bytes k' true a d
    ∧ ∀ w' a' b', in_user a' → ¬ (a ≤ a' < a + Z.of_nat (length d)) → has_byte k w' a' b' → has_byte k' w' a' b'.
Proof.
  intros Hs Ho Hd. revert k a old Hs Ho. induction Hd as [|v d Hv Hd IH]; intros k a [|o old] Hs Ho Hl; try done.
  { exists k. split_and!; auto. }
  pose proof (has_bytes_in k true a (o :: old) 0 Ho ltac:(cbn; lia)) as Ha. rewrite Z.add_0_r in Ha.
  pose proof Ho as Ho'. change (o :: old) with ([o] ++ old) in Ho'. apply has_bytes_app in Ho' as [(_ & _ & H1) H2].
  specialize (H1 0%nat o eq_refl). rewrite Z.add_0_r in H1. cbn [length] in H2. change (Z.of_nat 1) with 1 in H2.
  destruct (store_byte_ok k tbl a o v Hs Ha H1 Hv) as (k1 & E1 & Hs1 & Hb1 & K1).
  destruct (IH k1 (a + 1) old Hs1) as (k2 & E2 & Hs2 & Hb2 & K2); [|by injection Hl|].
  { apply (has_bytes_mono k); [|done]. intros i b Hi. apply K1; [|lia]. apply (has_bytes_in k true (a + 1) old i H2). by eapply lookup_lt_Some. }
  exists k2. cbn [store_bytes length]. rewrite (kbind_done _ _ _ _ _ E1). split_and!; [done | done | |].
  - change (v :: d) with ([v] ++ d). apply has_bytes_app. split; [|done]. unfold in_user in Ha. split_and!; [lia | cbn; lia |].
    intros [|i] b Hi; [|done]. injection Hi as <-. rewrite Z.add_0_r. apply K2; [done | lia | done].
  - intros w' a' b' Hi' Hn Hb. apply K2; [done | lia |]. apply K1; [done | lia | done].
Qed.

Lemma validate_range_ok k tbl w a bs : space_ok k tbl → has_bytes k w a bs →
  ∃ k', validate_user_pointer tbl a (Z.of_nat (length bs)) w k = Done (true, k') ∧ same f1 t k k'.
Proof.
  intros [Hr Hk Hl (s & -> & Hst & Ht) _ _] (H0 & H1 & Hb).
  destruct (validate_answer c f3 f2 f1 kp t s1 w s c a (Z.of_nat (length bs)) k Hr Ht Hst Hl Hk) as (k' & S & E).
  exists k'. split; [|done]. rewrite E. do 2 f_equal. destruct (Z.eqb_spec (Z.of_nat (length bs)) 0) as [|Hne]; [done|]. cbn [orb].
  apply andb_true_iff. split; [apply Z.leb_le; unfold USER_END, usize_max in *; lia|].
  apply range_pages_forallb; [lia|]. intros a' Ha'. apply user_entry_access.
  destruct (lookup_lt_is_Some_2 bs (Z.to_nat (a' - a))) as [b Hi]; [lia|]. apply Hb in Hi as (g & [Hu _] & _).
  replace (a + Z.of_nat (Z.to_nat (a' - a))) with a' in Hu by lia. done.
Qed.
End Space.

(** ** The controller implements the interface *)

Section Instance.
Context {A : Type} `{PageFrameAllocator A} (c f3 f2 f1 kp t s1 : Z).
Abbreviation mc := (MemoryController A).
Implicit Types m : mc.

Definition controller_has m (tbl a : Z) (w : bool) (bs : list Z) : Prop :=
  space_ok c f3 f2 f1 kp t s1 (kernel_machine m) tbl ∧ has_bytes c (kernel_machine m) w a bs.

Lemma in_machine_done {B} (f : kst (machine A) B) m b k' :
  f (kernel_machine m) = Done (b, k') → in_machine f m = Done (b, set_machine k' m).
Proof. intros E. unfold in_machine, zoom. by rewrite E. Qed.

#[export] Program Instance controller_spec : UserSpec mc (list ElfRegion) Stack Z := {
  user_has := controller_has;
}.
Next Obligation. intros m tbl a w bs [_ Hb]. by eapply has_bytes_bytes. Qed.
Next Obligation.
  intros m tbl a w bs [Hs Hb]. split; [done|]. destruct Hb as (H0 & H1 & Hb). split_and!; [done | done |].
  intros i b (g & Hu & E)%Hb. exists g. split; [by eapply user_page_weaken | done].
Qed.
Next Obligation. intros m tbl a w xs ys. unfold controller_has. rewrite has_bytes_app. tauto. Qed.
Next Obligation.
  intros m tbl a w bs [Hs Hb]. destruct (validate_range_ok _ _ _ _ _ _ _ _ tbl w a bs Hs Hb) as (k' & E & S).
  exists (set_machine k' m). split; [by apply in_machine_done|].
  intros b w' ds [_ Hd]. split; [by eapply same_space | by eapply same_has_bytes].
Qed.
Next Obligation.
  intros m tbl a w bs [Hs Hb]. exists (set_machine (kernel_machine m) m). split; [|done].
  unfold um_load, controller_user. rewrite Nat2Z.id. apply in_machine_done. by eapply load_range_ok.
Qed.
Next Obligation.
  intros m tbl a old d [Hs Hb] Hd Hl.
  destruct (store_range_ok _ _ _ _ _ _ _ _ tbl a old d Hs Hb Hd Hl) as (k' & E & Hs' & Hb' & Hk).
  exists (set_machine k' m). split_and!; [by apply in_machine_done | by split |].
  intros b w' ds [_ Hx] Ha. split; [done|]. apply (has_bytes_mono c (kernel_machine m)); [|done]. intros i x Hi.
  pose proof (lookup_lt_Some _ _ _ Hi). apply Hk; [by eapply has_bytes_in|]. unfold apart_from in Ha. lia.
Qed.
End Instance.

(** ** The sample system *)

Definition sample_tables : list (list Z * Z) :=
  [([], 25); ([R4], 2); ([R4; R3], 3); ([R4; R3; R2], 4); ([0], 1000); ([0; 0], 1001); ([0; 0; 0], 1002)].

Lemma sample_node p x : table_path p → node memory 25 p = Some x → (p, x) ∈ sample_tables.
Proof. apply memory_node; [constructor | by vm_compute ..]. Qed.

(** A page of user space whose indices are those of page 1. *)
Lemma page_of_indices p : user_number p → p4_index p = 0 → p3_index p = 0 → p2_index p = 0 → p1_index p = 1 → p = 1.
Proof.
  unfold user_number, USER_END, p4_index, p3_index, p2_index, p1_index, PAGE_SIZE. rewrite !index_mod by lia. intros.
  change (2 ^ 27) with 134217728 in *. change (2 ^ 18) with 262144 in *. change (2 ^ 9) with 512 in *. change (2 ^ 0) with 1 in *.
  Z.to_euclidean_division_equations. lia.
Qed.

(** The process has one page. *)
Lemma sample_user_page p g : user_number p → user_page 25 PageExample.running false p g → p = 1 ∧ g = 1003.
Proof.
  intros Hp [(_ & Hu & _) Hg]. unfold leaf in *. cbn [phys PageExample.running] in *.
  destruct (node memory 25 _) as [f|] eqn:E; [|by rewrite Z.bits_0 in Hu]. apply sample_node in E; [|apply leaf_path].
  unfold sample_tables in E. rewrite !elem_of_cons in E.
  destruct E as [E|[E|[E|[E|[E|[E|[E|E]]]]]]]; try discriminate E; [| |by apply elem_of_nil in E].
  - injection E as _ _ _ ->. exfalso. revert Hu. unfold memory. cbn [Z.eqb Pos.eqb]. rewrite Z.lor_spec. change (Z.testbit PW 2) with false.
    rewrite orb_false_r. change 4096 with (2 ^ 12). by rewrite Z.mul_pow2_bits_low.
  - injection E as H4 H3 H2 ->. apply memory_link in Hg as (l & Hl & H1002 & Hi & Hx); [|done].
    unfold links in Hl. rewrite !elem_of_cons in Hl.
    destruct Hl as [->|[->|[->|[->|[->|[->|[->|[->|Hl]]]]]]]]; try discriminate H1002; [|by apply elem_of_nil in Hl].
    cbn in Hi, Hx. split; [|done]. by apply page_of_indices.
Qed.

Lemma sample_space : space_ok 25 2 3 4 1 4 3 PageExample.running (slot_addr 5).
Proof.
  destruct (running_good 0) as [Hr _ Hl _ _ _]; [lia|]. split; [done | by vm_compute | done | | |].
  - exists 5. split_and!; [done | done | apply running_process].
  - intros p g Hp [_ ->]%sample_user_page; [|done]. split; [|done]. intros q Hq Hx%sample_node; [|done].
    unfold sample_tables in Hx. rewrite !elem_of_cons in Hx.
    destruct Hx as [Hx|[Hx|[Hx|[Hx|[Hx|[Hx|[Hx|Hx]]]]]]]; try discriminate Hx. by apply elem_of_nil in Hx.
  - intros p p' g Hp Hp' [-> _]%sample_user_page [-> _]%sample_user_page; done.
Qed.

(** Its bytes are zero. *)
Lemma sample_bytes a n : 4096 ≤ a → a + Z.of_nat n ≤ 8192 → has_bytes 25 PageExample.running true a (replicate n 0).
Proof.
  intros H0 H1. unfold has_bytes. rewrite length_replicate. split_and!; [lia | unfold USER_END; lia |].
  intros i b [-> Hi]%lookup_replicate_1. exists 1003.
  replace ((a + Z.of_nat i) / PAGE_SIZE) with 1 by (unfold PAGE_SIZE; Z.to_euclidean_division_equations; lia).
  split; [split; [split_and!|]; by vm_compute|]. cbn [phys PageExample.running]. unfold memory, links. cbn [Z.eqb Pos.eqb List.find fst snd andb].
  unfold get_byte. by rewrite Z.shiftr_0_l.
Qed.

Lemma sample_has a n : 4096 ≤ a → a + Z.of_nat n ≤ 8192 →
  user_has (UserSpec := controller_spec 25 2 3 4 1 4 3) (MEM (kern sample_system)) (slot_addr 5) a true (replicate n 0).
Proof. intros H0 H1. split; [exact sample_space | by apply sample_bytes]. Qed.

Lemma sample_runs : runs sample_system sample_process (slot_addr 5).
Proof. done. Qed.

(** [read(4, 0x1100, 200)] of a file of 600 bytes, at offset 500. *)
Lemma read_call_delivers_witness :
  ∃ s', run_syscall (call_frame 3 4 0x1100 200) sample_system = Done (Jump (set_rax 100 (call_frame 3 4 0x1100 200)), s')
    ∧ user_has (UserSpec := controller_spec 25 2 3 4 1 4 3) (MEM (kern s')) (slot_addr 5) 0x1100 true
        (drop 500 sample_contents ++ replicate 100 0).
Proof.
  destruct (read_call_delivers (H1 := controller_spec 25 2 3 4 1 4 3) (H3 := fat_file_spec 3) (H4 := @fat_dir_ops RamDisk _ ascii_case 3)
    sample_root [0; 0; 0] 0x1B 0x23 (call_frame 3 4 0x1100 200) sample_system sample_process (slot_addr 5)
    {| of_file := 1; of_offset := 500; of_readable := true; of_writable := false |} sample_contents (replicate 200 0))
    as (s' & fds' & E & Hu & _).
  - reflexivity.
  - vm_compute. discriminate.
  - reflexivity.
  - exact sample_runs.
  - reflexivity.
  - reflexivity.
  - cbn. lia.
  - exact sample_holds.
  - rewrite length_sample_contents. unfold usize_max. lia.
  - apply sample_has; [cbn; lia | rewrite ?length_replicate; cbn; lia].
  - change (Z.to_nat (of_offset _)) with 500%nat in *. rewrite length_replicate in *.
    rewrite take_ge in * by (rewrite length_drop, length_sample_contents; lia).
    rewrite length_drop, length_sample_contents in *. exists s'. split; [exact E | exact Hu].
Defined.

(** [write(3, 0x1200, 80)] at offset 510 of the same file. *)
Lemma write_call_stores_witness :
  ∃ s', run_syscall (call_frame 2 3 0x1200 80) sample_system = Done (Jump (set_rax 80 (call_frame 2 3 0x1200 80)), s')
    ∧ holds (FileSpec := fat_file_spec 3) (files s') 1 (splice sample_contents 510 (replicate 80 0)).
Proof.
  destruct (write_call_stores (H1 := controller_spec 25 2 3 4 1 4 3) (H3 := fat_file_spec 3) (H4 := @fat_dir_ops RamDisk _ ascii_case 3)
    sample_root [0; 0; 0] 0x1B 0x23 (call_frame 2 3 0x1200 80) sample_system sample_process (slot_addr 5) true
    sample_writer sample_contents (replicate 80 0)) as (s' & E & _ & Hh & _).
  - reflexivity.
  - reflexivity.
  - exact sample_runs.
  - apply sample_has; [cbn; lia | cbn; lia].
  - reflexivity.
  - reflexivity.
  - cbn. lia.
  - vm_compute. discriminate.
  - exact sample_holds.
  - left. rewrite length_sample_contents, length_replicate. cbn. lia.
  - exists s'. split; [exact E|]. rewrite length_sample_contents, length_replicate in Hh.
    change (Z.to_nat (of_offset sample_writer) + 80 - 600)%nat with 0%nat in Hh. rewrite app_nil_r in Hh. exact Hh.
Defined.
