(* ===== verification/Ahci.v ===== *)
(** * Ahci: the SATA driver

    (src/src/ahci/{fis,hba,port,mod}.rs).  The driver talks to the controller through
    the registers of a port and through structures in physical memory: the command
    headers, the command tables with a command FIS and a list of memory regions (the
    PRDT).  Registers belong to the device ([HbaDevice]), memory is bytes at physical
    addresses, and the frames, mappings and heap buffers the driver asks for are the
    class [DmaMemory].  The command structures are identity-mapped by [init], so their
    addresses are physical.  Log messages are left out. *)

From S2P Require Import Prelude.

(** ** Memory *)

Definition put (m : Z → Z) (addr : Z) (bs : list Z) : Z → Z := λ a,
  if (addr <=? a) && (a <? addr + Z.of_nat (length bs)) then default 0 (lookupZ bs (a - addr)) else m a.
Definition get (m : Z → Z) (addr : Z) (n : nat) : list Z := map (λ i, m (addr + i)) (seqZ 0 (Z.of_nat n)).
Definition get_le (m : Z → Z) (addr : Z) (n : nat) : Z := le_value (get m addr n).

(** ** FIS types (fis.rs)

    The packed bytes keep their bits together, as in the source. *)

Definition RegH2D : Z := 0x27.
Definition set_flag (mask : Z) (val : bool) (x : Z) : Z := if val then Z.lor x mask else Z.ldiff x mask.
(** [set_pmport], the same in every FIS. *)
Definition put_pmport (val x : Z) : Z := Z.lor (Z.ldiff x 0xF0) (Z.land val 0x0F).

Record FisRegH2D := {
  fis_type : Z;
  pmport_rsv0_c : Z;
  command : Z;
  feature_low : Z;
  lba0 : Z;
  lba1 : Z;
  lba2 : Z;
  device : Z;
  lba3 : Z;
  lba4 : Z;
  lba5 : Z;
  feature_high : Z;
  count_low : Z;
  count_high : Z;
  icc : Z;
  control : Z;
}.

Definition get_pmport (f : FisRegH2D) : Z := Z.land (pmport_rsv0_c f) 0x0F.
Definition get_control_bit (f : FisRegH2D) : Z := Z.land (pmport_rsv0_c f) 0x80.
Definition set_packed (x : Z) (f : FisRegH2D) : FisRegH2D :=
  {| fis_type := fis_type f; pmport_rsv0_c := x; command := command f; feature_low := feature_low f;
     lba0 := lba0 f; lba1 := lba1 f; lba2 := lba2 f; device := device f;
     lba3 := lba3 f; lba4 := lba4 f; lba5 := lba5 f; feature_high := feature_high f;
     count_low := count_low f; count_high := count_high f; icc := icc f; control := control f |}.
Definition set_pmport (val : Z) (f : FisRegH2D) : FisRegH2D := set_packed (put_pmport val (pmport_rsv0_c f)) f.
Definition set_control_bit (val : bool) (f : FisRegH2D) : FisRegH2D := set_packed (set_flag 0x80 val (pmport_rsv0_c f)) f.

Definition fis_at (m : Z → Z) (a : Z) : FisRegH2D :=
  {| fis_type := m a; pmport_rsv0_c := m (a + 1); command := m (a + 2); feature_low := m (a + 3);
     lba0 := m (a + 4); lba1 := m (a + 5); lba2 := m (a + 6); device := m (a + 7);
     lba3 := m (a + 8); lba4 := m (a + 9); lba5 := m (a + 10); feature_high := m (a + 11);
     count_low := m (a + 12); count_high := m (a + 13); icc := m (a + 14); control := m (a + 15) |}.
Definition fis_bytes (f : FisRegH2D) : list Z :=
  [fis_type f; pmport_rsv0_c f; command f; feature_low f; lba0 f; lba1 f; lba2 f; device f;
   lba3 f; lba4 f; lba5 f; feature_high f; count_low f; count_high f; icc f; control f].

(** ** Command headers, tables and region descriptors (hba.rs) *)

Definition HBA_PRDT_ENTRY_COUNT : Z := 128.

Record HBACommandHeader := {
  cfl_a_w_p : Z;
  r_b_c_rsv0_pmp : Z;
  prdtl : Z;
  prdbc : Z;
  ctba : Z;
  ctbau : Z;
}.

Definition get_cfl (h : HBACommandHeader) : Z := Z.land (cfl_a_w_p h) 0x1F.
Definition get_atapi_bit (h : HBACommandHeader) : Z := Z.land (cfl_a_w_p h) 0x20.
Definition get_write_bit (h : HBACommandHeader) : Z := Z.land (cfl_a_w_p h) 0x40.
Definition get_prefetchable (h : HBACommandHeader) : Z := Z.land (cfl_a_w_p h) 0x80.
Definition get_reset_bit (h : HBACommandHeader) : Z := Z.land (r_b_c_rsv0_pmp h) 0x01.
Definition get_bist_bit (h : HBACommandHeader) : Z := Z.land (r_b_c_rsv0_pmp h) 0x02.
Definition get_clear_busy_bit (h : HBACommandHeader) : Z := Z.land (r_b_c_rsv0_pmp h) 0x04.
Definition get_port_multiplier_port (h : HBACommandHeader) : Z := Z.land (r_b_c_rsv0_pmp h) 0xF0.

Definition set_byte0 (x : Z) (h : HBACommandHeader) : HBACommandHeader :=
  {| cfl_a_w_p := x; r_b_c_rsv0_pmp := r_b_c_rsv0_pmp h; prdtl := prdtl h; prdbc := prdbc h; ctba := ctba h; ctbau := ctbau h |}.
Definition set_byte1 (x : Z) (h : HBACommandHeader) : HBACommandHeader :=
  {| cfl_a_w_p := cfl_a_w_p h; r_b_c_rsv0_pmp := x; prdtl := prdtl h; prdbc := prdbc h; ctba := ctba h; ctbau := ctbau h |}.
Definition set_prdtl (x : Z) (h : HBACommandHeader) : HBACommandHeader :=
  {| cfl_a_w_p := cfl_a_w_p h; r_b_c_rsv0_pmp := r_b_c_rsv0_pmp h; prdtl := x; prdbc := prdbc h; ctba := ctba h; ctbau := ctbau h |}.
Definition set_prdbc (x : Z) (h : HBACommandHeader) : HBACommandHeader :=
  {| cfl_a_w_p := cfl_a_w_p h; r_b_c_rsv0_pmp := r_b_c_rsv0_pmp h; prdtl := prdtl h; prdbc := x; ctba := ctba h; ctbau := ctbau h |}.
Definition set_ctba (lo hi : Z) (h : HBACommandHeader) : HBACommandHeader :=
  {| cfl_a_w_p := cfl_a_w_p h; r_b_c_rsv0_pmp := r_b_c_rsv0_pmp h; prdtl := prdtl h; prdbc := prdbc h; ctba := lo; ctbau := hi |}.

Definition set_cfl (val : Z) (h : HBACommandHeader) : HBACommandHeader :=
  set_byte0 (Z.lor (Z.ldiff (cfl_a_w_p h) 0x1F) (Z.land val 0x1F)) h.
Definition set_atapi_bit (val : bool) (h : HBACommandHeader) : HBACommandHeader := set_byte0 (set_flag 0x20 val (cfl_a_w_p h)) h.
Definition set_write_bit (val : bool) (h : HBACommandHeader) : HBACommandHeader := set_byte0 (set_flag 0x40 val (cfl_a_w_p h)) h.
Definition set_prefetchable_bit (val : bool) (h : HBACommandHeader) : HBACommandHeader := set_byte0 (set_flag 0x80 val (cfl_a_w_p h)) h.
Definition set_reset_bit (val : bool) (h : HBACommandHeader) : HBACommandHeader := set_byte1 (set_flag 0x01 val (r_b_c_rsv0_pmp h)) h.
Definition set_bist_bit (val : bool) (h : HBACommandHeader) : HBACommandHeader := set_byte1 (set_flag 0x02 val (r_b_c_rsv0_pmp h)) h.
Definition set_clear_busy_bit (val : bool) (h : HBACommandHeader) : HBACommandHeader := set_byte1 (set_flag 0x04 val (r_b_c_rsv0_pmp h)) h.
Definition set_header_pmport (val : Z) (h : HBACommandHeader) : HBACommandHeader :=
  set_byte1 (Z.lor (Z.ldiff (r_b_c_rsv0_pmp h) 0xF0) (Z.land val 0xF0)) h.

Definition COMMAND_HEADER_SIZE : Z := 32.
Definition header_at (m : Z → Z) (a : Z) : HBACommandHeader :=
  {| cfl_a_w_p := m a; r_b_c_rsv0_pmp := m (a + 1); prdtl := get_le m (a + 2) 2; prdbc := get_le m (a + 4) 2;
     ctba := get_le m (a + 8) 4; ctbau := get_le m (a + 12) 4 |}.
(** The two bytes behind [prdbc] are padding. *)
Definition put_header (m : Z → Z) (a : Z) (h : HBACommandHeader) : Z → Z :=
  put (put m a ([cfl_a_w_p h; r_b_c_rsv0_pmp h] ++ le_bytes 2 (prdtl h) ++ le_bytes 2 (prdbc h)))
      (a + 8) (le_bytes 4 (ctba h) ++ le_bytes 4 (ctbau h)).

Record HBAPrdtEntry := {
  data_base_address : Z;
  data_base_address_upper : Z;
  dbc_rsv1_i : Z;
}.

Definition get_data_byte_count (e : HBAPrdtEntry) : Z := Z.land (dbc_rsv1_i e) 0x3FFFFF.
Definition get_interrupt_on_completion (e : HBAPrdtEntry) : bool := negb (Z.land (dbc_rsv1_i e) 0x80000000 =? 0).
Definition set_dw3 (x : Z) (e : HBAPrdtEntry) : HBAPrdtEntry :=
  {| data_base_address := data_base_address e; data_base_address_upper := data_base_address_upper e; dbc_rsv1_i := x |}.
Definition set_data_byte_count (val : Z) (e : HBAPrdtEntry) : HBAPrdtEntry :=
  set_dw3 (Z.lor (Z.ldiff (dbc_rsv1_i e) 0x3FFFFF) (Z.land val 0x3FFFFF)) e.
Definition set_interrupt_on_completion (val : bool) (e : HBAPrdtEntry) : HBAPrdtEntry :=
  set_dw3 (set_flag 0x80000000 val (dbc_rsv1_i e)) e.

(** The table: 64 bytes of FIS, 16 of ATAPI command, 48 reserved, then the entries. *)
Definition COMMAND_TABLE_SIZE : Z := 0x80 + 16 * HBA_PRDT_ENTRY_COUNT.
Definition prdt_addr (table index : Z) : Z := table + 0x80 + 16 * index.
Definition prdt_at (m : Z → Z) (a : Z) : HBAPrdtEntry :=
  {| data_base_address := get_le m a 4; data_base_address_upper := get_le m (a + 4) 4; dbc_rsv1_i := get_le m (a + 12) 4 |}.
Definition put_prdt (m : Z → Z) (a : Z) (e : HBAPrdtEntry) : Z → Z :=
  put (put m a (le_bytes 4 (data_base_address e) ++ le_bytes 4 (data_base_address_upper e))) (a + 12) (le_bytes 4 (dbc_rsv1_i e)).

(** ** The device and the memory subsystem *)

(** The fields of [HBAPort] the driver uses. *)
Inductive preg := CLB | CLBU | FB | FBU | IS | CMD | TFD | SIG | SSTS | SACT | CI.
#[global] Instance preg_eq_dec : EqDecision preg.
Proof. solve_decision. Defined.

(** A load or a store of a register; the device may read and write memory meanwhile. *)
Class HbaDevice (D : Type) := {
  reg_load : preg → (Z → Z) * D → Z * ((Z → Z) * D);
  reg_store : preg → Z → (Z → Z) * D → (Z → Z) * D;
}.

Class DmaMemory (C : Type) := {
  dma_falloc : kst C (option Z);
  dma_identity_map : Z → Z → kst C unit;
  dma_translate : Z → kst C (option Z);
  (** the frame a page is mapped to, for the CPU *)
  page_frame : C → Z → option Z;
  (** a heap buffer *)
  dma_alloc : Z → kst C Z;
  dma_dealloc : Z → kst C unit;
}.

Record hba (C D : Type) := {
  bus : (Z → Z) * D;
  mc : C;
}.
Arguments bus {C D} _.
Arguments mc {C D} _.

(** ** Ports (port.rs) *)

Definition PAGE_SIZE : Z := 4096.
Definition HBA_PXCMD_ST : Z := 0x0001.
Definition HBA_PXCMD_FRE : Z := 0x0010.
Definition HBA_PXCMD_FR : Z := 0x4000.
Definition HBA_PXCMD_CR : Z := 0x8000.
Definition ATA_DEV_BUSY : Z := 0x80.
Definition ATA_DEV_DRQ : Z := 0x08.
Definition ATA_CMD_READ_DMA_EX : Z := 0x25.
Definition ATA_CMD_WRITE_DMA_EX : Z := 0x35.
Definition ATA_CMD_IDENTIFY : Z := 0xEC.
Definition HBA_PXIS_TFES : Z := Z.shiftl 1 30.
Definition HBA_PRDT_MAX_BYTE_COUNT : Z := 0x00400000.

Record AHCICommand := {
  buffer_addr : Z;
  data_byte_count : Z;
  cmd : Z;
  cmd_control : Z;
  lba : Z;
  count : Z;
  is_write : bool;
  is_lba_mode : bool;
}.

Record AHCIPort := {
  port_address : Z;
  max_slots : Z;
  block_count : Z;
}.

Record PortStatus := {
  det : Z;
  spd : Z;
  ipm : Z;
}.

Section Port.
Context {C D : Type} `{HbaDevice D, DmaMemory C}.
Abbreviation am := (kst (hba C D)).

Definition load (r : preg) : am Z := λ s, let '(v, b) := reg_load r (bus s) in Done (v, {| bus := b; mc := mc s |}).
Definition store (r : preg) (v : Z) : am unit := λ s, Done (tt, {| bus := reg_store r v (bus s); mc := mc s |}).
Definition modify (r : preg) (f : Z → Z) : am unit := let* v := load r in store r (f v).
Definition peek {A} (f : (Z → Z) → A) : am A := λ s, Done (f (bus s).1, s).
Definition poke (f : (Z → Z) → Z → Z) : am unit := λ s, Done (tt, {| bus := (f (bus s).1, (bus s).2); mc := mc s |}).
Definition in_mc {A} (m : kst C A) : am A := zoom mc (λ c s, {| bus := bus s; mc := c |}) m.

Definition zero (addr n : Z) : am unit := poke (λ m, put m addr (repeat 0 (Z.to_nat n))).

Definition new (port_address max_slots : Z) : am AHCIPort :=
  let frame := port_address / PAGE_SIZE in
  in_mc (dma_identity_map frame frame) ;;*
  kret {| port_address := port_address; max_slots := max_slots; block_count := 0 |}.

(** [loop] until the bits are clear; [fuel] bounds the polls. *)
Definition wait_clear (fuel : nat) (mask : Z) : am unit :=
  loopM fuel (λ _, let* v := load CMD in kret (if Z.land v mask =? 0 then inr tt else inl tt)) tt.

Definition stop_cmd (fuel : nat) : am unit :=
  modify CMD (λ v, Z.ldiff v HBA_PXCMD_ST) ;;*
  modify CMD (λ v, Z.ldiff v HBA_PXCMD_FRE) ;;*
  loopM fuel (λ _,
    let* v := load CMD in
    if negb (Z.land v HBA_PXCMD_FR =? 0) then kret (inl tt)
    else let* v := load CMD in kret (if negb (Z.land v HBA_PXCMD_CR =? 0) then inl tt else inr tt)) tt.

Definition start_cmd (fuel : nat) : am unit :=
  wait_clear fuel HBA_PXCMD_CR ;;*
  modify CMD (λ v, Z.lor v HBA_PXCMD_FRE) ;;*
  modify CMD (λ v, Z.lor v HBA_PXCMD_ST).

(** [falloc().unwrap()], mapped and cleared. *)
Definition dma_page : am Z :=
  let* frame := in_mc dma_falloc in
  let* frame := or_panic frame in
  in_mc (dma_identity_map frame frame) ;;*
  kret (frame * PAGE_SIZE).

Fixpoint init_headers (cmd_header_addr : Z) (is_ : list Z) : am unit :=
  match is_ with
  | [] => kret tt
  | i :: is_ =>
      let* cmd_table_base_addr := dma_page in
      let header := cmd_header_addr + COMMAND_HEADER_SIZE * i in
      zero cmd_table_base_addr PAGE_SIZE ;;*
      poke (λ m, put_header m header (set_prdtl (wrap 16 HBA_PRDT_ENTRY_COUNT) (header_at m header))) ;;*
      poke (λ m, put_header m header
        (set_ctba (wrap 32 cmd_table_base_addr) (wrap 32 (Z.shiftr cmd_table_base_addr 32)) (header_at m header))) ;;*
      init_headers cmd_header_addr is_
  end.

(** [port.clb as usize + ((port.clbu as usize) << 32)]. *)
Definition command_list : am Z :=
  let* lo := load CLB in
  let* hi := load CLBU in
  kret (lo + Z.shiftl hi 32).

Definition port_init (fuel : nat) : am unit :=
  stop_cmd fuel ;;*
  let* cl_base_addr := dma_page in
  zero cl_base_addr PAGE_SIZE ;;*
  store CLB (wrap 32 cl_base_addr) ;;*
  store CLBU (wrap 32 (Z.shiftr cl_base_addr 32)) ;;*
  let* fis_base_addr := dma_page in
  zero fis_base_addr PAGE_SIZE ;;*
  store FB (wrap 32 fis_base_addr) ;;*
  store FBU (wrap 32 (Z.shiftr fis_base_addr 32)) ;;*
  let* cmd_header_addr := command_list in
  init_headers cmd_header_addr (seqZ 0 32) ;;*
  start_cmd fuel.

(** The first slot that is neither active nor issued. *)
Fixpoint free_slot_from (is_ : list Z) : am (option Z) :=
  match is_ with
  | [] => kret None
  | i :: is_ =>
      let* sact := load SACT in
      if negb (Z.land sact (Z.shiftl 1 i) =? 0) then free_slot_from is_
      else
        let* ci := load CI in
        if negb (Z.land ci (Z.shiftl 1 i) =? 0) then free_slot_from is_ else kret (Some i)
  end.
Definition get_free_slot (port : AHCIPort) : am (option Z) := free_slot_from (seqZ 0 (max_slots port)).

Definition get_port_ssts : am PortStatus :=
  let* ssts := load SSTS in
  kret {| det := Z.land ssts 0x0F; spd := Z.land (Z.shiftr ssts 4) 0x0F; ipm := Z.land (Z.shiftr ssts 8) 0x0F |}.

(** *** The region descriptors *)

(** The inner loop: [entry_size], [virt_addr] and [bytes_remaining]; [None] where
    the page is not mapped. *)
Definition prdt_chunk (buffer_phys : Z) (x : Z * Z * Z) : am ((Z * Z * Z) + option (Z * Z * Z)) :=
  let '(entry_size, virt_addr, bytes_remaining) := x in
  let* frame := in_mc (dma_translate virt_addr) in
  match frame with
  | None => kret (inr None)
  | Some frame =>
      let page_offset := virt_addr mod PAGE_SIZE in
      let* physical_addr := uadd (frame * PAGE_SIZE) page_offset in
      let* expected := uadd buffer_phys entry_size in
      if (0 <? entry_size) && negb (physical_addr =? expected) then kret (inr (Some x))
      else
        let page_bytes := PAGE_SIZE - page_offset in
        let remaining_entry_space := HBA_PRDT_MAX_BYTE_COUNT - entry_size in
        let chunk_size := Z.min bytes_remaining (Z.min page_bytes remaining_entry_space) in
        let entry_size := entry_size + chunk_size in
        let* virt_addr := uadd virt_addr chunk_size in
        let bytes_remaining := bytes_remaining - chunk_size in
        let x := (entry_size, virt_addr, bytes_remaining) in
        if (bytes_remaining =? 0) || (entry_size =? HBA_PRDT_MAX_BYTE_COUNT) then kret (inr (Some x))
        else kret (inl x)
  end.

(** The pages of one entry, and one more. *)
Definition PRDT_CHUNKS : nat := 1025.

(** The outer loop: [virt_addr], [bytes_remaining] and [prdt_index]. *)
Definition prdt_entry (cmd_table : Z) (x : Z * Z * Z) : am ((Z * Z * Z) + option Z) :=
  let '(virt_addr, bytes_remaining, prdt_index) := x in
  if bytes_remaining <=? 0 then kret (inr (Some prdt_index))
  else if HBA_PRDT_ENTRY_COUNT <=? prdt_index then kret (inr None)
  else
    let* first_frame := in_mc (dma_translate virt_addr) in
    match first_frame with
    | None => kret (inr None)
    | Some first_frame =>
        let* buffer_phys := uadd (first_frame * PAGE_SIZE) (virt_addr mod PAGE_SIZE) in
        let* r := loopM PRDT_CHUNKS (prdt_chunk buffer_phys) (0, virt_addr, bytes_remaining) in
        match r with
        | None => kret (inr None)
        | Some (entry_size, virt_addr, bytes_remaining) =>
            poke (λ m,
              let a := prdt_addr cmd_table prdt_index in
              let e := prdt_at m a in
              put_prdt m a
                (set_interrupt_on_completion (bytes_remaining =? 0)
                  (set_data_byte_count (entry_size - 1)
                    {| data_base_address := wrap 32 buffer_phys;
                       data_base_address_upper := wrap 32 (Z.shiftr buffer_phys 32);
                       dbc_rsv1_i := dbc_rsv1_i e |}))) ;;*
            kret (inl (virt_addr, bytes_remaining, prdt_index + 1))
        end
    end.

Definition fill_prdt_entries (cmd_table buffer_addr data_byte_count : Z) : am (option Z) :=
  if data_byte_count =? 0 then kret None
  else loopM (Z.to_nat HBA_PRDT_ENTRY_COUNT + 1) (prdt_entry cmd_table) (buffer_addr, data_byte_count, 0).

(** *** Commands *)

Definition reset_port (fuel : nat) : am unit :=
  modify CMD (λ v, Z.ldiff v HBA_PXCMD_ST) ;;*
  modify CMD (λ v, Z.ldiff v HBA_PXCMD_FRE) ;;*
  wait_clear fuel (Z.lor HBA_PXCMD_CR HBA_PXCMD_FR) ;;*
  store CI 0 ;;*
  store SACT 0 ;;*
  modify CMD (λ v, Z.lor v HBA_PXCMD_FRE) ;;*
  modify CMD (λ v, Z.lor v HBA_PXCMD_ST).

(** The command FIS, on top of what is in memory. *)
Definition command_fis (c : AHCICommand) (f : FisRegH2D) : FisRegH2D :=
  let lba_low := wrap 32 (lba c) in
  let lba_high := wrap 32 (Z.shiftr (lba c) 32) in
  set_control_bit true
    {| fis_type := RegH2D; pmport_rsv0_c := pmport_rsv0_c f; command := cmd c; feature_low := feature_low f;
       lba0 := wrap 8 lba_low; lba1 := wrap 8 (Z.shiftr lba_low 8); lba2 := wrap 8 (Z.shiftr lba_low 16);
       device := if is_lba_mode c then Z.shiftl 1 6 else 0;
       lba3 := wrap 8 lba_high; lba4 := wrap 8 (Z.shiftr lba_high 8); lba5 := wrap 8 (Z.shiftr lba_high 16);
       feature_high := feature_high f;
       count_low := wrap 8 (Z.land (count c) 0xFF); count_high := wrap 8 (Z.land (Z.shiftr (count c) 8) 0xFF);
       icc := icc f; control := cmd_control c |}.

(** Writes the command into a slot; [false] if the buffer cannot be described. *)
Definition prepare_slot (c : AHCICommand) (slot : Z) : am bool :=
  let* cl := command_list in
  let cmd_header := cl + COMMAND_HEADER_SIZE * slot in
  poke (λ m, put_header m cmd_header (set_write_bit (is_write c) (set_cfl 5 (header_at m cmd_header)))) ;;*
  let* cmd_table := peek (λ m, ctba (header_at m cmd_header) + Z.shiftl (ctbau (header_at m cmd_header)) 32) in
  zero cmd_table COMMAND_TABLE_SIZE ;;*
  let* prdt_count := fill_prdt_entries cmd_table (buffer_addr c) (data_byte_count c) in
  match prdt_count with
  | None => kret false
  | Some prdt_count =>
      poke (λ m, put_header m cmd_header (set_prdtl (wrap 16 prdt_count) (header_at m cmd_header))) ;;*
      poke (λ m, put m cmd_table (fis_bytes (command_fis c (fis_at m cmd_table)))) ;;*
      poke (λ m, put_header m cmd_header (set_prdbc 0 (header_at m cmd_header))) ;;*
      kret true
  end.

(** [true]: the device has taken the command out of [ci]. *)
Definition wait_issued (fuel : nat) : am bool :=
  loopM fuel (λ _,
    let* ci := load CI in
    if ci =? 0 then kret (inr true)
    else
      let* is_ := load IS in
      kret (if negb (Z.land is_ HBA_PXIS_TFES =? 0) then inr false else inl tt)) tt.

Definition SPIN_LIMIT : Z := 1000000.
Definition wait_ready : am Z :=
  loopM (Z.to_nat (SPIN_LIMIT + 1)) (λ spin,
    let* tfd := load TFD in
    kret (if negb (Z.land tfd (Z.lor ATA_DEV_BUSY ATA_DEV_DRQ) =? 0) && (spin <? SPIN_LIMIT) then inl (spin + 1) else inr spin)) 0.

Definition send_command (fuel : nat) (port : AHCIPort) (c : AHCICommand) : am bool :=
  store IS u32_max ;;*
  let* spin := wait_ready in
  if spin =? SPIN_LIMIT then kret false
  else
    let* slot := get_free_slot port in
    let* slot :=
      match slot with
      | Some s => kret (Some s)
      | None => reset_port fuel ;;* get_free_slot port
      end in
    match slot with
    | None => kret false
    | Some slot =>
        let* prepared := prepare_slot c slot in
        if negb prepared then kret false
        else
          store CI (Z.shiftl 1 slot) ;;*
          let* issued := wait_issued fuel in
          if negb issued then kret false
          else let* is_ := load IS in kret (Z.land is_ HBA_PXIS_TFES =? 0)
    end.

Definition read (fuel : nat) (port : AHCIPort) (sector sector_count buffer : Z) : am bool :=
  send_command fuel port
    {| buffer_addr := buffer; data_byte_count := wrap 32 (Z.shiftl sector_count 9); cmd := ATA_CMD_READ_DMA_EX;
       cmd_control := 1; lba := sector; count := sector_count; is_write := false; is_lba_mode := true |}.

Definition write_sectors (fuel : nat) (port : AHCIPort) (sector sector_count buffer : Z) : am bool :=
  if sector_count =? 0 then kret false
  else
    send_command fuel port
      {| buffer_addr := buffer; data_byte_count := wrap 32 (Z.shiftl sector_count 9); cmd := ATA_CMD_WRITE_DMA_EX;
         cmd_control := 1; lba := sector; count := sector_count; is_write := true; is_lba_mode := true |}.

Definition write_sector (fuel : nat) (port : AHCIPort) (sector buffer : Z) : am bool := write_sectors fuel port sector 1 buffer.

(** *** Identification *)

(** The bytes of a buffer at a virtual address. *)
Definition virt_addr (c : C) (a : Z) : option Z :=
  f ← page_frame c (a / PAGE_SIZE); Some (f * PAGE_SIZE + a mod PAGE_SIZE).
Definition virt_put (addr : Z) (bs : list Z) : am unit := λ s,
  match mapM (virt_addr (mc s)) (seqZ addr (Z.of_nat (length bs))) with
  | Some l => Done (tt, {| bus := (List.fold_left (λ m ab, put m ab.1 [ab.2]) (zip l bs) (bus s).1, (bus s).2); mc := mc s |})
  | None => Fault Undefined
  end.
Definition virt_get (addr : Z) (n : nat) : am (list Z) := λ s,
  match mapM (virt_addr (mc s)) (seqZ addr (Z.of_nat n)) with
  | Some l => Done (map (bus s).1 l, s)
  | None => Fault Undefined
  end.

Definition rotate_left_16 (x : Z) : Z := wrap 32 (Z.lor (Z.shiftl x 16) (Z.shiftr x 16)).
Definition be_value (bs : list Z) : Z := le_value (rev bs).
(** The number of sectors in the answer to IDENTIFY. *)
Definition identify_block_count (buffer : list Z) : Z :=
  let identify_words := map le_value (chunks 256 2 buffer) in
  let identify_bytes := concat (map (λ w, rev (le_bytes 2 w)) identify_words) in
  rotate_left_16 (be_value (take 4 (drop 120 identify_bytes))).

Definition ahci_identify (fuel : nat) (port : AHCIPort) : am (bool * AHCIPort) :=
  let* buffer := in_mc (dma_alloc 512) in
  virt_put buffer (repeat 0 512) ;;*
  let* sent := send_command fuel port
    {| buffer_addr := buffer; data_byte_count := 512; cmd := ATA_CMD_IDENTIFY; cmd_control := 0;
       lba := 0; count := 0; is_write := false; is_lba_mode := false |} in
  if negb sent then in_mc (dma_dealloc buffer) ;;* kret (false, port)
  else
    let* answer := virt_get buffer 512 in
    in_mc (dma_dealloc buffer) ;;*
    kret (true, {| port_address := port_address port; max_slots := max_slots port; block_count := identify_block_count answer |}).
End Port.

(** ** Finding the ports (mod.rs) *)

Definition HBA_PORT_IPM_ACTIVE : Z := 1.
Definition HBA_PORT_DET_PRESENT : Z := 3.
Definition SATA_SIG_ATAPI : Z := 0xEB140101.
Definition SATA_SIG_SEMB : Z := 0xC33C0101.
Definition SATA_SIG_PM : Z := 0x96690101.

Inductive AHCIDeviceType := Null | SATA | SEMB | PM | SATAPI.
#[global] Instance device_type_eq_dec : EqDecision AHCIDeviceType.
Proof. solve_decision. Defined.

Definition check_port_type (status sig : Z) : AHCIDeviceType :=
  let ipm := Z.land (Z.shiftr status 8) 0x0F in
  let det := Z.land status 0x0F in
  if negb (det =? HBA_PORT_DET_PRESENT) || negb (ipm =? HBA_PORT_IPM_ACTIVE) then Null
  else if sig =? SATA_SIG_ATAPI then SATAPI
  else if sig =? SATA_SIG_SEMB then SEMB
  else if sig =? SATA_SIG_PM then PM
  else SATA.

(** The loop over the ports; [open] is [AHCIPort::new], [init] and [ahci_identify]
    on the registers of port [i]. *)
Fixpoint probe_loop {S P} (port_type : Z → kst S AHCIDeviceType) (open : Z → kst S P) (is_ : list Z) (pi : Z) (ports : list P) :
    kst S (list P) :=
  match is_ with
  | [] => kret ports
  | i :: is_ =>
      if negb (Z.land pi 1 =? 0) then
        let* ty := port_type i in
        if negb (bool_decide (ty = SATA)) && negb (bool_decide (ty = SATAPI)) then probe_loop port_type open is_ pi ports
        else
          let* p := open i in
          probe_loop port_type open is_ (Z.shiftr pi 1) (ports ++ [p])
      else probe_loop port_type open is_ (Z.shiftr pi 1) ports
  end.

Definition probe_ports {S P} (port_type : Z → kst S AHCIDeviceType) (open : Z → Z → kst S P) (cap pi : Z) : kst S (list P) :=
  let max_slots := Z.land cap 0x1F + 1 in
  probe_loop port_type (λ i, open i max_slots) (seqZ 0 32) pi [].
