(* ===== verification/AhciPrdt.v ===== *)
(** * AhciPrdt: the region descriptors of a command

    What [fill_prdt_entries] writes, against the controller's own reading of a
    descriptor: the entries of a mapped buffer name its physical bytes, in order. *)

From S2P Require Import Prelude Ahci.

(** ** Memory *)

Section Memory.
Implicit Types m : Z → Z.

Lemma put_out m addr bs a : ¬ (addr ≤ a < addr + Z.of_nat (length bs)) → put m addr bs a = m a.
Proof. intros H. unfold put. destruct (Z.leb_spec addr a), (Z.ltb_spec a (addr + Z.of_nat (length bs))); try done. lia. Qed.

Lemma put_in m addr bs i b : bs !! i = Some b → put m addr bs (addr + Z.of_nat i) = b.
Proof.
  intros H. pose proof (lookup_lt_Some _ _ _ H). unfold put.
  destruct (Z.leb_spec addr (addr + Z.of_nat i)); [|lia]. destruct (Z.ltb_spec (addr + Z.of_nat i) (addr + Z.of_nat (length bs))); [|lia]. cbn [andb].
  replace (addr + Z.of_nat i - addr) with (Z.of_nat i) by lia. by rewrite lookupZ_nat, H.
Qed.

Lemma lookup_get m a n i : (i < n)%nat → get m a n !! i = Some (m (a + Z.of_nat i)).
Proof. intros H. unfold get. rewrite list_lookup_fmap, lookup_seqZ_lt by lia. done. Qed.

Lemma length_get m a n : length (get m a n) = n.
Proof. unfold get. rewrite length_map, length_seqZ. lia. Qed.

Lemma get_ext m m' a n : (∀ x, a ≤ x < a + Z.of_nat n → m' x = m x) → get m' a n = get m a n.
Proof. intros H. apply map_ext_in. intros i Hi. apply list_elem_of_In, elem_of_seqZ in Hi. apply H. lia. Qed.

(** Reading back a part of what was written. *)
Lemma get_put m addr pre bs post n : n = length bs → get (put m addr (pre ++ bs ++ post)) (addr + Z.of_nat (length pre)) n = bs.
Proof.
  intros ->. apply list_eq_same_length with (n := length bs); [done | apply length_get|].
  intros i x y Hi Hx Hy. rewrite lookup_get in Hx by lia. injection Hx as <-.
  replace (addr + Z.of_nat (length pre) + Z.of_nat i) with (addr + Z.of_nat (length pre + i)) by lia.
  apply put_in. rewrite lookup_app_r by lia. replace (length pre + i - length pre)%nat with i by lia.
  by rewrite lookup_app_l by lia.
Qed.

Lemma get_put_out m addr bs a n : a + Z.of_nat n ≤ addr ∨ addr + Z.of_nat (length bs) ≤ a → get (put m addr bs) a n = get m a n.
Proof. intros H. apply get_ext. intros x Hx. apply put_out. lia. Qed.
End Memory.

Lemma le_bytes_app a b z : le_bytes (a + b) z = le_bytes a z ++ le_bytes b (z / 256 ^ Z.of_nat a).
Proof.
  revert z. induction a as [|a IH]; intros z; cbn [le_bytes Nat.add app]; [by rewrite Z.div_1_r|].
  rewrite IH. do 3 f_equal. rewrite Nat2Z.inj_succ, Z.pow_succ_r, Z.div_div by lia. done.
Qed.

Lemma le_bytes_mod n z : le_bytes n (z mod 256 ^ Z.of_nat n) = le_bytes n z.
Proof.
  revert z. induction n as [|n IH]; intros z; cbn [le_bytes]; [done|].
  rewrite Nat2Z.inj_succ, Z.pow_succ_r by lia. rewrite Z.rem_mul_r by lia.
  rewrite (Z.mul_comm 256), Z.mod_add, Z.mod_mod, Z.div_add by lia.
  rewrite (Z.div_small (z mod 256)) by (apply Z.mod_pos_bound; lia). by rewrite Z.add_0_l, IH.
Qed.

Lemma le_value_le_bytes n z : le_value (le_bytes n z) = z mod 256 ^ Z.of_nat n.
Proof. rewrite <- le_bytes_mod. apply le_value_bytes, Z.mod_pos_bound. lia. Qed.

(** The two halves of an address. *)
Lemma le_halves z : le_bytes 4 (wrap 32 z) ++ le_bytes 4 (wrap 32 (Z.shiftr z 32)) = le_bytes 8 z.
Proof.
  rewrite (le_bytes_app 4 4). f_equal.
  - apply (le_bytes_mod 4).
  - rewrite Z.shiftr_div_pow2 by lia. apply (le_bytes_mod 4).
Qed.

(** ** What the controller reads *)

(** A descriptor: where the bytes are, and how many. *)
Definition segment_at (m : Z → Z) (a : Z) : Z * Z := (get_le m a 8, Z.land (get_le m (a + 12) 4) 0x3FFFFF + 1).
Definition segments (m : Z → Z) (table n : Z) : list (Z * Z) := map (λ i, segment_at m (table + 0x80 + 16 * i)) (seqZ 0 n).
(** The addresses of the bytes. *)
Definition addresses (segs : list (Z * Z)) : list Z := concat (map (λ s, seqZ s.1 s.2) segs).

(** A flag is one bit. *)
Lemma set_flag_bit k b y i : 0 ≤ k → Z.testbit (set_flag (2 ^ k) b y) i = if i =? k then b else Z.testbit y i.
Proof.
  intros Hk. unfold set_flag. destruct (Z.eqb_spec i k) as [->|]; destruct b.
  - rewrite Z.lor_spec, Z.pow2_bits_true by done. apply orb_true_r.
  - rewrite Z.ldiff_spec, Z.pow2_bits_true by done. apply andb_false_r.
  - rewrite Z.lor_spec, Z.pow2_bits_false by done. apply orb_false_r.
  - rewrite Z.ldiff_spec, Z.pow2_bits_false by done. apply andb_true_r.
Qed.

(** The byte count survives the flag next to it. *)
Lemma byte_count_bits x v b : 0 ≤ v < 2 ^ 22 →
  Z.land (le_value (le_bytes 4 (set_flag 0x80000000 b (Z.lor (Z.ldiff x 0x3FFFFF) (Z.land v 0x3FFFFF))))) 0x3FFFFF = v.
Proof.
  intros Hv. rewrite le_value_le_bytes. change (256 ^ Z.of_nat 4) with (2 ^ 32). change 0x3FFFFF with (Z.ones 22).
  rewrite <- Z.land_ones by lia. apply Z.bits_inj'. intros i Hi. rewrite !Z.land_spec.
  rewrite !(Z.testbit_ones_nonneg _ i) by lia.
  destruct (Z.ltb_spec i 22).
  2: { rewrite !andb_false_r. symmetry. apply (proj1 (Z.bounded_iff_bits_nonneg 22 v ltac:(lia) ltac:(lia))); lia. }
  destruct (Z.ltb_spec i 32); [|lia]. rewrite !andb_true_r.
  change 0x80000000 with (2 ^ 31). rewrite set_flag_bit by lia. destruct (Z.eqb_spec i 31); [lia|].
  rewrite Z.lor_spec, Z.ldiff_spec, Z.land_spec, (Z.testbit_ones_nonneg _ i) by lia.
  destruct (Z.ltb_spec i 22); [|lia]. cbn [negb]. rewrite andb_false_r, andb_true_r. done.
Qed.

(** An entry as the driver writes it. *)
Lemma put_prdt_segment m a phys size x b : 0 ≤ phys < 2 ^ 64 → 0 < size ≤ HBA_PRDT_MAX_BYTE_COUNT →
  segment_at (put_prdt m a (set_interrupt_on_completion b (set_data_byte_count (size - 1)
    {| data_base_address := wrap 32 phys; data_base_address_upper := wrap 32 (Z.shiftr phys 32); dbc_rsv1_i := x |}))) a = (phys, size).
Proof.
  intros Hp Hs. unfold segment_at, put_prdt, get_le. cbn [data_base_address data_base_address_upper dbc_rsv1_i set_interrupt_on_completion set_data_byte_count set_dw3].
  f_equal.
  - rewrite get_put_out by (left; lia).
    rewrite le_halves. pose proof (get_put m a [] (le_bytes 8 phys) [] 8 (eq_sym (length_le_bytes 8 phys))) as E.
    cbn [length] in E. rewrite Z.add_0_r, app_nil_r in E. cbn [app] in E. rewrite E. apply le_value_bytes. change (256 ^ Z.of_nat 8) with (2 ^ 64). lia.
  - match goal with |- context [put _ (a + 12) ?bs] => pose proof (get_put (put m a (le_bytes 4 (wrap 32 phys) ++ le_bytes 4 (wrap 32 (Z.shiftr phys 32)))) (a + 12) [] bs [] 4 (eq_sym (length_le_bytes 4 _))) as E end.
    cbn [length] in E. rewrite Z.add_0_r, app_nil_r in E. cbn [app] in E. rewrite E.
    rewrite byte_count_bits by (unfold HBA_PRDT_MAX_BYTE_COUNT in Hs; lia). lia.
Qed.

Lemma put_prdt_out m a e x : ¬ (a ≤ x < a + 16) → put_prdt m a e x = m x.
Proof. intros H. unfold put_prdt. rewrite !put_out; [done | |]; rewrite ?length_app, !length_le_bytes; lia. Qed.

Lemma segment_ext m m' a : (∀ x, a ≤ x < a + 16 → m' x = m x) → segment_at m' a = segment_at m a.
Proof. intros H. unfold segment_at, get_le. rewrite !(get_ext m m'); [done | |]; intros x Hx; apply H; lia. Qed.

Lemma segments_ext m m' table n : (∀ x, table + 0x80 ≤ x < table + 0x80 + 16 * n → m' x = m x) → segments m' table n = segments m table n.
Proof.
  intros H. apply map_ext_in. intros i Hi. apply list_elem_of_In, elem_of_seqZ in Hi.
  apply segment_ext. intros x Hx. apply H. lia.
Qed.

Lemma segments_snoc m table n : 0 ≤ n → segments m table (n + 1) = segments m table n ++ [segment_at m (table + 0x80 + 16 * n)].
Proof. intros H. unfold segments. rewrite seqZ_app by lia. rewrite map_app. done. Qed.

Lemma addresses_snoc segs a n : addresses (segs ++ [(a, n)]) = addresses segs ++ seqZ a n.
Proof. unfold addresses. rewrite map_app, concat_app. cbn. by rewrite app_nil_r. Qed.

(** ** The two loops *)

Section Prdt.
Context {C D : Type} `{HbaDevice D, DmaMemory C}.
(** The mapping, in states of the memory subsystem that satisfy [ok]. *)
Context (ok : C → Prop) (frame : Z → option Z).
Hypothesis frame_bound : ∀ p f, frame p = Some f → 0 ≤ f < 2 ^ 40.
Hypothesis translates : ∀ a c, ok c → ∃ c', dma_translate a c = Done (frame (a / PAGE_SIZE), c') ∧ ok c'.
Implicit Types s : hba C D.

Definition physical (a : Z) : option Z := f ← frame (a / PAGE_SIZE); Some (f * PAGE_SIZE + a mod PAGE_SIZE).

Lemma translate_step a s : ok (mc s) →
  ∃ c, in_mc (dma_translate a) s = Done (frame (a / PAGE_SIZE), {| bus := bus s; mc := c |}) ∧ ok c.
Proof. intros Hc. destruct (translates a (mc s) Hc) as (c & E & Hc'). exists c. unfold in_mc, zoom. by rewrite E. Qed.

Lemma physical_bound a p : physical a = Some p → 0 ≤ p < 2 ^ 52.
Proof.
  unfold physical. destruct (frame (a / PAGE_SIZE)) as [f|] eqn:E; cbn; [|done]. intros [= <-].
  pose proof (frame_bound _ _ E). pose proof (Z.mod_pos_bound a PAGE_SIZE ltac:(done)). unfold PAGE_SIZE in *. lia.
Qed.

(** The bytes of one page are consecutive. *)
Lemma physical_page a p i : physical a = Some p → 0 ≤ i → a mod PAGE_SIZE + i < PAGE_SIZE → physical (a + i) = Some (p + i).
Proof.
  intros Hp Hi Hlt. unfold physical in *.
  assert ((a + i) / PAGE_SIZE = a / PAGE_SIZE ∧ (a + i) mod PAGE_SIZE = a mod PAGE_SIZE + i) as [-> ->].
  { pose proof (Z.div_mod a PAGE_SIZE ltac:(done)). pose proof (Z.mod_pos_bound a PAGE_SIZE ltac:(done)).
    split; [symmetry; apply (Z.div_unique_pos _ _ _ (a mod PAGE_SIZE + i)) | symmetry; apply (Z.mod_unique_pos _ _ (a / PAGE_SIZE))]; lia. }
  destruct (frame (a / PAGE_SIZE)); cbn in *; [|done]. injection Hp as <-. f_equal. lia.
Qed.

(** [n] bytes from [a] on, at consecutive physical addresses from [p] on. *)
Definition run (a p n : Z) : Prop := ∀ i, 0 ≤ i < n → physical (a + i) = Some (p + i).
Definition mapped (a n : Z) : Prop := ∀ i, 0 ≤ i < n → is_Some (physical (a + i)).

Lemma run_page a p n : physical a = Some p → a mod PAGE_SIZE + n ≤ PAGE_SIZE → run a p n.
Proof. intros Hp Hn i Hi. apply physical_page; [done|lia..]. Qed.

Lemma run_app a p n k : run a p n → run (a + n) (p + n) k → run a p (n + k).
Proof.
  intros H1 H2 i Hi. destruct (Z.lt_ge_cases i n); [apply H1; lia|].
  replace (a + i) with (a + n + (i - n)) by lia. rewrite H2 by lia. f_equal. lia.
Qed.

(** What the inner loop ends with, from [va] on with [rem] bytes to go. *)
Definition chunk_done (va p rem : Z) (x : Z * Z * Z) : Prop :=
  let '(es, va', rem') := x in
  0 < es ≤ HBA_PRDT_MAX_BYTE_COUNT ∧ va' = va + es ∧ rem' = rem - es ∧ 0 ≤ rem' ∧ run va p es
  ∧ (rem' = 0 ∨ va / PAGE_SIZE < va' / PAGE_SIZE).

Lemma page_next va es : 0 < es → (va + es) mod PAGE_SIZE = 0 → va / PAGE_SIZE < (va + es) / PAGE_SIZE.
Proof. unfold PAGE_SIZE. intros He Hm. pose proof (Z.div_mod va 4096). pose proof (Z.mod_pos_bound va 4096). pose proof (Z.div_mod (va + es) 4096). lia. Qed.

Lemma page_jump va es : HBA_PRDT_MAX_BYTE_COUNT ≤ es → va / PAGE_SIZE < (va + es) / PAGE_SIZE.
Proof. unfold PAGE_SIZE, HBA_PRDT_MAX_BYTE_COUNT. intros He. pose proof (Z.div_mod va 4096). pose proof (Z.mod_pos_bound va 4096). pose proof (Z.div_mod (va + es) 4096). pose proof (Z.mod_pos_bound (va + es) 4096). lia. Qed.

Lemma chunk_loop n es va p rem s : ok (mc s) → physical va = Some p → 0 ≤ va → 0 ≤ es < HBA_PRDT_MAX_BYTE_COUNT → 0 < rem →
  mapped (va + es) rem → va + es + rem ≤ usize_max → run va p es → (0 < es → (va + es) mod PAGE_SIZE = 0) →
  (HBA_PRDT_MAX_BYTE_COUNT - es ≤ PAGE_SIZE * (Z.of_nat n - 1) ∨ 0 < es ∧ HBA_PRDT_MAX_BYTE_COUNT - es ≤ PAGE_SIZE * Z.of_nat n) →
  ∃ x c, loopM n (prdt_chunk p) (es, va + es, rem) s = Done (Some x, {| bus := bus s; mc := c |}) ∧ ok c ∧ chunk_done va p (es + rem) x.
Proof.
  revert es rem s. induction n as [|n IH]; intros es rem s Hs Hp Hva Hes Hrem Hm Hmax Hrun Hal Hn.
  { unfold PAGE_SIZE in Hn. lia. }
  rewrite loopM_step. unfold prdt_chunk at 1. rewrite kbind_assoc.
  destruct (translate_step (va + es) s Hs) as (c & E & Hc). rewrite (kbind_done _ _ _ _ _ E).
  destruct (Hm 0 ltac:(lia)) as [q Hq]. rewrite Z.add_0_r in Hq.
  pose proof (physical_bound _ _ Hp) as Bp. pose proof (physical_bound _ _ Hq) as Bq.
  assert (Hf : ∃ f, frame ((va + es) / PAGE_SIZE) = Some f ∧ q = f * PAGE_SIZE + (va + es) mod PAGE_SIZE).
  { unfold physical in Hq. destruct (frame ((va + es) / PAGE_SIZE)) as [f|]; cbn in Hq; [|done]. injection Hq as <-. by exists f. }
  destruct Hf as (f & -> & Ef). rewrite !kbind_assoc, uadd_bind by (unfold usize_max; lia). rewrite <- Ef.
  rewrite !kbind_assoc, uadd_bind by (unfold usize_max, HBA_PRDT_MAX_BYTE_COUNT in *; lia).
  destruct ((0 <? es) && negb (q =? p + es)) eqn:T.
  { bool_to_prop. unfold kbind, kret. eexists _, c. split; [done|]. split; [done|]. unfold chunk_done.
    split_and!; [lia..|done|right; apply page_next; [lia|auto]]. }
  assert (Eq : q = p + es).
  { apply andb_false_iff in T as [T|T]; bool_to_prop; [|done]. assert (es = 0) as -> by lia. rewrite Z.add_0_r in Hq. rewrite Hp in Hq. injection Hq. lia. }
  pose proof (Z.mod_pos_bound (va + es) PAGE_SIZE ltac:(done)) as Bo.
  set (chunk := Z.min rem (Z.min (PAGE_SIZE - (va + es) mod PAGE_SIZE) (HBA_PRDT_MAX_BYTE_COUNT - es))).
  assert (Hch : 0 < chunk ≤ rem ∧ chunk ≤ PAGE_SIZE - (va + es) mod PAGE_SIZE ∧ es + chunk ≤ HBA_PRDT_MAX_BYTE_COUNT) by lia.
  rewrite kbind_assoc, uadd_bind by lia.
  assert (Hrun' : run va p (es + chunk)).
  { apply run_app; [done|]. rewrite <- Eq. apply run_page; [done|lia]. }
  destruct ((rem - chunk =? 0) || (es + chunk =? HBA_PRDT_MAX_BYTE_COUNT)) eqn:X.
  - unfold kbind, kret. eexists _, c. split; [done|]. split; [done|]. unfold chunk_done.
    apply orb_true_iff in X as [X|X]; bool_to_prop; split_and!; try lia; try done.
    right. rewrite <- Z.add_assoc. apply page_jump. lia.
  - bool_to_prop. rewrite kret_bind.
    rewrite <- Z.add_assoc. destruct (IH (es + chunk) (rem - chunk) {| bus := bus s; mc := c |}) as (x & c' & El & Hc' & Hd); try done; try lia.
    + intros i Hi. rewrite Z.add_assoc. replace (va + es + chunk + i) with (va + es + (chunk + i)) by lia. apply Hm. lia.
    + intros _. assert (chunk = PAGE_SIZE - (va + es) mod PAGE_SIZE) as -> by lia.
      pose proof (Z.div_mod (va + es) PAGE_SIZE ltac:(done)).
      replace (va + (es + (PAGE_SIZE - (va + es) mod PAGE_SIZE))) with ((1 + (va + es) / PAGE_SIZE) * PAGE_SIZE) by (unfold PAGE_SIZE in *; lia).
      by apply Z.mod_mul.
    + exists x, c'. split; [done|]. split; [done|]. replace (es + rem) with (es + chunk + (rem - chunk)) by lia. done.
Qed.

Definition pages (va rem : Z) : Z := if rem <=? 0 then 0 else (va + rem - 1) / PAGE_SIZE - va / PAGE_SIZE + 1.

Lemma pages_pos va rem : 0 < rem → 0 < pages va rem.
Proof. intros Hr. unfold pages. destruct (Z.leb_spec rem 0); [lia|]. pose proof (Z.div_le_mono va (va + rem - 1) PAGE_SIZE ltac:(done)). lia. Qed.

(** An entry uses up at least one page. *)
Lemma pages_less va p rem x : 0 < rem → chunk_done va p rem x → pages x.1.2 x.2 < pages va rem.
Proof.
  destruct x as [[es va'] rem']. intros Hr (He & -> & -> & Hr' & _ & Hp). cbn [fst snd]. destruct Hp as [->|Hp].
  - pose proof (pages_pos va rem Hr). by cbn.
  - unfold pages. destruct (Z.leb_spec rem 0); [lia|].
    pose proof (Z.div_le_mono va (va + rem - 1) PAGE_SIZE ltac:(done)).
    destruct (Z.leb_spec (rem - es) 0); [lia|]. replace (va + es + (rem - es) - 1) with (va + rem - 1) by lia. lia.
Qed.

Lemma map_run va p n : run va p n → map physical (seqZ va n) = map Some (seqZ p n).
Proof.
  intros Hr. unfold seqZ. change (map physical (map (λ i, Z.of_nat i + va) (seq 0 (Z.to_nat n))) = map Some (map (λ i, Z.of_nat i + p) (seq 0 (Z.to_nat n)))).
  rewrite !map_map. apply map_ext_in. intros i Hi. apply in_seq in Hi. rewrite !(Z.add_comm (Z.of_nat i)). apply Hr. lia.
Qed.

Lemma seqZ_split a n k : 0 ≤ k ≤ n → seqZ a n = seqZ a k ++ seqZ (a + k) (n - k).
Proof. intros Hk. rewrite <- seqZ_app by lia. f_equal. lia. Qed.

(** The entries written so far name the first [k] bytes of the buffer. *)
Definition describes (m : Z → Z) (table idx buf k : Z) : Prop :=
  map Some (addresses (segments m table idx)) = map physical (seqZ buf k).

Lemma describes_step m m' table idx buf k p es : 0 ≤ idx → 0 ≤ k → 0 ≤ es → describes m table idx buf k → run (buf + k) p es →
  (∀ a, table + 0x80 ≤ a < table + 0x80 + 16 * idx → m' a = m a) → segment_at m' (table + 0x80 + 16 * idx) = (p, es) →
  describes m' table (idx + 1) buf (k + es).
Proof.
  intros Hi Hk He Hd Hr Hm Hseg. unfold describes. rewrite segments_snoc, Hseg, addresses_snoc, map_app by done.
  rewrite (segments_ext m m') by done. rewrite Hd, (seqZ_split buf (k + es) k) by lia. rewrite map_app. f_equal.
  rewrite <- (map_run (buf + k) p es Hr). do 2 f_equal. lia.
Qed.

Lemma prdt_loop n table buf total k idx s : ok (mc s) → 0 ≤ buf → buf + total ≤ usize_max → 0 ≤ k ≤ total → mapped buf total → 0 ≤ idx →
  describes (bus s).1 table idx buf k → idx + pages (buf + k) (total - k) ≤ HBA_PRDT_ENTRY_COUNT → pages (buf + k) (total - k) < Z.of_nat n →
  ∃ m' c idx', loopM n (prdt_entry table) (buf + k, total - k, idx) s = Done (Some idx', {| bus := (m', (bus s).2); mc := c |}) ∧ ok c
    ∧ idx ≤ idx' ≤ HBA_PRDT_ENTRY_COUNT ∧ describes m' table idx' buf total
    ∧ (∀ a, ¬ (table + 0x80 ≤ a < table + COMMAND_TABLE_SIZE) → m' a = (bus s).1 a).
Proof.
  revert k idx s. induction n as [|n IH]; intros k idx s Hs Hb Hmax Hk Hm Hi Hd Hp Hn.
  { unfold pages in Hn. destruct (Z.leb_spec (total - k) 0); [lia|]. pose proof (Z.div_le_mono (buf + k) (buf + k + (total - k) - 1) PAGE_SIZE ltac:(done)). lia. }
  rewrite loopM_step. unfold prdt_entry at 1. destruct (Z.leb_spec (total - k) 0).
  { assert (k = total) as -> by lia. exists (bus s).1, (mc s), idx. split; [by destruct s as [[]]|]. split; [done|].
    split; [unfold pages in Hp; destruct (Z.leb_spec (total - total) 0); lia|]. done. }
  pose proof (pages_pos (buf + k) (total - k) ltac:(lia)) as Hpos.
  destruct (Z.leb_spec HBA_PRDT_ENTRY_COUNT idx); [lia|].
  destruct (translate_step (buf + k) s Hs) as (c & E & Hc). rewrite kbind_assoc, (kbind_done _ _ _ _ _ E).
  destruct (Hm k ltac:(lia)) as [p Hq]. pose proof (physical_bound _ _ Hq) as Bq.
  destruct (frame ((buf + k) / PAGE_SIZE)) as [f|] eqn:Ef; [|unfold physical in Hq; by rewrite Ef in Hq].
  assert (p = f * PAGE_SIZE + (buf + k) mod PAGE_SIZE) as Ep by (unfold physical in Hq; rewrite Ef in Hq; cbn in Hq; by injection Hq).
  rewrite !kbind_assoc, uadd_bind by (unfold usize_max; lia). rewrite <- Ep.
  destruct (chunk_loop PRDT_CHUNKS 0 (buf + k) p (total - k) {| bus := bus s; mc := c |}) as (x & c' & El & Hc' & Hx);
    try done; try (unfold HBA_PRDT_MAX_BYTE_COUNT, PRDT_CHUNKS, PAGE_SIZE; lia); try lia.
  { intros i Hi'. rewrite Z.add_0_r, <- Z.add_assoc. apply Hm. lia. }
  { intros i Hi'. lia. }
  rewrite Z.add_0_r in El. rewrite !kbind_assoc, (kbind_done _ _ _ _ _ El).
  pose proof (pages_less (buf + k) p (0 + (total - k)) x ltac:(lia) Hx) as Hless. destruct x as [[es va'] rem']. destruct Hx as (He & -> & -> & Hr' & Hrun & _). cbn [fst snd] in Hless. rewrite Z.add_0_l in Hless, Hr' |- *.
  rewrite kbind_assoc. unfold poke. unfold kbind at 1. cbn [bus mc fst snd].
  match goal with |- context [{| bus := (?m, _); mc := _ |}] => set (m1 := m) end.
  assert (Hout : ∀ a, ¬ (prdt_addr table idx ≤ a < prdt_addr table idx + 16) → m1 a = (bus s).1 a) by (intros a Ha; by apply put_prdt_out).
  assert (Hd' : describes m1 table (idx + 1) buf (k + es)).
  { eapply describes_step; try done; try lia; [intros a Ha; apply Hout; unfold prdt_addr; lia|]. apply put_prdt_segment; lia. }
  rewrite kret_bind.
  replace (buf + k + es) with (buf + (k + es)) in * by lia. replace (total - k - es) with (total - (k + es)) in * by lia.
  destruct (IH (k + es) (idx + 1) {| bus := (m1, (bus s).2); mc := c' |}) as (m' & c2 & idx' & Er & Hc2 & Hi' & Hde & Ho); try done; try lia.
  exists m', c2, idx'. split; [done|]. split; [done|]. split; [lia|]. split; [done|].
  intros a Ha. rewrite Ho by done. apply Hout. unfold prdt_addr. unfold COMMAND_TABLE_SIZE, HBA_PRDT_ENTRY_COUNT in *. lia.
Qed.

(** The descriptors of a whole buffer. *)
Lemma fill_prdt_ok table buf total s : ok (mc s) → 0 ≤ buf → buf + total ≤ usize_max → 0 < total → mapped buf total →
  pages buf total ≤ HBA_PRDT_ENTRY_COUNT →
  ∃ m' c n, fill_prdt_entries table buf total s = Done (Some n, {| bus := (m', (bus s).2); mc := c |}) ∧ ok c
    ∧ 0 ≤ n ≤ HBA_PRDT_ENTRY_COUNT ∧ describes m' table n buf total
    ∧ (∀ a, ¬ (table + 0x80 ≤ a < table + COMMAND_TABLE_SIZE) → m' a = (bus s).1 a).
Proof.
  intros Hs Hb Hmax Ht Hm Hp. unfold fill_prdt_entries. destruct (Z.eqb_spec total 0); [lia|].
  destruct (prdt_loop (Z.to_nat HBA_PRDT_ENTRY_COUNT + 1) table buf total 0 0 s) as (m' & c & idx & E & R); try done; try lia.
  - by rewrite Z.add_0_r, Z.sub_0_r.
  - rewrite Z.add_0_r, Z.sub_0_r. unfold HBA_PRDT_ENTRY_COUNT in *. lia.
  - rewrite Z.add_0_r, Z.sub_0_r in E. by exists m', c, idx.
Qed.
End Prdt.
