(* ===== verification/Fis.v ===== *)
(** * Fis: the frame information structures of SATA (src/src/ahci/fis.rs)

    The structures a device sends, next to the [FisRegH2D] of Ahci.v: one module per
    [struct], its fields, its bytes as [repr(C)] lays them out, and the accessors of
    the byte in which several fields share one [u8]. *)

From S2P Require Import Prelude Ahci AhciPrdt.

Inductive FisType := TRegH2D | TRegD2H | TDMAAct | TDMASetup | TData | TBIST | TPIOSetup | TDevBits.

Definition fis_type_code (t : FisType) : Z :=
  match t with
  | TRegH2D => 0x27 | TRegD2H => 0x34 | TDMAAct => 0x39 | TDMASetup => 0x41
  | TData => 0x46 | TBIST => 0x58 | TPIOSetup => 0x5F | TDevBits => 0xA1
  end.

Module D2H.
Record FisRegD2H := {
  fis_type : Z;
  pmport_rsv0_i_rsv1 : Z;
  status : Z;
  error : Z;
  lba0 : Z; lba1 : Z; lba2 : Z;
  device : Z;
  lba3 : Z; lba4 : Z; lba5 : Z;
  rsv2 : Z;
  count_low : Z;
  count_high : Z;
  rsv3 : list Z;
  rsv4 : list Z;
}.

Definition set_packed (x : Z) (f : FisRegD2H) : FisRegD2H :=
  {| fis_type := fis_type f; pmport_rsv0_i_rsv1 := x; status := status f; error := error f;
     lba0 := lba0 f; lba1 := lba1 f; lba2 := lba2 f; device := device f; lba3 := lba3 f; lba4 := lba4 f; lba5 := lba5 f;
     rsv2 := rsv2 f; count_low := count_low f; count_high := count_high f; rsv3 := rsv3 f; rsv4 := rsv4 f |}.

Definition get_pmport (f : FisRegD2H) : Z := Z.land (pmport_rsv0_i_rsv1 f) 0x0F.
Definition get_interrupt_bit (f : FisRegD2H) : Z := Z.land (pmport_rsv0_i_rsv1 f) 0x40.
Definition set_pmport (val : Z) (f : FisRegD2H) : FisRegD2H := set_packed (put_pmport val (pmport_rsv0_i_rsv1 f)) f.
Definition set_interrupt_bit (val : bool) (f : FisRegD2H) : FisRegD2H := set_packed (set_flag 0x40 val (pmport_rsv0_i_rsv1 f)) f.

Definition fis_bytes (f : FisRegD2H) : list Z :=
  [fis_type f; pmport_rsv0_i_rsv1 f; status f; error f; lba0 f; lba1 f; lba2 f; device f; lba3 f; lba4 f; lba5 f; rsv2 f;
   count_low f; count_high f] ++ rsv3 f ++ rsv4 f.
Definition fis_of (bs : list Z) : FisRegD2H :=
  let b i := nth i bs 0 in
  {| fis_type := b 0%nat; pmport_rsv0_i_rsv1 := b 1%nat; status := b 2%nat; error := b 3%nat;
     lba0 := b 4%nat; lba1 := b 5%nat; lba2 := b 6%nat; device := b 7%nat; lba3 := b 8%nat; lba4 := b 9%nat; lba5 := b 10%nat;
     rsv2 := b 11%nat; count_low := b 12%nat; count_high := b 13%nat; rsv3 := take 2 (drop 14 bs); rsv4 := take 4 (drop 16 bs) |}.
End D2H.

Module Data.
Record FisData := {
  fis_type : Z;
  pmport_rsv0 : Z;
  rsv1 : list Z;
  payload : Z;
}.

Definition set_packed (x : Z) (f : FisData) : FisData :=
  {| fis_type := fis_type f; pmport_rsv0 := x; rsv1 := rsv1 f; payload := payload f |}.
Definition get_pmport (f : FisData) : Z := Z.land (pmport_rsv0 f) 0x0F.
Definition set_pmport (val : Z) (f : FisData) : FisData := set_packed (put_pmport val (pmport_rsv0 f)) f.

Definition fis_bytes (f : FisData) : list Z := [fis_type f; pmport_rsv0 f] ++ rsv1 f ++ le_bytes 4 (payload f).
Definition fis_of (bs : list Z) : FisData :=
  {| fis_type := nth 0 bs 0; pmport_rsv0 := nth 1 bs 0; rsv1 := take 2 (drop 2 bs); payload := le_value (take 4 (drop 4 bs)) |}.
End Data.

Module PIOSetup.
Record FisPIOSetup := {
  fis_type : Z;
  pmport_rsv0_d_i_rsv1 : Z;
  status : Z;
  error : Z;
  lba0 : Z; lba1 : Z; lba2 : Z;
  device : Z;
  lba3 : Z; lba4 : Z; lba5 : Z;
  rsv2 : Z;
  count_low : Z;
  count_high : Z;
  rsv3 : Z;
  e_status : Z;
  tc : Z;
  rsv4 : list Z;
}.

Definition set_packed (x : Z) (f : FisPIOSetup) : FisPIOSetup :=
  {| fis_type := fis_type f; pmport_rsv0_d_i_rsv1 := x; status := status f; error := error f;
     lba0 := lba0 f; lba1 := lba1 f; lba2 := lba2 f; device := device f; lba3 := lba3 f; lba4 := lba4 f; lba5 := lba5 f;
     rsv2 := rsv2 f; count_low := count_low f; count_high := count_high f; rsv3 := rsv3 f; e_status := e_status f;
     tc := tc f; rsv4 := rsv4 f |}.

Definition get_pmport (f : FisPIOSetup) : Z := Z.land (pmport_rsv0_d_i_rsv1 f) 0x0F.
Definition get_direction (f : FisPIOSetup) : Z := Z.land (pmport_rsv0_d_i_rsv1 f) 0x20.
Definition get_interrupt_bit (f : FisPIOSetup) : Z := Z.land (pmport_rsv0_d_i_rsv1 f) 0x40.
Definition set_pmport (val : Z) (f : FisPIOSetup) : FisPIOSetup := set_packed (put_pmport val (pmport_rsv0_d_i_rsv1 f)) f.
Definition set_direction (val : bool) (f : FisPIOSetup) : FisPIOSetup := set_packed (set_flag 0x20 val (pmport_rsv0_d_i_rsv1 f)) f.
Definition set_interrupt_bit (val : bool) (f : FisPIOSetup) : FisPIOSetup := set_packed (set_flag 0x40 val (pmport_rsv0_d_i_rsv1 f)) f.

Definition fis_bytes (f : FisPIOSetup) : list Z :=
  [fis_type f; pmport_rsv0_d_i_rsv1 f; status f; error f; lba0 f; lba1 f; lba2 f; device f; lba3 f; lba4 f; lba5 f; rsv2 f;
   count_low f; count_high f; rsv3 f; e_status f] ++ le_bytes 2 (tc f) ++ rsv4 f.
Definition fis_of (bs : list Z) : FisPIOSetup :=
  let b i := nth i bs 0 in
  {| fis_type := b 0%nat; pmport_rsv0_d_i_rsv1 := b 1%nat; status := b 2%nat; error := b 3%nat;
     lba0 := b 4%nat; lba1 := b 5%nat; lba2 := b 6%nat; device := b 7%nat; lba3 := b 8%nat; lba4 := b 9%nat; lba5 := b 10%nat;
     rsv2 := b 11%nat; count_low := b 12%nat; count_high := b 13%nat; rsv3 := b 14%nat; e_status := b 15%nat;
     tc := le_value (take 2 (drop 16 bs)); rsv4 := take 2 (drop 18 bs) |}.
End PIOSetup.

Module DMASetup.
Record FisDMASetup := {
  fis_type : Z;
  pmport_rsv0_d_i_a : Z;
  rsv1 : list Z;
  dma_buffer_id : Z;
  rsv2 : Z;
  dma_buffer_offset : Z;
  transfer_count : Z;
  rsv3 : Z;
}.

Definition set_packed (x : Z) (f : FisDMASetup) : FisDMASetup :=
  {| fis_type := fis_type f; pmport_rsv0_d_i_a := x; rsv1 := rsv1 f; dma_buffer_id := dma_buffer_id f; rsv2 := rsv2 f;
     dma_buffer_offset := dma_buffer_offset f; transfer_count := transfer_count f; rsv3 := rsv3 f |}.

Definition get_pmport (f : FisDMASetup) : Z := Z.land (pmport_rsv0_d_i_a f) 0x0F.
Definition get_direction (f : FisDMASetup) : Z := Z.land (pmport_rsv0_d_i_a f) 0x20.
Definition get_interrupt_bit (f : FisDMASetup) : Z := Z.land (pmport_rsv0_d_i_a f) 0x40.
Definition get_auto_activate (f : FisDMASetup) : Z := Z.land (pmport_rsv0_d_i_a f) 0x80.
Definition set_pmport (val : Z) (f : FisDMASetup) : FisDMASetup := set_packed (put_pmport val (pmport_rsv0_d_i_a f)) f.
Definition set_direction (val : bool) (f : FisDMASetup) : FisDMASetup := set_packed (set_flag 0x20 val (pmport_rsv0_d_i_a f)) f.
Definition set_interrupt_bit (val : bool) (f : FisDMASetup) : FisDMASetup := set_packed (set_flag 0x40 val (pmport_rsv0_d_i_a f)) f.
Definition set_auto_activate (val : bool) (f : FisDMASetup) : FisDMASetup := set_packed (set_flag 0x80 val (pmport_rsv0_d_i_a f)) f.

(** The 64-bit buffer identifier is aligned to 8: four bytes of padding precede it. *)
Definition fis_bytes (padding : list Z) (f : FisDMASetup) : list Z :=
  [fis_type f; pmport_rsv0_d_i_a f] ++ rsv1 f ++ padding ++ le_bytes 8 (dma_buffer_id f) ++ le_bytes 4 (rsv2 f)
  ++ le_bytes 4 (dma_buffer_offset f) ++ le_bytes 4 (transfer_count f) ++ le_bytes 4 (rsv3 f).
End DMASetup.

(** ** The shared byte *)

(** Reading a flag that was set. *)
Lemma flag_set k b x : 0 ≤ k → negb (Z.land (set_flag (2 ^ k) b x) (2 ^ k) =? 0) = b.
Proof.
  intros Hk. assert (E : Z.land (set_flag (2 ^ k) b x) (2 ^ k) = if b then 2 ^ k else 0).
  { apply Z.bits_inj'. intros i Hi. rewrite Z.land_spec, set_flag_bit, Z.pow2_bits_eqb by done.
    rewrite (Z.eqb_sym k i). destruct (Z.eqb_spec i k) as [->|Hne]; cbn [andb].
    - destruct b; [by rewrite Z.pow2_bits_true | by rewrite Z.bits_0].
    - rewrite andb_false_r. destruct b; [by rewrite Z.pow2_bits_false by congruence | by rewrite Z.bits_0]. }
  rewrite E. destruct b; [|done]. pose proof (Z.pow_pos_nonneg 2 k). destruct (Z.eqb_spec (2 ^ k) 0); [lia | done].
Qed.

(** Another flag keeps its value. *)
Lemma flag_other k j b x : 0 ≤ k → 0 ≤ j → j ≠ k → Z.land (set_flag (2 ^ k) b x) (2 ^ j) = Z.land x (2 ^ j).
Proof.
  intros Hk Hj Hne. apply Z.bits_inj'. intros i Hi. rewrite !Z.land_spec, set_flag_bit, Z.pow2_bits_eqb by done.
  destruct (Z.eqb_spec j i) as [->|]; [|by rewrite !andb_false_r]. by destruct (Z.eqb_spec i k).
Qed.

(** The flags of the DMA set-up are independent: each reads as it was set, whatever
    was set before. *)
Theorem dma_setup_flags d i a f :
  let f' := DMASetup.set_auto_activate a (DMASetup.set_interrupt_bit i (DMASetup.set_direction d f)) in
  negb (DMASetup.get_direction f' =? 0) = d ∧ negb (DMASetup.get_interrupt_bit f' =? 0) = i
  ∧ negb (DMASetup.get_auto_activate f' =? 0) = a ∧ DMASetup.dma_buffer_id f' = DMASetup.dma_buffer_id f.
Proof.
  unfold DMASetup.get_direction, DMASetup.get_interrupt_bit, DMASetup.get_auto_activate. cbn.
  change 0x20 with (2 ^ 5). change 0x40 with (2 ^ 6). change 0x80 with (2 ^ 7).
  rewrite !flag_set, (flag_other 7 5), (flag_other 6 5), (flag_other 7 6), !flag_set by lia. done.
Qed.

(** [set_pmport] does not set the port: the old one stays or-ed in, and every flag
    above it is lost. *)
Lemma set_pmport_merges v f :
  D2H.get_pmport (D2H.set_pmport v f) = Z.lor (D2H.get_pmport f) (Z.land v 0x0F)
  ∧ D2H.get_interrupt_bit (D2H.set_pmport v f) = 0.
Proof.
  unfold D2H.get_pmport, D2H.get_interrupt_bit. cbn. unfold put_pmport. split.
  - apply Z.bits_inj'. intros i Hi. change 0x0F with (Z.ones 4). change 0xF0 with (Z.shiftl (Z.ones 4) 4).
    rewrite !Z.land_spec, !Z.lor_spec, !Z.land_spec, Z.ldiff_spec, Z.shiftl_spec, !Z.testbit_ones by lia.
    destruct (Z.leb_spec 0 i), (Z.ltb_spec i 4), (Z.leb_spec 0 (i - 4)), (Z.ltb_spec (i - 4) 4); try lia; cbn;
      by rewrite ?andb_true_r, ?andb_false_r, ?orb_false_r.
  - apply Z.bits_inj'. intros i Hi. change 0x0F with (Z.ones 4). change 0xF0 with (Z.shiftl (Z.ones 4) 4). change 0x40 with (2 ^ 6).
    rewrite Z.bits_0, !Z.land_spec, Z.lor_spec, Z.land_spec, Z.ldiff_spec, Z.shiftl_spec, !Z.testbit_ones, Z.pow2_bits_eqb by lia.
    destruct (Z.eqb_spec 6 i) as [<-|]; [|by rewrite andb_false_r]. cbn. by rewrite !andb_false_r.
Qed.

(** ** Layout *)

Definition d2h_wf (f : D2H.FisRegD2H) : Prop := length (D2H.rsv3 f) = 2%nat ∧ length (D2H.rsv4 f) = 4%nat.

(** The 20 bytes of the specification, and back. *)
Theorem d2h_roundtrip f : d2h_wf f → length (D2H.fis_bytes f) = 20%nat ∧ D2H.fis_of (D2H.fis_bytes f) = f.
Proof.
  intros [H3 H4]. destruct f as [ty pk st er l0 l1 l2 dv l3 l4 l5 r2 cl ch r3 r4]. cbn in H3, H4.
  destruct r3 as [|a [|b [|]]], r4 as [|c [|d [|e [|g [|]]]]]; try discriminate. done.
Qed.

Theorem pio_setup_roundtrip f : 0 ≤ PIOSetup.tc f < 2 ^ 16 → length (PIOSetup.rsv4 f) = 2%nat →
  length (PIOSetup.fis_bytes f) = 20%nat ∧ PIOSetup.fis_of (PIOSetup.fis_bytes f) = f.
Proof.
  intros Ht H4. destruct f as [ty pk st er l0 l1 l2 dv l3 l4 l5 r2 cl ch r3 es tc r4]. cbn in Ht, H4.
  destruct r4 as [|a [|b [|]]]; try discriminate. split; [done|].
  transitivity (PIOSetup.Build_FisPIOSetup ty pk st er l0 l1 l2 dv l3 l4 l5 r2 cl ch r3 es (le_value (le_bytes 2 tc)) [a; b]); [done|].
  f_equal. rewrite le_value_le_bytes. apply Z.mod_small. lia.
Qed.

(** The buffer identifier of the DMA set-up starts at byte 8; the specification and
    the comment on the field have it at byte 4. *)
Lemma dma_setup_offset padding f : length padding = 4%nat → length (DMASetup.rsv1 f) = 2%nat →
  take 8 (drop 8 (DMASetup.fis_bytes padding f)) = le_bytes 8 (DMASetup.dma_buffer_id f)
  ∧ length (DMASetup.fis_bytes padding f) = 32%nat.
Proof.
  intros Hp Hr. unfold DMASetup.fis_bytes. destruct padding as [|a [|b [|c [|d [|]]]]], (DMASetup.rsv1 f) as [|x [|y [|]]]; try discriminate.
  done.
Qed.
