(* ===== verification/AhciCmd.v ===== *)
(** * AhciCmd: a command in memory, and its transfer

    How a controller reads a command slot (AHCI 1.3.1, sections 4.2 and 5), that the
    slot [prepare_slot] fills is read as the command that was asked for, and what
    [AHCIPort::read] and [write_sectors] do on a controller that executes it. *)

From S2P Require Import Prelude Ahci AhciPrdt.

(** ** Reading a slot *)

Record request := {
  rq_write : bool;
  rq_command : Z;
  rq_lba_mode : bool;
  rq_lba : Z;
  rq_count : Z;
  rq_segments : list (Z * Z);
}.

Definition table_of (h : HBACommandHeader) : Z := ctba h + Z.shiftl (ctbau h) 32.

(** A register FIS of five words with its command bit. *)
Definition decode_slot (m : Z → Z) (list_base slot : Z) : option request :=
  let h := header_at m (list_base + COMMAND_HEADER_SIZE * slot) in
  let f := fis_at m (table_of h) in
  if (get_cfl h =? 5) && (fis_type f =? 0x27) && Z.testbit (pmport_rsv0_c f) 7 then
    Some {| rq_write := Z.testbit (cfl_a_w_p h) 6; rq_command := command f; rq_lba_mode := Z.testbit (device f) 6;
            rq_lba := le_value [lba0 f; lba1 f; lba2 f; lba3 f; lba4 f; lba5 f];
            rq_count := le_value [count_low f; count_high f];
            rq_segments := segments m (table_of h) (prdtl h) |}
  else None.

(** The block address that reaches the device: bits 24 to 31 are lost. *)
Definition sent_lba (lba : Z) : Z := lba mod 2 ^ 24 + 2 ^ 24 * ((lba / 2 ^ 32) mod 2 ^ 24).

Definition request_of (c : AHCICommand) (segs : list (Z * Z)) : request :=
  {| rq_write := is_write c; rq_command := cmd c; rq_lba_mode := is_lba_mode c; rq_lba := sent_lba (lba c);
     rq_count := count c mod 2 ^ 16; rq_segments := segs |}.

(** ** Headers and FIS in memory *)

Lemma header_eta h : {| cfl_a_w_p := cfl_a_w_p h; r_b_c_rsv0_pmp := r_b_c_rsv0_pmp h; prdtl := prdtl h; prdbc := prdbc h; ctba := ctba h; ctbau := ctbau h |} = h.
Proof. by destruct h. Qed.

(** The multi-byte fields fit. *)
Record header_ok (h : HBACommandHeader) : Prop := {
  ho_prdtl : 0 ≤ prdtl h < 2 ^ 16;
  ho_prdbc : 0 ≤ prdbc h < 2 ^ 16;
  ho_ctba : 0 ≤ ctba h < 2 ^ 32;
  ho_ctbau : 0 ≤ ctbau h < 2 ^ 32;
}.

Lemma bytes_get m a n : (∀ x, is_byte (m x)) → bytes (get m a n).
Proof. intros Hm. unfold get, bytes. apply Forall_map, Forall_forall. intros x _. apply Hm. Qed.

Lemma get_le_bound m a n : (∀ x, is_byte (m x)) → 0 ≤ get_le m a n < 256 ^ Z.of_nat n.
Proof. intros Hm. pose proof (le_value_bound (get m a n) (bytes_get m a n Hm)) as B. by rewrite length_get in B. Qed.

Lemma header_at_ok m a : (∀ x, is_byte (m x)) → header_ok (header_at m a).
Proof. intros Hm. split; cbn; [apply (get_le_bound m _ 2 Hm) | apply (get_le_bound m _ 2 Hm) | apply (get_le_bound m _ 4 Hm) | apply (get_le_bound m _ 4 Hm)]. Qed.

(** A field inside of what was written. *)
Lemma get_le_put m addr bs a n k v post : 0 ≤ v < 256 ^ Z.of_nat n → a = addr + Z.of_nat k →
  drop k bs = le_bytes n v ++ post → (k ≤ length bs)%nat → get_le (put m addr bs) a n = v.
Proof.
  intros Hv -> Hd Hk. unfold get_le. rewrite <- (take_drop k bs), Hd.
  pose proof (get_put m addr (take k bs) (le_bytes n v) post n (eq_sym (length_le_bytes n v))) as E.
  rewrite length_take, Nat.min_l in E by done. rewrite E. by apply le_value_bytes.
Qed.

Lemma header_put m a h : header_ok h → header_at (put_header m a h) a = h.
Proof.
  intros [H1 H2 H3 H4]. rewrite <- (header_eta h) at 2. unfold header_at, put_header.
  assert (Hl : ∀ x y, Z.of_nat (length (x ++ le_bytes 2 (prdtl h) ++ le_bytes 2 y)) = Z.of_nat (length x) + 4)
    by (intros; rewrite !length_app, !length_le_bytes; lia).
  f_equal.
  - rewrite put_out by lia. rewrite <- (Z.add_0_r a) at 2. by apply (put_in _ _ _ 0).
  - rewrite put_out by lia. by apply (put_in _ _ _ 1).
  - unfold get_le. rewrite get_put_out by lia. apply (get_le_put _ _ _ _ 2 2 _ (le_bytes 2 (prdbc h))); [lia|lia|done|cbn; lia].
  - unfold get_le. rewrite get_put_out by lia. apply (get_le_put _ _ _ _ 2 4 _ []); [lia|lia|done|cbn; lia].
  - apply (get_le_put _ _ _ _ 4 0 _ (le_bytes 4 (ctbau h))); [lia|lia|done|cbn; lia].
  - apply (get_le_put _ _ _ _ 4 4 _ []); [lia|lia|done|cbn; lia].
Qed.

Lemma put_header_out m a h x : ¬ (a ≤ x < a + 16) → put_header m a h x = m x.
Proof. intros Hx. unfold put_header. rewrite !put_out; cbn; try done; lia. Qed.

Lemma header_ext m m' a : (∀ x, a ≤ x < a + 16 → m' x = m x) → header_at m' a = header_at m a.
Proof.
  intros Hx. unfold header_at, get_le. rewrite !(get_ext m m') by (intros; apply Hx; lia). by rewrite !Hx by lia.
Qed.

Lemma fis_eta f : {| fis_type := fis_type f; pmport_rsv0_c := pmport_rsv0_c f; command := command f; feature_low := feature_low f;
     lba0 := lba0 f; lba1 := lba1 f; lba2 := lba2 f; device := device f;
     lba3 := lba3 f; lba4 := lba4 f; lba5 := lba5 f; feature_high := feature_high f;
     count_low := count_low f; count_high := count_high f; icc := icc f; control := control f |} = f.
Proof. by destruct f. Qed.

Lemma fis_put m a f : fis_at (put m a (fis_bytes f)) a = f.
Proof.
  rewrite <- (fis_eta f) at 2. unfold fis_at.
  assert (P : ∀ i b, fis_bytes f !! i = Some b → put m a (fis_bytes f) (a + Z.of_nat i) = b) by (intros; by apply put_in).
  f_equal; [rewrite <- (Z.add_0_r a) at 2; by apply (P 0%nat) | by apply (P 1%nat) | by apply (P 2%nat) | by apply (P 3%nat) | by apply (P 4%nat)
    | by apply (P 5%nat) | by apply (P 6%nat) | by apply (P 7%nat) | by apply (P 8%nat) | by apply (P 9%nat) | by apply (P 10%nat)
    | by apply (P 11%nat) | by apply (P 12%nat) | by apply (P 13%nat) | by apply (P 14%nat) | by apply (P 15%nat)].
Qed.

Lemma fis_ext m m' a : (∀ x, a ≤ x < a + 16 → m' x = m x) → fis_at m' a = fis_at m a.
Proof. intros Hx. unfold fis_at. by rewrite !Hx by lia. Qed.

(** ** The command FIS *)

Lemma le_value_3 z : le_value [wrap 8 z; wrap 8 (Z.shiftr z 8); wrap 8 (Z.shiftr z 16)] = z mod 2 ^ 24.
Proof.
  rewrite !Z.shiftr_div_pow2 by lia. change (2 ^ 24) with (256 ^ Z.of_nat 3). rewrite <- le_value_le_bytes.
  cbn [le_bytes]. rewrite Z.div_div by lia. done.
Qed.

Lemma command_fis_lba c f : let f' := command_fis c f in
  le_value [lba0 f'; lba1 f'; lba2 f'; lba3 f'; lba4 f'; lba5 f'] = sent_lba (lba c).
Proof.
  cbn [command_fis set_control_bit set_packed lba0 lba1 lba2 lba3 lba4 lba5]. unfold sent_lba.
  assert (E : ∀ x y z u v w, le_value [x; y; z; u; v; w] = le_value [x; y; z] + 2 ^ 24 * le_value [u; v; w]) by (intros; cbn; lia).
  rewrite E. rewrite (le_value_3 (wrap 32 (lba c))), (le_value_3 (wrap 32 (Z.shiftr (lba c) 32))).
  assert (M : ∀ z, wrap 32 z mod 2 ^ 24 = z mod 2 ^ 24).
  { intros z. unfold wrap. symmetry. change (2 ^ 32) with (2 ^ 24 * 2 ^ 8). rewrite Z.rem_mul_r by lia.
    rewrite (Z.mul_comm (2 ^ 24)), Z.mod_add, Z.mod_mod by lia. done. }
  by rewrite !M, Z.shiftr_div_pow2 by lia.
Qed.

Lemma command_fis_count c f : let f' := command_fis c f in le_value [count_low f'; count_high f'] = count c mod 2 ^ 16.
Proof.
  cbn [command_fis set_control_bit set_packed count_low count_high].
  change 0xFF with (Z.ones 8). rewrite !Z.land_ones, Z.shiftr_div_pow2 by lia. unfold wrap. rewrite !Z.mod_mod by lia.
  change (2 ^ 16) with (256 ^ Z.of_nat 2). rewrite <- le_value_le_bytes. done.
Qed.

Lemma command_fis_bit c f : Z.testbit (pmport_rsv0_c (command_fis c f)) 7 = true.
Proof. cbn [command_fis set_control_bit set_packed pmport_rsv0_c]. change 0x80 with (2 ^ 7). by rewrite set_flag_bit by lia. Qed.

(** The packed byte of the header. *)
Lemma header_bits w h : get_cfl (set_write_bit w (set_cfl 5 h)) = 5 ∧ Z.testbit (cfl_a_w_p (set_write_bit w (set_cfl 5 h))) 6 = w.
Proof.
  unfold get_cfl. cbn [set_write_bit set_cfl set_byte0 cfl_a_w_p]. set (x := cfl_a_w_p h). split.
  - apply Z.bits_inj'. intros i Hi. change 0x1F with (Z.ones 5). change 0x40 with (2 ^ 6).
    rewrite Z.land_spec, Z.testbit_ones_nonneg by lia.
    destruct (Z.ltb_spec i 5).
    + rewrite andb_true_r, set_flag_bit by lia. destruct (Z.eqb_spec i 6); [lia|].
      rewrite Z.lor_spec, Z.ldiff_spec, Z.testbit_ones_nonneg by lia.
      destruct (Z.ltb_spec i 5); [|lia]. cbn [negb]. by rewrite andb_false_r.
    + rewrite andb_false_r. symmetry. apply (proj1 (Z.bounded_iff_bits_nonneg 5 5 ltac:(lia) ltac:(lia))); lia.
  - change 0x40 with (2 ^ 6). by rewrite set_flag_bit by lia.
Qed.

(** ** Filling a slot *)

Section Prepare.
Context {C D : Type} `{HbaDevice D, DmaMemory C}.
Context (ok : C → Prop) (frame : Z → option Z).
Hypothesis frame_bound : ∀ p f, frame p = Some f → 0 ≤ f < 2 ^ 40.
Hypothesis translates : ∀ a c, ok c → ∃ c', dma_translate a c = Done (frame (a / PAGE_SIZE), c') ∧ ok c'.
Implicit Types s : hba C D.

(** A header that points to a table of its own. *)
Record slot_ok (m : Z → Z) (h t : Z) : Prop := {
  so_header : header_ok (header_at m h);
  so_table : table_of (header_at m h) = t;
  so_apart : h + COMMAND_HEADER_SIZE ≤ t ∨ t + COMMAND_TABLE_SIZE ≤ h;
}.
(** The memory the driver writes a command to. *)
Definition in_slot (h t a : Z) : Prop := h ≤ a < h + COMMAND_HEADER_SIZE ∨ t ≤ a < t + COMMAND_TABLE_SIZE.

(** A buffer the descriptors can name. *)
Record buffer_ok (buf n : Z) : Prop := {
  bo_low : 0 ≤ buf;
  bo_high : buf + n ≤ usize_max;
  bo_some : 0 < n;
  bo_mapped : mapped frame buf n;
  bo_pages : pages buf n ≤ HBA_PRDT_ENTRY_COUNT;
}.

Lemma run_poke f s : poke f s = Done (tt, {| bus := (f (bus s).1, (bus s).2); mc := mc s |}).
Proof. done. Qed.
Lemma run_peek {A} (f : (Z → Z) → A) s : peek f s = Done (f (bus s).1, s).
Proof. done. Qed.

Lemma prepare_slot_ok c slot cl t s : let h := cl + COMMAND_HEADER_SIZE * slot in
  command_list s = Done (cl, s) → ok (mc s) → slot_ok (bus s).1 h t → buffer_ok (buffer_addr c) (data_byte_count c) →
  ∃ m' c' segs, prepare_slot c slot s = Done (true, {| bus := (m', (bus s).2); mc := c' |}) ∧ ok c' ∧ slot_ok m' h t
    ∧ decode_slot m' cl slot = Some (request_of c segs)
    ∧ map Some (addresses segs) = map (physical frame) (seqZ (buffer_addr c) (data_byte_count c))
    ∧ (∀ a, ¬ in_slot h t a → m' a = (bus s).1 a).
Proof.
  intros h Hcl Hs [Hh Ht Hap] [Hb1 Hb2 Hb3 Hb4 Hb5]. unfold prepare_slot. rewrite (kbind_done _ _ _ _ _ Hcl). fold h.
  set (m0 := (bus s).1) in *. set (hd := header_at m0 h) in *. set (hd1 := set_write_bit (is_write c) (set_cfl 5 hd)).
  assert (Hh1 : header_ok hd1) by (destruct Hh; split; done).
  set (m1 := put_header m0 h hd1).
  assert (Eh1 : header_at m1 h = hd1) by (by apply header_put).
  rewrite (kbind_done _ _ _ _ _ (run_poke _ _)), (kbind_done _ _ _ _ _ (run_peek _ _)). cbn [bus fst snd mc]. fold m0 hd hd1 m1. rewrite Eh1.
  change (ctba hd1 + Z.shiftl (ctbau hd1) 32) with (table_of hd). rewrite Ht.
  unfold zero. rewrite (kbind_done _ _ _ _ _ (run_poke _ _)). cbn [bus fst snd mc].
  set (m2 := put m1 t (repeat 0 (Z.to_nat COMMAND_TABLE_SIZE))).
  destruct (fill_prdt_ok ok frame frame_bound translates t (buffer_addr c) (data_byte_count c) {| bus := (m2, (bus s).2); mc := mc s |})
    as (m3 & c' & n & E & Hc' & Hn & Hd & Ho); try done. cbn [bus fst snd mc] in *.
  rewrite (kbind_done _ _ _ _ _ E). rewrite !(kbind_done _ _ _ _ _ (run_poke _ _)). cbn [bus fst snd mc].
  assert (F2 : ∀ a, ¬ (t ≤ a < t + COMMAND_TABLE_SIZE) → m2 a = m1 a).
  { intros a Ha. apply put_out. rewrite repeat_length. unfold COMMAND_TABLE_SIZE, HBA_PRDT_ENTRY_COUNT in *. lia. }
  unfold COMMAND_HEADER_SIZE in *.
  assert (Eh3 : header_at m3 h = hd1).
  { rewrite <- Eh1. apply header_ext. intros x Hx. rewrite Ho, F2; [done|..]; unfold COMMAND_TABLE_SIZE, HBA_PRDT_ENTRY_COUNT in *; lia. }
  rewrite Eh3. set (hd2 := set_prdtl (wrap 16 n) hd1).
  assert (En : wrap 16 n = n) by (apply wrap_id; unfold HBA_PRDT_ENTRY_COUNT in Hn; lia).
  assert (Hh2 : header_ok hd2) by (destruct Hh1; split; cbn in *; try done; rewrite En; unfold HBA_PRDT_ENTRY_COUNT in Hn; lia).
  set (m4 := put_header m3 h hd2). set (f := command_fis c (fis_at m4 t)). set (m5 := put m4 t (fis_bytes f)).
  assert (F5 : ∀ a, ¬ (t ≤ a < t + 16) → m5 a = m4 a) by (intros a Ha; by apply put_out).
  assert (Eh5 : header_at m5 h = hd2).
  { rewrite <- (header_put m3 h hd2 Hh2). apply header_ext. intros x Hx. apply F5. unfold COMMAND_TABLE_SIZE, HBA_PRDT_ENTRY_COUNT in *. lia. }
  rewrite Eh5. set (hd3 := set_prdbc 0 hd2). set (m6 := put_header m5 h hd3).
  assert (Hh3 : header_ok hd3) by (destruct Hh2; split; cbn in *; try done).
  assert (Eh6 : header_at m6 h = hd3) by (by apply header_put).
  assert (Ef6 : fis_at m6 t = f).
  { rewrite <- (fis_put m4 t f). apply fis_ext. intros x Hx. apply put_header_out. unfold COMMAND_TABLE_SIZE, HBA_PRDT_ENTRY_COUNT in *. lia. }
  exists m6, c', (segments m3 t n). split; [done|]. split; [done|]. split; [|split; [|split]].
  - apply Build_slot_ok; [by rewrite Eh6 | by rewrite Eh6 | done].
  - unfold decode_slot. change (header_at m6 (cl + COMMAND_HEADER_SIZE * slot)) with (header_at m6 h). rewrite Eh6. change (table_of hd3) with (table_of hd). rewrite Ht, Ef6.
    destruct (header_bits (is_write c) hd) as [B1 B2]. change (get_cfl hd3) with (get_cfl hd1). fold hd1 in B1, B2. rewrite B1.
    unfold f at 2. rewrite command_fis_bit. change (fis_type f =? 0x27) with true. cbn [Z.eqb Pos.eqb andb]. f_equal. unfold request_of.
    change (cfl_a_w_p hd3) with (cfl_a_w_p hd1). rewrite B2. unfold f. rewrite command_fis_lba, command_fis_count.
    change (prdtl hd3) with (wrap 16 n). rewrite En. f_equal.
    + cbn. by destruct (is_lba_mode c).
    + apply segments_ext. intros x Hx. unfold COMMAND_TABLE_SIZE, HBA_PRDT_ENTRY_COUNT in *.
      unfold m6. rewrite put_header_out by lia. rewrite F5 by lia. apply put_header_out. lia.
  - exact Hd.
  - intros a Ha. unfold in_slot, COMMAND_HEADER_SIZE in Ha. unfold m6. rewrite put_header_out by lia.
    rewrite F5 by (unfold COMMAND_TABLE_SIZE, HBA_PRDT_ENTRY_COUNT in *; lia). unfold m4. rewrite put_header_out by lia.
    rewrite Ho, F2 by (unfold COMMAND_TABLE_SIZE, HBA_PRDT_ENTRY_COUNT in *; lia). apply put_header_out. lia.
Qed.
End Prepare.
