(* ===== verification/AhciTransfer.v ===== *)
(** * AhciTransfer: reads and writes of sectors

    A controller that executes the commands it is given ([Controller], after AHCI
    1.3.1 and ATA8-ACS), and what [AHCIPort::read] and [write_sectors] then do to the
    disk and to the buffer.  The class is the documented behaviour of the hardware;
    [Drive] is an implementation of it. *)

From S2P Require Import Prelude Ahci AhciPrdt AhciCmd.

(** ** Moving data *)

(** Stores to the addresses, in order. *)
Definition scatter (m : Z → Z) (addrs data : list Z) : Z → Z :=
  List.fold_left (λ m ab, put m ab.1 [ab.2]) (zip addrs data) m.
Definition gather (m : Z → Z) (addrs : list Z) : list Z := map m addrs.

Definition disk_data (disk : Z → list Z) (sector count : Z) : list Z := concat (map disk (seqZ sector count)).
(** The disk after a write of [data]. *)
Definition disk_write (disk : Z → list Z) (sector count : Z) (data : list Z) : Z → list Z := λ s,
  if (sector <=? s) && (s <? sector + count) then take 512 (drop (Z.to_nat (512 * (s - sector))) data) else disk s.

(** A request the specification gives a meaning to. *)
Definition request_ok (r : request) (capacity : Z) : Prop :=
  rq_lba_mode r = true ∧ 0 < rq_count r ∧ rq_lba r + rq_count r ≤ capacity
  ∧ Z.of_nat (length (addresses (rq_segments r))) = 512 * rq_count r
  ∧ ((rq_command r = ATA_CMD_READ_DMA_EX ∧ rq_write r = false) ∨ (rq_command r = ATA_CMD_WRITE_DMA_EX ∧ rq_write r = true)).

(** Memory and disk once it is executed. *)
Definition memory_after (r : request) (disk : Z → list Z) (m : Z → Z) : Z → Z :=
  if rq_write r then m else scatter m (addresses (rq_segments r)) (disk_data disk (rq_lba r) (rq_count r)).
Definition disk_after (r : request) (disk : Z → list Z) (m : Z → Z) : Z → list Z :=
  if rq_write r then disk_write disk (rq_lba r) (rq_count r) (gather m (addresses (rq_segments r))) else disk.

Section Laws.
Context {D : Type} `{HbaDevice D}.

(** The driver's polls: [n] times the command is still outstanding and no error is
    reported; then it is done, and [fin] holds. *)
Fixpoint finishes (fin : (Z → Z) * D → Prop) (n : nat) (b : (Z → Z) * D) : Prop :=
  let '(ci, b1) := reg_load CI b in
  match n with
  | O => ci = 0 ∧ fin b1
  | S n =>
      let '(is_, b2) := reg_load IS b1 in
      ci ≠ 0 ∧ Z.land is_ HBA_PXIS_TFES = 0 ∧ finishes fin n b2
  end.
End Laws.

Class Controller (D : Type) `{HbaDevice D} := {
  (** the registers, the disk and its size *)
  reg : D → preg → Z;
  disk : D → Z → list Z;
  capacity : D → Z;
  (** started, with no command outstanding *)
  idle : D → Prop;

  same_setup (d d' : D) : Prop := (∀ r, r = CLB ∨ r = CLBU ∨ r = FB ∨ r = FBU → reg d' r = reg d r) ∧ capacity d' = capacity d;
  list_base (d : D) : Z := reg d CLB + Z.shiftl (reg d CLBU) 32;
  fis_base (d : D) : Z := reg d FB + Z.shiftl (reg d FBU) 32;
  (** what the controller may write on its own: the byte count of a header, and the FIS it receives *)
  own (d : D) (slot a : Z) : Prop :=
    list_base d + COMMAND_HEADER_SIZE * slot + 4 ≤ a < list_base d + COMMAND_HEADER_SIZE * slot + 8
    ∨ fis_base d ≤ a < fis_base d + 256;

  disk_length d s : length (disk d s) = 512%nat;
  idle_load d r m : idle d → reg_load r (m, d) = (reg d r, (m, d));
  idle_regs d : idle d → reg d CI = 0 ∧ reg d SACT = 0 ∧ Z.land (reg d TFD) (Z.lor ATA_DEV_BUSY ATA_DEV_DRQ) = 0;
  idle_clear d m : idle d → ∃ d', reg_store IS u32_max (m, d) = (m, d') ∧ idle d' ∧ reg d' IS = 0
    ∧ same_setup d d' ∧ ∀ s, disk d' s = disk d s;
  issue d m slot r : 0 ≤ slot < 32 → idle d → reg d IS = 0 → decode_slot m (list_base d) slot = Some r → request_ok r (capacity d) →
    (∀ a, a ∈ addresses (rq_segments r) → ¬ own d slot a) →
    ∃ n, finishes (λ b, idle b.2 ∧ Z.land (reg b.2 IS) HBA_PXIS_TFES = 0 ∧ same_setup d b.2
        ∧ (∀ s, disk b.2 s = disk_after r (disk d) m s)
        ∧ (∀ a, ¬ own d slot a → b.1 a = memory_after r (disk d) m a) ∧ (∀ a, own d slot a → is_byte (b.1 a)))
      n (reg_store CI (Z.shiftl 1 slot) (m, d));
}.

(** ** Scattered stores *)

Lemma put_same m a b : put m a [b] a = b.
Proof. rewrite <- (Z.add_0_r a) at 2. by apply (put_in m a [b] 0). Qed.
Lemma put_other m a b x : x ≠ a → put m a [b] x = m x.
Proof. intros Hx. apply put_out. cbn. lia. Qed.

Lemma scatter_out m addrs data a : a ∉ addrs → scatter m addrs data a = m a.
Proof.
  revert m data. induction addrs as [|x addrs IH]; intros m [|b data] Ha; try done.
  cbn. fold (scatter (put m x [b]) addrs data). rewrite IH by set_solver. apply put_other. set_solver.
Qed.

Lemma scatter_in m addrs data i a b : NoDup addrs → addrs !! i = Some a → data !! i = Some b → scatter m addrs data a = b.
Proof.
  revert m data i. induction addrs as [|x addrs IH]; intros m data i Hn Ha Hb; [done|]. apply NoDup_cons in Hn as [Hx Hn].
  destruct data as [|y data]; [done|]. cbn. fold (scatter (put m x [y]) addrs data). destruct i as [|i]; cbn in *.
  - injection Ha as ->. injection Hb as ->. rewrite scatter_out by done. apply put_same.
  - by apply (IH _ _ i).
Qed.

(** ** Polls *)

Section Transfer.
Context {C D : Type} `{Controller D, DmaMemory C}.
Context (ok : C → Prop) (frame : Z → option Z).
Hypothesis frame_bound : ∀ p f, frame p = Some f → 0 ≤ f < 2 ^ 40.
Hypothesis translates : ∀ a c, ok c → ∃ c', dma_translate a c = Done (frame (a / PAGE_SIZE), c') ∧ ok c'.
Implicit Types s : hba C D.

Lemma load_idle r s : idle (bus s).2 → load r s = Done (reg (bus s).2 r, s).
Proof. intros Hi. unfold load. destruct s as [[m d] c]. cbn in *. by rewrite idle_load. Qed.

Lemma command_list_idle s : idle (bus s).2 → command_list s = Done (list_base (bus s).2, s).
Proof. intros Hi. unfold command_list. by rewrite !(kbind_done _ _ _ _ _ (load_idle _ _ Hi)). Qed.

Lemma wait_ready_idle s : idle (bus s).2 → wait_ready s = Done (0, s).
Proof.
  intros Hi. unfold wait_ready. apply (loopM_fuel_le 1); [unfold SPIN_LIMIT; lia|].
  rewrite loopM_step, kbind_assoc, (kbind_done _ _ _ _ _ (load_idle TFD s Hi)).
  destruct (idle_regs _ Hi) as (_ & _ & ->). done.
Qed.

Lemma free_slot_idle port s : idle (bus s).2 → 0 < max_slots port → get_free_slot port s = Done (Some 0, s).
Proof.
  intros Hi Hp. unfold get_free_slot. rewrite seqZ_cons by done. cbn [free_slot_from].
  destruct (idle_regs _ Hi) as (E1 & E2 & _). rewrite (kbind_done _ _ _ _ _ (load_idle SACT s Hi)), E2, Z.land_0_l. cbn [Z.eqb negb].
  by rewrite (kbind_done _ _ _ _ _ (load_idle CI s Hi)), E1, Z.land_0_l.
Qed.

Lemma wait_issued_ok fin n b (c : C) : finishes fin n b → ∃ b', (∀ fuel, (n < fuel)%nat → wait_issued fuel {| bus := b; mc := c |} = Done (true, {| bus := b'; mc := c |})) ∧ fin b'.
Proof.
  revert b. induction n as [|n IH]; intros b Hf; cbn [finishes] in Hf; destruct (reg_load CI b) as [ci b1] eqn:E1.
  - destruct Hf as [-> Hf]. exists b1. split; [|done]. intros [|fuel] Hn; [lia|].
    unfold wait_issued. rewrite loopM_step, kbind_assoc. unfold load. unfold kbind at 1. cbn [bus mc]. by rewrite E1.
  - destruct (reg_load IS b1) as [is_ b2] eqn:E2. destruct Hf as (Hci & Hi & Hf). destruct (IH b2 Hf) as (b' & Hw & Hb').
    exists b'. split; [|done]. intros [|fuel] Hn; [lia|]. unfold wait_issued. rewrite loopM_step, kbind_assoc. unfold load at 1. unfold kbind at 1. cbn [bus mc]. rewrite E1.
    rewrite (proj2 (Z.eqb_neq ci 0) Hci), kbind_assoc. unfold load at 1. unfold kbind at 1. cbn [bus mc]. rewrite E2, Hi.
    apply (Hw fuel). lia.
Qed.

(** ** A command from end to end *)

(** The port is started, and the structures of its first slot are in place. *)
Record port_ready (t : Z) s : Prop := {
  pr_idle : idle (bus s).2;
  pr_ok : ok (mc s);
  pr_slot : slot_ok (bus s).1 (list_base (bus s).2 + COMMAND_HEADER_SIZE * 0) t;
  pr_fis : ∀ a, fis_base (bus s).2 ≤ a < fis_base (bus s).2 + 256 → ¬ in_slot (list_base (bus s).2 + COMMAND_HEADER_SIZE * 0) t a;
}.
(** The memory that belongs to the port. *)
Definition structures (t : Z) (d : D) (a : Z) : Prop :=
  in_slot (list_base d + COMMAND_HEADER_SIZE * 0) t a ∨ fis_base d ≤ a < fis_base d + 256.

Lemma own_structures t d a : own d 0 a → structures t d a.
Proof. unfold own, structures, in_slot, COMMAND_HEADER_SIZE. lia. Qed.

Lemma same_bases d d' : same_setup d d' → list_base d' = list_base d ∧ fis_base d' = fis_base d.
Proof. intros [Hr _]. unfold list_base, fis_base. rewrite !Hr by auto. done. Qed.

(** A header of which only the byte count and nothing else may have changed. *)
Lemma slot_ok_own m m' h t : slot_ok m h t → (∀ a, h ≤ a < h + 16 → ¬ (h + 4 ≤ a < h + 8) → m' a = m a) →
  (∀ a, h + 4 ≤ a < h + 8 → is_byte (m' a)) → slot_ok m' h t.
Proof.
  intros [Hh Ht Ha] Hm Hb.
  assert (E : header_at m' h = set_prdbc (get_le m' (h + 4) 2) (header_at m h)).
  { unfold header_at, set_prdbc, get_le. cbn. rewrite (get_ext m m' (h + 2) 2), (get_ext m m' (h + 8) 4), (get_ext m m' (h + 12) 4) by (intros; apply Hm; lia).
    by rewrite (Hm h), (Hm (h + 1)) by lia. }
  assert (B : 0 ≤ get_le m' (h + 4) 2 < 2 ^ 16).
  { unfold get_le. rewrite <- (le_value_bytes 2 (le_value _)); [|]. all: assert (Hg : bytes (get m' (h + 4) 2)) by
      (apply Forall_map, Forall_forall; intros x Hx; apply elem_of_seqZ in Hx; apply Hb; lia).
    - rewrite le_value_le_bytes. apply Z.mod_pos_bound. lia.
    - pose proof (le_value_bound _ Hg) as Hv. by rewrite length_get in Hv. }
  split; [|by rewrite E | done]. rewrite E. destruct Hh. by split.
Qed.

Lemma addresses_lookup buf n segs : map Some (addresses segs) = map (physical frame) (seqZ buf n) → 0 ≤ n →
  ∀ i a, addresses segs !! i = Some a ↔ (Z.of_nat i < n ∧ physical frame (buf + Z.of_nat i) = Some a).
Proof.
  intros E Hn i a. assert (L : map Some (addresses segs) !! i = map (physical frame) (seqZ buf n) !! i) by (by rewrite E).
  rewrite !list_lookup_fmap in L. destruct (decide (Z.of_nat i < n)) as [Hi|Hi].
  - rewrite lookup_seqZ_lt in L by done. cbn in L. destruct (addresses segs !! i) as [x|]; cbn in L; [|by destruct (physical frame _)].
    injection L as L. rewrite <- L. split; [intros [= ->]; done | intros [_ [= ->]]; done].
  - rewrite lookup_seqZ_ge in L by lia. destruct (addresses segs !! i); cbn in L; [done|]. split; [done|lia].
Qed.

Lemma addresses_length buf n segs : map Some (addresses segs) = map (physical frame) (seqZ buf n) → 0 ≤ n → Z.of_nat (length (addresses segs)) = n.
Proof. intros E Hn. assert (L : length (map Some (addresses segs)) = length (map (physical frame) (seqZ buf n))) by (by rewrite E). rewrite !length_map, length_seqZ in L. lia. Qed.

(** No byte of the buffer is the port's. *)
Definition buffer_apart t d (buf n : Z) : Prop := ∀ i p, 0 ≤ i < n → physical frame (buf + i) = Some p → ¬ structures t d p.

Lemma send_command_ok port c t s : port_ready t s → 0 < max_slots port → buffer_ok frame (buffer_addr c) (data_byte_count c) →
  buffer_apart t (bus s).2 (buffer_addr c) (data_byte_count c) →
  (∀ segs, Z.of_nat (length (addresses segs)) = data_byte_count c → request_ok (request_of c segs) (capacity (bus s).2)) →
  ∃ n s' segs m1, (∀ fuel, (n < fuel)%nat → send_command fuel port c s = Done (true, s'))
    ∧ port_ready t s' ∧ same_setup (bus s).2 (bus s').2
    ∧ map Some (addresses segs) = map (physical frame) (seqZ (buffer_addr c) (data_byte_count c))
    ∧ (∀ a, ¬ structures t (bus s).2 a → m1 a = (bus s).1 a)
    ∧ (∀ x, disk (bus s').2 x = disk_after (request_of c segs) (disk (bus s).2) m1 x)
    ∧ (∀ a, ¬ structures t (bus s).2 a → (bus s').1 a = memory_after (request_of c segs) (disk (bus s).2) m1 a).
Proof.
  intros [Hi Ho Hs Hf] Hp Hb Ha Hr. destruct (idle_clear _ (bus s).1 Hi) as (d1 & E1 & Hi1 & HI & Hsame & Hdisk).
  destruct (same_bases _ _ Hsame) as [El Ef]. set (s1 := {| bus := ((bus s).1, d1); mc := mc s |}).
  destruct (prepare_slot_ok ok frame frame_bound translates c 0 (list_base d1) t s1) as (m2 & c2 & segs & E2 & Hc2 & Hs2 & Hd & Hseg & Ho2);
    [by apply command_list_idle | done | by rewrite El | done|].
  cbn [bus mc fst snd s1] in *. rewrite El in *.
  assert (Hlen : Z.of_nat (length (addresses segs)) = data_byte_count c) by (eapply addresses_length; [done|destruct Hb; lia]).
  assert (Hin : ∀ a, a ∈ addresses segs → ¬ structures t (bus s).2 a).
  { intros a [i Hia]%list_elem_of_lookup. apply (addresses_lookup _ _ _ Hseg) in Hia as [Hi' Hia]; [|destruct Hb; lia]. by apply (Ha (Z.of_nat i)); [lia|]. }
  assert (Hown : ∀ a, own d1 0 a ↔ own (bus s).2 0 a) by (intros a; unfold own; by rewrite El, Ef).
  destruct (issue d1 m2 0 (request_of c segs)) as [n Hfin]; try done.
  { by rewrite El. }
  { destruct Hsame as [_ ->]. by apply Hr. }
  { intros a Hia. rewrite Hown. intros Hoa. apply (Hin a Hia). by apply own_structures. }
  destruct (wait_issued_ok _ n _ c2 Hfin) as (b & Hw & Hib & Htf & Hsame' & Hdk & Hmem & Hby).
  exists n, {| bus := b; mc := c2 |}, segs, m2. cbn [bus mc].
  assert (Hsame2 : same_setup (bus s).2 b.2).
  { destruct Hsame as [S1 S2], Hsame' as [S1' S2']. split; [intros r Hrr; by rewrite S1', S1 | by rewrite S2', S2]. }
  assert (Hmem2 : ∀ a, ¬ own (bus s).2 0 a → b.1 a = memory_after (request_of c segs) (disk (bus s).2) m2 a).
  { intros a Hoa. rewrite Hmem by (by rewrite Hown). unfold memory_after. destruct (rq_write _); [done|].
    unfold disk_data. f_equal. f_equal. by apply map_ext. }
  assert (Hkeep : ∀ a, structures t (bus s).2 a → ¬ own (bus s).2 0 a → b.1 a = m2 a).
  { intros a Hst Hoa. rewrite Hmem2 by done. unfold memory_after. destruct (rq_write _); [done|].
    apply scatter_out. intros Hia. by apply (Hin a). }
  destruct (same_bases _ _ Hsame2) as [El2 Ef2].
  split_and!; try done.
  - intros fuel Hn. unfold send_command. unfold store at 1. unfold kbind at 1.
    replace {| bus := reg_store IS u32_max (bus s); mc := mc s |} with s1 by (unfold s1; rewrite <- E1; by destruct (bus s)).
    rewrite (kbind_done _ _ _ _ _ (wait_ready_idle s1 Hi1)). cbn [Z.eqb SPIN_LIMIT].
    rewrite (kbind_done _ _ _ _ _ (free_slot_idle port s1 Hi1 Hp)). rewrite kret_bind.
    rewrite (kbind_done _ _ _ _ _ E2). cbn [negb]. unfold store at 1. unfold kbind at 1. cbn [bus mc].
    rewrite (kbind_done _ _ _ _ _ (Hw fuel Hn)). cbn [negb]. rewrite (kbind_done _ _ _ _ _ (load_idle IS {| bus := b; mc := c2 |} Hib)). cbn [bus]. by rewrite Htf.
  - apply Build_port_ready; cbn [bus mc]; [done|done| |].
    + rewrite El2. eapply slot_ok_own; [exact Hs2| |].
      * intros a Hra Hpa. apply Hkeep; [left; left; unfold COMMAND_HEADER_SIZE in *; lia|]. unfold own. intros [Hh|Hff]; [lia|].
        apply (Hf a Hff). left. unfold COMMAND_HEADER_SIZE in *. lia.
      * intros a Hpa. apply Hby. rewrite Hown. by left.
    + rewrite El2, Ef2. exact Hf.
  - intros a Hst. apply Ho2. intros Hin'. apply Hst. by left.
  - intros x. rewrite Hdk. unfold disk_after. destruct (rq_write _); [|by rewrite Hdisk].
    unfold disk_write. by rewrite Hdisk.
  - intros a Hst. apply Hmem2. intros Hoa. apply Hst. by apply own_structures.
Qed.

(** What the two transfers ask for. *)
Record transfer_ok (port : AHCIPort) (t sector count buffer : Z) s : Prop := {
  to_ready : port_ready t s;
  to_slots : 0 < max_slots port;
  to_sector : 0 ≤ sector;
  to_count : 0 < count < 2 ^ 16;
  (** the part of the disk the command can address *)
  to_lba : sector + count ≤ 2 ^ 24;
  to_capacity : sector + count ≤ capacity (bus s).2;
  to_buffer : buffer_ok frame buffer (512 * count);
  to_apart : buffer_apart t (bus s).2 buffer (512 * count);
}.

Lemma sent_lba_small lba : 0 ≤ lba < 2 ^ 24 → sent_lba lba = lba.
Proof. intros Hl. unfold sent_lba. rewrite Z.mod_small, (Z.div_small lba) by lia. rewrite Z.mod_0_l; lia. Qed.

Lemma byte_count_ok count : 0 < count < 2 ^ 16 → wrap 32 (Z.shiftl count 9) = 512 * count.
Proof. intros Hc. rewrite Z.shiftl_mul_pow2, wrap_id by lia. lia. Qed.

(** Commands as [read] and [write_sectors] build them. *)
Lemma transfer_request port t sector count buffer w s op segs : transfer_ok port t sector count buffer s →
  Z.of_nat (length (addresses segs)) = 512 * count →
  (op = ATA_CMD_READ_DMA_EX ∧ w = false) ∨ (op = ATA_CMD_WRITE_DMA_EX ∧ w = true) →
  request_of {| buffer_addr := buffer; data_byte_count := wrap 32 (Z.shiftl count 9); cmd := op; cmd_control := 1; lba := sector;
    count := count; is_write := w; is_lba_mode := true |} segs =
  {| rq_write := w; rq_command := op; rq_lba_mode := true; rq_lba := sector; rq_count := count; rq_segments := segs |}
  ∧ request_ok {| rq_write := w; rq_command := op; rq_lba_mode := true; rq_lba := sector; rq_count := count; rq_segments := segs |} (capacity (bus s).2).
Proof.
  intros [_ _ Hs Hc Hl Hcap _ _] Hlen Hop. unfold request_of. cbn. rewrite sent_lba_small, Z.mod_small by lia.
  split; [done|]. unfold request_ok. cbn. split_and!; [done|lia|lia|done|done].
Qed.
End Transfer.

Section Sectors.
Context {C D : Type} `{Controller D, DmaMemory C}.
Context (ok : C → Prop) (frame : Z → option Z).
Hypothesis frame_bound : ∀ p f, frame p = Some f → 0 ≤ f < 2 ^ 40.
Hypothesis translates : ∀ a c, ok c → ∃ c', dma_translate a c = Done (frame (a / PAGE_SIZE), c') ∧ ok c'.
Implicit Types s : hba C D.

Lemma read_sectors_run port t sector count buffer s : transfer_ok ok frame port t sector count buffer s →
  (∀ i j p, 0 ≤ i < 512 * count → 0 ≤ j < 512 * count → physical frame (buffer + i) = Some p → physical frame (buffer + j) = Some p → i = j) →
  ∃ n s', (∀ fuel, (n < fuel)%nat → read fuel port sector count buffer s = Done (true, s'))
    ∧ same_setup (bus s).2 (bus s').2 ∧ port_ready ok t s' ∧ (∀ x, disk (bus s').2 x = disk (bus s).2 x)
    ∧ (∀ i b p, disk_data (disk (bus s).2) sector count !! i = Some b → physical frame (buffer + Z.of_nat i) = Some p → (bus s').1 p = b)
    ∧ (∀ a, ¬ structures t (bus s).2 a → (∀ i, 0 ≤ i < 512 * count → physical frame (buffer + i) ≠ Some a) → (bus s').1 a = (bus s).1 a).
Proof.
  intros Ht Hinj. pose proof Ht as [Hr Hp Hs Hc Hl Hcap Hb Ha]. pose proof (byte_count_ok count Hc) as Ec.
  destruct (send_command_ok ok frame frame_bound translates port
    {| buffer_addr := buffer; data_byte_count := wrap 32 (Z.shiftl count 9); cmd := ATA_CMD_READ_DMA_EX; cmd_control := 1; lba := sector;
       count := count; is_write := false; is_lba_mode := true |} t s) as (n & s' & segs & m1 & Hsend & Hr' & Hset & Hseg & Hm1 & Hd & Hm);
    [done | done | cbn; by rewrite Ec | cbn; by rewrite Ec | |].
  { intros segs Hlen. cbn in Hlen. rewrite Ec in Hlen. edestruct (transfer_request ok frame port t sector count buffer false s ATA_CMD_READ_DMA_EX segs Ht Hlen) as [-> Hq]; [by left|done]. }
  cbn [buffer_addr data_byte_count] in Hseg. rewrite Ec in Hseg.
  pose proof (addresses_length frame buffer _ segs Hseg ltac:(lia)) as Hlen. pose proof (addresses_lookup frame buffer _ segs Hseg ltac:(lia)) as Hlk.
  edestruct (transfer_request ok frame port t sector count buffer false s ATA_CMD_READ_DMA_EX segs Ht Hlen) as [Eq _]; [by left|]. rewrite Eq in Hd, Hm.
  assert (Hnd : NoDup (addresses segs)).
  { apply NoDup_alt. intros i j x [Hi1 Hi2]%Hlk [Hj1 Hj2]%Hlk. apply Nat2Z.inj. eapply Hinj; [lia|lia|exact Hi2|exact Hj2]. }
  exists n, s'. split_and!; try done.
  - intros i b p Hb' Hph. assert (Hi : Z.of_nat i < 512 * count).
    { apply lookup_lt_Some in Hb'. unfold disk_data in Hb'. rewrite length_concat_512, length_seqZ in Hb' by apply disk_length. lia. }
    rewrite Hm by (eapply (Ha (Z.of_nat i)); [lia|done]). cbn. by apply (scatter_in _ _ _ i); [|apply Hlk|].
  - intros a Hst Hout. rewrite Hm by done. unfold memory_after. cbn [rq_write rq_segments rq_lba rq_count]. rewrite scatter_out; [by apply Hm1|].
    intros [i Hi]%list_elem_of_lookup. apply Hlk in Hi as [Hi1 Hi2]. by apply (Hout (Z.of_nat i)); [lia|].
Qed.

Lemma write_sectors_run port t sector count buffer s : transfer_ok ok frame port t sector count buffer s →
  ∃ n s', (∀ fuel, (n < fuel)%nat → write_sectors fuel port sector count buffer s = Done (true, s'))
    ∧ same_setup (bus s).2 (bus s').2 ∧ port_ready ok t s'
    ∧ (∀ x j p, sector ≤ x < sector + count → 0 ≤ j < 512 → physical frame (buffer + 512 * (x - sector) + j) = Some p →
        disk (bus s').2 x !! Z.to_nat j = Some ((bus s).1 p))
    ∧ (∀ x, ¬ (sector ≤ x < sector + count) → disk (bus s').2 x = disk (bus s).2 x)
    ∧ (∀ a, ¬ structures t (bus s).2 a → (bus s').1 a = (bus s).1 a).
Proof.
  intros Ht. pose proof Ht as [Hr Hp Hs Hc Hl Hcap Hb Ha]. pose proof (byte_count_ok count Hc) as Ec.
  destruct (send_command_ok ok frame frame_bound translates port
    {| buffer_addr := buffer; data_byte_count := wrap 32 (Z.shiftl count 9); cmd := ATA_CMD_WRITE_DMA_EX; cmd_control := 1; lba := sector;
       count := count; is_write := true; is_lba_mode := true |} t s) as (n & s' & segs & m1 & Hsend & Hr' & Hset & Hseg & Hm1 & Hd & Hm);
    [done | done | cbn; by rewrite Ec | cbn; by rewrite Ec | |].
  { intros segs Hlen. cbn in Hlen. rewrite Ec in Hlen. edestruct (transfer_request ok frame port t sector count buffer true s ATA_CMD_WRITE_DMA_EX segs Ht Hlen) as [-> Hq]; [by right|done]. }
  cbn [buffer_addr data_byte_count] in Hseg. rewrite Ec in Hseg.
  pose proof (addresses_length frame buffer _ segs Hseg ltac:(lia)) as Hlen. pose proof (addresses_lookup frame buffer _ segs Hseg ltac:(lia)) as Hlk.
  edestruct (transfer_request ok frame port t sector count buffer true s ATA_CMD_WRITE_DMA_EX segs Ht Hlen) as [Eq _]; [by right|]. rewrite Eq in Hd, Hm.
  exists n, s'. split_and!; try done.
  - intros fuel Hn. unfold write_sectors. destruct (Z.eqb_spec count 0); [lia|]. by apply Hsend.
  - intros x j p Hx Hj Hph. rewrite Hd. unfold disk_after, disk_write. cbn [rq_write rq_segments rq_lba rq_count]. destruct (Z.leb_spec sector x), (Z.ltb_spec x (sector + count)); try lia. cbn [andb].
    rewrite lookup_take_lt, lookup_drop by lia. unfold gather. rewrite list_lookup_fmap.
    replace (Z.to_nat (512 * (x - sector)) + Z.to_nat j)%nat with (Z.to_nat (512 * (x - sector) + j)) by lia.
    rewrite (proj2 (Hlk (Z.to_nat (512 * (x - sector) + j)) p)).
    + cbn. f_equal. apply Hm1. eapply (Ha (512 * (x - sector) + j)); [lia|]. by rewrite Z.add_assoc.
    + rewrite Z2Nat.id by lia. split; [lia|]. by rewrite Z.add_assoc.
  - intros x Hx. rewrite Hd. unfold disk_after, disk_write. cbn [rq_write rq_segments rq_lba rq_count]. destruct (Z.leb_spec sector x), (Z.ltb_spec x (sector + count)); try done. lia.
  - intros a Hst. rewrite Hm by done. by apply Hm1.
Qed.
(** Reading sectors: on a started port of a controller that executes its commands,
    a read of [count] sectors into a mapped buffer - of any alignment, over at most
    128 pages, of which no byte is mapped twice or belongs to the port - succeeds
    after finitely many polls, puts the bytes of the sectors into the buffer in order
    and changes no other memory but the port's own; the disk is unchanged and the
    port is ready again.  The sectors must lie below 2^24, for the command does not
    carry the bits above. *)
Theorem ahci_read_sectors port t sector count buffer s : transfer_ok ok frame port t sector count buffer s →
  (∀ i j p, 0 ≤ i < 512 * count → 0 ≤ j < 512 * count → physical frame (buffer + i) = Some p → physical frame (buffer + j) = Some p → i = j) →
  ∃ n s', (∀ fuel, (n < fuel)%nat → read fuel port sector count buffer s = Done (true, s'))
    ∧ port_ready ok t s' ∧ (∀ x, disk (bus s').2 x = disk (bus s).2 x)
    ∧ (∀ i b p, disk_data (disk (bus s).2) sector count !! i = Some b → physical frame (buffer + Z.of_nat i) = Some p → (bus s').1 p = b)
    ∧ (∀ a, ¬ structures t (bus s).2 a → (∀ i, 0 ≤ i < 512 * count → physical frame (buffer + i) ≠ Some a) → (bus s').1 a = (bus s).1 a).
Proof.
  intros Ht Hinj. destruct (read_sectors_run port t sector count buffer s Ht Hinj) as (n & s' & Hn & _ & Hrest). by exists n, s'.
Qed.

(** Writing sectors: on such a port and from such a buffer, a write succeeds after
    finitely many polls; each of the sectors then holds its part of the buffer, every
    other sector is unchanged, and so is all memory but the port's own. *)
Theorem ahci_write_sectors port t sector count buffer s : transfer_ok ok frame port t sector count buffer s →
  ∃ n s', (∀ fuel, (n < fuel)%nat → write_sectors fuel port sector count buffer s = Done (true, s'))
    ∧ port_ready ok t s'
    ∧ (∀ x j p, sector ≤ x < sector + count → 0 ≤ j < 512 → physical frame (buffer + 512 * (x - sector) + j) = Some p →
        disk (bus s').2 x !! Z.to_nat j = Some ((bus s).1 p))
    ∧ (∀ x, ¬ (sector ≤ x < sector + count) → disk (bus s').2 x = disk (bus s).2 x)
    ∧ (∀ a, ¬ structures t (bus s).2 a → (bus s').1 a = (bus s).1 a).
Proof.
  intros Ht. destruct (write_sectors_run port t sector count buffer s Ht) as (n & s' & Hn & _ & Hrest). by exists n, s'.
Qed.
End Sectors.
