(* ===== verification/AhciDrive.v ===== *)
(** * AhciDrive: a drive, and the driver at work on it

    [Drive] is a controller with one port and a disk: it executes a command when it
    is issued and reports it outstanding once.  It implements [Controller]; the
    claims about transfers are instantiated with it, over a memory that is mapped to
    itself. *)

From S2P Require Import Prelude Ahci AhciPrdt AhciCmd AhciTransfer.

Record Drive := {
  dr_clb : Z; dr_clbu : Z; dr_fb : Z; dr_fbu : Z;
  dr_is : Z; dr_cmd : Z; dr_ci : Z;
  dr_delay : nat;
  dr_sectors : Z → list Z;
}.

Definition dr_disk (d : Drive) (s : Z) : list Z := take 512 (dr_sectors d s ++ replicate 512 0).

Definition set_regs (clb clbu fb fbu cmd : Z) (d : Drive) : Drive :=
  {| dr_clb := clb; dr_clbu := clbu; dr_fb := fb; dr_fbu := fbu; dr_is := dr_is d; dr_cmd := cmd;
     dr_ci := dr_ci d; dr_delay := dr_delay d; dr_sectors := dr_sectors d |}.
Definition set_is (v : Z) (d : Drive) : Drive :=
  {| dr_clb := dr_clb d; dr_clbu := dr_clbu d; dr_fb := dr_fb d; dr_fbu := dr_fbu d; dr_is := v; dr_cmd := dr_cmd d;
     dr_ci := dr_ci d; dr_delay := dr_delay d; dr_sectors := dr_sectors d |}.
Definition set_ci (v : Z) (delay : nat) (d : Drive) : Drive :=
  {| dr_clb := dr_clb d; dr_clbu := dr_clbu d; dr_fb := dr_fb d; dr_fbu := dr_fbu d; dr_is := dr_is d; dr_cmd := dr_cmd d;
     dr_ci := v; dr_delay := delay; dr_sectors := dr_sectors d |}.
Definition set_sectors (f : Z → list Z) (d : Drive) : Drive :=
  {| dr_clb := dr_clb d; dr_clbu := dr_clbu d; dr_fb := dr_fb d; dr_fbu := dr_fbu d; dr_is := dr_is d; dr_cmd := dr_cmd d;
     dr_ci := dr_ci d; dr_delay := dr_delay d; dr_sectors := f |}.

Definition dr_list (d : Drive) : Z := dr_clb d + Z.shiftl (dr_clbu d) 32.
Definition dr_fis (d : Drive) : Z := dr_fb d + Z.shiftl (dr_fbu d) 32.

Definition dr_reg (d : Drive) (r : preg) : Z :=
  match r with
  | CLB => dr_clb d | CLBU => dr_clbu d | FB => dr_fb d | FBU => dr_fbu d
  | IS => dr_is d | CMD => dr_cmd d | TFD => 0x50 | SIG => 0x101 | SSTS => 0x123 | SACT => 0 | CI => dr_ci d
  end.

Definition in_range (lo n a : Z) : bool := (lo <=? a) && (a <? lo + n).
(** The bytes it writes of its own: the count and the received FIS. *)
Definition dr_own (d : Drive) (slot a : Z) : bool :=
  in_range (dr_list d + COMMAND_HEADER_SIZE * slot + 4) 4 a || in_range (dr_fis d) 256 a.

Definition dr_issue (v : Z) (m : Z → Z) (d : Drive) : (Z → Z) * Drive :=
  let slot := Z.log2 v in
  match decode_slot m (dr_list d) slot with
  | Some r => (λ a, if dr_own d slot a then 0 else memory_after r (dr_disk d) m a, set_ci v 1 (set_sectors (disk_after r (dr_disk d) m) d))
  | None => (m, set_ci v 0 (set_is (Z.lor (dr_is d) HBA_PXIS_TFES) d))
  end.

#[global] Instance drive_device : HbaDevice Drive := {
  reg_load r '(m, d) :=
    match r, dr_delay d with
    | CI, O => (0, (m, set_ci 0 0 d))
    | CI, S n => (dr_ci d, (m, set_ci (dr_ci d) n d))
    | _, _ => (dr_reg d r, (m, d))
    end;
  reg_store r v '(m, d) :=
    match r with
    | CI => dr_issue v m d
    | IS => (m, set_is (Z.ldiff (dr_is d) v) d)
    | CLB => (m, set_regs v (dr_clbu d) (dr_fb d) (dr_fbu d) (dr_cmd d) d)
    | CLBU => (m, set_regs (dr_clb d) v (dr_fb d) (dr_fbu d) (dr_cmd d) d)
    | FB => (m, set_regs (dr_clb d) (dr_clbu d) v (dr_fbu d) (dr_cmd d) d)
    | FBU => (m, set_regs (dr_clb d) (dr_clbu d) (dr_fb d) v (dr_cmd d) d)
    | CMD => (m, set_regs (dr_clb d) (dr_clbu d) (dr_fb d) (dr_fbu d) v d)
    | _ => (m, d)
    end;
}.

Definition dr_idle (d : Drive) : Prop := dr_ci d = 0 ∧ dr_delay d = O ∧ 0 ≤ dr_is d < 2 ^ 32.

Lemma dr_disk_length d s : length (dr_disk d s) = 512%nat.
Proof. unfold dr_disk. rewrite length_take, length_app, length_replicate. lia. Qed.

Lemma take_512 (l l' : list Z) : length l = 512%nat → take 512 (l ++ l') = l.
Proof. intros H. rewrite take_app_le by lia. apply take_ge. lia. Qed.

(** What is written to a sector is 512 bytes. *)
Lemma disk_after_length r d m s : request_ok r (2 ^ 30) → length (disk_after r (dr_disk d) m s) = 512%nat.
Proof.
  intros (_ & _ & _ & Hl & _). unfold disk_after. destruct (rq_write r); [|apply dr_disk_length].
  unfold disk_write. destruct ((rq_lba r <=? s) && (s <? rq_lba r + rq_count r)) eqn:E; [|apply dr_disk_length].
  bool_to_prop. rewrite length_take, length_drop. unfold gather. rewrite length_map. lia.
Qed.

#[global] Program Instance drive_controller : Controller Drive := {
  reg := dr_reg;
  disk := dr_disk;
  capacity _ := 2 ^ 30;
  idle := dr_idle;
  disk_length := dr_disk_length;
}.
Next Obligation. intros d r m (H1 & H2 & _). cbn. rewrite H2. destruct r; try done. cbn. rewrite H1. destruct d; cbn in *; subst. done. Qed.
Next Obligation. intros d (H1 & _). cbn. auto. Qed.
Next Obligation.
  intros d m (H1 & H2 & H3). eexists. split; [done|]. unfold dr_idle. cbn.
  assert (E : Z.ldiff (dr_is d) u32_max = 0) by (change u32_max with (Z.ones 32); apply Z.ldiff_ones_r_low; [lia|]; destruct (Z.eq_dec (dr_is d) 0) as [->|]; [done | apply Z.log2_lt_pow2; lia]).
  rewrite E. split_and!; try done. by intros r [-> | [-> | [-> | ->]]].
Qed.
Next Obligation.
  intros d m slot r Hs (H1 & H2 & H3) His Hd Hr Ha. exists 1%nat. cbn. unfold dr_issue.
  assert (El : Z.log2 (Z.shiftl 1 slot) = slot) by (rewrite Z.shiftl_1_l; apply Z.log2_pow2; lia).
  rewrite El. change (dr_reg d CLB + Z.shiftl (dr_reg d CLBU) 32) with (dr_list d) in Hd. rewrite Hd. cbn.
  assert (Hci : Z.shiftl 1 slot ≠ 0) by (rewrite Z.shiftl_1_l; apply Z.pow_nonzero; lia).
  change (dr_is d = 0) in His. rewrite His. split; [done|]. split; [done|]. split; [done|].
  assert (Hown : ∀ a, dr_own d slot a = true ↔
    (dr_list d + COMMAND_HEADER_SIZE * slot + 4 ≤ a < dr_list d + COMMAND_HEADER_SIZE * slot + 8 ∨ dr_fis d ≤ a < dr_fis d + 256)).
  { intros a. unfold dr_own, in_range. rewrite orb_true_iff, !andb_true_iff, !Z.leb_le, !Z.ltb_lt. lia. }
  split; [|split; [done|split; [|split; [|split]]]].
  - unfold dr_idle. cbn. rewrite His. lia.
  - split; [|done]. by intros x [-> | [-> | [-> | ->]]].
  - intros s. exact (take_512 _ _ (disk_after_length r d m s Hr)).
  - intros a Hoa. destruct (dr_own d slot a) eqn:E; [|done]. by apply Hown in E.
  - intros a Hoa. by rewrite (proj2 (Hown a) Hoa).
Qed.

(** ** A port at work

    Memory mapped to itself, with frames handed out from a counter; the command list
    at 0x10000, the received FIS at 0x11000 and the first table at 0x12000. *)

Definition flat_frame (p : Z) : option Z := if (0 <=? p) && (p <? 2 ^ 40) then Some p else None.
#[global] Instance flat_memory : DmaMemory Z := {
  dma_falloc := λ next, Done (Some next, next + 1);
  dma_identity_map _ _ := kret tt;
  dma_translate a := kret (flat_frame (a / PAGE_SIZE));
  page_frame _ := flat_frame;
  dma_alloc _ := kret 0x20000;
  dma_dealloc _ := kret tt;
}.

Lemma flat_bound p f : flat_frame p = Some f → 0 ≤ f < 2 ^ 40.
Proof. unfold flat_frame. destruct (_ && _) eqn:E; [|done]. intros [= <-]. bool_to_prop. lia. Qed.
Lemma flat_translates a c : True → ∃ c', dma_translate a c = Done (flat_frame (a / PAGE_SIZE), c') ∧ True.
Proof. intros _. by exists c. Qed.
Lemma flat_physical a : 0 ≤ a < 2 ^ 52 → physical flat_frame a = Some a.
Proof.
  intros Ha. unfold physical, flat_frame, PAGE_SIZE. pose proof (Z.div_mod a 4096). pose proof (Z.mod_pos_bound a 4096).
  destruct (Z.leb_spec 0 (a / 4096)); [|lia]. destruct (Z.ltb_spec (a / 4096) (2 ^ 40)); [|lia]. cbn. f_equal. lia.
Qed.

Definition drive0 : Drive :=
  {| dr_clb := 0x10000; dr_clbu := 0; dr_fb := 0x11000; dr_fbu := 0; dr_is := 0; dr_cmd := 0xC011; dr_ci := 0; dr_delay := 0;
     dr_sectors := λ s, [s mod 256; 7] |}.
Definition memory0 : Z → Z :=
  put_header (λ _, 0) 0x10000 {| cfl_a_w_p := 0; r_b_c_rsv0_pmp := 0; prdtl := 128; prdbc := 0; ctba := 0x12000; ctbau := 0 |}.
Definition hba0 : hba Z Drive := {| bus := (memory0, drive0); mc := 0x30 |}.
Definition port0 : AHCIPort := {| port_address := 0xFEBF1000; max_slots := 32; block_count := 0 |}.

(** Sectors 5 and 6, into an unaligned buffer. *)
Lemma transfer0 : transfer_ok (λ _, True) flat_frame port0 0x12000 5 2 0x20F01 hba0.
Proof.
  split; try done.
  - split; try done.
    + assert (E : header_at memory0 0x10000 = {| cfl_a_w_p := 0; r_b_c_rsv0_pmp := 0; prdtl := 128; prdbc := 0; ctba := 0x12000; ctbau := 0 |})
        by (apply header_put; split; cbn; lia).
      change (slot_ok memory0 0x10000 0x12000). split; [rewrite E; split; cbn; lia | by rewrite E | left; vm_compute; discriminate].
    + intros a Ha. change (fis_base (bus hba0).2) with 0x11000 in Ha. change (list_base (bus hba0).2 + COMMAND_HEADER_SIZE * 0) with 0x10000.
      unfold in_slot, COMMAND_HEADER_SIZE. lia.
  - split; try done. intros i Hi. rewrite flat_physical by lia. done.
  - intros i p Hi Hp. rewrite flat_physical in Hp by lia. injection Hp as <-. change (¬ (in_slot 0x10000 0x12000 (0x20F01 + i) ∨ 0x11000 ≤ 0x20F01 + i < 0x11000 + 256)).
    unfold in_slot, COMMAND_HEADER_SIZE, COMMAND_TABLE_SIZE, HBA_PRDT_ENTRY_COUNT. lia.
Qed.

Lemma ahci_read_sectors_witness :
  transfer_ok (λ _, True) flat_frame port0 0x12000 5 2 0x20F01 hba0 ∧
  ∃ n s', (∀ fuel, (n < fuel)%nat → read fuel port0 5 2 0x20F01 hba0 = Done (true, s')) ∧ (bus s').1 0x20F01 = 5 ∧ (bus s').1 0x21101 = 6.
Proof.
  split; [exact transfer0|].
  destruct (ahci_read_sectors (λ _, True) flat_frame flat_bound flat_translates port0 0x12000 5 2 0x20F01 hba0 transfer0) as (n & s' & Hr & _ & _ & Hb & _).
  - intros i j p Hi Hj. rewrite !flat_physical by lia. intros [= <-] [= ?]. lia.
  - exists n, s'. split; [exact Hr|]. split.
    + apply (Hb 0%nat); [reflexivity | apply flat_physical; lia].
    + apply (Hb 512%nat); [reflexivity | apply flat_physical; lia].
Defined.

Lemma ahci_write_sectors_witness :
  transfer_ok (λ _, True) flat_frame port0 0x12000 5 2 0x20F01 hba0 ∧
  ∃ n s', (∀ fuel, (n < fuel)%nat → write_sectors fuel port0 5 2 0x20F01 hba0 = Done (true, s')) ∧ disk (bus s').2 6 !! 0%nat = Some 0.
Proof.
  split; [exact transfer0|].
  destruct (ahci_write_sectors (λ _, True) flat_frame flat_bound flat_translates port0 0x12000 5 2 0x20F01 hba0 transfer0) as (n & s' & Hr & _ & Hb & _).
  exists n, s'. split; [exact Hr|].
  apply (Hb 6 0 0x21101); [lia | lia | apply flat_physical; lia].
Defined.
