(* ===== verification/AhciBlock.v ===== *)
(** * AhciBlock: the AHCI port as a block device

    A client that stores its data in a buffer, calls [write_sectors], calls [read]
    and looks into the buffer sees a disk: the port's registers, command lists,
    descriptors and interrupts do not show. *)

From S2P Require Import Prelude Ahci AhciPrdt AhciCmd AhciTransfer AhciDrive.

(** ** The abstract device *)

Inductive block_request :=
| BRead (sector count : Z)
| BWrite (sector : Z) (data : list Z).

Definition sector_count (data : list Z) : Z := Z.of_nat (length data) / 512.

(** The answer, and the disk. *)
Definition block_step (disk : Z → list Z) (r : block_request) : list Z * (Z → list Z) :=
  match r with
  | BRead sector count => (disk_data disk sector count, disk)
  | BWrite sector data => ([], disk_write disk sector (sector_count data) data)
  end.
Fixpoint block_run (disk : Z → list Z) (l : list block_request) : list (list Z) * (Z → list Z) :=
  match l with
  | [] => ([], disk)
  | r :: l =>
      let '(a, disk) := block_step disk r in
      let '(rest, disk) := block_run disk l in
      (a :: rest, disk)
  end.

(** Requests within a disk of [capacity] sectors and a buffer of [room] bytes. *)
Definition request_fits (capacity room : Z) (r : block_request) : Prop :=
  match r with
  | BRead sector count => 0 ≤ sector ∧ 0 < count < 2 ^ 16 ∧ sector + count ≤ Z.min capacity (2 ^ 24) ∧ 512 * count ≤ room
  | BWrite sector data => 0 ≤ sector ∧ 0 < sector_count data < 2 ^ 16 ∧ sector + sector_count data ≤ Z.min capacity (2 ^ 24)
      ∧ Z.of_nat (length data) = 512 * sector_count data ∧ Z.of_nat (length data) ≤ room
  end.

Lemma block_step_ext d d' r : (∀ x, d x = d' x) →
  (block_step d r).1 = (block_step d' r).1 ∧ ∀ x, (block_step d r).2 x = (block_step d' r).2 x.
Proof.
  intros E. destruct r as [sector count|sector data]; cbn.
  - split; [|done]. unfold disk_data. f_equal. apply map_ext. intros x. apply E.
  - split; [done|]. intros x. unfold disk_write. by rewrite E.
Qed.

Section Block.
Context {C D : Type} `{Controller D, DmaMemory C}.
Context (ok : C → Prop) (frame : Z → option Z).
Hypothesis frame_bound : ∀ p f, frame p = Some f → 0 ≤ f < 2 ^ 40.
Hypothesis translates : ∀ a c, ok c → ∃ c', dma_translate a c = Done (frame (a / PAGE_SIZE), c') ∧ ok c'.
(** The port, its first command table, and the client's buffer. *)
Context (port : AHCIPort) (t buffer room : Z).
Implicit Types s : hba C D.

(** The physical address of a byte of the buffer. *)
Definition place (i : Z) : Z := default 0 (physical frame (buffer + i)).
Definition places (n : Z) : list Z := map place (seqZ 0 n).

Definition load_buffer (n : Z) : kst (hba C D) (list Z) := kgets (λ s, gather (bus s).1 (places n)).
Definition store_buffer (data : list Z) : kst (hba C D) unit :=
  kmodify (λ s, {| bus := (scatter (bus s).1 (places (Z.of_nat (length data))) data, (bus s).2); mc := mc s |}).

(** A request through the driver; a failed transfer would panic the client. *)
Definition driver_step (fuel : nat) (r : block_request) : kst (hba C D) (list Z) :=
  match r with
  | BRead sector count =>
      let* done := read fuel port sector count buffer in
      if (done : bool) then load_buffer (512 * count) else kfault Panic
  | BWrite sector data =>
      store_buffer data ;;*
      let* done := write_sectors fuel port sector (sector_count data) buffer in
      if (done : bool) then kret [] else kfault Panic
  end.
Fixpoint driver_run (fuel : nat) (l : list block_request) : kst (hba C D) (list (list Z)) :=
  match l with
  | [] => kret []
  | r :: l => let* a := driver_step fuel r in let* rest := driver_run fuel l in kret (a :: rest)
  end.

(** The port is ready, and the buffer is mapped, once and apart from the port. *)
Record block_ready s : Prop := {
  br_port : port_ready ok t s;
  br_slots : 0 < max_slots port;
  br_buffer : buffer_ok frame buffer room;
  br_apart : buffer_apart frame t (bus s).2 buffer room;
  br_once i j : 0 ≤ i < room → 0 ≤ j < room → place i = place j → i = j;
}.

Lemma buffer_part n : buffer_ok frame buffer room → 0 < n ≤ room → buffer_ok frame buffer n.
Proof.
  intros [Hlo Hhi Hsome Hm Hp] Hn. split; [done | lia | lia | intros i Hi; apply Hm; lia |].
  unfold pages in *. destruct (Z.leb_spec room 0), (Z.leb_spec n 0); try lia.
  pose proof (Z.div_le_mono (buffer + n - 1) (buffer + room - 1) PAGE_SIZE ltac:(done) ltac:(lia)). lia.
Qed.

Lemma place_physical s i : block_ready s → 0 ≤ i < room → physical frame (buffer + i) = Some (place i).
Proof. intros [_ _ [_ _ _ Hm _] _ _] Hi. unfold place. destruct (Hm i Hi) as [p Hp]. by rewrite Hp. Qed.

Lemma places_lookup n i x : places n !! i = Some x → x = place (Z.of_nat i) ∧ Z.of_nat i < n.
Proof. unfold places. rewrite list_lookup_fmap, fmap_Some. intros (y & [-> Hy]%lookup_seqZ & ->). by rewrite Z.add_0_l. Qed.

Lemma places_NoDup s n : block_ready s → n ≤ room → NoDup (places n).
Proof.
  intros Hb Hn. apply NoDup_alt. intros i j x [-> Hi]%places_lookup [E Hj]%places_lookup. apply Nat2Z.inj.
  apply (br_once s Hb); [lia | lia | done].
Qed.

Lemma transfer_fits s sector count : block_ready s → 0 ≤ sector → 0 < count < 2 ^ 16 →
  sector + count ≤ Z.min (capacity (bus s).2) (2 ^ 24) → 512 * count ≤ room → transfer_ok ok frame port t sector count buffer s.
Proof.
  intros [Hr Hs Hb Ha _] Hz Hc Hl Hm. split; try done; [lia | lia | apply buffer_part; [done|lia] |].
  intros i p Hi. apply Ha. lia.
Qed.

(** Readiness survives changes of memory outside of the port's structures. *)
Lemma ready_memory s m' : (∀ a, structures t (bus s).2 a → m' a = (bus s).1 a) → block_ready s →
  block_ready {| bus := (m', (bus s).2); mc := mc s |}.
Proof.
  intros Hm [[Hi Hk Hs Hf] Hsl Hb Ha Ho]. split; [split|..]; try done. cbn [bus fst snd].
  destruct Hs as [Hh Ht Hap]. assert (E : header_at m' (list_base (bus s).2 + COMMAND_HEADER_SIZE * 0) = header_at (bus s).1 (list_base (bus s).2 + COMMAND_HEADER_SIZE * 0)).
  { assert (Hin : ∀ a, list_base (bus s).2 + COMMAND_HEADER_SIZE * 0 ≤ a < list_base (bus s).2 + COMMAND_HEADER_SIZE * 0 + 16 → m' a = (bus s).1 a).
    { intros a Hra. apply Hm. left. left. unfold COMMAND_HEADER_SIZE in *. lia. }
    unfold header_at, get_le. rewrite !(get_ext (bus s).1 m') by (intros; apply Hin; lia). by rewrite !Hin by lia. }
  split; [by rewrite E | by rewrite E | done].
Qed.

Lemma ready_setup s s' : port_ready ok t s' → same_setup (bus s).2 (bus s').2 → block_ready s → block_ready s'.
Proof.
  intros Hr Hset [_ Hsl Hb Ha Ho]. destruct (same_bases _ _ Hset) as [El Ef]. split; try done.
  intros i p Hi Hp. unfold structures. rewrite El, Ef. by apply (Ha i).
Qed.

Lemma read_step s sector count : block_ready s → request_fits (capacity (bus s).2) room (BRead sector count) →
  ∃ n s', (∀ fuel, (n < fuel)%nat → driver_step fuel (BRead sector count) s = Done (disk_data (disk (bus s).2) sector count, s'))
    ∧ block_ready s' ∧ capacity (bus s').2 = capacity (bus s).2 ∧ ∀ x, disk (bus s').2 x = disk (bus s).2 x.
Proof.
  intros Hb (Hz & Hc & Hl & Hm). pose proof (transfer_fits s sector count Hb Hz Hc Hl Hm) as Ht.
  destruct (read_sectors_run ok frame frame_bound translates port t sector count buffer s Ht) as (n & s' & Hn & Hset & Hr & Hd & Hdata & _).
  { intros i j p Hi Hj E1 E2. apply (br_once s Hb); [lia | lia |]. unfold place. by rewrite E1, E2. }
  exists n, s'. split_and!; [|by eapply ready_setup | apply Hset | done].
  intros fuel Hf. cbn [driver_step]. rewrite (kbind_done _ _ _ _ _ (Hn fuel Hf)). unfold load_buffer, kgets. do 2 f_equal.
  assert (Hlen : length (disk_data (disk (bus s).2) sector count) = Z.to_nat (512 * count)).
  { unfold disk_data. rewrite length_concat_512, length_seqZ by apply disk_length. lia. }
  apply list_eq. intros i. unfold gather. rewrite list_lookup_fmap.
  destruct (decide (Z.of_nat i < 512 * count)) as [Hi|Hi].
  - destruct (lookup_lt_is_Some_2 (disk_data (disk (bus s).2) sector count) i) as [b Hb']; [lia|]. rewrite Hb'.
    unfold places. rewrite list_lookup_fmap, lookup_seqZ_lt by lia. cbn [fmap option_fmap option_map]. f_equal. rewrite Z.add_0_l.
    apply (Hdata i); [done|]. apply (place_physical s); [done | lia].
  - rewrite (proj2 (lookup_ge_None (disk_data (disk (bus s).2) sector count) i)) by (rewrite Hlen; lia). unfold places. by rewrite list_lookup_fmap, lookup_seqZ_ge by lia.
Qed.

Lemma store_buffer_ready s data : block_ready s → Z.of_nat (length data) ≤ room →
  ∃ s', store_buffer data s = Done (tt, s') ∧ (bus s').2 = (bus s).2 ∧ block_ready s'
    ∧ ∀ i b, data !! i = Some b → (bus s').1 (place (Z.of_nat i)) = b.
Proof.
  intros Hb Hl. eexists. split; [reflexivity|]. cbn [bus fst snd]. split_and!; [done | |].
  - apply ready_memory; [|done]. intros a Ha. apply scatter_out. intros [i [-> Hi]%places_lookup]%list_elem_of_lookup.
    apply (br_apart s Hb (Z.of_nat i) (place (Z.of_nat i))); [lia | by apply (place_physical s); [|lia] | done].
  - intros i b Hi. pose proof (lookup_lt_Some _ _ _ Hi). eapply scatter_in; [by eapply places_NoDup | | exact Hi].
    unfold places. rewrite list_lookup_fmap, lookup_seqZ_lt by lia. cbn. by rewrite Z.add_0_l.
Qed.

Lemma write_step s sector data : block_ready s → request_fits (capacity (bus s).2) room (BWrite sector data) →
  ∃ n s', (∀ fuel, (n < fuel)%nat → driver_step fuel (BWrite sector data) s = Done ([], s'))
    ∧ block_ready s' ∧ capacity (bus s').2 = capacity (bus s).2
    ∧ ∀ x, disk (bus s').2 x = disk_write (disk (bus s).2) sector (sector_count data) data x.
Proof.
  intros Hb (Hz & Hc & Hl & Hlen & Hm). destruct (store_buffer_ready s data Hb Hm) as (s1 & E1 & Ed & Hb1 & Hin).
  assert (Ht : transfer_ok ok frame port t sector (sector_count data) buffer s1) by (apply transfer_fits; rewrite ?Ed; try done; lia).
  destruct (write_sectors_run ok frame frame_bound translates port t sector (sector_count data) buffer s1 Ht) as (n & s' & Hn & Hset & Hr & Hw & Ho & _).
  rewrite Ed in *. exists n, s'. split_and!.
  - intros fuel Hf. cbn [driver_step]. by rewrite (kbind_done _ _ _ _ _ E1), (kbind_done _ _ _ _ _ (Hn fuel Hf)).
  - eapply ready_setup; [done | by rewrite Ed | done].
  - apply Hset.
  - intros x. unfold disk_write. destruct (Z.leb_spec sector x), (Z.ltb_spec x (sector + sector_count data)); cbn [andb]; try (apply Ho; lia).
    apply list_eq. intros j. destruct (decide (j < 512)%nat) as [Hj|Hj].
    + rewrite lookup_take_lt, lookup_drop by done. set (i := (Z.to_nat (512 * (x - sector)) + j)%nat).
      destruct (lookup_lt_is_Some_2 data i) as [b Hbb]; [unfold i; lia|]. rewrite Hbb, <- (Hin i b Hbb).
      rewrite <- (Nat2Z.id j). apply Hw; [lia | lia |]. replace (buffer + 512 * (x - sector) + Z.of_nat j) with (buffer + Z.of_nat i) by (unfold i; lia).
      apply (place_physical s1 _ Hb1). unfold i. lia.
    + rewrite !(proj2 (lookup_ge_None _ j)); [done | rewrite length_take; lia | rewrite disk_length; lia].
Qed.

End Block.

(** ** Witness *)

(** Two sectors written and read back, on the drive of AhciDrive. *)
Definition demo_requests : list block_request := [BRead 5 2; BWrite 6 (replicate 512 9); BRead 5 2].

Lemma ready0 : block_ready (λ _, True) flat_frame port0 0x12000 0x20F01 1024 hba0.
Proof.
  destruct transfer0 as [Hr Hs _ _ _ _ Hb Ha]. split; try done.
  intros i j Hi Hj. unfold place. rewrite !flat_physical by lia. cbn. lia.
Qed.

