(* ===== verification/AhciPorts.v ===== *)
(** * AhciPorts: finding and identifying the drives

    The size of a drive from its answer to IDENTIFY, the ports [probe_ports] opens,
    and a run of [init] on a drive after reset. *)

From S2P Require Import Prelude Ahci AhciPrdt AhciCmd AhciTransfer AhciDrive.

(** ** IDENTIFY *)

(** Swapping the bytes of every word, seen through a window of words. *)
Lemma swapped_drop k n l :
  drop (2 * k) (concat (map (λ w, rev (le_bytes 2 w)) (map le_value (chunks (k + n) 2 l)))) =
  concat (map (λ w, rev (le_bytes 2 w)) (map le_value (chunks n 2 (drop (2 * k) l)))).
Proof.
  revert l. induction k as [|k IH]; intros l; [done|]. cbn [Nat.add chunks map concat].
  replace (2 * S k)%nat with (2 + 2 * k)%nat by lia. rewrite <- !drop_drop.
  rewrite (drop_app_length' (rev _)) by (by rewrite length_rev, length_le_bytes). apply IH.
Qed.

(** Words 60 and 61: the number of sectors that 28 bits can address. *)
Lemma identify_block_count_ok l : bytes l → length l = 512%nat → identify_block_count l = get_le (λ a, default 0 (lookupZ l a)) 120 4.
Proof.
  intros Hl Hn. unfold identify_block_count. change 256%nat with (60 + 196)%nat.
  pose proof (swapped_drop 60 196 l) as E. change (2 * 60)%nat with 120%nat in E. rewrite E. clear E.
  assert (Hd : ∃ a b c d r, drop 120 l = a :: b :: c :: d :: r).
  { destruct (drop 120 l) as [|a [|b [|c [|d r]]]] eqn:X; try (apply (f_equal length) in X; rewrite length_drop in X; cbn in X; lia). by exists a, b, c, d, r. }
  destruct Hd as (a & b & c & d & r & E). rewrite E.
  assert (Hb : bytes (a :: b :: c :: d :: r)) by (rewrite <- E; by apply Forall_drop).
  apply Forall_cons in Hb as [Ha Hb]. apply Forall_cons in Hb as [Hb Hc]. apply Forall_cons in Hc as [Hc Hd]. apply Forall_cons in Hd as [Hd _].
  assert (L : ∀ i x, (a :: b :: c :: d :: r) !! i = Some x → lookupZ l (120 + Z.of_nat i) = Some x).
  { intros i x Hx. rewrite <- E, lookup_drop in Hx. replace (120 + Z.of_nat i) with (Z.of_nat (120 + i)) by lia. by rewrite lookupZ_nat. }
  unfold get_le. change (get (λ x, default 0 (lookupZ l x)) 120 4) with
    [default 0 (lookupZ l (120 + Z.of_nat 0)); default 0 (lookupZ l (120 + Z.of_nat 1)); default 0 (lookupZ l (120 + Z.of_nat 2)); default 0 (lookupZ l (120 + Z.of_nat 3))].
  rewrite (L 0%nat a), (L 1%nat b), (L 2%nat c), (L 3%nat d) by done. cbn [default from_option id]. unfold id.
  cbn [chunks take drop map concat le_bytes rev app]. unfold is_byte in *.
  assert (W : ∀ x y, 0 ≤ x < 256 → 0 ≤ y < 256 → le_value [x; y] mod 256 = x ∧ le_value [x; y] / 256 mod 256 = y).
  { intros x y Hx Hy. pose proof (le_bytes_value [x; y]) as V. cbn [length le_bytes] in V. assert (B : bytes [x; y]) by (constructor; [done | constructor; [done | constructor]]). specialize (V B). by injection V. }
  rewrite ?take_0. destruct (W a b Ha Hb) as [-> ->]. destruct (W c d Hc Hd) as [-> ->]. cbn [app take].
  unfold be_value. cbn [rev app].
  change (rotate_left_16 (le_value [c; d; a; b]) = le_value [a; b; c; d]). unfold rotate_left_16.
  assert (R : le_value [c; d; a; b] = (a + 256 * b) * 2 ^ 16 + (c + 256 * d)) by (cbn; lia).
  rewrite R, Z.shiftr_div_pow2 by lia. rewrite Z.div_add_l, (Z.div_small (c + 256 * d)), Z.add_0_r by lia.
  rewrite lor_shiftl_low by lia. unfold wrap.
  replace (((a + 256 * b) * 2 ^ 16 + (c + 256 * d)) * 2 ^ 16 + (a + 256 * b)) with (le_value [a; b; c; d] + (a + 256 * b) * 2 ^ 32) by (cbn; lia).
  rewrite Z.mod_add by lia. apply Z.mod_small. cbn. lia.
Qed.

(** ** Probing *)

Section Probe.
Context {S P : Type} (ty : Z → AHCIDeviceType) (open : Z → Z → kst S P).

Definition is_drive (t : AHCIDeviceType) : bool := bool_decide (t = SATA) || bool_decide (t = SATAPI).

Fixpoint open_all (max_slots : Z) (is_ : list Z) : kst S (list P) :=
  match is_ with
  | [] => kret []
  | i :: is_ => let* p := open i max_slots in let* ps := open_all max_slots is_ in kret (p :: ps)
  end.

Lemma probe_loop_ok max_slots pi n i ports s :
  (∀ j, i ≤ j < i + Z.of_nat n → Z.testbit pi j = true → is_drive (ty j) = true) → 0 ≤ i →
  probe_loop (λ j, kret (ty j)) (λ j, open j max_slots) (seqZ i (Z.of_nat n)) (Z.shiftr pi i) ports s =
  (let* ps := open_all max_slots (filter (λ j, Z.testbit pi j = true) (seqZ i (Z.of_nat n))) in kret (ports ++ ps)) s.
Proof.
  revert i ports s. induction n as [|n IH]; intros i ports s Hd Hi.
  { rewrite seqZ_nil by lia. cbn. unfold kbind, kret. by rewrite app_nil_r. }
  rewrite seqZ_cons by lia. replace (Z.pred (Z.of_nat (Datatypes.S n))) with (Z.of_nat n) by lia. cbn [probe_loop].
  assert (Hb : Z.land (Z.shiftr pi i) 1 = if Z.testbit pi i then 1 else 0).
  { change 1 with (Z.ones 1) at 1. rewrite Z.land_ones by lia. rewrite <- Z.bit0_mod, Z.shiftr_spec by lia. rewrite Z.add_0_l. by destruct (Z.testbit pi i). }
  rewrite Hb. assert (Hs : Z.shiftr (Z.shiftr pi i) 1 = Z.shiftr pi (Z.succ i)) by (rewrite Z.shiftr_shiftr by lia; f_equal; lia).
  destruct (Z.testbit pi i) eqn:Ht.
  - rewrite filter_cons_True by done. cbn [Z.eqb negb open_all]. rewrite kret_bind.
    assert (Hdr : negb (bool_decide (ty i = SATA)) && negb (bool_decide (ty i = SATAPI)) = false).
    { pose proof (Hd i ltac:(lia) Ht) as Hx. unfold is_drive in Hx. by destruct (bool_decide _), (bool_decide _). }
    rewrite Hdr, Hs. unfold kbind. destruct (open i max_slots s) as [[p s1]|]; [|done].
    rewrite IH; [|intros j Hj; apply Hd; lia|lia]. unfold kbind, kret.
    destruct (open_all max_slots _ s1) as [[ps s2]|]; [|done]. by rewrite <- app_assoc.
  - rewrite filter_cons_False by (by rewrite Ht). cbn [Z.eqb negb]. rewrite Hs. apply IH; [intros; apply Hd; [lia|done] | lia].
Qed.

(** With a drive at every implemented port, exactly these are opened, in order. *)
Lemma probe_ports_drives cap pi s : (∀ j, 0 ≤ j < 32 → Z.testbit pi j = true → is_drive (ty j) = true) →
  probe_ports (λ j, kret (ty j)) open cap pi s = open_all (Z.land cap 0x1F + 1) (filter (λ j, Z.testbit pi j = true) (seqZ 0 32)) s.
Proof.
  intros Hd. unfold probe_ports. rewrite <- (Z.shiftr_0_r pi) at 1. change 32 with (Z.of_nat 32).
  rewrite probe_loop_ok by (try lia; intros; by apply Hd). unfold kbind, kret. by destruct (open_all _ _ s) as [[ps s1]|].
Qed.
End Probe.

(** An implemented port without a drive is not shifted out: the port behind it is
    opened although it is not implemented. *)
Lemma probe_ports_skips :
  probe_ports (S := unit) (λ j, kret (if j =? 0 then Null else SATA)) (λ j _, kret j) 0 1 tt = Done ([1], tt).
Proof. vm_compute. reflexivity. Qed.

(** ** After reset

    [init] on a drive whose registers are zero, with frames from 0x30 on: the command
    list is at 0x30000, the received FIS at 0x31000, and table [i] at 0x32000 + 0x1000 * i. *)
Definition drive_reset : Drive :=
  {| dr_clb := 0; dr_clbu := 0; dr_fb := 0; dr_fbu := 0; dr_is := 0; dr_cmd := 0; dr_ci := 0; dr_delay := 0; dr_sectors := λ _, [] |}.

Lemma port_init_run :
  match port_init (C := Z) 1 {| bus := (λ _, 0xFF, drive_reset); mc := 0x30 |} with
  | Done (_, s) => (dr_clb (bus s).2, dr_fb (bus s).2, dr_cmd (bus s).2, map (λ i, let h := header_at (bus s).1 (0x30000 + 32 * i) in (table_of h, prdtl h)) [0; 1; 31])
                   = (0x30000, 0x31000, 0x11, [(0x32000, 128); (0x33000, 128); (0x51000, 128)])
  | Fault _ => False
  end.
Proof. vm_compute. reflexivity. Qed.
