(* ===== verification/Ulib.v ===== *)
(** * Ulib: the library of user programs (src/userspace/ulib/lib.rs)

    The system call stubs over [int 0x80], the argument frame, directory entries and
    times.  What a program passes to the kernel is a number and the registers the
    stub loads; a slice is its bytes, which [lend] places in the program's memory and
    [lend_mut]/[take_back] fetch after the call.  User programs are built in the
    release profile, so their integers wrap. *)

From S2P Require Import Prelude Text Time.

(** The trap into the kernel: the number, the argument registers in the order rdi,
    rsi, rdx, r10, and the value it leaves in rax. *)
Class Int80 (W : Type) := {
  int80 : Z → list Z → kst W Z;
  lend : list Z → kst W Z;
  lend_mut : Z → kst W Z;
  take_back : Z → Z → kst W (list Z);
}.

Definition STDIN : Z := 0.
Definition STDOUT : Z := 1.
Definition STDERR : Z := 2.
Definition SYS_EXIT : Z := 1.
Definition SYS_WRITE : Z := 2.
Definition SYS_READ : Z := 3.
Definition SYS_EXECUTE : Z := 4.
Definition SYS_YIELD : Z := 5.
Definition SYS_WAIT_FOR_PROCESS : Z := 6.
Definition SYS_READ_DIR : Z := 7.
Definition SYS_CD : Z := 8.
Definition SYS_OPEN : Z := 9.
Definition SYS_CLOSE : Z := 10.
Definition SYS_TRUNCATE : Z := 11.
Definition SYS_CREATE : Z := 12.
Definition SYS_MKDIR : Z := 13.
Definition SYS_UNLINK : Z := 14.
Definition SYS_RMDIR : Z := 15.
Definition SYS_CLOCK_GETTIME : Z := 16.
Definition SYS_NANOSLEEP : Z := 17.

Definition CLOCK_REALTIME : Z := 0.
Definition CLOCK_MONOTONIC : Z := 1.
Definition NANOSECONDS_PER_MILLISECOND : Z := 1000000.

(** [i64] arithmetic that wraps. *)
Definition i64 (z : Z) : Z := as_i64 (wrap 64 z).

Definition zero_timespec : Timespec := {| tv_sec := 0; tv_nsec := 0 |}.
(** Division truncates. *)
Definition from_milliseconds (milliseconds : Z) : Timespec :=
  {| tv_sec := Z.quot milliseconds 1000; tv_nsec := i64 (Z.rem milliseconds 1000 * NANOSECONDS_PER_MILLISECOND) |}.

(** The 16 bytes of a [Timespec]. *)
Definition timespec_store (ts : Timespec) : list Z := le_bytes 8 (wrap 64 (tv_sec ts)) ++ le_bytes 8 (wrap 64 (tv_nsec ts)).
Definition timespec_load (bs : list Z) : Timespec :=
  {| tv_sec := as_i64 (le_value (take 8 bs)); tv_nsec := as_i64 (le_value (take 8 (drop 8 bs))) |}.

(** ** Directory entries *)

Definition DIR_ENTRY_NAME_CAPACITY : nat := 256.
Definition DIR_ENTRY_ATTR_DIRECTORY : Z := 0x10.

Record DirEntry := {
  de_name : list Z;
  de_attr : Z;
  de_size : Z;
}.

Definition empty_entry : DirEntry := {| de_name := repeat 0 DIR_ENTRY_NAME_CAPACITY; de_attr := 0; de_size := 0 |}.
Definition is_directory (e : DirEntry) : bool := negb (Z.land (de_attr e) DIR_ENTRY_ATTR_DIRECTORY =? 0).

(** [slice.iter().position(...)]. *)
Fixpoint position (p : Z → bool) (l : list Z) : option nat :=
  match l with
  | [] => None
  | x :: l => if p x then Some O else n ← position p l; Some (S n)
  end.

Definition name_bytes (e : DirEntry) : list Z :=
  take (default (length (de_name e)) (position (λ b, b =? 0) (de_name e))) (de_name e).

(** The layout of the record: the name, the attribute, three bytes of padding, the size. *)
Definition DIR_ENTRY_SIZE : nat := 264.
Definition entry_load (bs : list Z) : DirEntry :=
  {| de_name := take DIR_ENTRY_NAME_CAPACITY bs; de_attr := default 0 (bs !! 256%nat); de_size := le_value (take 4 (drop 260 bs)) |}.

(** ** Arguments *)

Record Args := {
  argc : Z;
  argv : Z;
  index : Z;
}.

Definition args_new (argc argv : Z) : Args := {| argc := argc; argv := argv; index := 0 |}.
Definition args_len (a : Args) : Z := argc a.
Definition args_is_empty (a : Args) : bool := argc a =? 0.

(** The bytes up to the zero; [fuel] bounds the search. *)
Fixpoint c_string (m : Z → Z) (p : Z) (fuel : nat) : kst unit (list Z) :=
  match fuel with
  | O => kfault Hang
  | S fuel => if m p =? 0 then kret [] else let* rest := c_string m (p + 1) fuel in kret (m p :: rest)
  end.

(** A word of memory. *)
Definition word_at (m : Z → Z) (a : Z) : Z := le_value (map (λ i, m (a + Z.of_nat i)) (seq 0 8)).

Definition args_get (m : Z → Z) (fuel : nat) (a : Args) (i : Z) : kst unit (option (list Z)) :=
  if argc a <=? i then kret None
  else
    let arg := word_at m (argv a + 8 * i) in
    if arg =? 0 then kret None
    else let* s := c_string m arg fuel in kret (Some s).

(** [Iterator::next]. *)
Definition args_next (m : Z → Z) (fuel : nat) (a : Args) : kst unit (option (list Z * Args)) :=
  let? arg := args_get m fuel a (index a) in
  kret (Some (arg, {| argc := argc a; argv := argv a; index := index a + 1 |})).

(** The arguments an iteration delivers; [n] bounds their number. *)
Fixpoint args_collect (m : Z → Z) (fuel : nat) (a : Args) (n : nat) : kst unit (list (list Z)) :=
  match n with
  | O => kfault Hang
  | S n =>
      let* r := args_next m fuel a in
      match r with
      | None => kret []
      | Some (arg, a) => let* rest := args_collect m fuel a n in kret (arg :: rest)
      end
  end.

(** ** System calls *)

Section Stubs.
Context {W : Type} `{Int80 W}.
Abbreviation um := (kst W).

Definition syscall0 (number : Z) : um Z := int80 number [].
Definition syscall1 (number a : Z) : um Z := int80 number [a].
Definition syscall2 (number a b : Z) : um Z := int80 number [a; b].
Definition syscall3 (number a b c : Z) : um Z := int80 number [a; b; c].
Definition syscall4 (number a b c d : Z) : um Z := int80 number [a; b; c; d].

Definition len (bytes : list Z) : Z := Z.of_nat (length bytes).
(** A stub of a pointer and a length. *)
Definition syscall_slice (number : Z) (bytes : list Z) : um Z :=
  let* p := lend bytes in syscall2 number p (len bytes).
Definition nonzero (m : um Z) : um bool := let* v := m in kret (negb (v =? 0)).

Definition write (fd : Z) (bytes : list Z) : um Z := let* p := lend bytes in syscall3 SYS_WRITE fd p (len bytes).
Definition write_file (fd : Z) (bytes : list Z) : um Z := write fd bytes.
Definition stdout (bytes : list Z) : um Z := write STDOUT bytes.
Definition stderr (bytes : list Z) : um Z := write STDERR bytes.
(** The result and what is in the buffer of [size] bytes afterwards. *)
Definition read (fd size : Z) : um (Z * list Z) :=
  let* p := lend_mut size in
  let* n := syscall3 SYS_READ fd p size in
  let* bs := take_back p size in
  kret (n, bs).
Definition read_stdin_char : um Z := let* v := syscall1 SYS_READ STDIN in kret (wrap 8 v).
Definition execute (path args : list Z) : um Z :=
  let* p := lend path in let* a := lend args in syscall4 SYS_EXECUTE p (len path) a (len args).
Definition yield_now : um unit := syscall0 SYS_YIELD ;;* kret tt.
Definition wait_for_process (pid : Z) : um unit := syscall1 SYS_WAIT_FOR_PROCESS pid ;;* kret tt.
Definition read_dir (n : Z) : um (Z * list DirEntry) :=
  let size := Z.of_nat DIR_ENTRY_SIZE * n in
  let* p := lend_mut size in
  let* count := syscall2 SYS_READ_DIR p n in
  let* bs := take_back p size in
  kret (count, map entry_load (chunks (Z.to_nat n) DIR_ENTRY_SIZE bs)).
Definition cd (path : list Z) : um bool := nonzero (syscall_slice SYS_CD path).
Definition open (path : list Z) : um Z := syscall_slice SYS_OPEN path.
Definition create (path : list Z) : um Z := syscall_slice SYS_CREATE path.
Definition mkdir (path : list Z) : um bool := nonzero (syscall_slice SYS_MKDIR path).
Definition unlink (path : list Z) : um bool := nonzero (syscall_slice SYS_UNLINK path).
Definition rmdir (path : list Z) : um bool := nonzero (syscall_slice SYS_RMDIR path).
Definition close (fd : Z) : um bool := nonzero (syscall1 SYS_CLOSE fd).
Definition truncate (fd size : Z) : um bool := nonzero (syscall2 SYS_TRUNCATE fd size).

Definition write_existing_file (path bytes : list Z) : um bool :=
  let* fd := open path in
  if fd =? 0 then kret false
  else
    let* bytes_written := write_file fd bytes in
    let* truncated := truncate fd bytes_written in
    close fd ;;*
    kret ((bytes_written =? len bytes) && truncated).

(** The answer and the [Timespec] behind the pointer. *)
Definition clock_gettime (clock_id : Z) : um (bool * Timespec) :=
  let* p := lend (timespec_store zero_timespec) in
  let* ok := nonzero (syscall2 SYS_CLOCK_GETTIME clock_id p) in
  let* bs := take_back p 16 in
  kret (ok, timespec_load bs).
Definition time : um Z := let* r := clock_gettime CLOCK_REALTIME in kret (if r.1 then tv_sec r.2 else 0).
Definition monotonic_ns : um Z :=
  let* r := clock_gettime CLOCK_MONOTONIC in
  kret (if r.1 then i64 (i64 (tv_sec r.2 * NANOSECONDS_PER_SECOND) + tv_nsec r.2) else 0).
Definition nanosleep (duration : Timespec) : um bool :=
  let* p := lend (timespec_store duration) in nonzero (syscall1 SYS_NANOSLEEP p).
Definition sleep_ms (milliseconds : Z) : um bool := nanosleep (from_milliseconds milliseconds).
Definition sleep (seconds : Z) : um bool := sleep_ms (i64 (seconds * 1000)).
(** The call that does not return. *)
Definition exit : um unit := syscall0 SYS_EXIT ;;* kret tt.
End Stubs.
