(* ===== verification/Edit.v ===== *)
(** * Edit: the text editor (src/userspace/edit/main.rs)

    The file buffer is a list of 4096 bytes, of which the first [len] are the text.
    Indexing checks its bounds; other arithmetic wraps (release profile). *)

From S2P Require Import Prelude Text Ulib.

Definition FILE_CAPACITY : Z := 4096.
Definition PATH_CAPACITY : Z := 256.
Definition VIEW_ROWS : Z := 16.

Definition newline : Z := 10.
Definition is_newline (b : Z) : bool := b =? newline.

Record Editor := {
  fd : Z;
  ed_len : Z;
  cursor : Z;
  first_visible_line : Z;
  preferred_column : option Z;
  escape_state : Z;
  dirty : bool;
  message : list Z;
}.

Record edit (W : Type) := {
  ed : Editor;
  buffer : list Z;
  os : W;
}.
Arguments ed {W} _.
Arguments buffer {W} _.
Arguments os {W} _.

(** Updates of one field. *)
Definition with_position (l c : Z) (pc : option Z) (d : bool) (e : Editor) : Editor :=
  {| fd := fd e; ed_len := l; cursor := c; first_visible_line := first_visible_line e; preferred_column := pc;
     escape_state := escape_state e; dirty := d; message := message e |}.
Definition with_escape (x : Z) (e : Editor) : Editor :=
  {| fd := fd e; ed_len := ed_len e; cursor := cursor e; first_visible_line := first_visible_line e;
     preferred_column := preferred_column e; escape_state := x; dirty := dirty e; message := message e |}.
Definition with_message (m : list Z) (d : bool) (e : Editor) : Editor :=
  {| fd := fd e; ed_len := ed_len e; cursor := cursor e; first_visible_line := first_visible_line e;
     preferred_column := preferred_column e; escape_state := escape_state e; dirty := d; message := m |}.
Definition with_first_line (n : Z) (e : Editor) : Editor :=
  {| fd := fd e; ed_len := ed_len e; cursor := cursor e; first_visible_line := n;
     preferred_column := preferred_column e; escape_state := escape_state e; dirty := dirty e; message := message e |}.

(** The messages: "Buffer full", "Could not truncate file", "Could not write file", "Written". *)
Definition buffer_full : list Z := [66; 117; 102; 102; 101; 114; 32; 102; 117; 108; 108].
Definition no_truncate : list Z := [67; 111; 117; 108; 100; 32; 110; 111; 116; 32; 116; 114; 117; 110; 99; 97; 116; 101; 32; 102; 105; 108; 101].
Definition no_write : list Z := [67; 111; 117; 108; 100; 32; 110; 111; 116; 32; 119; 114; 105; 116; 101; 32; 102; 105; 108; 101].
Definition written : list Z := [87; 114; 105; 116; 116; 101; 110].

Definition sub64 (a b : Z) : Z := wrap 64 (a - b).
Definition saturating_sub (a b : Z) : Z := Z.max 0 (a - b).

Section Edit.
Context {W : Type} `{Int80 W}.
Abbreviation em := (kst (edit W)).

Definition set_ed (e : Editor) (s : edit W) : edit W := {| ed := e; buffer := buffer s; os := os s |}.
Definition set_buffer (b : list Z) (s : edit W) : edit W := {| ed := ed s; buffer := b; os := os s |}.
Definition in_os {A} (m : kst W A) : em A := zoom os (λ w s, {| ed := ed s; buffer := buffer s; os := w |}) m.
Definition update (f : Editor → Editor) : em unit := kmodify (λ s, set_ed (f (ed s)) s).

(** [buffer[i]]. *)
Definition byte_at (i : Z) : em Z := let* b := kgets buffer in or_panic (lookupZ b i).
(** [&buffer[from..to]]. *)
Definition slice (from to : Z) : em (list Z) :=
  let* b := kgets buffer in
  if (to <? from) || (Z.of_nat (length b) <? to) then kfault Panic
  else kret (take (Z.to_nat (to - from)) (drop (Z.to_nat from) b)).
(** [buffer.copy_within(from..to, dest)]. *)
Definition copy_within (from to dest : Z) : em unit :=
  let* bs := slice from to in
  let* b := kgets buffer in
  if Z.of_nat (length b) - (to - from) <? dest then kfault Panic
  else kmodify (set_buffer (splice b (Z.to_nat dest) bs)).
Definition set_byte (i v : Z) : em unit :=
  let* b := kgets buffer in
  if (i <? 0) || (Z.of_nat (length b) <=? i) then kfault Panic else kmodify (set_buffer (insertZ i v b)).

(** ** Lines *)

(** [while index > 0 && buffer[index - 1] != '\n']. *)
Fixpoint line_start_from (n : nat) : em Z :=
  match n with
  | O => kret 0
  | S k => let* b := byte_at (Z.of_nat k) in if negb (is_newline b) then line_start_from k else kret (Z.of_nat n)
  end.
Definition line_start (i : Z) : em Z :=
  let* e := kgets ed in line_start_from (Z.to_nat (Z.min i (ed_len e))).

(** [while index < len && buffer[index] != '\n'], for [n = len - index]. *)
Fixpoint line_end_from (i : Z) (n : nat) : em Z :=
  match n with
  | O => kret i
  | S n => let* b := byte_at i in if negb (is_newline b) then line_end_from (i + 1) n else kret i
  end.
Definition line_end (i : Z) : em Z :=
  let* e := kgets ed in
  let i := Z.min i (ed_len e) in line_end_from i (Z.to_nat (ed_len e - i)).

Definition cursor_line : em Z :=
  let* e := kgets ed in
  let* bs := slice 0 (cursor e) in
  kret (Z.of_nat (length (List.filter is_newline bs))).

(** ** Editing *)

Definition insert_byte (byte : Z) : em unit :=
  let* s := kget in
  let e := ed s in
  if ed_len e =? Z.of_nat (length (buffer s)) then update (with_message buffer_full (dirty e))
  else
    copy_within (cursor e) (ed_len e) (cursor e + 1) ;;*
    set_byte (cursor e) byte ;;*
    update (with_position (ed_len e + 1) (cursor e + 1) None true).

Definition backspace : em unit :=
  let* e := kgets ed in
  if cursor e =? 0 then kret tt
  else
    let cursor := cursor e - 1 in
    copy_within (cursor + 1) (ed_len e) cursor ;;*
    update (with_position (sub64 (ed_len e) 1) cursor None true).

Definition set_cursor (c : Z) (pc : option Z) : em unit := update (λ e, with_position (ed_len e) c pc (dirty e) e).

Definition move_up : em unit :=
  let* e := kgets ed in
  let* start := line_start (cursor e) in
  if start =? 0 then kret tt
  else
    let column := default (sub64 (cursor e) start) (preferred_column e) in
    let previous_end := start - 1 in
    let* previous_start := line_start previous_end in
    set_cursor (Z.min (wrap 64 (previous_start + column)) previous_end) (Some column).

Definition move_down : em unit :=
  let* e := kgets ed in
  let* start := line_start (cursor e) in
  let column := default (sub64 (cursor e) start) (preferred_column e) in
  let* end_ := line_end (cursor e) in
  if end_ =? ed_len e then kret tt
  else
    let next_start := end_ + 1 in
    let* next_end := line_end next_start in
    set_cursor (Z.min (wrap 64 (next_start + column)) next_end) (Some column).

Definition handle_arrow_key (input : Z) : em unit :=
  let* e := kgets ed in
  if input =? 65 then move_up
  else if input =? 66 then move_down
  else if input =? 67 then set_cursor (if cursor e <? ed_len e then cursor e + 1 else cursor e) None
  else if input =? 68 then set_cursor (saturating_sub (cursor e) 1) None
  else kret tt.

Definition save : em unit :=
  let* e := kgets ed in
  let* truncated := in_os (truncate (fd e) 0) in
  if negb truncated then update (with_message no_truncate (dirty e))
  else
    let* text := slice 0 (ed_len e) in
    let* n := in_os (write_file (fd e) text) in
    if negb (n =? ed_len e) then update (with_message no_write (dirty e))
    else update (with_message written false).

(** [true]: leave the editor. *)
Definition handle_input (input : Z) : em bool :=
  let* e := kgets ed in
  if escape_state e =? 1 then
    if input =? 91 then update (with_escape 2) ;;* kret false
    else
      update (with_escape 0) ;;*
      if input =? 119 then save ;;* kret false
      else kret (input =? 113)
  else if escape_state e =? 2 then
    update (with_escape 0) ;;*
    handle_arrow_key input ;;*
    kret false
  else if input =? 27 then update (with_escape 1) ;;* kret false
  else
    (if (input =? 8) || (input =? 127) then backspace
     else if (input =? 13) || (input =? 10) then insert_byte newline
     else if negb (is_ascii_control input) || (input =? 9) then insert_byte input
     else kret tt) ;;*
    kret false.

(** ** The screen *)

Definition say (bs : list Z) : em unit := in_os (stdout bs) ;;* kret tt.

(** The digits of a number, the last one first; twenty are enough for [usize]. *)
Fixpoint digits_of (fuel : nat) (number : Z) : list Z :=
  match fuel with
  | O => []
  | S fuel => 48 + number mod 10 :: if number / 10 =? 0 then [] else digits_of fuel (number / 10)
  end.
Fixpoint say_each (l : list Z) : em unit :=
  match l with [] => kret tt | d :: l => say [d] ;;* say_each l end.
Definition write_number (number : Z) : em unit := say_each (rev (digits_of 20 number)).

Definition move_terminal_cursor (row column : Z) : em unit :=
  say [27; 91] ;;* write_number row ;;* say [59] ;;* write_number column ;;* say [72].

Definition keep_cursor_visible : em unit :=
  let* e := kgets ed in
  let* cursor_line := cursor_line in
  if cursor_line <? first_visible_line e then update (with_first_line cursor_line)
  else if first_visible_line e + VIEW_ROWS <=? cursor_line then update (with_first_line (cursor_line - VIEW_ROWS + 1))
  else kret tt.

(** The loop that finds the first line on the screen. *)
Fixpoint skip_lines (n : nat) (i : Z) : em Z :=
  match n with
  | O => kret i
  | S n =>
      let* e := kgets ed in
      if i <? ed_len e then
        let* i := line_end i in skip_lines n (if i <? ed_len e then i + 1 else i)
      else kret i
  end.

(** The rows: text, or a tilde behind the end. *)
Fixpoint render_rows (n : nat) (i : Z) : em unit :=
  match n with
  | O => kret tt
  | S n =>
      let* e := kgets ed in
      if i <? ed_len e then
        let* end_ := line_end i in
        let* row := slice i end_ in
        say [32; 32] ;;* say row ;;* say [27; 91; 75; 10] ;;*
        render_rows n (if end_ <? ed_len e then end_ + 1 else ed_len e)
      else say [126; 27; 91; 75; 10] ;;* render_rows n i
  end.

Definition header_text : list Z := [27; 91; 50; 74; 27; 91; 72; 27; 91; 55; 109; 32; 101; 100; 105; 116; 32].
Definition reset_text : list Z := [32; 27; 91; 48; 109; 27; 91; 75].

(** Where the cursor is on the screen. *)
Definition terminal_position : em (Z * Z) :=
  let* e := kgets ed in
  let* cursor_line := cursor_line in
  let* start := line_start (cursor e) in
  let cursor_column := sub64 (cursor e) start in
  kret (2 + saturating_sub cursor_line (first_visible_line e), Z.min (cursor_column + 3) 80).

Definition render (path : list Z) : em unit :=
  keep_cursor_visible ;;*
  say header_text ;;* say path ;;* say (reset_text ++ [10]) ;;*
  let* e := kgets ed in
  let* i := skip_lines (Z.to_nat (first_visible_line e)) 0 in
  render_rows (Z.to_nat VIEW_ROWS) i ;;*
  say [27; 91; 55; 109; 32] ;;*
  (if dirty e then say [109; 111; 100; 105; 102; 105; 101; 100; 32] else kret tt) ;;*
  say (message e) ;;* say reset_text ;;*
  let* p := terminal_position in
  move_terminal_cursor p.1 p.2.

(** ** The program *)

Definition open_or_create (path : list Z) : kst W (option Z) :=
  let* fd := open path in
  if negb (fd =? 0) then kret (Some fd)
  else let* fd := create path in kret (if negb (fd =? 0) then Some fd else None).

(** [loop]: a line of input; [fuel] bounds the keys. *)
Definition read_line (fuel : nat) (capacity : Z) : kst W (list Z) :=
  loopM fuel (λ line,
    let* input := read_stdin_char in
    if (input =? 13) || (input =? 10) then kret (inr line)
    else if (input =? 8) || (input =? 127) then
      match line with
      | [] => kret (inl line)
      | _ => stdout [8; 32; 8] ;;* kret (inl (removelast line))
      end
    else if is_ascii_control input || (Z.of_nat (length line) =? capacity) then kret (inl line)
    else stdout [input] ;;* kret (inl (line ++ [input]))) [].

(** The session: draw, read a key, act on it. *)
Definition session (fuel : nat) (path : list Z) : em unit :=
  loopM fuel (λ _,
    render path ;;*
    let* key := in_os read_stdin_char in
    let* quit := handle_input key in
    kret (if (quit : bool) then inr tt else inl tt)) tt.

Definition initial_editor (fd len : Z) (hint : list Z) : Editor :=
  {| fd := fd; ed_len := len; cursor := 0; first_visible_line := 0; preferred_column := None; escape_state := 0; dirty := false; message := hint |}.

(** The file that is edited, once its path is known; the texts are the messages. *)
Definition edit_file (fuel : nat) (path hint no_file too_large : list Z) : kst W unit :=
  let* opened := open_or_create path in
  match opened with
  | None => stdout no_file ;;* exit
  | Some fd =>
      let* r := read fd FILE_CAPACITY in
      let len := r.1 in
      let* extra := if len =? FILE_CAPACITY then read fd 1 else kret (0, []) in
      if negb (extra.1 =? 0) then close fd ;;* stdout too_large ;;* exit
      else
        (λ w,
          match session fuel path {| ed := initial_editor fd len hint; buffer := r.2; os := w |} with
          | Done (_, s) => Done (tt, os s)
          | Fault f => Fault f
          end) ;;*
        close fd ;;* stdout [27; 91; 50; 74; 27; 91; 72] ;;* exit
  end.

Definition rust_main (fuel : nat) (args : option (list Z)) (prompt none_selected hint no_file too_large : list Z) : kst W unit :=
  match args with
  | Some path => edit_file fuel path hint no_file too_large
  | None =>
      stdout prompt ;;*
      let* path := read_line fuel PATH_CAPACITY in
      match path with
      | [] => stdout none_selected ;;* exit
      | _ => edit_file fuel path hint no_file too_large
      end
  end.
End Edit.
