(* ===== verification/EditSpec.v ===== *)
(** * EditSpec: what the editor does to a text

    A text with a cursor is the bytes before it and the bytes behind it; [step] is the
    meaning of a key on it, in terms of lines.  The editor's buffer and indices
    implement it ([editor_refines]). *)

From S2P Require Import Prelude Text Ulib Edit.

(** ** The abstract editor *)

(** The part of [l] up to its last newline, and the line behind it. *)
Fixpoint split_last_line (l : list Z) : list Z * list Z :=
  match l with
  | [] => ([], [])
  | x :: l =>
      match split_last_line l with
      | ([], q) => if is_newline x then ([x], q) else ([], x :: q)
      | (p, q) => (x :: p, q)
      end
  end.
(** The line at the front of [l], and the rest from its newline on. *)
Fixpoint split_first_line (l : list Z) : list Z * list Z :=
  match l with
  | [] => ([], [])
  | x :: l => if is_newline x then ([], x :: l) else let '(f, r) := split_first_line l in (x :: f, r)
  end.

Record text := {
  left : list Z;
  right : list Z;
  column : option nat;
  escape : Z;
  modified : bool;
}.

Definition contents (t : text) : list Z := left t ++ right t.
Definition place (l r : list Z) (c : option nat) (m : bool) (t : text) : text :=
  {| left := l; right := r; column := c; escape := escape t; modified := m |}.
Definition escaped (x : Z) (t : text) : text :=
  {| left := left t; right := right t; column := column t; escape := x; modified := modified t |}.

Definition t_insert (b : Z) (t : text) : text :=
  if Z.of_nat (length (contents t)) =? FILE_CAPACITY then t else place (left t ++ [b]) (right t) None true t.
Definition t_backspace (t : text) : text :=
  match left t with [] => t | _ => place (removelast (left t)) (right t) None true t end.
Definition t_right (t : text) : text :=
  match right t with
  | [] => place (left t) (right t) None (modified t) t
  | x :: r => place (left t ++ [x]) r None (modified t) t
  end.
Definition t_left (t : text) : text :=
  match last (left t) with
  | None => place (left t) (right t) None (modified t) t
  | Some x => place (removelast (left t)) (x :: right t) None (modified t) t
  end.
(** To the line above, at the same column or its end; the column is remembered. *)
Definition t_up (t : text) : text :=
  let '(p, q) := split_last_line (left t) in
  match p with
  | [] => t
  | _ =>
      let c := default (length q) (column t) in
      let '(p1, q1) := split_last_line (removelast p) in
      place (p1 ++ take c q1) (drop c q1 ++ newline :: q ++ right t) (Some c) (modified t) t
  end.
Definition t_down (t : text) : text :=
  let '(_, q) := split_last_line (left t) in
  let c := default (length q) (column t) in
  match split_first_line (right t) with
  | (f, _ :: r) =>
      let '(f1, r1) := split_first_line r in
      place (left t ++ f ++ newline :: take c f1) (drop c f1 ++ r1) (Some c) (modified t) t
  | _ => t
  end.

Inductive action := Edited | Save | Quit.
#[global] Instance action_eq_dec : EqDecision action.
Proof. solve_decision. Defined.

Definition arrow (key : Z) (t : text) : text :=
  if key =? 65 then t_up t else if key =? 66 then t_down t else if key =? 67 then t_right t else if key =? 68 then t_left t else t.

Definition step (key : Z) (t : text) : text * action :=
  if escape t =? 1 then
    if key =? 91 then (escaped 2 t, Edited)
    else (escaped 0 t, if key =? 119 then Save else if key =? 113 then Quit else Edited)
  else if escape t =? 2 then (arrow key (escaped 0 t), Edited)
  else if key =? 27 then (escaped 1 t, Edited)
  else if (key =? 8) || (key =? 127) then (t_backspace t, Edited)
  else if (key =? 13) || (key =? 10) then (t_insert newline t, Edited)
  else if negb (is_ascii_control key) || (key =? 9) then (t_insert key t, Edited)
  else (t, Edited).

(** Truncate the file, then write all of the text; [true] if both went well. *)
Definition save_text {W} `{Int80 W} (fd : Z) (bs : list Z) : kst W bool :=
  let* truncated := truncate fd 0 in
  if truncated then let* n := write_file fd bs in kret (n =? Z.of_nat (length bs)) else kret false.

(** ** Lines of lists *)

Definition no_newline (l : list Z) : Prop := Forall (λ x, is_newline x = false) l.

Lemma split_last_line_app l : (split_last_line l).1 ++ (split_last_line l).2 = l.
Proof.
  induction l as [|x l IH]; [done|]. cbn. destruct (split_last_line l) as [[|y p] q]; cbn in *; [destruct (is_newline x); cbn; by subst | by rewrite <- IH].
Qed.
Lemma split_last_line_spec l : no_newline (split_last_line l).2 ∧
  ((split_last_line l).1 = [] ∨ ∃ p, (split_last_line l).1 = p ++ [newline]).
Proof.
  induction l as [|x l [IH1 IH2]]; [split; [constructor|by left]|]. cbn.
  destruct (split_last_line l) as [[|y p] q]; cbn in *.
  - destruct (is_newline x) eqn:E; cbn.
    + split; [done|]. right. exists []. unfold is_newline in E. apply Z.eqb_eq in E. by subst.
    + split; [by constructor | by left].
  - split; [done|]. right. destruct IH2 as [|[p' Hp]]; [done|]. exists (x :: p'). by rewrite Hp.
Qed.
Lemma split_last_line_unique p q : no_newline q → (p = [] ∨ ∃ p', p = p' ++ [newline]) → split_last_line (p ++ q) = (p, q).
Proof.
  intros Hq. induction p as [|x p IH]; intros Hp.
  - clear Hp. induction Hq as [|x q Hx Hq IH]; [done|]. cbn in *. rewrite IH. by rewrite Hx.
  - cbn. destruct p as [|y p].
    + destruct Hp as [|[p' Hp]]; [done|]. assert (x = newline) as ->.
      { destruct p' as [|a [|b p']]; cbn in Hp; by injection Hp. }
      rewrite IH by by left. done.
    + rewrite IH; [done|]. right. destruct Hp as [|[[|a p'] Hp]]; [done|done|]. injection Hp as -> Hp. by exists p'.
Qed.

Lemma split_first_line_app l : (split_first_line l).1 ++ (split_first_line l).2 = l.
Proof. induction l as [|x l IH]; [done|]. cbn. destruct (is_newline x); [done|]. destruct (split_first_line l) as [f r]. cbn in *. by rewrite IH. Qed.
Lemma split_first_line_spec l : no_newline (split_first_line l).1 ∧ ((split_first_line l).2 = [] ∨ ∃ r, (split_first_line l).2 = newline :: r).
Proof.
  induction l as [|x l [IH1 IH2]]; [split; [constructor|by left]|]. cbn. destruct (is_newline x) eqn:E.
  - split; [constructor|]. right. unfold is_newline in E. apply Z.eqb_eq in E. subst. by exists l.
  - destruct (split_first_line l) as [f r]. cbn in *. split; [by constructor | done].
Qed.

Lemma split_last_line_snoc l x : split_last_line (l ++ [x]) =
  if is_newline x then (l ++ [x], []) else ((split_last_line l).1, (split_last_line l).2 ++ [x]).
Proof.
  destruct (is_newline x) eqn:E.
  - rewrite <- (app_nil_r (l ++ [x])) at 1. apply split_last_line_unique; [constructor|]. right. exists l. unfold is_newline in E. apply Z.eqb_eq in E. by subst.
  - destruct (split_last_line_spec l) as [H1 H2]. rewrite <- (split_last_line_app l) at 1. rewrite <- app_assoc.
    apply split_last_line_unique; [|done]. apply Forall_app. split; [done|]. by constructor.
Qed.

(** ** The representation *)

Section Refinement.
Context {W : Type} `{Int80 W}.
Implicit Types s : edit W.

(** The buffer holds the text and then unused bytes; the cursor is behind [left]. *)
Record rep s (t : text) : Prop := {
  rp_buffer : ∃ rest, buffer s = left t ++ right t ++ rest;
  rp_capacity : Z.of_nat (length (buffer s)) = FILE_CAPACITY;
  rp_cursor : cursor (ed s) = Z.of_nat (length (left t));
  rp_len : ed_len (ed s) = Z.of_nat (length (left t) + length (right t));
  rp_column : preferred_column (ed s) = Z.of_nat <$> column t;
  rp_column_max : ∀ c, column t = Some c → Z.of_nat c ≤ FILE_CAPACITY;
  rp_escape : escape_state (ed s) = escape t;
  rp_dirty : dirty (ed s) = modified t;
}.

Lemma rep_room s t : rep s t → Z.of_nat (length (left t) + length (right t)) ≤ FILE_CAPACITY.
Proof. intros [[rest Hb] Hc _ _ _ _ _ _]. rewrite Hb, !length_app in Hc. lia. Qed.

Lemma byte_at_ok s (i : nat) x : buffer s !! i = Some x → byte_at (Z.of_nat i) s = Done (x, s).
Proof. intros Hi. unfold byte_at, kbind, kgets. by rewrite lookupZ_nat, Hi. Qed.

Lemma slice_ok s (a b : nat) : (a ≤ b ≤ length (buffer s))%nat → slice (Z.of_nat a) (Z.of_nat b) s = Done (take (b - a) (drop a (buffer s)), s).
Proof.
  intros Hab. unfold slice, kbind, kgets. destruct (Z.ltb_spec (Z.of_nat b) (Z.of_nat a)); [lia|].
  destruct (Z.ltb_spec (Z.of_nat (length (buffer s))) (Z.of_nat b)); [lia|]. cbn. rewrite Nat2Z.id. by replace (Z.to_nat (Z.of_nat b - Z.of_nat a)) with (b - a)%nat by lia.
Qed.

Lemma copy_within_ok s (a b d : nat) : (a ≤ b ≤ length (buffer s))%nat → (d + (b - a) ≤ length (buffer s))%nat →
  copy_within (Z.of_nat a) (Z.of_nat b) (Z.of_nat d) s = Done (tt, set_buffer (splice (buffer s) d (take (b - a) (drop a (buffer s)))) s).
Proof.
  intros Hab Hd. unfold copy_within. rewrite (kbind_done _ _ _ _ _ (slice_ok s a b Hab)). unfold kbind, kgets, kmodify.
  destruct (Z.ltb_spec (Z.of_nat (length (buffer s)) - (Z.of_nat b - Z.of_nat a)) (Z.of_nat d)); [lia|]. by rewrite Nat2Z.id.
Qed.

Lemma set_byte_ok s (i : nat) v : (i < length (buffer s))%nat → set_byte (Z.of_nat i) v s = Done (tt, set_buffer (<[i := v]> (buffer s)) s).
Proof.
  intros Hi. unfold set_byte, kbind, kgets, kmodify, insertZ. destruct (Z.ltb_spec (Z.of_nat i) 0); [lia|].
  destruct (Z.leb_spec (Z.of_nat (length (buffer s))) (Z.of_nat i)); [lia|]. cbn. by rewrite Nat2Z.id.
Qed.

(** The two scans. *)
Lemma line_start_from_ok s n : (n ≤ length (buffer s))%nat →
  line_start_from n s = Done (Z.of_nat (length (split_last_line (take n (buffer s))).1), s).
Proof.
  induction n as [|n IH]; intros Hn; [done|]. destruct (lookup_lt_is_Some_2 (buffer s) n ltac:(lia)) as [x Hx].
  cbn [line_start_from]. rewrite (kbind_done _ _ _ _ _ (byte_at_ok s n x Hx)). rewrite (take_S_r _ _ _ Hx), split_last_line_snoc.
  destruct (is_newline x); cbn [negb fst].
  - unfold kret. rewrite length_app, length_take. cbn [length]. do 3 f_equal. lia.
  - apply IH. lia.
Qed.

Lemma line_end_from_ok s (i n : nat) : (i + n ≤ length (buffer s))%nat →
  line_end_from (Z.of_nat i) n s = Done (Z.of_nat (i + length (split_first_line (take n (drop i (buffer s)))).1), s).
Proof.
  revert i. induction n as [|n IH]; intros i Hn.
  { cbn. rewrite take_0. cbn. by rewrite Nat.add_0_r. }
  destruct (lookup_lt_is_Some_2 (buffer s) i ltac:(lia)) as [x Hx].
  cbn [line_end_from]. rewrite (kbind_done _ _ _ _ _ (byte_at_ok s i x Hx)). rewrite (drop_S _ _ _ Hx). cbn [take split_first_line].
  destruct (is_newline x); cbn [negb fst length].
  - by rewrite Nat.add_0_r.
  - replace (Z.of_nat i + 1) with (Z.of_nat (S i)) by lia. rewrite IH by lia.
    destruct (split_first_line (take n (drop (S i) (buffer s)))) as [f r]. cbn [fst length]. do 3 f_equal. lia.
Qed.

Lemma take_left s t : rep s t → take (length (left t)) (buffer s) = left t.
Proof. intros [[rest ->] _ _ _ _ _ _ _]. by rewrite take_app_length. Qed.
Lemma take_right s t : rep s t → take (length (right t)) (drop (length (left t)) (buffer s)) = right t.
Proof. intros [[rest ->] _ _ _ _ _ _ _]. rewrite drop_app_length. by rewrite take_app_length. Qed.
Lemma take_text s t n : rep s t → (n ≤ length (contents t))%nat → take n (buffer s) = take n (contents t).
Proof. intros [[rest ->] _ _ _ _ _ _ _] Hn. rewrite app_assoc. by apply take_app_le. Qed.

(** Editor functions on the text. *)
Lemma line_start_ok s t (i : nat) : rep s t → (i ≤ length (contents t))%nat →
  line_start (Z.of_nat i) s = Done (Z.of_nat (length (split_last_line (take i (contents t))).1), s).
Proof.
  intros Hr Hi. unfold contents in Hi. rewrite length_app in Hi. pose proof (rep_room s t Hr) as Hroom. unfold line_start, kgets. unfold kbind at 1.
  rewrite (rp_len s t Hr), Z.min_l, Nat2Z.id by lia. pose proof (rp_capacity s t Hr).
  rewrite line_start_from_ok by lia. by rewrite (take_text s t) by (done || (unfold contents; rewrite length_app; lia)).
Qed.

Lemma line_end_ok s t (i : nat) : rep s t → (i ≤ length (contents t))%nat →
  line_end (Z.of_nat i) s = Done (Z.of_nat (i + length (split_first_line (drop i (contents t))).1), s).
Proof.
  intros Hr Hi. pose proof (rep_room s t Hr) as Hroom. pose proof Hi as Hi'. unfold contents in Hi'. rewrite length_app in Hi'. unfold line_end, kgets. unfold kbind at 1.
  rewrite (rp_len s t Hr), Z.min_l by lia. pose proof (rp_capacity s t Hr).
  replace (Z.to_nat (Z.of_nat (length (left t) + length (right t)) - Z.of_nat i)) with (length (contents t) - i)%nat by (unfold contents; rewrite length_app; lia).
  rewrite line_end_from_ok by (unfold contents; rewrite length_app; lia).
  rewrite take_drop_commute. replace (i + (length (contents t) - i))%nat with (length (contents t)) by lia.
  by rewrite (take_text s t), take_ge by (done || lia).
Qed.

(** An operation that only edits: it implements [t'] and leaves the system alone. *)
Definition edits (m : kst (edit W) unit) s (t' : text) : Prop :=
  ∃ s', m s = Done (tt, s') ∧ rep s' t' ∧ os s' = os s ∧ fd (ed s') = fd (ed s).

Lemma edits_nothing m s t : m s = Done (tt, s) → rep s t → edits m s t.
Proof. intros Hm Hr. by exists s. Qed.

Lemma insert_ok s t b : rep s t → edits (insert_byte b) s (t_insert b t).
Proof.
  intros Hr. pose proof (rep_room s t Hr) as Hroom. pose proof Hr as [[rest Hb] Hc Hcur Hlen Hcol Hmax He Hd].
  unfold edits, insert_byte, t_insert, contents. rewrite (kbind_done kget _ s s s) by done. rewrite length_app.
  rewrite Hlen, Hc. destruct (Z.eqb_spec (Z.of_nat (length (left t) + length (right t))) FILE_CAPACITY).
  { eexists. split; [done|]. split; [|done]. split; cbn; try done. by exists rest. }
  rewrite Hcur. replace (Z.of_nat (length (left t)) + 1) with (Z.of_nat (S (length (left t)))) by lia.
  rewrite (kbind_done _ _ _ _ _ (copy_within_ok s (length (left t)) (length (left t) + length (right t)) (S (length (left t))) ltac:(lia) ltac:(lia))).
  replace (length (left t) + length (right t) - length (left t))%nat with (length (right t)) by lia. rewrite (take_right s t Hr).
  set (s1 := set_buffer (splice (buffer s) (S (length (left t))) (right t)) s).
  rewrite (kbind_done _ _ _ _ _ (set_byte_ok s1 (length (left t)) b ltac:(cbn; rewrite length_splice; lia))).
  eexists. split; [done|]. split; [|done]. cbn [set_buffer buffer].
  assert (Hz : ∃ z rest', right t ++ rest = z :: rest' ∧ drop (length (right t)) (z :: rest') = rest ∧ rest ≠ []).
  { rewrite Hb, !length_app in Hc. destruct (right t ++ rest) as [|z r'] eqn:E; [apply (f_equal length) in E; rewrite length_app in E; cbn in E; lia|].
    exists z, r'. split; [done|]. split; [rewrite <- E; apply drop_app_length|]. intros ->. cbn in Hc. lia. }
  destruct Hz as (z & rest' & Ez & Edrop & Hne).
  assert (Enew : <[length (left t) := b]> (splice (buffer s) (S (length (left t))) (right t)) = (left t ++ [b]) ++ right t ++ drop 1 rest).
  { unfold splice. rewrite Hb, Ez. rewrite (take_app_ge (left t)), Nat.sub_succ_l, Nat.sub_diag by lia. cbn [take].
    rewrite take_0. rewrite <- !app_assoc, insert_app_r_alt, Nat.sub_diag by lia. cbn [app list_insert]. f_equal. f_equal. f_equal.
    rewrite drop_app_ge by lia. replace (S (length (left t)) + length (right t) - length (left t))%nat with (length (right t) + 1)%nat by lia.
    by rewrite <- drop_drop, Edrop. }
  split; cbn; try done.
  - exists (drop 1 rest). exact Enew.
  - rewrite length_insert, length_splice by lia. done.
  - rewrite length_app. cbn. lia.
  - rewrite length_app. cbn. lia.
Qed.

Lemma last_left s t : left t ≠ [] → ∃ l x, left t = l ++ [x].
Proof. intros Hl. destruct (left t) as [|x l _] using rev_ind; [done|]. by exists l, x. Qed.

Lemma sub64_ok a b : 0 ≤ b ≤ a → a < 2 ^ 64 → sub64 a b = a - b.
Proof. intros Hab Ha. apply wrap_id. lia. Qed.

Lemma backspace_ok s t : rep s t → edits backspace s (t_backspace t).
Proof.
  intros Hr. pose proof (rep_room s t Hr) as Hroom. pose proof Hr as [[rest Hb] Hc Hcur Hlen Hcol Hmax He Hd].
  unfold edits, backspace, t_backspace. rewrite (kbind_done (kgets ed) _ s (ed s) s) by done. rewrite Hcur.
  destruct (decide (left t = [])) as [El|Hne].
  { rewrite El. by exists s. }
  destruct (last_left s t Hne) as (l & x & El). rewrite El in *. rewrite length_app in *. cbn [length] in *.
  destruct (Z.eqb_spec (Z.of_nat (length l + 1)) 0); [lia|].
  replace (Z.of_nat (length l + 1) - 1 + 1) with (Z.of_nat (length l + 1)) by lia.
  replace (Z.of_nat (length l + 1) - 1) with (Z.of_nat (length l)) by lia. rewrite Hlen.
  rewrite (kbind_done _ _ _ _ _ (copy_within_ok s (length l + 1) (length l + 1 + length (right t)) (length l) ltac:(lia) ltac:(lia))).
  replace (length l + 1 + length (right t) - (length l + 1))%nat with (length (right t)) by lia.
  pose proof (take_right s t Hr) as Htr. rewrite El, length_app in Htr. cbn [length] in Htr. rewrite Htr.
  assert (Enew : splice (buffer s) (length l) (right t) = l ++ right t ++ drop (length (right t)) (x :: right t ++ rest)).
  { unfold splice. rewrite Hb, <- !app_assoc. rewrite take_app_length. f_equal. f_equal.
    rewrite drop_app_ge by lia. f_equal. lia. }
  eexists. split; [done|]. split; [|done].
  destruct (l ++ [x]) as [|y l'] eqn:Elx; [by destruct l|]. rewrite <- Elx, removelast_last.
  split; cbn; try done.
  - by eexists.
  - rewrite length_splice by lia. done.
  - rewrite sub64_ok; unfold FILE_CAPACITY in *; lia.
Qed.

Lemma set_cursor_ok s t l r c : rep s t → l ++ r = contents t → (∀ x, c = Some x → Z.of_nat x ≤ FILE_CAPACITY) →
  edits (set_cursor (Z.of_nat (length l)) (Z.of_nat <$> c)) s (place l r c (modified t) t).
Proof.
  intros [[rest Hb] Hc Hcur Hlen Hcol Hmax He Hd] Hlr Hcm. eexists. split; [done|]. split; [|done].
  assert (Hl : (length l + length r = length (left t) + length (right t))%nat) by (rewrite <- !length_app; by rewrite Hlr).
  split; cbn; try done.
  - exists rest. rewrite app_assoc, Hlr. unfold contents. by rewrite <- app_assoc.
  - rewrite Hlen. lia.
Qed.

Lemma right_ok s t : rep s t → edits (set_cursor (if cursor (ed s) <? ed_len (ed s) then cursor (ed s) + 1 else cursor (ed s)) None) s (t_right t).
Proof.
  intros Hr. pose proof Hr as [_ _ Hcur Hlen _ _ _ _]. rewrite Hcur, Hlen. unfold t_right.
  destruct (right t) as [|x r] eqn:Er; cbn [length].
  - destruct (Z.ltb_spec (Z.of_nat (length (left t))) (Z.of_nat (length (left t) + 0))); [lia|].
    apply (set_cursor_ok s t (left t) [] None); [done | unfold contents; by rewrite Er | done].
  - destruct (Z.ltb_spec (Z.of_nat (length (left t))) (Z.of_nat (length (left t) + S (length r)))); [|lia].
    replace (Z.of_nat (length (left t)) + 1) with (Z.of_nat (length (left t ++ [x]))) by (rewrite length_app; cbn; lia).
    apply (set_cursor_ok s t _ _ None); [done | unfold contents; by rewrite Er, <- app_assoc | done].
Qed.

Lemma left_ok s t : rep s t → edits (set_cursor (saturating_sub (cursor (ed s)) 1) None) s (t_left t).
Proof.
  intros Hr. pose proof Hr as [_ _ Hcur _ _ _ _ _]. rewrite Hcur. unfold t_left, saturating_sub.
  destruct (decide (left t = [])) as [El|Hne].
  - rewrite El. cbn. apply (set_cursor_ok s t [] (right t) None); [done | unfold contents; by rewrite El | done].
  - destruct (last_left s t Hne) as (l & x & El). rewrite El, last_snoc, removelast_last, length_app. cbn [length].
    replace (Z.max 0 (Z.of_nat (length l + 1) - 1)) with (Z.of_nat (length l)) by lia.
    apply (set_cursor_ok s t _ _ None); [done | unfold contents; by rewrite El, <- app_assoc | done].
Qed.

Lemma take_contents t : take (length (left t)) (contents t) = left t.
Proof. apply take_app_length. Qed.
Lemma drop_contents t : drop (length (left t)) (contents t) = right t.
Proof. apply drop_app_length. Qed.

Lemma column_ok s t start : rep s t → 0 ≤ start ≤ Z.of_nat (length (left t)) →
  default (sub64 (cursor (ed s)) start) (preferred_column (ed s)) = Z.of_nat (default (length (left t) - Z.to_nat start)%nat (column t))
  ∧ Z.of_nat (default (length (left t) - Z.to_nat start)%nat (column t)) ≤ FILE_CAPACITY.
Proof.
  intros Hr Hs. pose proof (rep_room s t Hr). pose proof Hr as [_ _ Hcur _ Hcol Hmax _ _]. rewrite Hcol, Hcur.
  destruct (column t) as [c|]; cbn; [by auto|]. rewrite sub64_ok; unfold FILE_CAPACITY in *; lia.
Qed.

(** Where the cursor lands on a line [f] at column [c]. *)
Lemma column_place (l f : list Z) (c : nat) :
  Z.of_nat (length l) ≤ FILE_CAPACITY → Z.of_nat c ≤ FILE_CAPACITY →
  Z.min (wrap 64 (Z.of_nat (length l) + Z.of_nat c)) (Z.of_nat (length l) + Z.of_nat (length f)) = Z.of_nat (length (l ++ take c f)).
Proof. intros Hl Hc. rewrite wrap_id, length_app, length_take by (unfold FILE_CAPACITY in *; lia). lia. Qed.

Lemma up_ok s t : rep s t → edits move_up s (t_up t).
Proof.
  intros Hr. pose proof (rep_room s t Hr) as Hroom. unfold edits, move_up, t_up.
  rewrite (kbind_done (kgets ed) _ s (ed s) s) by done. rewrite (rp_cursor s t Hr).
  rewrite (kbind_done _ _ _ _ _ (line_start_ok s t (length (left t)) Hr ltac:(unfold contents; rewrite length_app; lia))).
  rewrite take_contents.
  pose proof (split_last_line_app (left t)) as Ha. destruct (split_last_line_spec (left t)) as [Hn Hp].
  destruct (split_last_line (left t)) as [p q]. cbn [fst snd] in *.
  destruct (decide (p = [])) as [->|Hne]; [by apply (edits_nothing (kret tt) s t)|].
  destruct Hp as [|[p' ->]]; [done|]. rewrite length_app in *. cbn [length] in *.
  destruct (Z.eqb_spec (Z.of_nat (length p' + 1)) 0); [lia|].
  assert (Hlen : length (left t) = (length p' + 1 + length q)%nat) by (rewrite <- Ha, !length_app; cbn; lia).
  destruct (column_ok s t (Z.of_nat (length p' + 1)) Hr ltac:(lia)) as [Ec Hc]. rewrite (rp_cursor s t Hr) in Ec. rewrite Ec.
  replace (length (left t) - Z.to_nat (Z.of_nat (length p' + 1)))%nat with (length q) in * by lia.
  set (c := default (length q) (column t)) in *.
  replace (Z.of_nat (length p' + 1) - 1) with (Z.of_nat (length p')) by lia.
  rewrite (kbind_done _ _ _ _ _ (line_start_ok s t (length p') Hr ltac:(unfold contents; rewrite length_app; lia))).
  destruct (p' ++ [newline]) as [|y l'] eqn:E; [by destruct p'|]. rewrite <- E in *. clear E y l'. rewrite removelast_last.
  assert (Et : take (length p') (contents t) = p') by (unfold contents; rewrite <- Ha, <- !app_assoc; apply take_app_length). rewrite Et.
  pose proof (split_last_line_app p') as Ha1. destruct (split_last_line p') as [p1 q1]. cbn [fst snd] in *.
  assert (Hl1 : length p' = (length p1 + length q1)%nat) by (rewrite <- Ha1; apply length_app).
  rewrite Hl1, Nat2Z.inj_add. rewrite column_place by (done || lia).
  apply (set_cursor_ok s t _ _ (Some c)); [done| |by intros x [= <-]].
  unfold contents. rewrite <- Ha, <- Ha1, <- !app_assoc. f_equal. rewrite (app_assoc (take c q1)), take_drop. done.
Qed.

Lemma down_ok s t : rep s t → edits move_down s (t_down t).
Proof.
  intros Hr. pose proof (rep_room s t Hr) as Hroom. unfold edits, move_down, t_down.
  rewrite (kbind_done (kgets ed) _ s (ed s) s) by done. rewrite (rp_cursor s t Hr).
  rewrite (kbind_done _ _ _ _ _ (line_start_ok s t (length (left t)) Hr ltac:(unfold contents; rewrite length_app; lia))).
  rewrite take_contents.
  pose proof (split_last_line_app (left t)) as Ha. destruct (split_last_line (left t)) as [p q]. cbn [fst snd] in *.
  assert (Hlen : length (left t) = (length p + length q)%nat) by (rewrite <- Ha; apply length_app).
  destruct (column_ok s t (Z.of_nat (length p)) Hr ltac:(lia)) as [Ec Hc]. rewrite (rp_cursor s t Hr) in Ec. rewrite Ec.
  replace (length (left t) - Z.to_nat (Z.of_nat (length p)))%nat with (length q) in * by lia.
  set (c := default (length q) (column t)) in *.
  rewrite (kbind_done _ _ _ _ _ (line_end_ok s t (length (left t)) Hr ltac:(unfold contents; rewrite length_app; lia))).
  rewrite drop_contents. rewrite (rp_len s t Hr).
  pose proof (split_first_line_app (right t)) as Hf. destruct (split_first_line_spec (right t)) as [Hnf Hrest].
  destruct (split_first_line (right t)) as [f rest]. cbn [fst snd] in *.
  assert (Hlr : length (right t) = (length f + length rest)%nat) by (rewrite <- Hf; apply length_app).
  destruct Hrest as [->|[r ->]].
  { cbn [length] in *. destruct (Z.eqb_spec (Z.of_nat (length (left t) + length f)) (Z.of_nat (length (left t) + length (right t)))); [|lia].
    by apply (edits_nothing (kret tt) s t). }
  cbn [length] in *. destruct (Z.eqb_spec (Z.of_nat (length (left t) + length f)) (Z.of_nat (length (left t) + length (right t)))); [lia|].
  replace (Z.of_nat (length (left t) + length f) + 1) with (Z.of_nat (length (left t) + length f + 1)) by lia.
  rewrite (kbind_done _ _ _ _ _ (line_end_ok s t (length (left t) + length f + 1) Hr ltac:(unfold contents; rewrite length_app; lia))).
  assert (Ed : drop (length (left t) + length f + 1) (contents t) = r).
  { unfold contents. rewrite <- Hf. rewrite <- drop_drop, <- drop_drop, !drop_app_length. done. }
  rewrite Ed. pose proof (split_first_line_app r) as Hf1. destruct (split_first_line r) as [f1 r1]. cbn [fst snd] in *.
  assert (El : Z.of_nat (length (left t) + length f + 1) = Z.of_nat (length (left t ++ f ++ [newline]))) by (rewrite !length_app; cbn; lia).
  rewrite (Nat2Z.inj_add (length (left t) + length f + 1)), El, column_place by (rewrite ?length_app; cbn; lia).
  assert (El2 : (left t ++ f ++ [newline]) ++ take c f1 = left t ++ f ++ newline :: take c f1) by (by rewrite <- !app_assoc).
  rewrite El2. apply (set_cursor_ok s t _ _ (Some c)); [done| |by intros x [= <-]].
  unfold contents. rewrite <- Hf, <- Hf1, <- !app_assoc. cbn. by rewrite (app_assoc (take c f1)), take_drop.
Qed.

Lemma arrow_ok key s t : rep s t → edits (handle_arrow_key key) s (arrow key t).
Proof.
  intros Hr. unfold edits, handle_arrow_key, arrow. rewrite (kbind_done (kgets ed) _ s (ed s) s) by done.
  destruct (key =? 65); [by apply up_ok|]. destruct (key =? 66); [by apply down_ok|].
  destruct (key =? 67); [by apply right_ok|]. destruct (key =? 68); [by apply left_ok|]. by exists s.
Qed.

Lemma escape_ok x s t : rep s t → edits (update (with_escape x)) s (escaped x t).
Proof. intros [[rest Hb] Hc Hcur Hlen Hcol Hmax He Hd]. eexists. split; [done|]. split; [|done]. split; cbn; try done. by exists rest. Qed.

Definition saved (t : text) : text := place (left t) (right t) (column t) false t.

(** Saving, for whatever the system answers. *)
Lemma save_ok s t w ok : rep s t → save_text (fd (ed s)) (contents t) (os s) = Done (ok, w) →
  ∃ s', save s = Done (tt, s') ∧ rep s' (if (ok : bool) then saved t else t) ∧ os s' = w ∧ fd (ed s') = fd (ed s).
Proof.
  intros Hr Hs. pose proof (rep_room s t Hr) as Hroom. pose proof Hr as [[rest Hb] Hc Hcur Hlen Hcol Hmax He Hd].
  unfold save. rewrite (kbind_done (kgets ed) _ s (ed s) s) by done.
  unfold save_text in Hs. apply kbind_inv in Hs as (tr & w1 & Et & Hs).
  unfold in_os at 1, zoom. unfold kbind at 1. rewrite Et.
  set (s1 := {| ed := ed s; buffer := buffer s; os := w1 |}).
  assert (Hrep : ∀ m d, rep {| ed := with_message m d (ed s); buffer := buffer s; os := w |} (place (left t) (right t) (column t) d t))
    by (intros m d; split; cbn; try done; by exists rest).
  assert (Ht : place (left t) (right t) (column t) (dirty (ed s)) t = t) by (rewrite Hd; by destruct t).
  destruct tr; cbn [negb].
  2: { injection Hs as <- <-. eexists. split; [done|]. split; [|done]. rewrite <- Ht. apply (Hrep no_truncate). }
  rewrite Hlen. change 0 with (Z.of_nat 0) at 1. rewrite (kbind_done _ _ _ _ _ (slice_ok s1 0 (length (left t) + length (right t)) ltac:(cbn; lia))).
  rewrite Nat.sub_0_r, drop_0. cbn [buffer s1].
  assert (Etx : take (length (left t) + length (right t)) (buffer s) = contents t).
  { rewrite <- length_app. rewrite (take_text s t) by (done || lia). by apply take_ge. }
  rewrite Etx. apply kbind_inv in Hs as (n & w2 & Ew & Hs). injection Hs as <- <-.
  unfold in_os, zoom. unfold kbind. cbn [os s1]. rewrite Ew. unfold contents. rewrite length_app.
  destruct (n =? Z.of_nat (length (left t) + length (right t))); cbn [negb]; (eexists; split; [done|]; split; [|done]).
  - apply (Hrep written).
  - rewrite <- Ht. apply (Hrep no_write).
Qed.

(** C22: The editor implements the text with a cursor: from every state that represents
    one, every key is handled without a failure, and the state represents what the
    key does to the text - characters, line breaks and deletions at the cursor, arrows
    by characters and by lines at the remembered column, and the two-key commands.
    Only a save calls the system: it truncates the file and writes exactly the text,
    and the text counts as saved if and only if both succeed. *)
Theorem editor_refines key s t : rep s t →
  let '(t', act) := step key t in
  (act ≠ Save → ∃ s', handle_input key s = Done (bool_decide (act = Quit), s') ∧ rep s' t' ∧ os s' = os s ∧ fd (ed s') = fd (ed s))
  ∧ (act = Save → ∀ w ok, save_text (fd (ed s)) (contents t) (os s) = Done (ok, w) →
      ∃ s', handle_input key s = Done (false, s') ∧ rep s' (if ok then saved t' else t') ∧ os s' = w ∧ fd (ed s') = fd (ed s)).
Proof.
  intros Hr. pose proof Hr as [_ _ _ _ _ _ He _].
  assert (Hedit : ∀ (m : kst (edit W) unit) t' (q : bool), edits m s t' →
    ∃ s', (m ;;* kret q) s = Done (q, s') ∧ rep s' t' ∧ os s' = os s ∧ fd (ed s') = fd (ed s)).
  { intros m t' q (s' & Hm & R). exists s'. by rewrite (kbind_done _ _ _ _ _ Hm). }
  unfold step, handle_input. rewrite (kbind_done (kgets ed) _ s (ed s) s) by done. rewrite He.
  destruct (escape t =? 1).
  - destruct (key =? 91); [split; [intros _; by apply Hedit, escape_ok | done]|].
    destruct (escape_ok 0 s t Hr) as (s1 & E1 & R1 & O1 & F1). rewrite (kbind_done _ _ _ _ _ E1).
    destruct (key =? 119).
    + split; [done|]. intros _ w ok Hs. destruct (save_ok s1 (escaped 0 t) w ok R1) as (s' & E' & R' & O' & F'); [by rewrite F1, O1|].
      exists s'. rewrite (kbind_done _ _ _ _ _ E'). split; [done|]. split; [done|]. split; [done|]. by rewrite F'.
    + split; [|by destruct (key =? 113)]. intros _. exists s1. by destruct (key =? 113).
  - destruct (escape t =? 2).
    + split; [|done]. intros _. destruct (escape_ok 0 s t Hr) as (s1 & E1 & R1 & O1 & F1). rewrite (kbind_done _ _ _ _ _ E1).
      destruct (arrow_ok key s1 _ R1) as (s' & E' & R' & O' & F'). exists s'. rewrite (kbind_done _ _ _ _ _ E'). split; [done|]. split; [done|].
      by rewrite O', F'.
    + destruct (key =? 27); [split; [intros _; by apply Hedit, escape_ok | done]|].
      destruct ((key =? 8) || (key =? 127)); [split; [intros _; by apply Hedit, backspace_ok | done]|].
      destruct ((key =? 13) || (key =? 10)); [split; [intros _; by apply Hedit, insert_ok | done]|].
      destruct (negb (is_ascii_control key) || (key =? 9)); [split; [intros _; by apply Hedit, insert_ok | done]|].
      split; [|done]. intros _. by apply Hedit, (edits_nothing (kret tt)).
Qed.

(** The state after opening a file of [len] bytes. *)
Lemma initial_rep fd hint bs rest w : Z.of_nat (length (bs ++ rest)) = FILE_CAPACITY →
  rep {| ed := initial_editor fd (Z.of_nat (length bs)) hint; buffer := bs ++ rest; os := w |}
      {| left := []; right := bs; column := None; escape := 0; modified := false |}.
Proof. intros Hl. split; cbn; try done. by exists rest. Qed.

(** ** The screen *)

(** The line of the cursor. *)
Definition line_number (t : text) : Z := Z.of_nat (length (List.filter is_newline (left t))).

Lemma cursor_line_ok s t : rep s t → cursor_line s = Done (line_number t, s).
Proof.
  intros Hr. pose proof (rep_room s t Hr). pose proof Hr as [_ Hc Hcur _ _ _ _ _]. unfold cursor_line, line_number. rewrite (kbind_done (kgets ed) _ s (ed s) s) by done.
  rewrite Hcur. change 0 with (Z.of_nat 0). rewrite (kbind_done _ _ _ _ _ (slice_ok s 0 (length (left t)) ltac:(lia))). rewrite Nat.sub_0_r, drop_0, (take_left s t Hr). done.
Qed.

(** C37: The cursor stays on the screen: after the view has been adjusted, the line of
    the cursor is one of the 16 that are drawn and its place on the terminal - row 2
    for the first of them - is in rows 2 to 17 and columns 3 to 80; the text is
    untouched. *)
Theorem cursor_visible s t : rep s t → 0 ≤ first_visible_line (ed s) →
  ∃ s' row col, keep_cursor_visible s = Done (tt, s') ∧ rep s' t ∧ os s' = os s
    ∧ first_visible_line (ed s') ≤ line_number t < first_visible_line (ed s') + VIEW_ROWS
    ∧ terminal_position s' = Done ((row, col), s') ∧ row = 2 + (line_number t - first_visible_line (ed s')) ∧ 2 ≤ row ≤ 17 ∧ 3 ≤ col ≤ 80.
Proof.
  intros Hr Hf. set (n := line_number t). assert (Hn : 0 ≤ n) by (unfold n, line_number; lia).
  set (first := if n <? first_visible_line (ed s) then n else if first_visible_line (ed s) + VIEW_ROWS <=? n then n - VIEW_ROWS + 1 else first_visible_line (ed s)).
  assert (Hfirst : 0 ≤ first ∧ first ≤ n < first + VIEW_ROWS) by (unfold first, VIEW_ROWS; split_tests; lia).
  set (s' := set_ed (with_first_line first (ed s)) s).
  assert (Hk : keep_cursor_visible s = Done (tt, s')).
  { unfold keep_cursor_visible. rewrite (kbind_done (kgets ed) _ s (ed s) s), (kbind_done _ _ _ _ _ (cursor_line_ok s t Hr)) by done. fold n.
    unfold s', first. destruct (n <? _); [done|]. destruct (_ <=? n); [done|]. by destruct s as [[]]. }
  assert (Hr' : rep s' t) by (destruct Hr as [[rest ?]]; split; cbn; try done; by exists rest).
  pose proof (rep_room s' t Hr') as Hroom.
  pose proof (line_start_ok s' t (length (left t)) Hr' ltac:(unfold contents; rewrite length_app; lia)) as Hls. rewrite take_contents in Hls.
  pose proof (split_last_line_app (left t)) as Ha. apply (f_equal length) in Ha. rewrite length_app in Ha.
  set (start := Z.of_nat (length (split_last_line (left t)).1)) in *.
  exists s', (2 + (n - first)), (Z.min (Z.of_nat (length (left t)) - start + 3) 80). split; [done|]. split; [done|]. split; [done|]. split; [apply Hfirst|].
  split; [|change (first_visible_line (ed s')) with first; unfold VIEW_ROWS in *; lia].
  unfold terminal_position. rewrite (kbind_done (kgets ed) _ s' (ed s') s'), (kbind_done _ _ _ _ _ (cursor_line_ok s' t Hr')) by done.
  rewrite (rp_cursor s' t Hr'), (kbind_done _ _ _ _ _ Hls). unfold kret, saturating_sub. fold n. change (first_visible_line (ed s')) with first.
  rewrite sub64_ok by (unfold FILE_CAPACITY in *; lia). rewrite Z.max_r by lia. done.
Qed.
End Refinement.

(** ** An editor at work

    A system that says yes: [truncate] answers 1 and [write] the length it is given;
    it keeps the calls. *)
Definition calls : Type := list (Z * list Z).
#[local] Instance calls_os : Int80 calls := {
  int80 n args := λ w, Done (if n =? SYS_WRITE then nth 2 args 0 else 1, w ++ [(n, args)]);
  lend _ := kret 0;
  lend_mut _ := kret 0;
  take_back _ n := kret (repeat 0 (Z.to_nat n));
}.

(** "ab", a newline and "c", with the cursor at the end. *)
Definition text0 : text := {| left := [97; 98; 10; 99]; right := []; column := None; escape := 0; modified := true |}.
Definition edit0 : edit calls :=
  {| ed := {| fd := 3; ed_len := 4; cursor := 4; first_visible_line := 0; preferred_column := None; escape_state := 0; dirty := true; message := [] |};
     buffer := [97; 98; 10; 99] ++ repeat 0 4092; os := [] |}.

Lemma rep0 : rep edit0 text0.
Proof. split; try done. by exists (repeat 0 4092). Qed.

(** The up arrow, in its third byte, moves behind the "a". *)
Definition text_up : text := {| left := left text0; right := []; column := None; escape := 2; modified := true |}.
Definition edit_up : edit calls := set_ed (with_escape 2 (ed edit0)) edit0.
Lemma rep_up : rep edit_up text_up.
Proof. split; try done. by exists (repeat 0 4092). Qed.

Lemma editor_refines_witness :
  rep edit_up text_up ∧ ∃ s', handle_input 65 edit_up = Done (false, s') ∧ rep s' (place [97] [98; 10; 99] (Some 1%nat) true text0).
Proof.
  split; [exact rep_up|].
  destruct (proj1 (editor_refines 65 edit_up text_up rep_up) ltac:(discriminate)) as (s' & E & R & _).
  exists s'. split; [exact E | exact R].
Defined.

Lemma cursor_visible_witness :
  rep edit0 text0 ∧ ∃ s' col, keep_cursor_visible edit0 = Done (tt, s') ∧ terminal_position s' = Done ((3, col), s').
Proof.
  split; [exact rep0|].
  destruct (cursor_visible edit0 text0 rep0 ltac:(discriminate)) as (s' & row & col & E & _ & _ & _ & T & Er & _).
  exists s', col. split; [exact E|]. assert (Hs : first_visible_line (ed s') = 0) by (cbn in E; injection E as <-; reflexivity).
  rewrite Hs in Er. subst row. exact T.
Defined.
