(* ===== verification/Shell.v ===== *)
(** * Shell: the command shell (src/userspace/shell/main.rs)

    Reading a command, the working directory of the prompt, numbers, and the commands
    themselves.  The shell is a release build: its integers wrap. *)

From S2P Require Import Prelude Text Time Paths Ulib.

Definition INPUT_CAPACITY : Z := 256.

(** ** Text *)

Definition trim_ascii_spaces (bytes : list Z) : list Z :=
  trim_end_by is_ascii_whitespace (trim_start_by is_ascii_whitespace bytes).

Definition is_digit (b : Z) : bool := (48 <=? b) && (b <=? 57).

(** The digits of [print_number], the last one first. *)
Fixpoint digits (fuel : nat) (number : Z) : list Z :=
  match fuel with
  | O => []
  | S fuel => 48 + number mod 10 :: if number / 10 =? 0 then [] else digits fuel (number / 10)
  end.

Fixpoint parse_digits (number : Z) (bytes : list Z) : option Z :=
  match bytes with
  | [] => Some number
  | b :: bytes =>
      if negb (is_digit b) then None
      else
        n ← checked_mul number 10;
        n ← checked_add n (b - 48);
        parse_digits n bytes
  end.
Definition parse_number (bytes : list Z) : option Z :=
  match bytes with [] => None | _ => parse_digits 0 bytes end.

(** The component up to the next slash, and what is behind the slash. *)
Fixpoint split_next_path_component (bytes : list Z) : list Z * option (list Z) :=
  match bytes with
  | [] => ([], None)
  | b :: bytes => if b =? slash then ([], Some bytes) else let '(c, r) := split_next_path_component bytes in (b :: c, r)
  end.

Definition split_command_line (command : list Z) : list Z * list Z :=
  match position is_ascii_whitespace command with
  | Some index => (take index command, trim_ascii_spaces (drop (S index) command))
  | None => (command, [])
  end.

(** [command.starts_with(name)], and what is behind it. *)
Definition after_name (name command : list Z) : option (list Z) := strip_prefix name command.

(** ** The working directory of the prompt *)

Record Cwd := {
  path : list Z;
  cwd_len : nat;
}.

Definition cwd_new : Cwd := {| path := repeat 0 256; cwd_len := 0 |}.
Definition cwd_text (c : Cwd) : list Z := take (cwd_len c) (path c).

Definition push (component : list Z) (c : Cwd) : Cwd :=
  let separator_len := if (cwd_len c =? 0)%nat then 0%nat else 1%nat in
  let new_len := (cwd_len c + separator_len + length component)%nat in
  if (length (path c) <? new_len)%nat then c
  else
    let p := if (separator_len =? 1)%nat then <[cwd_len c := slash]> (path c) else path c in
    {| path := splice p (cwd_len c + separator_len) component; cwd_len := new_len |}.

(** [while len > 0 && path[len - 1] != '/']. *)
Fixpoint back_to_slash (path : list Z) (len : nat) : nat :=
  match len with
  | O => O
  | S k => match path !! k with Some b => if b =? slash then len else back_to_slash path k | None => len end
  end.
Definition pop (c : Cwd) : Cwd := {| path := path c; cwd_len := back_to_slash (path c) (cwd_len c) - 1 |}.

Definition apply_component (component : list Z) (c : Cwd) : Cwd :=
  if bool_decide (component = []) || bool_decide (component = dot) then c
  else if bool_decide (component = dotdot) then pop c
  else push component c.

(** The loop over the components; every turn consumes a slash. *)
Fixpoint apply_path (fuel : nat) (remaining : list Z) (c : Cwd) : Cwd :=
  match fuel with
  | O => c
  | S fuel =>
      let '(component, rest) := split_next_path_component remaining in
      let c := apply_component component c in
      match rest with None => c | Some rest => apply_path fuel rest c end
  end.

Definition cwd_update (p : list Z) (c : Cwd) : Cwd :=
  let p := trim_ascii_spaces p in
  if bool_decide (p = [slash]) || bool_decide (p = tilde) then {| path := path c; cwd_len := 0 |}
  else
    let c := match strip_prefix [slash] p with Some _ => {| path := path c; cwd_len := 0 |} | None => c end in
    apply_path (S (length p)) p c.

(** ** Commands *)

Section Shell.
Context {W : Type} `{Int80 W}.
Abbreviation um := (kst W).

Definition say (bs : list Z) : um unit := stdout bs ;;* kret tt.
Fixpoint say_each (l : list Z) : um unit :=
  match l with [] => kret tt | d :: l => say [d] ;;* say_each l end.
Definition print_number (number : Z) : um unit := say_each (rev (digits 20 number)).

Definition print_prompt (c : Cwd) : um unit :=
  say tilde ;;*
  (if (0 <? cwd_len c)%nat then say [slash] ;;* say (cwd_text c) else kret tt) ;;*
  say [32; 36; 32].

(** A line of input; [fuel] bounds the keys. *)
Definition read_command (fuel : nat) : um (list Z) :=
  loopM fuel (λ line,
    let* input := read_stdin_char in
    if (input =? 13) || (input =? 10) then kret (inr line)
    else if (input =? 8) || (input =? 127) then
      match line with
      | [] => kret (inl line)
      | _ => say [8; 32; 8] ;;* kret (inl (removelast line))
      end
    else if INPUT_CAPACITY <=? Z.of_nat (length line) then kret (inl line)
    else say [input] ;;* kret (inl (line ++ [input]))) [].

Definition BIN_PREFIX : list Z := [47; 98; 105; 110; 47].
Definition execute_from_bin (program args : list Z) : um Z :=
  if (261 <? length BIN_PREFIX + length program)%nat then kret 0 else execute (BIN_PREFIX ++ program) args.

Definition launch (command : list Z) : um bool :=
  let '(program, args) := split_command_line command in
  let* pid :=
    if existsb (Z.eqb slash) program then execute program args
    else
      let* bin_pid := execute_from_bin program args in
      if bin_pid =? 0 then execute program args else kret bin_pid in
  if pid =? 0 then kret false else wait_for_process pid ;;* kret true.

(** "cd ", "write ", "touch ", "mkdir ", "unlink ", "rmdir ", "sleep ", "uptime", "date". *)
Definition cmd_cd : list Z := [99; 100; 32].
Definition cmd_write : list Z := [119; 114; 105; 116; 101; 32].
Definition cmd_touch : list Z := [116; 111; 117; 99; 104; 32].
Definition cmd_mkdir : list Z := [109; 107; 100; 105; 114; 32].
Definition cmd_unlink : list Z := [117; 110; 108; 105; 110; 107; 32].
Definition cmd_rmdir : list Z := [114; 109; 100; 105; 114; 32].
Definition cmd_sleep : list Z := [115; 108; 101; 101; 112; 32].
Definition cmd_uptime : list Z := [117; 112; 116; 105; 109; 101].
Definition cmd_date : list Z := [100; 97; 116; 101].
(** "/res/resource.txt". *)
Definition resource : list Z := [47; 114; 101; 115; 47; 114; 101; 115; 111; 117; 114; 99; 101; 46; 116; 120; 116].

(** The texts a command prints when it succeeds and when it fails. *)
Context (messages : list Z → bool → list Z).
Definition report (name : list Z) (ok : bool) : um unit := say (messages name ok).

Definition uptime : um unit :=
  let* r := clock_gettime CLOCK_MONOTONIC in
  if (r.1 : bool) then say (messages cmd_uptime true) ;;* print_number (wrap 64 (tv_sec r.2)) ;;* say [115; 10]
  else report cmd_uptime false.

Definition date : um unit :=
  let* unix_time := time in
  if negb (unix_time =? 0) then say (messages cmd_date true) ;;* print_number (wrap 64 unix_time) ;;* say [10]
  else report cmd_date false.

(** One command; the prompt's directory may change. *)
Definition command_line (command : list Z) (c : Cwd) : um Cwd :=
  match after_name cmd_cd command with
  | Some rest =>
      let p := trim_ascii_spaces rest in
      let* ok := cd p in kret (if (ok : bool) then cwd_update p c else c)
  | None =>
  match after_name cmd_write command with
  | Some rest => let* ok := write_existing_file resource (trim_ascii_spaces rest) in report cmd_write ok ;;* kret c
  | None =>
  match after_name cmd_touch command with
  | Some rest =>
      let* fd := create (trim_ascii_spaces rest) in
      (if negb (fd =? 0) then close fd ;;* report cmd_touch true else report cmd_touch false) ;;* kret c
  | None =>
  match after_name cmd_mkdir command with
  | Some rest => let* ok := mkdir (trim_ascii_spaces rest) in report cmd_mkdir ok ;;* kret c
  | None =>
  match after_name cmd_unlink command with
  | Some rest => let* ok := unlink (trim_ascii_spaces rest) in report cmd_unlink ok ;;* kret c
  | None =>
  match after_name cmd_rmdir command with
  | Some rest => let* ok := rmdir (trim_ascii_spaces rest) in report cmd_rmdir ok ;;* kret c
  | None =>
  if bool_decide (command = cmd_uptime) then uptime ;;* kret c
  else if bool_decide (command = cmd_date) then date ;;* kret c
  else
  match after_name cmd_sleep command with
  | Some rest =>
      let* slept := match parse_number (trim_ascii_spaces rest) with Some seconds => sleep (as_i64 seconds) | None => kret false end in
      (if (slept : bool) then kret tt else report cmd_sleep false) ;;* kret c
  | None =>
      let* ok := launch command in
      (if (ok : bool) then kret tt else report [] false) ;;* kret c
  end end end end end end end.

(** The shell's loop, for [n] commands. *)
Fixpoint shell_loop (fuel n : nat) (c : Cwd) : um Cwd :=
  match n with
  | O => kret c
  | S n =>
      print_prompt c ;;*
      let* command := read_command fuel in
      say [10] ;;*
      let* c := match command with [] => kret c | _ => command_line command c end in
      shell_loop fuel n c
  end.

Definition rust_main (banner welcome : list Z) (fuel n : nat) : um Cwd :=
  say banner ;;* say welcome ;;* shell_loop fuel n cwd_new.
End Shell.

(** ** Numbers *)

Definition number_of (l : list Z) : Z := List.fold_left (λ n b, 10 * n + (b - 48)) l 0.

Lemma number_of_snoc l b : number_of (l ++ [b]) = 10 * number_of l + (b - 48).
Proof. unfold number_of. by rewrite fold_left_app. Qed.

Lemma fold_number_le l n : Forall (λ b, 0 ≤ b - 48 ≤ 9) l → 0 ≤ n → n ≤ List.fold_left (λ n b, 10 * n + (b - 48)) l n.
Proof. intros Hl. revert n. induction Hl as [|b l Hb Hl IH]; intros n Hn; [cbn; lia|]. cbn. etransitivity; [|apply IH; lia]. lia. Qed.

(** What [parse_number] accepts: digits whose value fits into 64 bits. *)
Lemma parse_digits_ok l n : Forall (λ b, 0 ≤ b - 48 ≤ 9) l → 0 ≤ n → List.fold_left (λ n b, 10 * n + (b - 48)) l n ≤ usize_max →
  parse_digits n l = Some (List.fold_left (λ n b, 10 * n + (b - 48)) l n).
Proof.
  intros Hl. revert n. induction Hl as [|b l Hb Hl IH]; intros n Hn Hmax; [done|]. cbn in Hmax |- *.
  assert (Hd : is_digit b = true) by (unfold is_digit; apply andb_true_iff; rewrite !Z.leb_le; lia).
  rewrite Hd. cbn [negb]. pose proof (fold_number_le l (10 * n + (b - 48)) Hl ltac:(lia)) as Hle.
  unfold checked_mul, checked_add.
  rewrite (proj2 (Z.leb_le (n * 10) usize_max)) by lia. cbn [mbind option_bind].
  rewrite (proj2 (Z.leb_le (n * 10 + (b - 48)) usize_max)) by lia. cbn [mbind option_bind].
  rewrite (Z.mul_comm n 10). apply IH; [lia|done].
Qed.

Lemma digits_ok fuel n : 0 ≤ n < 10 ^ Z.of_nat fuel → (0 < fuel)%nat →
  Forall (λ b, 0 ≤ b - 48 ≤ 9) (digits fuel n) ∧ number_of (rev (digits fuel n)) = n ∧ digits fuel n ≠ [].
Proof.
  revert n. induction fuel as [|fuel IH]; intros n Hn Hf; [lia|]. cbn [digits].
  pose proof (Z.mod_pos_bound n 10 ltac:(lia)). pose proof (Z.div_mod n 10 ltac:(lia)).
  rewrite Nat2Z.inj_succ, Z.pow_succ_r in Hn by lia.
  destruct (Z.eqb_spec (n / 10) 0) as [E|E].
  - split; [repeat constructor; lia|]. split; [cbn; lia | done].
  - destruct (decide (fuel = 0%nat)) as [->|Hne]; [cbn in Hn; lia|].
    destruct (IH (n / 10)) as (F & V & _); [split; [apply Z.div_pos; lia | apply Z.div_lt_upper_bound; lia] | lia |].
    split; [constructor; [lia|done]|]. split; [|done]. cbn [rev]. rewrite number_of_snoc, V. lia.
Qed.

Lemma length_digits fuel n : (length (digits fuel n) ≤ fuel)%nat.
Proof. revert n. induction fuel as [|fuel IH]; intros n; cbn; [done|]. apply le_n_S. destruct (n / 10 =? 0); [cbn; apply Nat.le_0_l | apply IH]. Qed.

(** A printed number is read back: the digits that [print_number] prints for any
    64-bit number are at most twenty, and [parse_number] of them is the number. *)
Theorem number_roundtrip n : 0 ≤ n ≤ usize_max →
  parse_number (rev (digits 20 n)) = Some n ∧ (length (digits 20 n) ≤ 20)%nat ∧ Forall (λ b, is_digit b = true) (digits 20 n).
Proof.
  intros Hn. destruct (digits_ok 20 n) as (F & V & Hne); [unfold usize_max in Hn; cbn; lia | lia |].
  assert (Hr : rev (digits 20 n) ≠ []) by (intros E; apply (f_equal (@rev Z)) in E; rewrite rev_involutive in E; done).
  split_and!.
  - unfold parse_number. destruct (rev (digits 20 n)) as [|b l] eqn:E; [done|]. rewrite <- E in *. rewrite parse_digits_ok; [by rewrite <- V at 2| by apply Forall_rev | done |].
    change (number_of (rev (digits 20 n)) ≤ usize_max). rewrite V. lia.
  - apply length_digits.
  - eapply Forall_impl; [exact F|]. intros b Hb. cbn in Hb. unfold is_digit. apply andb_true_iff. rewrite !Z.leb_le. lia.
Qed.

Lemma number_roundtrip_witness : 0 ≤ usize_max ≤ usize_max ∧ parse_number (rev (digits 20 usize_max)) = Some usize_max.
Proof. split; [split; vm_compute; discriminate | apply (number_roundtrip usize_max); split; vm_compute; discriminate]. Defined.

(** A sleep that is too long for milliseconds in 64 bits wraps around: this one takes
    384 milliseconds. *)
Lemma sleep_wraps : from_milliseconds (i64 (as_i64 18446744073709552 * 1000)) = {| tv_sec := 0; tv_nsec := 384000000 |}.
Proof. vm_compute. reflexivity. Qed.
