(* ===== verification/ShellCwd.v ===== *)
(** * ShellCwd: the prompt shows where the shell is

    The shell keeps a text of its working directory next to the kernel's directory
    handle.  A directory is the names on the way to it, innermost first; the text
    represents them, and [Cwd::update] keeps it up with the kernel's path resolution
    (src/userspace/shell/main.rs, src/src/scheduling/mod.rs). *)

From S2P Require Import Prelude Text Paths Shell.

(** Where the kernel goes: [find_directory_from_path] on names. *)
Definition kernel_cd (p : list Z) (st : list (list Z)) : option (list (list Z)) :=
  if bool_decide (p = [slash]) || bool_decide (p = tilde) then Some []
  else let '(base, rest) := path_base [] st p in walk (normalize_path_components rest) base.

(** ** Walks of normalized paths *)

Lemma walk_push_conv l c st st' : normal_form l → walk (push_component l c) st = Some st' → walk (l ++ [c]) st = Some st'.
Proof.
  intros (k & names & -> & Hn). unfold push_component. destruct (bool_decide (c = []) || bool_decide (c = dot)) eqn:E1.
  { intros Hw. rewrite walk_app, Hw. cbn. by rewrite E1. }
  destruct (bool_decide (c = dotdot)) eqn:E2; [|done]. apply bool_decide_eq_true in E2 as ->.
  destruct names as [|y names _] using rev_ind.
  - rewrite app_nil_r. destruct (last (replicate k dotdot)) as [c|] eqn:El; [|done].
    apply last_Some_elem_of, elem_of_replicate in El as [-> _]. by rewrite bool_decide_eq_true_2 by done.
  - apply Forall_app in Hn as [Hn Hy]. apply Forall_cons in Hy as [Hy _].
    rewrite app_assoc, last_snoc, bool_decide_eq_false_2 by apply Hy. rewrite removelast_last.
    intros Hw. rewrite walk_app, walk_app, Hw. cbn [mbind option_bind]. by rewrite walk_plain by done.
Qed.

Lemma walk_normalize_conv l acc st st' : normal_form acc → walk (foldl push_component acc l) st = Some st' → walk (acc ++ l) st = Some st'.
Proof.
  revert acc. induction l as [|c l IH]; intros acc Ha Hw; [by rewrite app_nil_r|]. cbn in Hw.
  apply IH in Hw; [|by apply normal_form_push]. rewrite walk_app in Hw.
  destruct (walk (push_component acc c) st) as [s1|] eqn:E; [|done]. cbn in Hw.
  change (c :: l) with ([c] ++ l). rewrite app_assoc, walk_app. by rewrite (walk_push_conv acc c st s1).
Qed.

(** ** The text *)

Definition name_ok (c : list Z) : Prop := plain c ∧ Forall (λ x, x ≠ slash) c.
Definition shown (st : list (list Z)) : list Z := join (rev st).

Lemma join_snoc l x : join (l ++ [x]) = match l with [] => x | _ => join l ++ slash :: x end.
Proof.
  induction l as [|c l IH]; [done|]. cbn [app]. destruct l as [|d l]; [done|].
  change (join (c :: (d :: l) ++ [x])) with (c ++ slash :: join ((d :: l) ++ [x])). rewrite IH.
  change (join (c :: d :: l)) with (c ++ slash :: join (d :: l)). by rewrite <- app_assoc.
Qed.
Lemma shown_cons x st : shown (x :: st) = match st with [] => x | _ => shown st ++ slash :: x end.
Proof. unfold shown. cbn [rev]. rewrite join_snoc. destruct st as [|y st]; [done|]. destruct (rev (y :: st)) eqn:E; [|done]. by apply (f_equal length) in E; rewrite length_rev in E. Qed.

Lemma shown_empty st : Forall name_ok st → length (shown st) = 0%nat → st = [].
Proof.
  intros Hn Hl. destruct st as [|x st]; [done|]. apply Forall_cons in Hn as [[[Hx _] _] _]. rewrite shown_cons in Hl.
  destruct st; [by destruct x|]. rewrite length_app in Hl. cbn in Hl. lia.
Qed.

Record shows (c : Cwd) (st : list (list Z)) : Prop := {
  sh_capacity : length (path c) = 256%nat;
  sh_text : cwd_text c = shown st;
  sh_len : cwd_len c = length (shown st);
  sh_names : Forall name_ok st;
}.

Lemma shows_len c st : shows c st → (cwd_len c ≤ 256)%nat.
Proof. intros [Hc Ht Hl _]. unfold cwd_text in Ht. apply (f_equal length) in Ht. rewrite length_take, <- Hl in Ht. lia. Qed.

Lemma push_ok c st x : shows c st → name_ok x → (length (shown (x :: st)) ≤ 256)%nat → shows (push x c) (x :: st).
Proof.
  intros Hsh Hx Hlen. pose proof (shows_len c st Hsh). destruct Hsh as [Hc Ht Hl Hn]. unfold cwd_text in Ht. unfold push.
  destruct (Nat.eqb_spec (cwd_len c) 0) as [E|E].
  - assert (st = []) as -> by (apply shown_empty; [done|lia]). rewrite shown_cons in Hlen.
    rewrite Hc, E. cbn [Nat.add]. destruct (Nat.ltb_spec 256 (length x)); [lia|]. cbn [Nat.eqb].
    split; cbn [path cwd_len]; [by rewrite length_splice by lia | | by rewrite shown_cons | by constructor].
    unfold cwd_text, splice. cbn [path cwd_len]. rewrite shown_cons. rewrite take_0, app_nil_l. apply take_app_length.
  - assert (Hne : st ≠ []) by (intros ->; done). assert (Es : shown (x :: st) = shown st ++ slash :: x) by (rewrite shown_cons; by destruct st).
    rewrite Es, length_app in Hlen. cbn [length] in Hlen.
    rewrite Hc. destruct (Nat.ltb_spec 256 (cwd_len c + 1 + length x)); [lia|]. cbn [Nat.eqb].
    assert (Ep : take (cwd_len c + 1) (<[cwd_len c:=slash]> (path c)) = shown st ++ [slash]).
    { rewrite Nat.add_1_r. rewrite (take_S_r _ _ slash) by (apply list_lookup_insert_eq; lia). rewrite take_insert_ge by lia. by rewrite Ht. }
    split; cbn [path cwd_len]; [by rewrite length_splice; rewrite length_insert; lia | | rewrite Es, length_app; cbn [length]; lia | by constructor].
    unfold cwd_text, splice. cbn [path cwd_len]. rewrite Ep, Es, app_assoc.
    replace (cwd_len c + 1 + length x)%nat with (length ((shown st ++ [slash]) ++ x)) by (rewrite !length_app; cbn; lia).
    rewrite take_app_length. by rewrite <- app_assoc.
Qed.

Lemma back_to_slash_ok p (a q : list Z) : Forall (λ x, x ≠ slash) q → (a = [] ∨ ∃ a', a = a' ++ [slash]) →
  take (length a + length q) p = a ++ q → (length a + length q ≤ length p)%nat → back_to_slash p (length a + length q) = length a.
Proof.
  intros Hq Ha. induction q as [|x q IH] using rev_ind; intros Ht Hl.
  - cbn [length] in *. rewrite Nat.add_0_r, app_nil_r in *. destruct Ha as [->|[a' ->]]; [done|].
    rewrite length_app, Nat.add_1_r in *. cbn [back_to_slash length].
    assert (E : p !! length a' = Some slash).
    { rewrite <- (lookup_take_lt p (S (length a'))) by lia. rewrite Ht, lookup_app_r by lia. by rewrite Nat.sub_diag. }
    by rewrite E.
  - apply Forall_app in Hq as [Hq Hx]. apply Forall_cons in Hx as [Hx _]. rewrite !length_app in *. cbn [length] in *.
    replace (length a + (length q + 1))%nat with (S (length a + length q)) in * by lia. cbn [back_to_slash].
    assert (E : p !! (length a + length q)%nat = Some x).
    { rewrite <- (lookup_take_lt p (S (length a + length q))) by lia. rewrite Ht, app_assoc, lookup_app_r by (rewrite length_app; lia).
      rewrite length_app. by rewrite Nat.sub_diag. }
    rewrite E, (proj2 (Z.eqb_neq x slash)) by done. apply IH; [done| |lia].
    apply (f_equal (take (length a + length q))) in Ht. rewrite take_take, Nat.min_l in Ht by lia. rewrite Ht, app_assoc.
    replace (length a + length q)%nat with (length (a ++ q)) by (by rewrite length_app). apply take_app_length.
Qed.

Lemma pop_ok c x st : shows c (x :: st) → shows (pop c) st.
Proof.
  intros Hsh. pose proof (shows_len c _ Hsh). destruct Hsh as [Hc Ht Hl Hn]. apply Forall_cons in Hn as [[_ Hx] Hn]. unfold cwd_text in Ht.
  rewrite shown_cons in *.
  assert (Hlen : cwd_len (pop c) = length (shown st) ∧ take (length (shown st)) (path c) = shown st).
  { unfold pop. cbn [cwd_len]. destruct st as [|y st].
    - pose proof (back_to_slash_ok (path c) [] x Hx (or_introl eq_refl)) as E. cbn [length Nat.add app] in E.
      rewrite Hl in *. rewrite E by (done || lia). done.
    - rewrite Hl, length_app in *. cbn [length] in *.
      pose proof (back_to_slash_ok (path c) (shown (y :: st) ++ [slash]) x Hx ltac:(right; by eexists)) as E.
      rewrite length_app, <- app_assoc in E. cbn [length app] in E.
      replace (length (shown (y :: st)) + 1 + length x)%nat with (length (shown (y :: st)) + S (length x))%nat in E by lia.
      rewrite E by (done || lia). split; [lia|].
      apply (f_equal (take (length (shown (y :: st))))) in Ht. rewrite take_take, Nat.min_l in Ht by lia. rewrite Ht. apply take_app_length. }
  destruct Hlen as [E1 E2]. split; [done | unfold cwd_text; by rewrite E1 | done | done].
Qed.

(** ** Following a path *)

Lemma split_next_ok p : let '(c, r) := split_next_path_component p in
  split_on slash p = c :: match r with None => [] | Some r => split_on slash r end
  ∧ Forall (λ x, x ≠ slash) c ∧ length p = (length c + match r with None => 0 | Some r => S (length r) end)%nat.
Proof.
  induction p as [|b p IH]; [split; [done|split; [constructor|done]]|]. cbn [split_next_path_component split_on].
  destruct (Z.eqb_spec b slash) as [->|Hb]; [split; [done|split; [constructor|done]]|].
  destruct (split_next_path_component p) as [c r]. destruct IH as (E & Hc & Hl). rewrite E. split; [done|]. split; [by constructor|]. cbn [length]. lia.
Qed.

Lemma apply_component_ok c st x st' : shows c st → Forall (λ y, y ≠ slash) x → walk [x] st = Some st' →
  (length (shown st) + 1 + length x ≤ 256)%nat →
  shows (apply_component x c) st' ∧ (length (shown st') ≤ length (shown st) + 1 + length x)%nat.
Proof.
  intros Hsh Hx Hw Hl. unfold apply_component. cbn [walk] in Hw.
  destruct (bool_decide (x = []) || bool_decide (x = dot)) eqn:E1; [injection Hw as <-; split; [done|lia]|].
  destruct (bool_decide (x = dotdot)) eqn:E2.
  - destruct st as [|y st]; [done|]. injection Hw as <-. split; [by apply (pop_ok c y)|].
    rewrite shown_cons. destruct st; [cbn; lia|]. rewrite length_app. cbn. lia.
  - injection Hw as <-. apply orb_false_iff in E1 as [Ea Eb]. apply bool_decide_eq_false in Ea, Eb, E2.
    assert (Hlen : (length (shown (x :: st)) ≤ length (shown st) + 1 + length x)%nat) by (rewrite shown_cons; destruct st; [lia|]; rewrite length_app; cbn; lia).
    split; [|done]. apply push_ok; [done| |lia]. done.
Qed.

Lemma apply_path_ok fuel p c st st' : (length p < fuel)%nat → shows c st → walk (split_on slash p) st = Some st' →
  (length (shown st) + 1 + length p ≤ 256)%nat → shows (apply_path fuel p c) st'.
Proof.
  revert p c st. induction fuel as [|fuel IH]; intros p c st Hf Hsh Hw Hl; [lia|]. cbn [apply_path].
  pose proof (split_next_ok p) as Hs. destruct (split_next_path_component p) as [x r]. destruct Hs as (Es & Hx & Hlen).
  rewrite Es in Hw. change (x :: ?l) with ([x] ++ l) in Hw. rewrite walk_app in Hw.
  destruct (walk [x] st) as [s1|] eqn:E1; [|done]. cbn [mbind option_bind] in Hw.
  destruct (apply_component_ok c st x s1 Hsh Hx E1) as [Hsh1 Hl1]; [destruct r; lia|].
  destruct r as [r|]; [|cbn in Hw; by injection Hw as <-]. apply (IH r _ s1); [lia|done|done|lia].
Qed.

Lemma strip_slash p r : strip_prefix [slash] p = Some r → p = slash :: r.
Proof. destruct p as [|b p]; [done|]. cbn [strip_prefix]. destruct (Z.eqb_spec slash b) as [<-|]; [|done]. by intros [= <-]. Qed.


(** "cd ../b" in "/a". *)
Definition cwd_a : Cwd := cwd_update [97] cwd_new.
Lemma cwd_a_shows : shows cwd_a [[97]].
Proof. split; [reflexivity|reflexivity|reflexivity|]. constructor; [|constructor]. split; [done|]. by constructor. Qed.


(** A path that begins with "~/": the kernel starts at the root, the text does not. *)
Lemma prompt_tilde : kernel_cd [126; 47; 98] [[97]] = Some [[98]] ∧ cwd_text (cwd_update [126; 47; 98] cwd_a) = [97; 47; 126; 47; 98].
Proof. split; vm_compute; reflexivity. Qed.
