(* ===== verification/Programs.v ===== *)
(** * Programs: cat and ls (src/userspace/cat/main.rs, src/userspace/ls/main.rs)

    [cat_prints_file] is proved against [FileOs], what [cat] uses of the kernel; the
    instance at the end keeps one file in memory, the one of KernelOs is the kernel
    itself. *)

From S2P Require Import Prelude Text Ulib.

Definition MAX_ENTRIES : Z := 32.
Definition CAT_BUFFER : Z := 512.

Section Programs.
Context {W : Type} `{Int80 W}.

(** ** cat *)

(** "Usage: cat <path>" and "cat: could not open ". *)
Definition cat_usage : list Z := [85; 115; 97; 103; 101; 58; 32; 99; 97; 116; 32; 60; 112; 97; 116; 104; 62; 10].
Definition cat_no_file : list Z := [99; 97; 116; 58; 32; 99; 111; 117; 108; 100; 32; 110; 111; 116; 32; 111; 112; 101; 110; 32].

(** The loop; [&buffer[..bytes_read]] panics when the kernel reports more than the
    buffer holds. *)
Definition cat_loop (fuel : nat) (fd : Z) : kst W unit :=
  loopM fuel (λ _,
    let* r := read fd CAT_BUFFER in
    if r.1 =? 0 then kret (inr tt)
    else if Z.of_nat (length r.2) <? r.1 then kfault Panic
    else stdout (take (Z.to_nat r.1) r.2) ;;* kret (inl tt)) tt.

(** [args.get(1)] is the path. *)
Definition cat_main (fuel : nat) (arg : option (list Z)) : kst W unit :=
  match arg with
  | None => stdout cat_usage ;;* exit
  | Some path =>
      let* fd := open path in
      if fd =? 0 then stdout cat_no_file ;;* stdout path ;;* stdout [10] ;;* exit
      else cat_loop fuel fd ;;* close fd ;;* exit
  end.

(** ** ls *)

(** "[ DIR ] ". *)
Definition ls_directory : list Z := [91; 32; 68; 73; 82; 32; 93; 32].
Definition ls_line (e : DirEntry) : kst W unit :=
  stdout (if is_directory e then ls_directory else repeat 32 8) ;;*
  stdout (name_bytes e) ;;*
  stdout [10] ;;* kret tt.
Fixpoint ls_lines (l : list DirEntry) : kst W unit :=
  match l with [] => kret tt | e :: l => ls_line e ;;* ls_lines l end.

Definition ls_main : kst W unit :=
  let* r := read_dir MAX_ENTRIES in
  if MAX_ENTRIES <? r.1 then kfault Panic
  else ls_lines (take (Z.to_nat r.1) r.2) ;;* exit.
End Programs.

(** ** What [cat] uses of the kernel *)

Definition ascii_text (bs : list Z) : Prop := Forall (λ b, 0 ≤ b < 128) bs.

Class FileOs (W : Type) `{Int80 W} := {
  (** [fd] is open on a file with these contents, at this offset. *)
  open_at : W → Z → list Z → nat → Prop;
  screen : W → list Z;

  (** A read delivers the next bytes of the file and moves behind them. *)
  os_read fd w c off : open_at w fd c off →
    ∃ w' rest, let chunk := take (Z.to_nat CAT_BUFFER) (drop off c) in
      read fd CAT_BUFFER w = Done ((len chunk, chunk ++ rest), w')
      ∧ open_at w' fd c (off + length chunk) ∧ screen w' = screen w;
  (** Plain text goes to the screen. *)
  os_stdout fd w c off bs : open_at w fd c off → len bs ≤ CAT_BUFFER → ascii_text bs →
    ∃ n w', stdout bs w = Done (n, w') ∧ open_at w' fd c off ∧ screen w' = screen w ++ bs;
  os_close fd w c off : open_at w fd c off → ∃ b w', close fd w = Done (b, w') ∧ screen w' = screen w;
}.

Section Cat.
Context {W : Type} `{FileOs W}.

Lemma cat_loop_prints fuel fd w c off : open_at w fd c off → ascii_text c → (length c - off < fuel)%nat →
  ∃ w' off', cat_loop fuel fd w = Done (tt, w') ∧ open_at w' fd c off' ∧ screen w' = screen w ++ drop off c.
Proof.
  intros Ho Hc. revert w off Ho. induction fuel as [|fuel IH]; intros w off Ho Hf; [lia|]. unfold cat_loop. cbn [loopM].
  destruct (os_read fd w c off Ho) as (w1 & rest & E1 & Ho1 & Es1). unfold len in E1. unfold kbind at 1 2. rewrite E1. cbn [fst snd].
  remember (take (Z.to_nat CAT_BUFFER) (drop off c)) as chunk eqn:Ech.
  pose proof (f_equal length Ech) as El. rewrite length_take, length_drop in El. change (Z.to_nat CAT_BUFFER) with 512%nat in *.
  destruct (Z.eqb_spec (Z.of_nat (length chunk)) 0) as [E0|E0].
  - exists w1, (off + length chunk)%nat. split_and!; [done | done |]. rewrite (drop_ge c) by lia. by rewrite app_nil_r.
  - rewrite length_app, (proj2 (Z.ltb_ge _ _)) by lia. rewrite Nat2Z.id, take_app_length.
    destruct (os_stdout fd w1 c _ chunk Ho1) as (n & w2 & E2 & Ho2 & Es2).
    { unfold len, CAT_BUFFER. lia. }
    { rewrite Ech. by apply Forall_take, Forall_drop. }
    unfold kbind at 1. rewrite E2. cbn [kret].
    destruct (IH w2 _ Ho2) as (w' & off' & E' & Ho' & Es'); [lia|].
    exists w', off'. split_and!; [exact E' | done |]. rewrite Es', Es2, Es1, <- app_assoc. f_equal.
    rewrite <- (take_drop 512 (drop off c)). rewrite <- Ech, drop_drop. f_equal.
    destruct (decide (length chunk = 512%nat)) as [->|]; [done|]. by rewrite !drop_ge by lia.
Qed.

(** [cat] of a text file that opens prints all of its bytes, in order and nothing
    else, closes it and comes to its [exit], for every length of the file: each turn
    of its loop reads on where the last one stopped, and the turn that reads nothing
    is its last. *)
Theorem cat_prints_file fuel path w fd w1 c : open path w = Done (fd, w1) → 0 < fd → open_at w1 fd c 0 → ascii_text c →
  (length c < fuel)%nat →
  ∃ w', cat_main fuel (Some path) w = exit w' ∧ screen w' = screen w1 ++ c.
Proof.
  intros Eo Hfd Ho Hc Hf. destruct (cat_loop_prints fuel fd w1 c 0 Ho Hc) as (w2 & off' & E2 & Ho2 & S2); [lia|].
  destruct (os_close fd w2 c off' Ho2) as (b & w3 & E3 & S3). exists w3.
  cbn [cat_main]. rewrite (kbind_done _ _ _ _ _ Eo), (proj2 (Z.eqb_neq _ _)) by lia.
  rewrite (kbind_done _ _ _ _ _ E2), (kbind_done _ _ _ _ _ E3). split; [done|]. by rewrite S3, S2.
Qed.
End Cat.

(** ** One file in memory *)

Record OneFile := {
  of_file : list Z;
  of_offset : nat;
  of_screen : list Z;
  (** what the program passes, and what it gets back *)
  of_lent : list Z;
  of_taken : list Z;
}.

Definition set_lent (l : list Z) (w : OneFile) : OneFile :=
  {| of_file := of_file w; of_offset := of_offset w; of_screen := of_screen w; of_lent := l; of_taken := of_taken w |}.
Definition file_int80 (number : Z) (args : list Z) : kst OneFile Z := λ w,
  if number =? SYS_READ then
    let chunk := take (Z.to_nat (nth 2 args 0)) (drop (of_offset w) (of_file w)) in
    Done (Z.of_nat (length chunk), {| of_file := of_file w; of_offset := of_offset w + length chunk; of_screen := of_screen w; of_lent := []; of_taken := chunk |})
  else if number =? SYS_WRITE then
    Done (nth 2 args 0, {| of_file := of_file w; of_offset := of_offset w; of_screen := of_screen w ++ of_lent w; of_lent := []; of_taken := [] |})
  else Done (3, w).

#[global] Instance one_file : Int80 OneFile := {
  int80 := file_int80;
  lend l w := Done (8, set_lent l w);
  lend_mut _ w := Done (8, w);
  take_back _ _ w := Done (of_taken w, w);
}.

#[global] Program Instance one_file_os : FileOs OneFile := {
  open_at w fd c off := of_file w = c ∧ of_offset w = off;
  screen := of_screen;
}.
Next Obligation.
  intros fd w c off [<- <-]. eexists _, []. cbn zeta. rewrite app_nil_r. split; [reflexivity|]. done.
Qed.
Next Obligation. intros fd w c off bs Ho Hl Ht. eexists _, _. split; [reflexivity|]. done. Qed.
Next Obligation. intros fd w c off Ho. eexists _, _. split; [reflexivity|]. done. Qed.

Definition long_file : OneFile :=
  {| of_file := repeat 65 1000 ++ [66]; of_offset := 0; of_screen := [36; 32]; of_lent := []; of_taken := [] |}.

Lemma cat_prints_file_witness :
  ∃ w', cat_main 1002 (Some [97]) long_file = exit w' ∧ of_screen w' = [36; 32] ++ repeat 65 1000 ++ [66].
Proof.
  destruct (cat_prints_file 1002 [97] long_file 3 (set_lent [97] long_file) (repeat 65 1000 ++ [66])) as (w' & E & S).
  - reflexivity.
  - reflexivity.
  - split; reflexivity.
  - apply (bool_decide_eq_true_1 (Forall _ _)). vm_compute. reflexivity.
  - apply Nat.ltb_lt. vm_compute. reflexivity.
  - exists w'. split; [exact E | exact S].
Defined.
