(* ===== verification/KernelOs.v ===== *)
(** * KernelOs: user programs on the kernel

    The program that runs makes its system calls on the kernel's model: [int80] is
    the dispatcher of Syscalls, and the slices of a program lie in a buffer of its own
    memory.  The kernel implements [FileOs], so that [cat] prints files of the volume
    to the serial line. *)

From S2P Require Import Prelude Text Context Time BlockDev FatFs FatVolume FatFile FatTruncate Descriptors Paths FatFileApi.
From S2P Require Import Frames Paging PageWalk PageExample Stacks MemCtl Elf Sched Syscalls SyscallSafe SyscallFile KernelMem UserBytes Ulib Programs.

Section Os.
Context {M FS D F G K T : Type} `{ProcMemory M G K T, UserSpec M G K T, FileSpec FS F, DirOps FS D F}.
Context (root : D) (padding : list Z) (user_code user_data : Z).
Abbreviation sys := (system M FS D F G K T).
Implicit Types (s : sys).

(** The buffer of the program: its address and size. *)
Context (buffer room : Z).

(** The registers of a call. *)
Definition trap_frame (number : Z) (args : list Z) : FullInterruptStackFrame :=
  set_word 14 number (set_word 2 (nth 3 args 0) (set_word 11 (nth 2 args 0) (set_word 10 (nth 1 args 0) (set_word 9 (nth 0 args 0) empty)))).

(** A call that gives the CPU away is not followed here. *)
Definition trap (number : Z) (args : list Z) : kst sys Z :=
  let* r := syscall root padding user_code user_data (trap_frame number args) in
  match r with
  | Return (Some v) => kret v
  | Return None => kret number
  | Dispatched _ => kfault Hang
  end.

#[local] Instance kernel_int80 : Int80 sys := {
  int80 := trap;
  lend bs := if room <? Z.of_nat (length bs) then kfault Undefined else in_memory (um_store buffer bs) ;;* kret buffer;
  lend_mut n := if room <? n then kfault Undefined else kret buffer;
  take_back p n := in_memory (um_load p n);
}.

Lemma trap_registers number args : rax (trap_frame number args) = number ∧ rdi (trap_frame number args) = nth 0 args 0
  ∧ rsi (trap_frame number args) = nth 1 args 0 ∧ rdx (trap_frame number args) = nth 2 args 0 ∧ r10 (trap_frame number args) = nth 3 args 0.
Proof. done. Qed.

(** ** The interface of [cat] *)

Context (Hroom : CAT_BUFFER ≤ room).

(** The bytes on the serial line. *)
Definition serial_line s : list Z := concat (List.map (List.map (wrap 8)) (console s)).

(** The program's buffer holds [bs]. *)
Definition own_buffer s (t : T) : Prop := ∃ bs, user_has (MEM (kern s)) t buffer true bs ∧ Z.of_nat (length bs) = room.

Record at_offset s (fd : Z) (c : list Z) (off : nat) (p : Process D F G K T) (t : T) (o : OpenFile F) : Prop := {
  ao_runs : runs s p t;
  ao_fd : 3 ≤ fd;
  ao_file : get_fd (Z.to_nat fd) (proc_fds p) = Some (FileFd o);
  ao_readable : of_readable o = true;
  ao_offset : Descriptors.of_offset o = Z.of_nat off;
  ao_stdout : get_fd 1 (proc_fds p) = Some Stdout;
  ao_holds : holds (files s) (Descriptors.of_file o) c;
  ao_length : Z.of_nat (length c) ≤ usize_max;
  ao_buffer : own_buffer s t;
}.
Definition kernel_open_at s fd c off : Prop := ∃ p t o, at_offset s fd c off p t o.

Lemma trap_returns number args s v s' :
  syscall root padding user_code user_data (trap_frame number args) s = Done (Return (Some v), s') → trap number args s = Done (v, s').
Proof. intros E. unfold trap. by rewrite (kbind_done _ _ _ _ _ E). Qed.

(** A part of the buffer at its start. *)
Lemma user_buffer_part s t n : own_buffer s t → n ≤ room → ∃ xs ys,
  user_has (MEM (kern s)) t buffer true xs ∧ user_has (MEM (kern s)) t (buffer + Z.of_nat (length xs)) true ys
  ∧ Z.of_nat (length xs) = Z.max 0 n ∧ Z.of_nat (length xs) + Z.of_nat (length ys) = room.
Proof.
  intros (bs & Hu & Hl) Hn. destruct (buffer_prefix _ _ _ _ (Z.to_nat n) Hu) as [Hx Hy]; [lia|].
  exists (take (Z.to_nat n) bs), (drop (Z.to_nat n) bs). rewrite length_take, length_drop, Nat.min_l by lia. split_and!; [done | done | lia | lia].
Qed.

Lemma buffer_whole m' s t xs ys : user_has m' t buffer true xs → user_has m' t (buffer + Z.of_nat (length xs)) true ys →
  Z.of_nat (length xs) + Z.of_nat (length ys) = room → MEM (kern s) = m' → own_buffer s t.
Proof.
  intros Hx Hy Hl Hm. exists (xs ++ ys). rewrite Hm, length_app. split; [by apply us_split | lia].
Qed.

Lemma kernel_read fd s c off : kernel_open_at s fd c off →
  ∃ s' rest, let chunk := take (Z.to_nat CAT_BUFFER) (drop off c) in
    read fd CAT_BUFFER s = Done ((len chunk, chunk ++ rest), s')
    ∧ kernel_open_at s' fd c (off + length chunk) ∧ serial_line s' = serial_line s.
Proof.
  intros (p & t & o & [Hr Hfd Ho Hrd Hoff Hout Hh Hc Hb]). destruct (user_buffer_part s t CAT_BUFFER Hb Hroom) as (xs & ys & Hx & Hy & Hlx & Hly).
  change (Z.max 0 CAT_BUFFER) with CAT_BUFFER in Hlx.
  destruct (trap_registers SYS_READ [fd; buffer; CAT_BUFFER]) as (Hrax & Hrdi & Hrsi & Hrdx & _).
  cbn [nth] in Hrdi, Hrsi, Hrdx. set (fr := trap_frame SYS_READ [fd; buffer; CAT_BUFFER]) in *.
  destruct (read_run fr s p t o c xs) as (s1 & fds' & E & Hu & Hk & Hr1 & Hg & Hj & Hh1 & Hcon); rewrite ?Hrdi, ?Hrsi, ?Hrdx, ?Hoff; try done; try lia.
  rewrite Hrdi, Hrsi, Hrdx in *. rewrite Hoff, Nat2Z.id in *.
  assert (Hnx : length xs = Z.to_nat CAT_BUFFER) by lia. rewrite Hnx in E, Hu. set (chunk := take (Z.to_nat CAT_BUFFER) (drop off c)) in *.
  assert (Hlc : (length chunk ≤ length xs)%nat) by (unfold chunk; rewrite length_take; lia).
  assert (Hl : length (chunk ++ drop (length chunk) xs) = length xs) by (rewrite length_app, length_drop; lia).
  destruct (us_load _ _ _ _ _ Hu) as (m2 & E2 & K2).
  exists (with_memory m2 s1), (drop (length chunk) xs). cbn zeta. split; [|split].
  - unfold read, syscall3. cbn [int80 lend_mut take_back kernel_int80].
    rewrite (proj2 (Z.ltb_ge room _)) by lia. cbn iota. unfold kbind at 1, kret at 1.
    rewrite (kbind_done _ _ _ (len chunk) s1).
    2: { apply trap_returns. unfold syscall. fold fr. rewrite Hrax. exact E. }
    rewrite (kbind_done _ _ _ (chunk ++ drop (length chunk) xs) (with_memory m2 s1)); [done|].
    apply in_memory_done. by rewrite <- E2, Hl, Hlx.
  - exists (set_fds fds' p), t, (set_offset (Z.max (Z.of_nat off) (Z.min (Z.of_nat off + CAT_BUFFER) (Z.of_nat (length c)))) o).
    split; try done.
    + cbn. unfold chunk. rewrite length_take, length_drop. unfold CAT_BUFFER. lia.
    + cbn. rewrite Hj; [done|]. lia.
    + apply (buffer_whole m2 _ t (chunk ++ drop (length chunk) xs) ys); rewrite ?Hl; [by apply K2 | | done | done].
      apply K2, Hk; [done|]. right. lia.
  - unfold serial_line. cbn. by rewrite Hcon.
Qed.

(** The bytes a program lends to the kernel. *)
Lemma kernel_lend s t bs : own_buffer s t → bytes bs → Z.of_nat (length bs) ≤ room →
  ∃ m', lend bs s = Done (buffer, with_memory m' s) ∧ user_has m' t buffer true bs ∧ own_buffer (with_memory m' s) t.
Proof.
  intros Hb Hd Hl. destruct (user_buffer_part s t (Z.of_nat (length bs)) Hb Hl) as (xs & ys & Hx & Hy & Hlx & Hly).
  destruct (us_store _ _ _ _ bs Hx Hd) as (m' & E & Hu & Hk); [lia|]. exists m'. split_and!; [|done|].
  - cbn [lend kernel_int80]. rewrite (proj2 (Z.ltb_ge _ _)) by lia. cbv iota.
    by rewrite (kbind_done _ _ _ _ _ (in_memory_done _ s _ _ E)).
  - apply (buffer_whole m' _ t bs ys); [done | | lia | done].
    replace (Z.of_nat (length bs)) with (Z.of_nat (length xs)) by lia. apply Hk; [done|]. right. lia.
Qed.

Lemma ascii_bytes bs : ascii_text bs → bytes bs.
Proof. intros Hb. eapply Forall_impl; [exact Hb|]. unfold is_byte. cbn. lia. Qed.

Lemma ascii_wrap bs : ascii_text bs → List.map (wrap 8) bs = bs.
Proof.
  induction 1 as [|b bs Hb _ IH]; [done|]. cbn [List.map]. rewrite IH. f_equal. unfold wrap. apply Z.mod_small. lia.
Qed.

Lemma kernel_stdout fd s c off bs : kernel_open_at s fd c off → len bs ≤ CAT_BUFFER → ascii_text bs →
  ∃ n s', stdout bs s = Done (n, s') ∧ kernel_open_at s' fd c off ∧ serial_line s' = serial_line s ++ bs.
Proof.
  intros (p & t & o & [Hr Hfd Ho Hrd Hoff Hout Hh Hc Hb]) Hl Ha. unfold len in Hl.
  destruct (kernel_lend s t bs Hb (ascii_bytes bs Ha)) as (m' & E & Hu & Hb'); [lia|].
  destruct (trap_registers SYS_WRITE [STDOUT; buffer; len bs]) as (Hrax & Hrdi & Hrsi & Hrdx & _).
  cbn [nth] in Hrdi, Hrsi, Hrdx. set (fr := trap_frame SYS_WRITE [STDOUT; buffer; len bs]) in *.
  destruct (console_run fr (with_memory m' s) p t true bs) as (s1 & E1 & Hcon & Hr1 & Hf1 & K1); rewrite ?Hrdi, ?Hrsi, ?Hrdx; try done.
  eexists _, s1. split_and!.
  - unfold stdout, write, syscall3. rewrite (kbind_done _ _ _ _ _ E). cbn [int80 kernel_int80]. apply trap_returns.
    unfold syscall. fold fr. rewrite Hrax. exact E1.
  - exists p, t, o. split; try done; [by rewrite Hf1|]. destruct Hb' as (bs' & Hb' & Hl'). exists bs'. split; [by apply K1 | done].
  - unfold serial_line. rewrite Hcon, utf8_decode_ascii by done. cbn [option_list console with_memory set_kern].
    rewrite List.map_app, List.concat_app. f_equal. cbn. by rewrite app_nil_r, ascii_wrap.
Qed.

Lemma kernel_close fd s c off : kernel_open_at s fd c off → ∃ b s', close fd s = Done (b, s') ∧ serial_line s' = serial_line s.
Proof.
  intros (p & t & o & [Hr Hfd Ho Hrd Hoff Hout Hh Hc Hb]).
  destruct (trap_registers SYS_CLOSE [fd]) as (Hrax & Hrdi & _). cbn [nth] in Hrdi. set (fr := trap_frame SYS_CLOSE [fd]) in *.
  destruct (close_run fr s p t (Z.to_nat fd) o Hr) as (s1 & E1 & _ & _ & _ & Hcon); [by rewrite Hrdi | lia | done |].
  exists true, s1. split; [|unfold serial_line; by rewrite Hcon].
  unfold close, nonzero, syscall1. cbn [int80 kernel_int80]. rewrite (kbind_done _ _ _ 1 s1); [done|]. apply trap_returns.
  unfold syscall. fold fr. rewrite Hrax. exact E1.
Qed.

#[local] Instance kernel_os : FileOs sys := {
  open_at := kernel_open_at;
  screen := serial_line;
  os_read := kernel_read;
  os_stdout := kernel_stdout;
  os_close := kernel_close;
}.

(** ** Opening a file *)

Lemma kernel_open s p t path str f fs' c :
  runs s p t → own_buffer s t → bytes path → Z.of_nat (length path) ≤ room → utf8_decode path = Some str →
  get_fd 1 (proc_fds p) = Some Stdout → (3 ≤ length (proc_fds p))%nat →
  find_file_from_path root (start_dir root p (trim str)) (trim str) (files s) = Done (Some f, fs') →
  holds fs' f c → Z.of_nat (length c) ≤ usize_max →
  ∃ fd s1, open path s = Done (fd, s1) ∧ 0 < fd ∧ kernel_open_at s1 fd c 0 ∧ serial_line s1 = serial_line s.
Proof.
  intros Hr Hb Hp Hl Hd Hout Hn3 Hf Hh Hc. destruct (kernel_lend s t path Hb Hp Hl) as (m' & E & Hu & Hb').
  destruct (trap_registers SYS_OPEN [buffer; len path]) as (Hrax & Hrdi & Hrsi & _).
  cbn [nth] in Hrdi, Hrsi. set (fr := trap_frame SYS_OPEN [buffer; len path]) in *.
  pose proof (open_run root fr (with_memory m' s) p t true path str f fs' c) as Ho. rewrite Hrdi, Hrsi in Ho.
  specialize (Ho eq_refl Hr Hu Hd Hf Hh). destruct (open_file f true true (proc_fds p)) as [fd fds'] eqn:Eo.
  destruct Ho as (s1 & E1 & Hr1 & Hh1 & K1 & Hcon).
  pose proof (open_file_lowest f true true (proc_fds p) Hn3) as Hlow. rewrite Eo in Hlow. destruct Hlow as (Hge & Hnew & _ & Hg & Hj).
  exists (Z.of_nat fd), s1. split_and!.
  - unfold open, syscall_slice, syscall2. rewrite (kbind_done _ _ _ _ _ E). cbn [int80 kernel_int80]. apply trap_returns.
    unfold syscall. fold fr. rewrite Hrax. exact E1.
  - lia.
  - eexists _, t, _. split; [done | lia | by rewrite Nat2Z.id | done | done | | done | done |].
    + cbn. rewrite Hj; [done | lia].
    + destruct Hb' as (bs' & Hb' & Hl'). exists bs'. split; [by apply K1 | done].
  - unfold serial_line. by rewrite Hcon.
Qed.

End Os.

(** ** The sample system *)

(** "/AAAAAAAA.AAA". *)
Definition sample_path : list Z := [47] ++ replicate 8 65 ++ [46] ++ replicate 3 65.

Definition found_file : FATFile :=
  {| file_entry := sample_file; file_name := replicate 8 97 ++ [46] ++ replicate 3 97; file_location := sample_location |}.
Definition searched : mounted (P := RamDisk) := (sample_fs, <[2 := found_file]> {[ 1 := sample_handle ]}).

Lemma sample_search :
  find_file_from_path (H := @fat_dir_ops RamDisk _ ascii_case 3) sample_root sample_root sample_path sample_mounted = Done (Some 2, searched).
Proof. vm_compute. reflexivity. Qed.

Lemma found_holds : holds (FileSpec := fat_file_spec 3) searched 2 sample_contents.
Proof.
  exists found_file, [3; 4]. cbn [fst snd searched]. split; [apply lookup_insert_eq|]. split; [exact sample_fs_ok|]. split; [by destruct sample_good|].
  cbn [file_location found_file]. rewrite sample_entry. done.
Qed.

