(* ===== verification/UlibSpec.v ===== *)
(** * UlibSpec: what the kernel and the user library make of the same bytes

    The argument frame that [elf::load] writes and [ulib::Args] reads, and the
    directory entries of the [read_dir] call. *)

From S2P Require Import Prelude Text MemCtl Elf ElfLoad Syscalls Ulib.

#[local] Existing Instance flat_bytes.

(** ** Arguments *)

(** What a program makes of the stack it starts on ([_start] and [Args::new]). *)
Definition entry_args (m : Z → Z) (rsp : Z) : Args := args_new (word_at m rsp) (rsp + 8).

Definition no_nul (l : list Z) : Prop := Forall (λ b, b ≠ 0) l.

Lemma c_string_ok m p arg fuel : no_nul arg → load_bytes m p (length arg) = arg → m (p + Z.of_nat (length arg)) = 0 →
  (length arg < fuel)%nat → c_string m p fuel tt = Done (arg, tt).
Proof.
  revert p fuel. induction arg as [|b arg IH]; intros p [|fuel] Hn Hl Hz Hf; [cbn in Hf; lia | | cbn in Hf; lia|].
  { cbn in *. rewrite Z.add_0_r in Hz. by rewrite Hz. }
  apply Forall_cons in Hn as [Hb Hn]. unfold load_bytes in Hl. cbn [length seq List.map] in Hl. injection Hl as Hb' Hl. rewrite Z.add_0_r in Hb'.
  cbn [c_string]. rewrite Hb', (proj2 (Z.eqb_neq _ _)) by done. rewrite (kbind_done _ _ _ arg tt); [done|].
  apply IH; [done| | |cbn in Hf; lia].
  - rewrite <- Hl at 2. unfold load_bytes. rewrite <- seq_shift, List.map_map. apply List.map_ext. intros i. f_equal. lia.
  - rewrite <- Hz. f_equal. cbn [length]. lia.
Qed.

Section Frame.
Context (m : Z → Z) (rsp lo hi : Z) (argv : list (list Z)).
Hypothesis frame_args : args_at m rsp 0 lo hi argv.
Hypothesis strings : 0 < lo.
Hypothesis nul_free : Forall no_nul argv.

Lemma args_get_ok fuel k i arg : argv !! i = Some arg → (length arg < fuel)%nat →
  args_get m fuel {| argc := Z.of_nat (length argv); Ulib.argv := rsp + 8; index := k |} (Z.of_nat i) tt = Done (Some arg, tt).
Proof.
  intros Hi Hf. destruct (frame_args i arg Hi) as (p & Hw & Hlo & _ & Hb & Hz). unfold args_get. cbn [argc Ulib.argv].
  pose proof (lookup_lt_Some _ _ _ Hi). rewrite (proj2 (Z.leb_gt _ _)) by lia.
  change (word_at m) with (load_word m). replace (rsp + 8 + 8 * Z.of_nat i) with (rsp + 8 * (1 + 0 + Z.of_nat i)) by lia.
  rewrite Hw, (proj2 (Z.eqb_neq _ _)) by lia. rewrite (kbind_done _ _ _ arg tt); [done|].
  apply c_string_ok; [by eapply Forall_lookup_1 | done..].
Qed.

Lemma args_collect_from fuel i n : Forall (λ arg, (length arg < fuel)%nat) argv → (i + n = length argv)%nat →
  args_collect m fuel {| argc := Z.of_nat (length argv); Ulib.argv := rsp + 8; index := Z.of_nat i |} (S n) tt = Done (drop i argv, tt).
Proof.
  intros Hf. revert i. induction n as [|n IH]; intros i Hi.
  - cbn [args_collect]. unfold args_next, args_get. cbn [argc index]. rewrite (proj2 (Z.leb_le _ _)) by lia.
    by rewrite drop_ge by lia.
  - destruct (lookup_lt_is_Some_2 argv i) as [arg Ha]; [lia|]. cbn [args_collect].
    rewrite (kbind_done _ _ _ (Some (arg, {| argc := Z.of_nat (length argv); Ulib.argv := rsp + 8; index := Z.of_nat (S i) |})) tt).
    + rewrite (kbind_done _ _ _ (drop (S i) argv) tt); [|apply (IH (S i)); lia]. by rewrite (drop_S argv arg i).
    + unfold args_next. cbn [index argc Ulib.argv].
      rewrite (ktry_some _ _ tt arg tt); [|apply args_get_ok; [done|by eapply Forall_lookup_1 in Hf]].
      replace (Z.of_nat (S i)) with (Z.of_nat i + 1) by lia. done.
Qed.
End Frame.

(** Arguments arrive: for every argument vector without NUL bytes, either the frame
    does not fit - nothing is written and the load fails - or the initial stack pointer
    is a multiple of 16 within the stack, memory outside of the frame is untouched, and
    the program that takes [argc] and [argv] off that stack pointer and iterates over
    its [Args] gets exactly the arguments, in order. *)
Theorem args_roundtrip stack argv (m : Z → Z) fuel :
  0 ≤ bottom stack → top stack ≤ usize_max → string_size argv ≤ usize_max → 8 * (Z.of_nat (length argv) + 3) ≤ usize_max →
  Forall no_nul argv → Forall (λ arg, (length arg < fuel)%nat) argv →
  match write_args_frame stack argv m with
  | Done (None, m') => m' = m ∧ top stack - string_size argv - 8 * (Z.of_nat (length argv) + 3) < bottom stack + 16
  | Done (Some rsp, m') =>
      bottom stack ≤ rsp < top stack ∧ rsp mod 16 = 0 ∧ (∀ x, ¬ (rsp ≤ x < top stack) → m' x = m x)
      ∧ args_len (entry_args m' rsp) = Z.of_nat (length argv)
      ∧ args_collect m' fuel (entry_args m' rsp) (S (length argv)) tt = Done (argv, tt)
  | Fault _ => False
  end.
Proof.
  intros Hb Ht Hs Hw Hn Hf. pose proof (args_frame_spec stack argv m Hb Ht Hs Hw) as Hspec. cbv zeta in Hspec.
  set (base := top stack - string_size argv - 8 * (Z.of_nat (length argv) + 3)) in *.
  pose proof (Z.div_mod base 16 ltac:(lia)). pose proof (Z.mod_pos_bound base 16 ltac:(lia)). pose proof (string_size_nonneg argv).
  destruct (decide _) as [[Hb0 Hb1]|Hno].
  - destruct Hspec as (m' & E & Hc & Ha & _ & _ & Ho). rewrite E. change (word_at m') with (load_word m').
    assert (Ee : entry_args m' (base / 16 * 16) = {| argc := Z.of_nat (length argv); Ulib.argv := base / 16 * 16 + 8; index := Z.of_nat 0 |})
      by (unfold entry_args, args_new; change (word_at m') with (load_word m'); by rewrite Hc).
    split_and!; [lia | lia | by apply Z_mod_mult | done | by rewrite Ee |].
    rewrite Ee. apply (args_collect_from m' _ _ _ argv Ha); [lia | done | done | lia].
  - rewrite Hspec. split; [done|]. lia.
Qed.

Lemma args_roundtrip_witness : Forall no_nul [[108; 115]; [47]] ∧ ∃ rsp m', write_args_frame demo_stack [[108; 115]; [47]] (λ _, 7) = Done (Some rsp, m') ∧
  args_collect m' 9 (entry_args m' rsp) 3 tt = Done ([[108; 115]; [47]], tt).
Proof.
  assert (Hn : Forall no_nul [[108; 115]; [47]]) by (repeat constructor; discriminate). split; [exact Hn|].
  assert (Hf : Forall (λ arg : list Z, (length arg < 9)%nat) [[108; 115]; [47]]) by (repeat constructor; cbn; lia).
  pose proof (args_roundtrip demo_stack [[108; 115]; [47]] (λ _, 7) 9 ltac:(by vm_compute) ltac:(by vm_compute) ltac:(by vm_compute) ltac:(by vm_compute) Hn Hf) as Hr.
  destruct (write_args_frame demo_stack [[108; 115]; [47]] (λ _, 7)) as [[[rsp|] m']|f].
  - exists rsp, m'. split; [done|]. apply Hr.
  - exfalso. destruct Hr as [_ Hr]. revert Hr. by vm_compute.
  - destruct Hr.
Defined.

(** ** Directory entries *)

Lemma position_none p l : Forall (λ b, p b = false) l → position p l = None.
Proof. induction 1 as [|b l Hb _ IH]; [done|]. cbn. by rewrite Hb, IH. Qed.
Lemma position_app p l b r : Forall (λ b, p b = false) l → p b = true → position p (l ++ b :: r) = Some (length l).
Proof. intros Hl Hb. induction Hl as [|x l Hx _ IH]; cbn; [by rewrite Hb|]. by rewrite Hx, IH. Qed.

Lemma name_bytes_padded name n attr size : no_nul name → name_bytes {| de_name := name ++ replicate n 0; de_attr := attr; de_size := size |} = name.
Proof.
  intros Hn. assert (Hf : Forall (λ b, (b =? 0) = false) name) by (eapply Forall_impl; [exact Hn|]; intros b Hb; by apply Z.eqb_neq).
  unfold name_bytes. cbn [de_name]. destruct n as [|n].
  - rewrite app_nil_r, position_none by done. cbn [default]. by rewrite take_ge.
  - cbn [replicate]. rewrite position_app by done. cbn [default]. apply take_app_length.
Qed.

Section Entries.
Context (padding : list Z).
Hypothesis padding_length : length padding = 3%nat.

Lemma dir_entry_load name attr :
  entry_load (dir_entry padding name attr) =
  let shown := take 256 (utf8_encode name) in {| de_name := shown ++ replicate (256 - length shown) 0; de_attr := attr; de_size := 0 |}.
Proof.
  cbv zeta. unfold dir_entry. change Syscalls.DIR_ENTRY_NAME_CAPACITY with 256%nat.
  set (name' := take 256 (utf8_encode name)). assert (Hl : (length name' ≤ 256)%nat) by (unfold name'; rewrite length_take; lia).
  assert (Hn : length (name' ++ replicate (256 - length name') 0) = 256%nat) by (rewrite length_app, length_replicate; lia).
  remember (name' ++ replicate (256 - length name') 0) as field eqn:Ef.
  assert (E : ∀ rest, name' ++ replicate (256 - length name') 0 ++ rest = field ++ rest) by (intros rest; by rewrite Ef, <- app_assoc).
  rewrite E. unfold entry_load. change Ulib.DIR_ENTRY_NAME_CAPACITY with 256%nat. f_equal.
  - rewrite take_app_le by lia. by rewrite take_ge by lia.
  - rewrite lookup_app_r by lia. by rewrite Hn.
  - rewrite drop_app_ge by lia. rewrite Hn. change (260 - 256)%nat with 4%nat.
    destruct padding as [|x [|y [|z [|]]]]; done.
Qed.

Lemma dir_entry_bytes_length name attr : length (dir_entry padding name attr) = DIR_ENTRY_SIZE.
Proof.
  unfold dir_entry. rewrite !length_app, length_replicate, length_take, padding_length. change Syscalls.DIR_ENTRY_NAME_CAPACITY with 256%nat.
  change DIR_ENTRY_SIZE with 264%nat. cbn [length le_bytes]. lia.
Qed.

(** A directory listing arrives: from the bytes that the kernel copies out - a record
    for each directory, then one for each file - a program reads back as many entries,
    each with its name (its first 256 bytes, if it is longer) and each known as a
    directory exactly if it is one. *)
Theorem listing_roundtrip (items : list (list Z * bool)) : Forall (λ x, no_nul (utf8_encode x.1)) items →
  let bytes := concat (map (λ x : list Z * bool, dir_entry padding x.1 (if x.2 then 0x10 else 0)) items) in
  map (λ e, (name_bytes e, is_directory e)) (map entry_load (chunks (length items) DIR_ENTRY_SIZE bytes))
  = map (λ x, (take 256 (utf8_encode x.1), x.2)) items.
Proof.
  intros Hn. cbv zeta. rewrite <- (List.length_map (λ x : list Z * bool, dir_entry padding x.1 (if x.2 then 0x10 else 0)) items), chunks_concat.
  - rewrite !List.map_map. apply List.map_ext_in. intros [name dir] Hin. rewrite dir_entry_load. cbn [fst snd]. f_equal.
    + apply name_bytes_padded, Forall_take. rewrite Forall_forall in Hn. by apply (Hn (name, dir)), list_elem_of_In.
    + by destruct dir.
  - apply Forall_forall. intros l (x & -> & _)%list_elem_of_fmap. apply dir_entry_bytes_length.
Qed.
End Entries.

Lemma listing_roundtrip_witness :
  map (λ e, (name_bytes e, is_directory e)) (map entry_load (chunks 2 DIR_ENTRY_SIZE (dir_entry [1; 2; 3] [98] 0x10 ++ dir_entry [1; 2; 3] [97; 46; 233] 0 ++ [])))
  = [([98], true); ([97; 46; 195; 169], false)].
Proof.
  apply (listing_roundtrip [1; 2; 3] eq_refl [([98], true); ([97; 46; 233], false)]).
  repeat constructor; discriminate.
Defined.
