(* ===== verification/Pci.v ===== *)
(** * Pci: ACPI tables and PCI functions

    (src/src/arch/x86_64/acpi/{mod,rsdt,mcfg,pci}.rs).  The tables and the
    configuration space lie in physical memory that the kernel identity-maps before it
    looks; [PciBus] is that memory.  Loads and stores of configuration registers are
    calls, for the device acts on them.  Log messages are left out. *)

From S2P Require Import Prelude Text.

(** Little-endian loads and stores of [width] bytes at an address, and
    [MemoryController::identity_map] of the frames from [start] to [end], writable. *)
Class PciBus (S : Type) := {
  bus_load : Z → Z → kst S Z;
  bus_store : Z → Z → Z → kst S unit;
  bus_identity_map : Z → Z → kst S unit;
}.

Definition PCI_PAGE_SIZE : Z := 4096.

Section Bus.
Context {S : Type} `{PciBus S}.

Definition acpi_mapping (physical_address size : Z) : kst S unit :=
  let start_frame := physical_address / PCI_PAGE_SIZE in
  let* end_ := uadd physical_address size in
  bus_identity_map start_frame (end_ / PCI_PAGE_SIZE).

(** ** Tables *)

(** [from_raw_parts]. *)
Fixpoint load_slice (addr : Z) (n : nat) : kst S (list Z) :=
  match n with
  | O => kret []
  | Datatypes.S n => let* b := bus_load 1 addr in let* rest := load_slice (addr + 1) n in kret (b :: rest)
  end.

Definition complies_table_checksum (slice : list Z) : bool := foldl (λ sum b, wrap 8 (sum + b)) 0 slice =? 0.

(** [AcpiSDTHeader]: the signature, the length at offset 4; 36 bytes. *)
Definition SDT_HEADER_SIZE : Z := 36.
Definition table_length (addr : Z) : kst S Z := bus_load 4 (addr + 4).
Definition check_table (addr : Z) : kst S unit :=
  let* n := table_length addr in
  let* slice := load_slice addr (Z.to_nat n) in
  if complies_table_checksum slice then kret tt else kfault Panic.

Definition MCFG : list Z := [77; 67; 70; 71].

(** The loop over the pointers of the RSDT, [n] to go. *)
Fixpoint rsdt_entries (n : nat) (curr_addr : Z) (mcfg : option Z) : kst S (option Z) :=
  match n with
  | O => kret mcfg
  | Datatypes.S n =>
      let* header := bus_load 4 curr_addr in
      let* sig := load_slice header 4 in
      let* signature := or_panic (utf8_decode sig) in
      rsdt_entries n (curr_addr + 4) (if bool_decide (signature = MCFG) then Some header else mcfg)
  end.
Definition parse_rsdt (address : Z) : kst S (option Z) :=
  check_table address ;;*
  let* len := table_length address in
  let* body := usub len SDT_HEADER_SIZE in
  rsdt_entries (Z.to_nat (body / 4)) (address + SDT_HEADER_SIZE) None.

Record McfgDeviceEntry := {
  pcie_config_addr : Z;
  bus_start_num : Z;
  bus_end_num : Z;
}.
Definition MCFG_ENTRY_SIZE : Z := 16.
Definition mcfg_entry (addr : Z) : kst S McfgDeviceEntry :=
  let* a := bus_load 8 addr in
  let* b := bus_load 1 (addr + 10) in
  let* e := bus_load 1 (addr + 11) in
  kret {| pcie_config_addr := a; bus_start_num := b; bus_end_num := e |}.
Fixpoint mcfg_entries (n : nat) (curr_addr : Z) : kst S (list McfgDeviceEntry) :=
  match n with
  | O => kret []
  | Datatypes.S n =>
      let* e := mcfg_entry curr_addr in
      let* rest := mcfg_entries n (curr_addr + MCFG_ENTRY_SIZE) in
      kret (e :: rest)
  end.
Definition parse_mcfg (mcfg : Z) : kst S (list McfgDeviceEntry) :=
  check_table mcfg ;;*
  let* len := table_length mcfg in
  let* body := usub len SDT_HEADER_SIZE in
  let* body := usub body 8 in
  mcfg_entries (Z.to_nat (body / MCFG_ENTRY_SIZE)) (mcfg + SDT_HEADER_SIZE + 8).

(** ** Classes *)

Inductive PciDeviceClass :=
  Unknown | NonVGACompatibleUnclassifiedDevice | VGACompatibleUnclassifiedDevice | SATAController | EthernetController
  | VGACompatibleController | HostBridge | ISABridge | SMBusController.
#[global] Instance device_class_eq_dec : EqDecision PciDeviceClass.
Proof. solve_decision. Defined.

Definition get_device_class (class subclass : Z) : PciDeviceClass :=
  match class with
  | 0x00 => match subclass with 0x00 => NonVGACompatibleUnclassifiedDevice | 0x01 => VGACompatibleUnclassifiedDevice | _ => Unknown end
  | 0x01 => match subclass with 0x06 => SATAController | _ => Unknown end
  | 0x02 => match subclass with 0x00 => EthernetController | _ => Unknown end
  | 0x03 => match subclass with 0x00 => VGACompatibleController | _ => Unknown end
  | 0x06 => match subclass with 0x00 => HostBridge | 0x01 => ISABridge | _ => Unknown end
  | 0x0C => match subclass with 0x05 => SMBusController | _ => Unknown end
  | _ => Unknown
  end.

Record PciDevice := {
  pci_base_addr : Z;
  vendor : Z;
  device_class : PciDeviceClass;
}.

Definition get_device (devices : list PciDevice) (class : PciDeviceClass) : option PciDevice :=
  head (filter (λ d, device_class d = class) devices).

(** ** Enumeration *)

(** A [PciDeviceHeader]: the vendor at offset 0, the device at 2, subclass and class at
    10 and 11. *)
Definition device_id (addr : Z) : kst S Z := bus_load 2 (addr + 2).

Definition enumerate_function (dev_addr : Z) (devices : list PciDevice) (function : Z) : kst S (list PciDevice) :=
  let* func_addr := uadd dev_addr (Z.shiftl function 12) in
  acpi_mapping func_addr PCI_PAGE_SIZE ;;*
  let* id := device_id func_addr in
  if id =? 0xFFFF then kret devices
  else
    let* class := bus_load 1 (func_addr + 11) in
    let* subclass := bus_load 1 (func_addr + 10) in
    let* v := bus_load 2 func_addr in
    kret (devices ++ [{| pci_base_addr := func_addr; vendor := v; device_class := get_device_class class subclass |}]).

(** A loop that threads the devices found so far. *)
Fixpoint for_each {A} (f : list PciDevice → A → kst S (list PciDevice)) (is_ : list A) (devices : list PciDevice) : kst S (list PciDevice) :=
  match is_ with
  | [] => kret devices
  | i :: is_ => let* devices := f devices i in for_each f is_ devices
  end.

Definition enumerate_device (bus_addr : Z) (devices : list PciDevice) (device : Z) : kst S (list PciDevice) :=
  let* dev_addr := uadd bus_addr (Z.shiftl device 15) in
  acpi_mapping dev_addr PCI_PAGE_SIZE ;;*
  let* id := device_id dev_addr in
  if id =? 0xFFFF then kret devices else for_each (enumerate_function dev_addr) (seqZ 0 8) devices.

Definition enumerate_bus (base_addr : Z) (devices : list PciDevice) (bus : Z) : kst S (list PciDevice) :=
  let* bus_addr := uadd base_addr (Z.shiftl bus 20) in
  acpi_mapping bus_addr PCI_PAGE_SIZE ;;*
  let* id := device_id bus_addr in
  if id =? 0xFFFF then kret devices else for_each (enumerate_device bus_addr) (seqZ 0 32) devices.

(** [start..=end]. *)
Definition enumerate_entry (devices : list PciDevice) (entry : McfgDeviceEntry) : kst S (list PciDevice) :=
  for_each (enumerate_bus (pcie_config_addr entry)) (seqZ (bus_start_num entry) (bus_end_num entry - bus_start_num entry + 1)) devices.
Definition enumerate_pci (entries : list McfgDeviceEntry) : kst S (list PciDevice) := for_each enumerate_entry entries [].

(** [init_acpi] behind the RSDP: [rsdt] is the address the multiboot information names;
    without an MCFG the kernel stops in a loop. *)
Definition init_acpi (rsdt : option Z) : kst S (list PciDevice) :=
  match rsdt with
  | None => kfault Hang
  | Some rsdt_address =>
      acpi_mapping rsdt_address PCI_PAGE_SIZE ;;*
      let* mcfg := parse_rsdt rsdt_address in
      match mcfg with
      | None => kfault Hang
      | Some mcfg => let* entries := parse_mcfg mcfg in enumerate_pci entries
      end
  end.

(** ** Base address registers *)

Inductive BarType :=
  | IO (address : Z)
  | Memory32 (address : Z) (prefetchable : bool)
  | Memory64 (address : Z) (prefetchable : bool).

Definition parse_bar_type (bar : Z) (next_bar : option Z) : option BarType :=
  if bar =? 0 then None
  else if Z.land bar 1 =? 1 then Some (IO (Z.land bar 0xFFFFFFFC))
  else
    let mem_type := Z.land (Z.shiftr bar 1) 3 in
    let prefetchable := negb (Z.land bar 8 =? 0) in
    if mem_type =? 0 then Some (Memory32 (Z.land bar 0xFFFFFFF0) prefetchable)
    else if mem_type =? 2 then
      next ← next_bar; Some (Memory64 (Z.lor (Z.shiftl next 32) (Z.land bar 0xFFFFFFF0)) prefetchable)
    else None.

Definition COMMAND : Z := 4.
Definition bar_offset (i : Z) : Z := 0x10 + 4 * i.

Definition get_bar_type (header bar_index : Z) : kst S (option BarType) :=
  if (0 <=? bar_index) && (bar_index <? 5) then
    let* bar := bus_load 4 (header + bar_offset bar_index) in
    let* next := bus_load 4 (header + bar_offset (bar_index + 1)) in
    kret (parse_bar_type bar (Some next))
  else if bar_index =? 5 then
    let* bar := bus_load 4 (header + bar_offset 5) in kret (parse_bar_type bar None)
  else kret None.

Definition not64 (x : Z) : Z := wrap 64 (Z.lnot x).
Definition ALL_ONES : Z := 0xFFFFFFFF.

(** The store of all ones, the load, and the stores that put BAR and command back. *)
Definition probe_one (command_ptr bar_ptr command_orig original : Z) : kst S Z :=
  bus_store 4 bar_ptr ALL_ONES ;;*
  let* probed := bus_load 4 bar_ptr in
  bus_store 4 bar_ptr original ;;*
  bus_store 2 command_ptr command_orig ;;*
  kret probed.

Definition probe_bar_size (header bar_index : Z) : kst S (option Z) :=
  if 6 <=? bar_index then kret None
  else
    let command_ptr := header + COMMAND in
    let bar_ptr := header + bar_offset bar_index in
    let* command_orig := bus_load 2 command_ptr in
    bus_store 2 command_ptr (Z.ldiff command_orig 3) ;;*
    let* original := bus_load 4 bar_ptr in
    if original =? 0 then bus_store 2 command_ptr command_orig ;;* kret None
    else
      let probe_one := probe_one command_ptr bar_ptr command_orig original in
      if negb (Z.land original 1 =? 0) then
        let* probed := probe_one in
        let mask := Z.land probed 0xFFFFFFFC in
        kret (if mask =? 0 then None else Some (wrap 64 (not64 mask + 1)))
      else
        let mem_type := Z.land (Z.shiftr original 1) 3 in
        if mem_type =? 0 then
          let* probed := probe_one in
          let mask := Z.land probed 0xFFFFFFF0 in
          kret (if mask =? 0 then None else Some (Z.land (wrap 64 (not64 mask + 1)) 0xFFFFFFFF))
        else if mem_type =? 2 then
          let next_ptr := header + bar_offset (bar_index + 1) in
          let* original_hi := bus_load 4 next_ptr in
          bus_store 4 bar_ptr ALL_ONES ;;*
          bus_store 4 next_ptr ALL_ONES ;;*
          let* probed_lo := bus_load 4 bar_ptr in
          let* probed_hi := bus_load 4 next_ptr in
          bus_store 4 bar_ptr original ;;*
          bus_store 4 next_ptr original_hi ;;*
          bus_store 2 command_ptr command_orig ;;*
          let probed := Z.lor (Z.shiftl probed_hi 32) (Z.land probed_lo 0xFFFFFFF0) in
          kret (if probed =? 0 then None else Some (wrap 64 (not64 probed + 1)))
        else bus_store 2 command_ptr command_orig ;;* kret None.

Definition read_bar_raw (header bar_index : Z) : kst S (option Z) :=
  if 6 <=? bar_index then kret None else let* v := bus_load 4 (header + bar_offset bar_index) in kret (Some v).

Definition enable_bus_mastering (header : Z) : kst S unit :=
  let* command := bus_load 2 (header + COMMAND) in
  bus_store 2 (header + COMMAND) (Z.lor (Z.lor command (Z.shiftl 1 2)) (Z.shiftl 1 1)).
End Bus.
