(* ===== verification/PciSpec.v ===== *)
(** * PciSpec: sizing base address registers

    [PciFunction] says how the configuration registers of a function behave: a store
    changes the bits that are implemented and no others.  [settled] records that no
    base address changed while the function was decoding addresses. *)

From S2P Require Import Prelude Text Pci.

(** ** Registers with hardwired bits *)

Definition latch (mask v old : Z) : Z := Z.lor (Z.land v mask) (Z.ldiff old mask).

Class PciFunction (S : Type) `{PciBus S} (header : Z) := {
  command : S → Z;
  bar : S → Z → Z;
  (** the implemented bits *)
  command_mask : Z;
  bar_mask : Z → Z;
  settled : S → bool;

  bar_range s i : 0 ≤ bar s i < 2 ^ 32;
  bar_mask_range i : 0 ≤ bar_mask i < 2 ^ 32;
  (** the two decode enables are implemented *)
  command_decodes : Z.land command_mask 3 = 3;

  load_command s : bus_load 2 (header + COMMAND) s = Done (command s, s);
  load_bar i s : 0 ≤ i < 6 → bus_load 4 (header + bar_offset i) s = Done (bar s i, s);
  store_command v s : ∃ s', bus_store 2 (header + COMMAND) v s = Done (tt, s')
    ∧ command s' = latch command_mask v (command s) ∧ (∀ j, bar s' j = bar s j) ∧ settled s' = settled s;
  store_bar i v s : 0 ≤ i < 6 → ∃ s', bus_store 4 (header + bar_offset i) v s = Done (tt, s')
    ∧ command s' = command s ∧ (∀ j, bar s' j = if j =? i then latch (bar_mask i) v (bar s i) else bar s j)
    ∧ settled s' = settled s && (Z.land (command s) 3 =? 0);
}.

Lemma latch_back mask v old : latch mask old (latch mask v old) = old.
Proof.
  unfold latch. apply Z.bits_inj'. intros n Hn. rewrite Z.lor_spec, !Z.land_spec, !Z.ldiff_spec, Z.lor_spec, Z.land_spec, Z.ldiff_spec.
  by destruct (Z.testbit old n), (Z.testbit mask n), (Z.testbit v n).
Qed.

Lemma latch_decode_off mask c : Z.land mask 3 = 3 → Z.land (latch mask (Z.ldiff c 3) c) 3 = 0.
Proof.
  intros Hm. unfold latch. apply Z.bits_inj'. intros n Hn. apply (f_equal (λ z, Z.testbit z n)) in Hm. rewrite Z.land_spec in Hm.
  rewrite Z.land_spec, Z.lor_spec, Z.land_spec, !Z.ldiff_spec, Z.bits_0.
  destruct (Z.testbit 3 n); [|by rewrite andb_false_r]. rewrite andb_true_r in Hm. rewrite Hm. by destruct (Z.testbit c n).
Qed.

Lemma latch_ones mask old : 0 ≤ mask < 2 ^ 32 → latch mask ALL_ONES old = Z.lor mask (Z.ldiff old mask).
Proof.
  intros Hm. unfold latch. f_equal. change ALL_ONES with (Z.ones 32). rewrite Z.land_comm, Z.land_ones by lia. by apply Z.mod_small.
Qed.

Lemma probed_mask mask t : 0 ≤ mask < 2 ^ 32 → mask mod 16 = 0 → 0 ≤ t < 16 → Z.land (Z.lor mask t) 0xFFFFFFF0 = mask.
Proof.
  intros Hm H16 Ht. change 0xFFFFFFF0 with (Z.ldiff (Z.ones 32) (Z.ones 4)).
  assert (Em : mask = Z.shiftl (mask / 16) 4) by (rewrite Z.shiftl_mul_pow2 by lia; pose proof (Z.div_mod mask 16); lia).
  assert (E32 : Z.land mask (Z.ones 32) = mask) by (rewrite Z.land_ones by lia; by apply Z.mod_small).
  assert (Et : Z.land t (Z.ones 4) = t) by (rewrite Z.land_ones by lia; by apply Z.mod_small).
  apply Z.bits_inj'. intros n Hn. rewrite Z.land_spec, Z.lor_spec, Z.ldiff_spec.
  apply (f_equal (λ z, Z.testbit z n)) in E32, Et. rewrite Z.land_spec in E32, Et. rewrite (Z.testbit_ones_nonneg 4) in * by lia.
  destruct (Z.ltb_spec n 4).
  - rewrite andb_false_r, andb_false_r. rewrite Em, Z.shiftl_spec by lia. by rewrite Z.testbit_neg_r by lia.
  - rewrite andb_false_r in Et. rewrite <- Et, orb_false_r, andb_true_r. done.
Qed.

Lemma not64_succ x : 0 < x < 2 ^ 64 → wrap 64 (not64 x + 1) = 2 ^ 64 - x.
Proof.
  intros Hx. unfold not64, wrap. rewrite Zplus_mod_idemp_l. unfold Z.lnot. replace (Z.pred (- x) + 1) with (- x) by lia.
  rewrite <- (Z_mod_plus_full (- x) 1). rewrite Z.mod_small by lia. lia.
Qed.

Lemma type_bits b t : Z.land b 7 = t → Z.land b 1 = t mod 2 ∧ Z.land (Z.shiftr b 1) 3 = t / 2.
Proof.
  intros <-. change 7 with (Z.ones 3).
  assert (Hl : ∀ x n, 0 ≤ n → Z.land x (Z.ones n) = x mod 2 ^ n) by (intros; by apply Z.land_ones).
  rewrite (Hl b 3) by lia. pose proof (Hl b 1 ltac:(lia)) as E0. change (Z.ones 1) with 1 in E0. rewrite E0. clear E0.
  pose proof (Hl (Z.shiftr b 1) 2 ltac:(lia)) as E0. change (Z.ones 2) with 3 in E0. rewrite E0, Z.shiftr_div_pow2 by lia. clear E0.
  change (2 ^ 3) with 8. change (2 ^ 2) with 4. change (2 ^ 1) with 2.
  pose proof (Z.div_mod b 8) as E1. pose proof (Z.mod_pos_bound b 8 ltac:(lia)).
  split.
  - rewrite E1 at 1 by lia. replace (8 * (b / 8) + b mod 8) with (b mod 8 + (4 * (b / 8)) * 2) by lia. apply Z_mod_plus_full.
  - rewrite E1 at 1 by lia. replace (8 * (b / 8) + b mod 8) with (b mod 8 + (4 * (b / 8)) * 2) by lia. rewrite Z_div_plus_full by lia.
    replace (b mod 8 / 2 + 4 * (b / 8)) with (b mod 8 / 2 + (b / 8) * 4) by lia. rewrite Z_mod_plus_full. apply Z.mod_small.
    split; [apply Z.div_pos; lia | apply Z.div_lt_upper_bound; lia].
Qed.

Section Sizing.
Context {S : Type} (header : Z) `{PciFunction S header}.

(** A register that decodes [2 ^ k] bytes implements the address bits from [k] on; the
    four type bits below are hardwired. *)
Inductive decodes (s : S) (i : Z) : Z → Prop :=
  | decodes32 k : 4 ≤ k ≤ 31 → bar_mask i = 2 ^ 32 - 2 ^ k → Z.land (bar s i) 7 = 0 → bar s i ≠ 0 →
      Z.ldiff (bar s i) (bar_mask i) < 16 → decodes s i (2 ^ k)
  | decodes64 k : i < 5 → 4 ≤ k < 64 → bar_mask i + 2 ^ 32 * bar_mask (i + 1) = 2 ^ 64 - 2 ^ k → Z.land (bar s i) 7 = 4 →
      Z.ldiff (bar s i) (bar_mask i) < 16 → Z.ldiff (bar s (i + 1)) (bar_mask (i + 1)) = 0 → decodes s i (2 ^ k).

(** The same registers, and nothing was disturbed. *)
Definition same_registers (s s' : S) : Prop :=
  command s' = command s ∧ (∀ j, bar s' j = bar s j) ∧ settled s' = settled s.

(** What is stored in between: the decode enables are off. *)
Record decode_off (s s' : S) : Prop := {
  off_command : command s' = latch command_mask (Z.ldiff (command s) 3) (command s);
  off_settled : settled s' = settled s;
}.

Lemma turn_off s : ∃ s', bus_store 2 (header + COMMAND) (Z.ldiff (command s) 3) s = Done (tt, s') ∧ decode_off s s' ∧ ∀ j, bar s' j = bar s j.
Proof. destruct (store_command (Z.ldiff (command s) 3) s) as (s' & E & Ec & Eb & Es). by exists s'. Qed.

Lemma store_bar_off s s1 i v : 0 ≤ i < 6 → decode_off s s1 →
  ∃ s2, bus_store 4 (header + bar_offset i) v s1 = Done (tt, s2) ∧ decode_off s s2
    ∧ ∀ j, bar s2 j = if j =? i then latch (bar_mask i) v (bar s1 i) else bar s1 j.
Proof.
  intros Hi [Hc Hs]. destruct (store_bar i v s1 Hi) as (s2 & E & Ec & Eb & Es). exists s2. split_and!; [done| |done].
  split; [by rewrite Ec|]. rewrite Es, Hs, Hc, latch_decode_off by apply command_decodes. apply andb_true_r.
Qed.

Lemma turn_on s s1 : decode_off s s1 → (∀ j, bar s1 j = bar s j) →
  ∃ s2, bus_store 2 (header + COMMAND) (command s) s1 = Done (tt, s2) ∧ same_registers s s2.
Proof.
  intros [Hc Hs] Hb. destruct (store_command (command s) s1) as (s2 & E & Ec & Eb & Es). exists s2. split; [done|].
  split_and!; [by rewrite Ec, Hc, latch_back | intros j; by rewrite Eb | by rewrite Es].
Qed.

Lemma hardwired_range s i : 0 ≤ Z.ldiff (bar s i) (bar_mask i).
Proof. apply Z.ldiff_nonneg. left. apply bar_range. Qed.

Lemma probe_one_ok s s1 i : 0 ≤ i < 6 → decode_off s s1 → (∀ j, bar s1 j = bar s j) →
  ∃ s', probe_one (header + COMMAND) (header + bar_offset i) (command s) (bar s i) s1 = Done (latch (bar_mask i) ALL_ONES (bar s i), s')
    ∧ same_registers s s'.
Proof.
  intros Hi H1 Hb1. destruct (store_bar_off s s1 i ALL_ONES Hi H1) as (s2 & E2 & H2 & Hb2).
  destruct (store_bar_off s s2 i (bar s i) Hi H2) as (s3 & E3 & H3 & Hb3).
  destruct (turn_on s s3 H3) as (s4 & E4 & H4).
  { intros j. rewrite Hb3, !Hb2, Z.eqb_refl, Hb1. destruct (Z.eqb_spec j i) as [->|]; [apply latch_back|by rewrite Hb1]. }
  exists s4. split; [|done]. unfold probe_one.
  rewrite (kbind_done _ _ _ _ _ E2), (kbind_done _ _ _ _ _ (load_bar i s2 Hi)), (kbind_done _ _ _ _ _ E3), (kbind_done _ _ _ _ _ E4).
  by rewrite Hb2, Z.eqb_refl, Hb1.
Qed.

(** The pair of registers of a 64-bit base address. *)
Lemma probe_pair s s1 i : 0 ≤ i < 5 → decode_off s s1 → (∀ j, bar s1 j = bar s j) →
  ∃ s2 s3 s4 s5 s6,
    bus_store 4 (header + bar_offset i) ALL_ONES s1 = Done (tt, s2)
    ∧ bus_store 4 (header + bar_offset (i + 1)) ALL_ONES s2 = Done (tt, s3)
    ∧ bar s3 i = latch (bar_mask i) ALL_ONES (bar s i) ∧ bar s3 (i + 1) = latch (bar_mask (i + 1)) ALL_ONES (bar s (i + 1))
    ∧ bus_store 4 (header + bar_offset i) (bar s i) s3 = Done (tt, s4)
    ∧ bus_store 4 (header + bar_offset (i + 1)) (bar s (i + 1)) s4 = Done (tt, s5)
    ∧ bus_store 2 (header + COMMAND) (command s) s5 = Done (tt, s6) ∧ same_registers s s6.
Proof.
  intros Hi H1 Hb1. assert (Hi0 : 0 ≤ i < 6) by lia. assert (Hi1 : 0 ≤ i + 1 < 6) by lia.
  destruct (store_bar_off s s1 i ALL_ONES Hi0 H1) as (s2 & E2 & H2 & Hb2).
  destruct (store_bar_off s s2 (i + 1) ALL_ONES Hi1 H2) as (s3 & E3 & H3 & Hb3).
  destruct (store_bar_off s s3 i (bar s i) Hi0 H3) as (s4 & E4 & H4 & Hb4).
  destruct (store_bar_off s s4 (i + 1) (bar s (i + 1)) Hi1 H4) as (s5 & E5 & H5 & Hb5).
  assert (Ei : (i =? i + 1) = false) by (apply Z.eqb_neq; lia). assert (Ej : (i + 1 =? i) = false) by (apply Z.eqb_neq; lia).
  destruct (turn_on s s5 H5) as (s6 & E6 & H6).
  { intros j. rewrite Hb5, !Hb4, !Hb3, !Hb2, ?Z.eqb_refl, ?Ei, ?Ej, ?Hb1, ?Z.eqb_refl.
    destruct (Z.eqb_spec j (i + 1)) as [->|]; [apply latch_back|]. destruct (Z.eqb_spec j i) as [->|]; [apply latch_back|done]. }
  exists s2, s3, s4, s5, s6. split_and!; try done.
  - by rewrite Hb3, Ei, Hb2, Z.eqb_refl, Hb1.
  - by rewrite Hb3, Z.eqb_refl, Hb2, Ej, Hb1.
Qed.

(** Sizing: for a memory BAR that decodes [n] bytes - a 32-bit one, or a pair of
    registers with up to 64 address bits - the probe returns [n], leaves the command
    register and all base addresses as they were, and never changes a base address
    while the function decodes. *)
Theorem probe_bar_size_spec i s n : 0 ≤ i < 6 → decodes s i n →
  ∃ s', probe_bar_size header i s = Done (Some n, s') ∧ same_registers s s'.
Proof.
  intros Hi Hd. destruct (turn_off s) as (s1 & E1 & H1 & Hb1). pose proof (bar_mask_range i) as Hm. pose proof (hardwired_range s i) as Hh.
  unfold probe_bar_size. rewrite (proj2 (Z.leb_gt 6 i)) by lia.
  rewrite (kbind_done _ _ _ _ _ (load_command s)), (kbind_done _ _ _ _ _ E1), (kbind_done _ _ _ _ _ (load_bar i s1 Hi)), Hb1.
  destruct Hd as [k Hk Ew Ht Hne Hlow | k Hi5 Hk Ew Ht Hlow Hhigh]; apply type_bits in Ht as Hty; destruct Hty as [Et1 Et2]; rewrite Et1, Et2.
  - rewrite (proj2 (Z.eqb_neq (bar s i) 0) Hne). change (negb (0 mod 2 =? 0)) with false. change (0 / 2 =? 0) with true. cbn [negb].
    destruct (probe_one_ok s s1 i Hi H1 Hb1) as (s' & E & Hs'). exists s'. split; [|done]. rewrite (kbind_done _ _ _ _ _ E).
    assert (E2k : 2 ^ k = 2 ^ (k - 4) * 16) by (change 16 with (2 ^ 4); rewrite <- Z.pow_add_r by lia; f_equal; lia).
    assert (Hk2 : 0 < 2 ^ k ≤ 2 ^ 31) by (split; [apply Z.pow_pos_nonneg; lia | apply Z.pow_le_mono_r; lia]).
    rewrite latch_ones, probed_mask by first [lia | rewrite Ew, E2k; apply Z.mod_divide; [lia|exists (2 ^ 28 - 2 ^ (k - 4)); lia]].
    rewrite (proj2 (Z.eqb_neq _ _)) by lia. rewrite not64_succ by lia. rewrite Ew. unfold kret. do 3 f_equal.
    change 0xFFFFFFFF with (Z.ones 32). rewrite Z.land_ones by lia.
    replace (2 ^ 64 - (2 ^ 32 - 2 ^ k)) with (2 ^ k + (2 ^ 32 - 1) * 2 ^ 32) by lia. rewrite Z_mod_plus_full. apply Z.mod_small. lia.
  - assert (Hne : bar s i ≠ 0) by (intros E0; rewrite E0 in Ht; done).
    rewrite (proj2 (Z.eqb_neq (bar s i) 0) Hne). change (negb (4 mod 2 =? 0)) with false. change (4 / 2 =? 0) with false. change (4 / 2 =? 2) with true. cbn [negb].
    assert (Hi1 : 0 ≤ i + 1 < 6) by lia. pose proof (bar_mask_range (i + 1)) as Hm1.
    destruct (probe_pair s s1 i ltac:(lia) H1 Hb1) as (s2 & s3 & s4 & s5 & s6 & E2 & E3 & L1 & L2 & E4 & E5 & E6 & Hs6). exists s6. split; [|done].
    rewrite (kbind_done _ _ _ _ _ (load_bar (i + 1) s1 Hi1)), (kbind_done _ _ _ _ _ E2), (kbind_done _ _ _ _ _ E3), (kbind_done _ _ _ _ _ (load_bar i s3 Hi)),
      (kbind_done _ _ _ _ _ (load_bar (i + 1) s3 Hi1)), (kbind_done _ _ _ _ _ E4), Hb1, (kbind_done _ _ _ _ _ E5), (kbind_done _ _ _ _ _ E6), L1, L2.
    rewrite !latch_ones, Hhigh, Z.lor_0_r by lia.
    assert (E2k : 2 ^ k = 2 ^ (k - 4) * 16) by (change 16 with (2 ^ 4); rewrite <- Z.pow_add_r by lia; f_equal; lia).
    assert (Hk2 : 0 < 2 ^ k < 2 ^ 64) by (split; [apply Z.pow_pos_nonneg; lia | apply Z.pow_lt_mono_r; lia]).
    rewrite probed_mask by first [lia | apply Z.mod_divide; [lia|exists (2 ^ 60 - 2 ^ (k - 4) - 2 ^ 28 * bar_mask (i + 1)); lia]].
    rewrite lor_shiftl_low by lia. replace (bar_mask (i + 1) * 2 ^ 32 + bar_mask i) with (2 ^ 64 - 2 ^ k) by lia.
    rewrite (proj2 (Z.eqb_neq _ _)) by lia. rewrite not64_succ by lia. unfold kret. do 3 f_equal. lia.
Qed.
End Sizing.

(** ** A function with three base addresses *)

(** BAR 0 decodes 128 KiB below 4 GiB, BARs 2 and 3 decode 8 GiB with 64 address bits,
    BAR 4 decodes 32 ports. *)
Record Card := {
  cd_command : Z;
  cd_bar : Z → Z;
  cd_settled : bool;
}.
Definition card_mask (i : Z) : Z :=
  if i =? 0 then 0xFFFE0000 else if i =? 3 then 0xFFFFFFFE else if i =? 4 then 0xFFFFFFE0 else 0.

Definition card_index (a : Z) : option Z := if (a mod 4 =? 0) && (0x10 <=? a) && (a <? 0x28) then Some ((a - 0x10) / 4) else None.
#[global] Instance card_bus : PciBus Card := {
  bus_load _ a := kgets (λ c, match card_index a with Some i => cd_bar c i mod 2 ^ 32 | None => cd_command c end);
  bus_store _ a v := kmodify (λ c,
    match card_index a with
    | Some i => {| cd_command := cd_command c; cd_bar := λ j, if j =? i then latch (card_mask i) v (cd_bar c i mod 2 ^ 32) else cd_bar c j;
                   cd_settled := cd_settled c && (Z.land (cd_command c) 3 =? 0) |}
    | None => {| cd_command := latch 0x407 v (cd_command c); cd_bar := cd_bar c; cd_settled := cd_settled c |}
    end);
  bus_identity_map _ _ := kret tt;
}.

Lemma card_bar i : 0 ≤ i < 6 → card_index (0 + bar_offset i) = Some i.
Proof. intros Hi. assert (i = 0 ∨ i = 1 ∨ i = 2 ∨ i = 3 ∨ i = 4 ∨ i = 5) as [->|[->|[->|[->|[->| ->]]]]] by lia; done. Qed.

#[global] Program Instance card_function : PciFunction Card 0 := {
  command := cd_command;
  bar c i := cd_bar c i mod 2 ^ 32;
  command_mask := 0x407;
  bar_mask := card_mask;
  settled := cd_settled;
}.
Next Obligation. intros. apply Z.mod_pos_bound. lia. Qed.
Next Obligation. intros i. unfold card_mask. repeat case_match; lia. Qed.
Next Obligation. done. Qed.
Next Obligation. done. Qed.
Next Obligation. intros i c Hi. cbn. unfold kgets. by rewrite card_bar. Qed.
Next Obligation. intros v c. eexists. split; [reflexivity|]. done. Qed.
Next Obligation.
  intros i v c Hi. cbn. unfold kmodify. rewrite card_bar by done. eexists. split; [reflexivity|]. split_and!; [done| |done].
  intros j. cbn. destruct (Z.eqb_spec j i) as [->|]; [|done]. apply Z.mod_small. unfold latch.
  assert (Hm : Z.land (Z.lor (Z.land v (card_mask i)) (Z.ldiff (cd_bar c i mod 2 ^ 32) (card_mask i))) (Z.ones 32)
    = Z.lor (Z.land v (card_mask i)) (Z.ldiff (cd_bar c i mod 2 ^ 32) (card_mask i))).
  { assert (Hc : Z.land (card_mask i) (Z.ones 32) = card_mask i) by (unfold card_mask; repeat case_match; reflexivity).
    apply Z.bits_inj'. intros n Hn. apply (f_equal (λ z, Z.testbit z n)) in Hc. rewrite Z.land_spec in Hc.
    rewrite <- Z.land_ones by lia. rewrite !Z.land_spec, Z.lor_spec, Z.land_spec, Z.ldiff_spec, Z.land_spec.
    destruct (Z.testbit (Z.ones 32) n); [by rewrite !andb_true_r|]. rewrite !andb_false_r in *. by rewrite <- Hc, andb_false_r. }
  rewrite <- Hm, Z.land_ones by lia. apply Z.mod_pos_bound. lia.
Qed.

Definition card : Card :=
  {| cd_command := 7; cd_bar := λ i, if i =? 0 then 0xFEB80000 else if i =? 2 then 0xC else if i =? 3 then 0x10 else if i =? 4 then 0xC001 else 0;
     cd_settled := true |}.

Lemma probe_bar_size_spec_witness :
  (∃ s', probe_bar_size 0 0 card = Done (Some 0x20000, s') ∧ same_registers 0 card s') ∧
  (∃ s', probe_bar_size 0 2 card = Done (Some 0x200000000, s') ∧ same_registers 0 card s').
Proof.
  split; apply probe_bar_size_spec; [lia | | lia |].
  - apply (decodes32 0 card 0 17); [lia | reflexivity | reflexivity | discriminate | reflexivity].
  - apply (decodes64 0 card 2 33); [lia | lia | reflexivity | reflexivity | reflexivity | reflexivity].
Defined.

(** The 32 ports of BAR 4 come out as almost 2^64. *)
Lemma io_bar_size : ∃ s', probe_bar_size 0 4 card = Done (Some (2 ^ 64 - 2 ^ 32 + 32), s').
Proof. eexists. vm_compute. reflexivity. Qed.

(** A 64-bit BAR of which no address is assigned yet is sized, an unassigned 32-bit one
    is taken for absent. *)
Lemma unassigned_bar : ∃ s', probe_bar_size 0 0 {| cd_command := 7; cd_bar := λ _, 0; cd_settled := true |} = Done (None, s').
Proof. eexists. vm_compute. reflexivity. Qed.
