(* ===== verification/PciScan.v ===== *)
(** * PciScan: what device discovery finds

    [init_acpi] against tables and configuration headers that lie still in memory. *)

From S2P Require Import Prelude Text Pci.

Section Scan.
Context {S : Type} `{PciBus S}.
(** The value of [width] bytes at an address, while the kernel looks. *)
Context (value : Z → Z → Z) (still : S → Prop).
Hypothesis loads : ∀ w a s, still s → ∃ s', bus_load w a s = Done (value w a, s') ∧ still s'.
Hypothesis maps : ∀ a b s, still s → ∃ s', bus_identity_map a b s = Done (tt, s') ∧ still s'.

(** [m] returns [a] and disturbs nothing. *)
Definition gives {A} (m : kst S A) (a : A) : Prop := ∀ s, still s → ∃ s', m s = Done (a, s') ∧ still s'.

Lemma gives_ret {A} (a : A) : gives (kret a) a.
Proof. intros s Hs. by exists s. Qed.
Lemma gives_bind {A B} (m : kst S A) (k : A → kst S B) a b : gives m a → gives (k a) b → gives (kbind m k) b.
Proof. intros Hm Hk s Hs. destruct (Hm s Hs) as (s1 & E1 & H1). destruct (Hk s1 H1) as (s2 & E2 & H2). exists s2. by rewrite (kbind_done _ _ _ _ _ E1). Qed.
Lemma gives_load w a : gives (bus_load w a) (value w a).
Proof. intros s Hs. by apply loads. Qed.
Lemma gives_uadd a b : a + b ≤ usize_max → gives (uadd a b) (a + b).
Proof. intros Hb s Hs. exists s. by rewrite uadd_ok. Qed.
Lemma gives_usub a b : b ≤ a → gives (usub a b) (a - b).
Proof. intros Hb s Hs. exists s. by rewrite usub_ok. Qed.
Lemma gives_mapping a n : a + n ≤ usize_max → gives (acpi_mapping a n) tt.
Proof. intros Hb. unfold acpi_mapping. eapply gives_bind; [by apply gives_uadd|]. intros s Hs. by apply maps. Qed.
Create HintDb gives.
#[local] Hint Resolve gives_ret gives_load gives_uadd gives_usub gives_mapping : gives.
Ltac step := eapply gives_bind; [by eauto with gives lia|]; cbn beta.

(** ** Functions *)

Definition present (a : Z) : bool := negb (value 2 (a + 2) =? 0xFFFF).
Definition device_at (a : Z) : PciDevice :=
  {| pci_base_addr := a; vendor := value 2 a; device_class := get_device_class (value 1 (a + 11)) (value 1 (a + 10)) |}.

(** The headers that answer: of a device behind its function 0, of a bus behind its
    device 0. *)
Definition functions (dev : Z) : list Z := if present dev then List.filter present (map (λ f, dev + 2 ^ 12 * f) (seqZ 0 8)) else [].
Definition bus_functions (bus : Z) : list Z := if present bus then concat (map (λ d, functions (bus + 2 ^ 15 * d)) (seqZ 0 32)) else [].
Definition entry_functions (e : McfgDeviceEntry) : list Z :=
  concat (map (λ b, bus_functions (pcie_config_addr e + 2 ^ 20 * b)) (seqZ (bus_start_num e) (bus_end_num e - bus_start_num e + 1))).

(** A loop adds what each turn finds. *)
Lemma for_each_gives {A} (f : list PciDevice → A → kst S (list PciDevice)) (found : A → list Z) is_ devices :
  (∀ i, In i is_ → ∀ ds, gives (f ds i) (ds ++ map device_at (found i))) →
  gives (for_each f is_ devices) (devices ++ map device_at (concat (map found is_))).
Proof.
  revert devices. induction is_ as [|i is_ IH]; intros devices Hf.
  { cbn. rewrite app_nil_r. apply gives_ret. }
  cbn [for_each map concat]. rewrite List.map_app, app_assoc. eapply gives_bind; [apply Hf; by left|]. apply IH. intros j Hj. apply Hf. by right.
Qed.

Lemma shift12 f : Z.shiftl f 12 = 2 ^ 12 * f. Proof. rewrite Z.shiftl_mul_pow2; lia. Qed.
Lemma shift15 f : Z.shiftl f 15 = 2 ^ 15 * f. Proof. rewrite Z.shiftl_mul_pow2; lia. Qed.
Lemma shift20 f : Z.shiftl f 20 = 2 ^ 20 * f. Proof. rewrite Z.shiftl_mul_pow2; lia. Qed.

Lemma in_seqZ a n i : In i (seqZ a n) → a ≤ i < a + n.
Proof. rewrite <- list_elem_of_In, elem_of_seqZ. done. Qed.

Lemma concat_filter (p : Z → bool) l : concat (map (λ a, if p a then [a] else []) l) = List.filter p l.
Proof. induction l as [|a l IH]; [done|]. cbn. rewrite IH. by destruct (p a). Qed.

Lemma enumerate_function_gives dev ds f : 0 ≤ f < 8 → dev + 2 ^ 15 + 4096 ≤ usize_max →
  gives (enumerate_function dev ds f) (ds ++ map device_at (if present (dev + 2 ^ 12 * f) then [dev + 2 ^ 12 * f] else [])).
Proof.
  intros Hf Hb. unfold enumerate_function, PCI_PAGE_SIZE, device_id, present. rewrite shift12. step. step. step.
  destruct (_ =? 0xFFFF); cbn [negb map]; [rewrite app_nil_r; apply gives_ret|]. step. step. step. apply gives_ret.
Qed.

Lemma enumerate_device_gives bus ds d : 0 ≤ d < 32 → bus + 2 ^ 20 + 4096 ≤ usize_max →
  gives (enumerate_device bus ds d) (ds ++ map device_at (functions (bus + 2 ^ 15 * d))).
Proof.
  intros Hd Hb. unfold enumerate_device, functions, PCI_PAGE_SIZE, device_id. rewrite shift15. step. step. step. unfold present at 1.
  destruct (_ =? 0xFFFF); cbn [negb]; [rewrite app_nil_r; apply gives_ret|]. rewrite <- concat_filter, List.map_map.
  apply for_each_gives. intros f Hf%in_seqZ ds'. apply enumerate_function_gives; lia.
Qed.

Lemma enumerate_bus_gives base ds b : 0 ≤ b < 256 → base + 2 ^ 28 + 4096 ≤ usize_max →
  gives (enumerate_bus base ds b) (ds ++ map device_at (bus_functions (base + 2 ^ 20 * b))).
Proof.
  intros Hd Hb. unfold enumerate_bus, bus_functions, PCI_PAGE_SIZE, device_id. rewrite shift20. step. step. step. unfold present at 1.
  destruct (_ =? 0xFFFF); cbn [negb]; [rewrite app_nil_r; apply gives_ret|].
  apply for_each_gives. intros d Hin%in_seqZ ds'. apply enumerate_device_gives; lia.
Qed.

Record entry_ok (e : McfgDeviceEntry) : Prop := {
  eo_start : 0 ≤ bus_start_num e;
  eo_end : bus_end_num e < 256;
  eo_room : pcie_config_addr e + 2 ^ 28 + 4096 ≤ usize_max;
}.

Lemma enumerate_pci_gives entries : Forall entry_ok entries → gives (enumerate_pci entries) (map device_at (concat (map entry_functions entries))).
Proof.
  intros Hok. pose proof (for_each_gives enumerate_entry entry_functions entries []) as Hg. cbn [app] in Hg. unfold enumerate_pci. apply Hg. intros e He ds.
  rewrite Forall_forall in Hok. destruct (Hok e ltac:(by apply list_elem_of_In)) as [H1 H2 H3].
  unfold enumerate_entry, entry_functions. apply for_each_gives. intros b Hb%in_seqZ ds'. apply enumerate_bus_gives; lia.
Qed.

(** ** Tables *)

Lemma map_seqZ_shift {A} (f : Z → A) a b n : map f (seqZ (a + b) n) = map (λ i, f (a + i)) (seqZ b n).
Proof. rewrite <- fmap_add_seqZ. change (Z.add a <$> seqZ b n) with (map (Z.add a) (seqZ b n)). apply List.map_map. Qed.

Fixpoint slice_at (a : Z) (n : nat) : list Z := match n with O => [] | Datatypes.S n => value 1 a :: slice_at (a + 1) n end.
Lemma gives_slice a n : gives (load_slice a n) (slice_at a n).
Proof. revert a. induction n as [|n IH]; intros a; [apply gives_ret|]. cbn [load_slice slice_at]. step. eapply gives_bind; [apply IH|]. apply gives_ret. Qed.

(** A table of [n] bytes whose checksum is right. *)
Record table_ok (a n : Z) : Prop := {
  tb_length : value 4 (a + 4) = n;
  tb_sum : complies_table_checksum (slice_at a (Z.to_nat n)) = true;
}.
Lemma gives_check a n : table_ok a n → gives (check_table a) tt.
Proof.
  intros [Hl Hs]. unfold check_table, table_length. step. eapply gives_bind; [apply gives_slice|]. cbn beta. rewrite Hl, Hs. apply gives_ret.
Qed.

(** The last of the tables with the signature, and none that is not text. *)
Definition signature (a : Z) : option (list Z) := utf8_decode (slice_at a 4).
Definition last_mcfg (tables : list Z) (none : option Z) : option Z :=
  foldl (λ r t, if bool_decide (signature t = Some MCFG) then Some t else r) none tables.

Definition rsdt_pointers (a n : Z) : list Z := map (λ i, value 4 (a + 36 + 4 * i)) (seqZ 0 n).

Lemma rsdt_entries_gives n a mcfg : Forall (λ t, is_Some (signature t)) (map (λ i, value 4 (a + 4 * i)) (seqZ 0 (Z.of_nat n))) →
  gives (rsdt_entries n a mcfg) (last_mcfg (map (λ i, value 4 (a + 4 * i)) (seqZ 0 (Z.of_nat n))) mcfg).
Proof.
  revert a mcfg. induction n as [|n IH]; intros a mcfg; [intros _; apply gives_ret|].
  rewrite Nat2Z.inj_succ, seqZ_cons, Z.pred_succ by lia. cbn [map rsdt_entries]. rewrite Z.mul_0_r, Z.add_0_r.
  intros [[sig Hsig] Hf]%Forall_cons. step. eapply gives_bind; [apply gives_slice|]. cbn beta.
  change (utf8_decode (slice_at (value 4 a) 4)) with (signature (value 4 a)). rewrite Hsig.
  unfold or_panic. eapply gives_bind; [apply gives_ret|]. cbn beta.
  assert (E : map (λ i, value 4 (a + 4 * i)) (seqZ (Z.succ 0) (Z.of_nat n)) = map (λ i, value 4 (a + 4 + 4 * i)) (seqZ 0 (Z.of_nat n))).
  { change (Z.succ 0) with (1 + 0). rewrite map_seqZ_shift. apply List.map_ext. intros i. f_equal. lia. }
  rewrite E in *. unfold last_mcfg. cbn [foldl]. rewrite Hsig.
  replace (bool_decide (Some sig = Some MCFG)) with (bool_decide (sig = MCFG)) by (apply bool_decide_ext; split; congruence).
  apply IH. done.
Qed.

Lemma parse_rsdt_gives a n : 0 ≤ n → table_ok a (36 + 4 * n) → Forall (λ t, is_Some (signature t)) (rsdt_pointers a n) →
  gives (parse_rsdt a) (last_mcfg (rsdt_pointers a n) None).
Proof.
  intros Hn Ht Hf. unfold parse_rsdt, table_length, SDT_HEADER_SIZE. eapply gives_bind; [by eapply gives_check|]. step.
  rewrite (tb_length _ _ Ht). step. replace ((36 + 4 * n - 36) / 4) with n by (rewrite Z.add_simpl_l, Z.mul_comm, Z.div_mul by lia; lia).
  pose proof (rsdt_entries_gives (Z.to_nat n) (a + 36) None) as Hg. rewrite Z2Nat.id in Hg by done. by apply Hg.
Qed.

Definition entry_at (a : Z) : McfgDeviceEntry :=
  {| pcie_config_addr := value 8 a; bus_start_num := value 1 (a + 10); bus_end_num := value 1 (a + 11) |}.
Definition mcfg_entries_at (a n : Z) : list McfgDeviceEntry := map (λ i, entry_at (a + 44 + 16 * i)) (seqZ 0 n).

Lemma mcfg_entries_gives n a : gives (mcfg_entries n a) (map (λ i, entry_at (a + 16 * i)) (seqZ 0 (Z.of_nat n))).
Proof.
  revert a. induction n as [|n IH]; intros a; [apply gives_ret|]. rewrite Nat2Z.inj_succ, seqZ_cons, Z.pred_succ by lia.
  cbn [map mcfg_entries]. rewrite Z.mul_0_r, Z.add_0_r. unfold mcfg_entry, MCFG_ENTRY_SIZE.
  eapply gives_bind; [step; step; step; apply gives_ret|]. cbn beta. eapply gives_bind; [apply IH|]. cbn beta.
  assert (E : map (λ i, entry_at (a + 16 * i)) (seqZ (Z.succ 0) (Z.of_nat n)) = map (λ i, entry_at (a + 16 + 16 * i)) (seqZ 0 (Z.of_nat n))).
  { change (Z.succ 0) with (1 + 0). rewrite map_seqZ_shift. apply List.map_ext. intros i. f_equal. lia. }
  rewrite E. apply gives_ret.
Qed.

Lemma parse_mcfg_gives a n : 0 ≤ n → table_ok a (44 + 16 * n) → gives (parse_mcfg a) (mcfg_entries_at a n).
Proof.
  intros Hn Ht. unfold parse_mcfg, table_length, SDT_HEADER_SIZE, MCFG_ENTRY_SIZE. eapply gives_bind; [by eapply gives_check|]. step.
  rewrite (tb_length _ _ Ht). step. step. replace ((44 + 16 * n - 36 - 8) / 16) with n by (replace (44 + 16 * n - 36 - 8) with (n * 16) by lia; rewrite Z.div_mul; lia).
  pose proof (mcfg_entries_gives (Z.to_nat n) (a + 36 + 8)) as Hg. rewrite Z2Nat.id in Hg by done. unfold mcfg_entries_at.
  replace (a + 44) with (a + 36 + 8) by lia. exact Hg.
Qed.

End Scan.

(** ** A small machine *)

(** An RSDT at 0x1000 with an FACP and an MCFG, and two devices on bus 0: a host bridge,
    and device 31 with the functions 0 and 2, an ISA bridge and a SATA controller. *)
Definition table (sig : list Z) (checksum : Z) (body : list Z) : list Z :=
  sig ++ le_bytes 4 (36 + Z.of_nat (length body)) ++ [1; checksum] ++ repeat 0 26 ++ body.
Definition header_of (vendor device class subclass : Z) : list Z :=
  le_bytes 2 vendor ++ le_bytes 2 device ++ [0; 0; 0; 0; 0; 0; subclass; class].
Definition machine_tables : list (Z * list Z) := [
  (0x1000, table [82; 83; 68; 84] 0x46 (le_bytes 4 0x3000 ++ le_bytes 4 0x2000));
  (0x2000, table MCFG 0xC6 (repeat 0 8 ++ le_bytes 8 0xE0000000 ++ repeat 0 8));
  (0x3000, table [70; 65; 67; 80] 0 []);
  (0xE0000000, header_of 0x8086 0x29C0 6 0);
  (0xE00F8000, header_of 0x8086 0x2918 6 1);
  (0xE00FA000, header_of 0x8086 0x2922 1 6)].
Definition machine_byte (a : Z) : Z :=
  default 0xFF (head (omap (λ t : Z * list Z, if (t.1 <=? a) && (a <? t.1 + 64) then lookupZ t.2 (a - t.1) else None) machine_tables)).
Definition machine_value (w a : Z) : Z := le_value (map (λ i, machine_byte (a + i)) (seqZ 0 w)).
#[global] Instance machine_bus : PciBus unit := {
  bus_load w a := kret (machine_value w a);
  bus_store _ _ _ := kret tt;
  bus_identity_map _ _ := kret tt;
}.

Lemma machine_loads w a s : True → ∃ s', bus_load w a s = Done (machine_value w a, s') ∧ True.
Proof. by exists s. Qed.
Lemma machine_maps a b s : True → ∃ s', bus_identity_map a b s = Done (tt, s') ∧ True.
Proof. by exists tt; destruct s. Qed.

