(* ===== verification/E1000.v ===== *)
(** * E1000: the network card driver (src/src/net/{e1000,dma_ptr}.rs)

    The driver finds its registers through a base address, gives the card a ring of
    receive descriptors with a buffer each, and polls the ring when the card
    interrupts.  [NicDevice] is the card behind its registers, [NicMaps] what the
    driver uses of the memory controller; memory is bytes at virtual addresses.  Log
    messages are left out. *)

From S2P Require Import Prelude Pci.

Definition DMA_REGION_START : Z := 0x6DCF00000000.

Definition REG_CONTROL : Z := 0x0000.
Definition REG_STATUS : Z := 0x0008.
Definition REG_EEPROM : Z := 0x0014.
Definition REG_ICR : Z := 0x00C0.
Definition REG_MAC : Z := 0x5400.
Definition REG_MTA : Z := 0x5200.
Definition REG_IMASK : Z := 0x00D0.
Definition REG_RCTRL : Z := 0x0100.
Definition REG_RXDESCLO : Z := 0x2800.
Definition REG_RXDESCHI : Z := 0x2804.
Definition REG_RXDESCLEN : Z := 0x2808.
Definition REG_RXDESCHEAD : Z := 0x2810.
Definition REG_RXDESCTAIL : Z := 0x2818.
Definition REG_TPR : Z := 0x40D0.
Definition REG_MPC : Z := 0x4010.
Definition REG_PRC64 : Z := 0x405C.
Definition REG_PRC127 : Z := 0x4060.
Definition CTRL_LRST : Z := Z.shiftl 1 3.
Definition CTRL_ASDE : Z := Z.shiftl 1 5.
Definition CTRL_SLU : Z := Z.shiftl 1 6.
Definition RCTL_EN : Z := Z.shiftl 1 1.
Definition RCTL_SBP : Z := Z.shiftl 1 2.
Definition RCTL_UPE : Z := Z.shiftl 1 3.
Definition RCTL_MPE : Z := Z.shiftl 1 4.
Definition RCTL_LBM_NONE : Z := Z.shiftl 0 6.
Definition RTCL_RDMTS_HALF : Z := Z.shiftl 0 8.
Definition RCTL_BAM : Z := Z.shiftl 1 15.
Definition RCTL_SECRC : Z := Z.shiftl 1 26.
Definition RCTL_BUFFER_SIZE_4096 : Z := Z.lor (Z.shiftl 3 16) (Z.shiftl 1 25).
Definition NUM_RX_BUFFERS : Z := 32.
Definition BUFFER_SIZE : Z := 0x1000.
Definition NIC_PAGE_SIZE : Z := 4096.
Definition IRQ0 : Z := 0x20.

(** [RxDesc], 16 bytes: the buffer's address, length, checksum, status, errors, special. *)
Record RxDesc := {
  rx_addr : Z;
  rx_length : Z;
  rx_checksum : Z;
  rx_status : Z;
  rx_errors : Z;
  rx_special : Z;
}.
Definition RX_DESC_SIZE : Z := 16.
Definition rx_bytes (d : RxDesc) : list Z :=
  le_bytes 8 (rx_addr d) ++ le_bytes 2 (rx_length d) ++ le_bytes 2 (rx_checksum d) ++ [rx_status d; rx_errors d] ++ le_bytes 2 (rx_special d).

(** [rx_descs] is the address a [DMAPtr] holds, 0 for null. *)
Record E1000Driver := {
  bar_type : BarType;
  eeprom_exists : bool;
  interrupt_line : Z;
  rx_curr : Z;
  rx_descs : Z;
  mac : list Z;
}.

Definition with_eeprom (b : bool) (d : E1000Driver) : E1000Driver :=
  {| bar_type := bar_type d; eeprom_exists := b; interrupt_line := interrupt_line d; rx_curr := rx_curr d; rx_descs := rx_descs d; mac := mac d |}.
Definition with_mac (m : list Z) (d : E1000Driver) : E1000Driver :=
  {| bar_type := bar_type d; eeprom_exists := eeprom_exists d; interrupt_line := interrupt_line d; rx_curr := rx_curr d; rx_descs := rx_descs d; mac := m |}.
Definition with_ring (curr descs : Z) (d : E1000Driver) : E1000Driver :=
  {| bar_type := bar_type d; eeprom_exists := eeprom_exists d; interrupt_line := interrupt_line d; rx_curr := curr; rx_descs := descs; mac := mac d |}.

(** ** The driver is created *)

Section Create.
Context {S : Type} `{PciBus S}.

Definition bar_address (b : BarType) : Z := match b with IO a => a | Memory32 a _ => a | Memory64 a _ => a end.

Definition new (eth : PciDevice) : kst S E1000Driver :=
  let header := pci_base_addr eth in
  let* t := get_bar_type header 0 in
  let* bar0_type := or_panic t in
  let* sz := probe_bar_size header 0 in
  let* bar_size := or_panic sz in
  let addr := bar_address bar0_type in
  let* end_ := uadd addr bar_size in
  bus_identity_map (addr / NIC_PAGE_SIZE) (end_ / NIC_PAGE_SIZE) ;;*
  enable_bus_mastering header ;;*
  let* line := bus_load 1 (header + 0x3C) in
  kret {| bar_type := bar0_type; eeprom_exists := false; interrupt_line := line; rx_curr := 0; rx_descs := 0; mac := repeat 0 6 |}.
End Create.

(** ** The card and the memory *)

(** Loads and stores at the physical addresses of the registers. *)
Class NicDevice (D : Type) := {
  nic_load32 : Z → D → Z * D;
  nic_load8 : Z → D → Z * D;
  nic_store32 : Z → Z → D → D;
}.

(** [MemoryController::map] of the pages from [start] to [end], writable, and
    [translate_to_phys] of an address; [register_interrupt] and [end_of_interrupt]. *)
Class NicMaps (C : Type) := {
  nic_map : Z → Z → kst C unit;
  nic_translate : Z → kst C (option Z);
  nic_register_interrupt : Z → bool → kst C unit;
  nic_end_of_interrupt : Z → kst C unit;
}.

Record nic (C D : Type) := {
  vmem : Z → Z;
  card : D;
  maps : C;
}.
Arguments vmem {C D} _.
Arguments card {C D} _.
Arguments maps {C D} _.

Section Driver.
Context {C D : Type} `{NicDevice D, NicMaps C}.
Abbreviation nm := (kst (nic C D)).

Definition in_card {A} (f : D → A * D) : nm A := λ s, let '(a, d) := f (card s) in Done (a, {| vmem := vmem s; card := d; maps := maps s |}).
Definition in_maps {A} (m : kst C A) : nm A := zoom maps (λ c s, {| vmem := vmem s; card := card s; maps := c |}) m.
Definition put_bytes (addr : Z) (bs : list Z) (m : Z → Z) : Z → Z := λ a, if (addr <=? a) && (a <? addr + Z.of_nat (length bs)) then nth (Z.to_nat (a - addr)) bs 0 else m a.
Definition store_mem (addr : Z) (bs : list Z) : nm unit := kmodify (λ s, {| vmem := put_bytes addr bs (vmem s); card := card s; maps := maps s |}).
Definition load_mem (addr : Z) (n : nat) : nm Z := kgets (λ s, le_value (map (λ i, vmem s (addr + i)) (seqZ 0 (Z.of_nat n)))).

(** Only 32-bit memory registers are implemented. *)
Definition send_command (d : E1000Driver) (p_address p_value : Z) : nm unit :=
  match bar_type d with
  | Memory32 address _ => let* addr := uadd address p_address in in_card (λ c, (tt, nic_store32 addr p_value c))
  | _ => kfault Panic
  end.
Definition read_command (d : E1000Driver) (p_address : Z) : nm Z :=
  match bar_type d with
  | Memory32 address _ => let* addr := uadd address p_address in in_card (nic_load32 addr)
  | _ => kfault Panic
  end.

Fixpoint load_mac (addr : Z) (n : nat) : nm (list Z) :=
  match n with
  | O => kret []
  | Datatypes.S n => let* b := in_card (nic_load8 addr) in let* rest := load_mac (addr + 1) n in kret (b :: rest)
  end.
Definition read_mac_address (d : E1000Driver) : nm (option (list Z)) :=
  match bar_type d with
  | Memory32 base_addr _ =>
      let* mac_base := uadd base_addr REG_MAC in
      let* word := in_card (nic_load32 mac_base) in
      if word =? 0 then kret None else let* m := load_mac mac_base 6 in kret (Some m)
  | _ => kfault Panic
  end.

Fixpoint eeprom_polls (d : E1000Driver) (n : nat) : nm bool :=
  match n with
  | O => kret false
  | Datatypes.S n => let* val := read_command d REG_EEPROM in if negb (Z.land val 0x10 =? 0) then kret true else eeprom_polls d n
  end.
Definition detect_eeprom (d : E1000Driver) : nm bool := send_command d REG_EEPROM 1 ;;* eeprom_polls d 1000.

Definition link_up (d : E1000Driver) : nm unit :=
  let* ctl := read_command d REG_CONTROL in
  send_command d REG_CONTROL (Z.ldiff (Z.lor (Z.lor ctl CTRL_SLU) CTRL_ASDE) CTRL_LRST).

Definition enable_interrupt (d : E1000Driver) : nm unit :=
  send_command d REG_IMASK 0x1F6DC ;;*
  send_command d REG_IMASK (Z.ldiff 0xFF 4) ;;*
  read_command d 0xC0 ;;* kret tt.

Definition write_mac_into_address_reg (d : E1000Driver) : nm unit :=
  let byte i := nth i (mac d) 0 in
  let ral := Z.lor (Z.lor (Z.lor (byte 0%nat) (Z.shiftl (byte 1%nat) 8)) (Z.shiftl (byte 2%nat) 16)) (Z.shiftl (byte 3%nat) 24) in
  let rah := Z.lor (Z.lor (byte 4%nat) (Z.shiftl (byte 5%nat) 8)) (Z.shiftl 1 31) in
  send_command d REG_MAC ral ;;*
  send_command d (REG_MAC + 4) rah.

Fixpoint clear_mta (d : E1000Driver) (is_ : list Z) : nm unit :=
  match is_ with [] => kret tt | i :: is_ => send_command d (REG_MTA + i * 4) 0 ;;* clear_mta d is_ end.

(** *** The receive ring *)

(** The physical address of a virtual one. *)
Definition physical_of (va : Z) : nm Z :=
  let* t := in_maps (nic_translate va) in
  let* frame := or_panic t in
  kret (frame * NIC_PAGE_SIZE + Z.land va 0xFFF).

(** The loop over the buffers, [n] to go: [ptr] is the descriptor, [page] the first
    free page; the result is [ptr] behind the last descriptor. *)
Fixpoint rx_buffers (n : nat) (ptr page : Z) : nm Z :=
  match n with
  | O => kret ptr
  | Datatypes.S n =>
      let start_page := page in
      let end_page := (start_page * NIC_PAGE_SIZE + BUFFER_SIZE - 1) / NIC_PAGE_SIZE in
      in_maps (nic_map start_page end_page) ;;*
      let* buffer_pa := physical_of (start_page * NIC_PAGE_SIZE) in
      store_mem ptr (rx_bytes {| rx_addr := buffer_pa; rx_length := 0; rx_checksum := 9; rx_status := 0; rx_errors := 0; rx_special := 0 |}) ;;*
      rx_buffers n (ptr + RX_DESC_SIZE) (end_page + 1)
  end.

Definition RCTL_VALUE : Z :=
  foldl Z.lor RCTL_EN [RCTL_SBP; RCTL_UPE; RCTL_MPE; RCTL_LBM_NONE; RTCL_RDMTS_HALF; RCTL_BAM; RCTL_SECRC; RCTL_BUFFER_SIZE_4096].

Definition start_rx (d : E1000Driver) : nm E1000Driver :=
  let descs_size := RX_DESC_SIZE * NUM_RX_BUFFERS in
  let descs_start_page := DMA_REGION_START / NIC_PAGE_SIZE in
  let descs_end_page := (DMA_REGION_START + descs_size - 1) / NIC_PAGE_SIZE in
  in_maps (nic_map descs_start_page descs_end_page) ;;*
  let descs_ptr := DMA_REGION_START in
  store_mem descs_ptr (repeat 0 (Z.to_nat descs_size)) ;;*
  let* ptr := rx_buffers (Z.to_nat NUM_RX_BUFFERS) descs_ptr (descs_end_page + 1) in
  let* descsc_pa := physical_of descs_ptr in
  send_command d REG_RXDESCLO (Z.land descsc_pa 0xFFFFFFFF) ;;*
  send_command d REG_RXDESCHI (wrap 32 (Z.shiftr descsc_pa 32)) ;;*
  send_command d REG_RXDESCLEN descs_size ;;*
  send_command d REG_RXDESCHEAD 0 ;;*
  send_command d REG_RXDESCTAIL (NUM_RX_BUFFERS - 1) ;;*
  let d := with_ring 0 ptr d in
  send_command d REG_RCTRL RCTL_VALUE ;;*
  kret d.

(** The loop over the descriptors: whether one is done, when it is not to print them all. *)
Fixpoint poll_descs (n : nat) (ptr : Z) (print_all : bool) : nm bool :=
  match n with
  | O => kret false
  | Datatypes.S n =>
      let* status := load_mem (ptr + 12) 1 in
      let* _length := load_mem (ptr + 8) 2 in
      let* _errors := load_mem (ptr + 13) 1 in
      if (negb (Z.land status 1 =? 0) || print_all) && negb print_all then kret true
      else poll_descs n (ptr + RX_DESC_SIZE) print_all
  end.
Definition poll (d : E1000Driver) (print_all : bool) : nm bool :=
  if rx_descs d =? 0 then kret false
  else
    let* found := poll_descs (Z.to_nat NUM_RX_BUFFERS) (rx_descs d) print_all in
    if (found : bool) then kret true
    else if print_all then
      read_command d REG_STATUS ;;* read_command d REG_TPR ;;* read_command d REG_MPC ;;*
      read_command d REG_PRC64 ;;* read_command d REG_PRC127 ;;* kret false
    else kret false.

Definition start (d : E1000Driver) : nm E1000Driver :=
  let* eeprom := detect_eeprom d in
  let d := with_eeprom eeprom d in
  let* m := read_mac_address d in
  let* m := or_panic m in
  let d := with_mac m d in
  link_up d ;;*
  clear_mta d (seqZ 0 80) ;;*
  in_maps (nic_register_interrupt (IRQ0 + interrupt_line d) false) ;;*
  write_mac_into_address_reg d ;;*
  let* d := start_rx d in
  enable_interrupt d ;;*
  read_command d REG_RCTRL ;;*
  kret d.

Definition handle_rx (d : E1000Driver) : nm unit := read_command d REG_ICR ;;* poll d true ;;* kret tt.

(** The driver behind [ETH_DRIVER], if there is one. *)
Definition handle_interrupt (driver : option E1000Driver) : nm unit :=
  match driver with
  | None => kret tt
  | Some d => handle_rx d ;;* in_maps (nic_end_of_interrupt (wrap 8 (IRQ0 + interrupt_line d)))
  end.
End Driver.
