(* ===== verification/E1000Spec.v ===== *)
(** * E1000Spec: the receive ring the driver hands to the card *)

From S2P Require Import Prelude Pci E1000.

(** What the driver relies on of the memory controller: mapping succeeds, keeps what is
    mapped, and no two pages share a frame. *)
Class NicMemory (C : Type) `{NicMaps C} := {
  page_at : C → Z → option Z;
  map_pages a b c : ∃ c', nic_map a b c = Done (tt, c')
    ∧ (∀ p, a ≤ p ≤ b → is_Some (page_at c' p)) ∧ (∀ p f, page_at c p = Some f → page_at c' p = Some f);
  translate_page va c : nic_translate va c = Done (page_at c (va / NIC_PAGE_SIZE), c);
  page_exclusive c p q f : page_at c p = Some f → page_at c q = Some f → p = q;
}.

Section Ring.
Context {C D : Type} `{NicDevice D, NicMemory C}.
Implicit Types s : nic C D.

(** The page behind the descriptors. *)
Definition first_buffer : Z := DMA_REGION_START / NIC_PAGE_SIZE + 1.

Definition ring_desc (buffer_pa : Z) : RxDesc :=
  {| rx_addr := buffer_pa; rx_length := 0; rx_checksum := 9; rx_status := 0; rx_errors := 0; rx_special := 0 |}.

(** Bytes in memory. *)
Definition bytes_at (m : Z → Z) (a : Z) (bs : list Z) : Prop := ∀ i b, bs !! i = Some b → m (a + Z.of_nat i) = b.

Lemma bytes_at_put a bs m : bytes_at (put_bytes a bs m) a bs.
Proof.
  intros i b Hi. pose proof (lookup_lt_Some _ _ _ Hi). unfold put_bytes. rewrite (proj2 (Z.leb_le _ _)), (proj2 (Z.ltb_lt _ _)) by lia.
  cbn [andb]. replace (a + Z.of_nat i - a) with (Z.of_nat i) by lia. rewrite Nat2Z.id. by apply nth_lookup_Some.
Qed.
Lemma put_bytes_out a bs m x : ¬ (a ≤ x < a + Z.of_nat (length bs)) → put_bytes a bs m x = m x.
Proof. intros Hx. unfold put_bytes. destruct (Z.leb_spec a x), (Z.ltb_spec x (a + Z.of_nat (length bs))); cbn; lia || done. Qed.
Lemma length_rx_bytes d : length (rx_bytes d) = 16%nat.
Proof. unfold rx_bytes. rewrite !length_app, !length_le_bytes. done. Qed.

(** The pages from [page] on have frames, and descriptor [i] names frame [page + i]. *)
Definition ring_from (c : C) (m : Z → Z) (ptr page : Z) (n : nat) : Prop := ∀ i, 0 ≤ i < Z.of_nat n →
  ∃ f, page_at c (page + i) = Some f ∧ bytes_at m (ptr + 16 * i) (rx_bytes (ring_desc (f * NIC_PAGE_SIZE))).

Lemma page_aligned p : Z.land (p * NIC_PAGE_SIZE) 0xFFF = 0.
Proof. change 0xFFF with (Z.ones 12). rewrite Z.land_ones by lia. apply Z_mod_mult. Qed.

Lemma physical_of_page p f s : page_at (maps s) p = Some f → physical_of (p * NIC_PAGE_SIZE) s = Done (f * NIC_PAGE_SIZE, s).
Proof.
  intros Hp. unfold physical_of, in_maps. rewrite page_aligned. unfold kbind, zoom. rewrite translate_page.
  rewrite Z.div_mul by done. rewrite Hp. cbn. rewrite Z.add_0_r. by destruct s.
Qed.

Lemma rx_buffers_ok n ptr page s : ∃ s', rx_buffers n ptr page s = Done (ptr + 16 * Z.of_nat n, s')
  ∧ card s' = card s ∧ ring_from (maps s') (vmem s') ptr page n
  ∧ (∀ p f, page_at (maps s) p = Some f → page_at (maps s') p = Some f)
  ∧ (∀ a, ¬ (ptr ≤ a < ptr + 16 * Z.of_nat n) → vmem s' a = vmem s a).
Proof.
  revert ptr page s. induction n as [|n IH]; intros ptr page s.
  { exists s. split_and!; [cbn; unfold kret; do 3 f_equal; lia | done | intros i Hi; lia | done | done]. }
  cbn [rx_buffers]. assert (Ee : (page * NIC_PAGE_SIZE + BUFFER_SIZE - 1) / NIC_PAGE_SIZE = page).
  { unfold BUFFER_SIZE, NIC_PAGE_SIZE. change 0x1000 with 4096. replace (page * 4096 + 4096 - 1) with (4095 + page * 4096) by lia. rewrite Z_div_plus_full by lia. done. }
  rewrite Ee. destruct (map_pages page page (maps s)) as (c1 & E1 & Hp1 & Hk1). destruct (Hp1 page ltac:(lia)) as [f Hf].
  set (s1 := {| vmem := vmem s; card := card s; maps := c1 |}).
  assert (Em : in_maps (nic_map page page) s = Done (tt, s1)) by (unfold in_maps, zoom; by rewrite E1).
  rewrite (kbind_done _ _ _ _ _ Em), (kbind_done _ _ _ _ _ (physical_of_page page f s1 Hf)). unfold store_mem, kmodify, kbind at 1. cbn [vmem card maps s1].
  destruct (IH (ptr + RX_DESC_SIZE) (page + 1) {| vmem := put_bytes ptr (rx_bytes (ring_desc (f * NIC_PAGE_SIZE))) (vmem s); card := card s; maps := c1 |})
    as (s' & E & Hc & Hr & Hk & Ho). cbn [vmem card maps] in *. unfold RX_DESC_SIZE in *. exists s'. split_and!.
  - unfold ring_desc in E. rewrite E. replace (ptr + 16 * Z.of_nat (S n)) with (ptr + 16 + 16 * Z.of_nat n) by lia. done.
  - done.
  - intros i Hi. destruct (decide (i = 0)) as [->|Hi0].
    + exists f. rewrite Z.mul_0_r, !Z.add_0_r. split; [by apply Hk|].
      intros j b Hj. pose proof (lookup_lt_Some _ _ _ Hj) as Hl. rewrite length_rx_bytes in Hl. rewrite Ho by lia. by eapply bytes_at_put.
    + destruct (Hr (i - 1) ltac:(lia)) as (g & Hg & Hb). exists g. replace (page + i) with (page + 1 + (i - 1)) by lia. split; [done|].
      replace (ptr + 16 * i) with (ptr + 16 + 16 * (i - 1)) by lia. done.
  - intros p g Hg. by apply Hk, Hk1.
  - intros a Ha. rewrite Ho by lia. apply put_bytes_out. rewrite length_rx_bytes. lia.
Qed.

Lemma store_register_ok d address pf p v s : bar_type d = Memory32 address pf → address + p ≤ usize_max →
  send_command d p v s = Done (tt, {| vmem := vmem s; card := nic_store32 (address + p) v (card s); maps := maps s |}).
Proof. intros Hb Hp. unfold send_command. rewrite Hb. by rewrite uadd_bind. Qed.

(** The stores that start the receiver: the ring's address, size, head and tail, and only
    then the enable bit. *)
Definition receiver_stores (ring_pa : Z) : list (Z * Z) :=
  [(REG_RXDESCLO, Z.land ring_pa 0xFFFFFFFF); (REG_RXDESCHI, wrap 32 (Z.shiftr ring_pa 32)); (REG_RXDESCLEN, 512);
   (REG_RXDESCHEAD, 0); (REG_RXDESCTAIL, 31); (REG_RCTRL, RCTL_VALUE)].
Definition stored (address : Z) (l : list (Z * Z)) (c : D) : D := foldl (λ c x, nic_store32 (address + x.1) x.2 c) c l.


(** The driver keeps the address behind its ring. *)
Lemma start_rx_pointer d address pf s d' s' : bar_type d = Memory32 address pf → 0 ≤ address < 2 ^ 32 → start_rx d s = Done (d', s') →
  rx_descs d' = DMA_REGION_START + 512.
Proof.
  intros Hb Ha. unfold start_rx. intros (? & s1 & _ & (? & s2 & _ & (ptr & s3 & E & Hrest)%kbind_inv)%kbind_inv)%kbind_inv.
  destruct (rx_buffers_ok (Z.to_nat NUM_RX_BUFFERS) DMA_REGION_START ((DMA_REGION_START + RX_DESC_SIZE * NUM_RX_BUFFERS - 1) / NIC_PAGE_SIZE + 1) s2) as (s2' & E2 & _).
  rewrite E2 in E. injection E as <- <-.
  repeat (apply kbind_inv in Hrest as (? & ? & _ & Hrest)). by injection Hrest as <- _.
Qed.
End Ring.

(** ** A card that records what it is told *)

(** The ranges that are mapped, each page 1000 frames up. *)
Definition is_mapped (c : list (Z * Z)) (p : Z) : bool := existsb (λ r : Z * Z, (r.1 <=? p) && (p <=? r.2)) c.
#[global] Instance plain_maps : NicMaps (list (Z * Z)) := {
  nic_map a b c := Done (tt, (a, b) :: c);
  nic_translate va c := Done ((if is_mapped c (va / NIC_PAGE_SIZE) then Some (va / NIC_PAGE_SIZE + 1000) else None), c);
  nic_register_interrupt _ _ := kret tt;
  nic_end_of_interrupt _ := kret tt;
}.
#[global] Program Instance plain_memory : NicMemory (list (Z * Z)) := { page_at c p := if is_mapped c p then Some (p + 1000) else None }.
Next Obligation.
  intros a b c. eexists. split; [reflexivity|]. split; unfold is_mapped; cbn [existsb fst snd].
  - intros p Hp. rewrite (proj2 (Z.leb_le a p)), (proj2 (Z.leb_le p b)) by lia. by eexists.
  - intros p f Hf. destruct (existsb _ c); [|done]. by rewrite orb_true_r.
Qed.
Next Obligation. done. Qed.
Next Obligation. intros c p q f Hp Hq. cbn in *. repeat case_match; simplify_eq; lia. Qed.

#[global] Instance log_device : NicDevice (list (Z * Z)) := {
  nic_load32 _ d := (0, d);
  nic_load8 _ d := (0, d);
  nic_store32 a v d := d ++ [(a, v)];
}.

Definition nic0 : nic (list (Z * Z)) (list (Z * Z)) := {| vmem := λ _, 0; card := []; maps := [] |}.
Definition driver0 : E1000Driver :=
  {| bar_type := Memory32 0xFEB80000 false; eeprom_exists := false; interrupt_line := 11; rx_curr := 0; rx_descs := 0; mac := [] |}.


(** [poll] looks behind the ring: whatever the card has written into the 512 bytes it was
    given, a poll of the started driver finds nothing as long as the bytes behind them
    are zero. *)
Lemma poll_descs_zero {C D} `{NicDevice D, NicMaps C} n ptr (s : nic C D) :
  (∀ a, ptr ≤ a < ptr + 16 * Z.of_nat n → vmem s a = 0) → poll_descs n ptr false s = Done (false, s).
Proof.
  revert ptr. induction n as [|n IH]; intros ptr Hz; [done|]. cbn [poll_descs]. unfold load_mem, kgets, kbind.
  change (seqZ 0 (Z.of_nat 1)) with [0]. cbn [map]. rewrite Hz by lia. apply IH. intros a Ha. apply Hz. unfold RX_DESC_SIZE in *. lia.
Qed.
Lemma poll_behind_ring {C D} `{NicDevice D, NicMemory C} d address pf (s s' t : nic C D) d' : bar_type d = Memory32 address pf → 0 ≤ address < 2 ^ 32 →
  start_rx d s = Done (d', s') → (∀ a, DMA_REGION_START + 512 ≤ a < DMA_REGION_START + 1024 → vmem t a = 0) →
  poll d' false t = Done (false, t).
Proof.
  intros Hb Ha Hs Hz. unfold poll. rewrite (start_rx_pointer d address pf s d' s' Hb Ha Hs).
  change (DMA_REGION_START + 512 =? 0) with false. cbv iota. rewrite (kbind_done _ _ _ false t); [done|]. apply poll_descs_zero. intros a Hr. apply Hz. change (16 * Z.of_nat (Z.to_nat NUM_RX_BUFFERS)) with 512 in Hr. lia.
Qed.
