(* ===== verification/Asm.v ===== *)
(** * Asm: the machine on which the assembly of the repository runs

    The part of an x86 processor that src/src/arch/x86_64/boot and the assembly of the user
    programs use: general registers, EFLAGS, control registers, EFER, the descriptor table
    register, segment selectors and byte-addressed memory behind an address translation.
    Code is a list of instructions with labels; the program counter is a position in it, and
    so is a return address on the stack.  A step that the processor would answer with a
    fault is [None].

    What differs between processors is a parameter: the answers of CPUID, which bits of
    EFLAGS software can change, and the flags that an instruction leaves undefined. *)

From Stdlib Require Import String.
From S2P Require Import Prelude.

Inductive reg := EAX | ECX | EDX | EBX | ESP | EBP | ESI | EDI | R8 | R9 | R10 | R11.
Inductive sreg := CS | SS | DS | ES | FS | GS.
Inductive creg := CR0 | CR3 | CR4.
Inductive width := B1 | B2 | B4 | B8.
Definition octets (w : width) : nat := match w with B1 => 1 | B2 => 2 | B4 => 4 | B8 => 8 end.
Definition bits (w : width) : Z := match w with B1 => 8 | B2 => 16 | B4 => 32 | B8 => 64 end.

(** The numbers of the encoding. *)
Definition reg_num (r : reg) : nat :=
  match r with
  | EAX => 0 | ECX => 1 | EDX => 2 | EBX => 3 | ESP => 4 | EBP => 5 | ESI => 6 | EDI => 7
  | R8 => 8 | R9 => 9 | R10 => 10 | R11 => 11
  end.
Definition sreg_num (s : sreg) : nat := match s with ES => 0 | CS => 1 | SS => 2 | DS => 3 | FS => 4 | GS => 5 end.

(** [[base + index * scale + disp]]. *)
Inductive address := Addr (base : option reg) (index : option (reg * Z)) (disp : Z).
Inductive operand := R (r : reg) | I (v : Z) | M (a : address).
Inductive alu := ADD | SUB | AND | OR | XOR | CMP | TEST.
Inductive cond := Equal | NotEqual | Below.

Inductive instr :=
| Label (l : string)
| Mov (w : width) (d s : operand)
| Movzx (w : width) (d : reg) (from : width) (s : operand)
| Lea (d : reg) (a : address)
| Alu (op : alu) (w : width) (d s : operand)
| Inc (r : reg)
| Mul (r : reg)
| Jmp (l : string) | J (c : cond) (l : string) | Call (l : string) | Ret
| Push (r : reg) | Pop (r : reg) | Pushf | Popf
| Hlt | Cpuid | Rdmsr | Wrmsr
| MovFromCr (d : reg) (n : creg) | MovToCr (n : creg) (s : reg)
| Lgdt (a : address) | JmpFar (selector : Z) (l : string)
| MovToSeg (s : sreg) (r : reg) | MovFromCs (r : reg)
| IntN (n : Z).

(** 32-bit protected mode (or compatibility mode) and 64-bit mode. *)
Inductive cpu_mode := Mode32 | Mode64.

Record cpu := Cpu {
  gpr : reg → Z;
  eip : nat;
  eflags : Z;
  cr0 : Z; cr3 : Z; cr4 : Z;
  efer : Z;
  gdtr : Z * Z;            (* base and limit *)
  sel : sreg → Z;
  mode : cpu_mode;
  memory : Z → Z;
}.

Definition setr (g : reg → Z) (r : reg) (v : Z) : reg → Z := λ r', if (reg_num r' =? reg_num r)%nat then v else g r'.
Definition sets (g : sreg → Z) (r : sreg) (v : Z) : sreg → Z := λ r', if (sreg_num r' =? sreg_num r)%nat then v else g r'.

Definition set_gpr (c : cpu) (g : reg → Z) : cpu :=
  Cpu g (eip c) (eflags c) (cr0 c) (cr3 c) (cr4 c) (efer c) (gdtr c) (sel c) (mode c) (memory c).
Definition set_eip (c : cpu) (n : nat) : cpu :=
  Cpu (gpr c) n (eflags c) (cr0 c) (cr3 c) (cr4 c) (efer c) (gdtr c) (sel c) (mode c) (memory c).
Definition set_eflags (c : cpu) (f : Z) : cpu :=
  Cpu (gpr c) (eip c) f (cr0 c) (cr3 c) (cr4 c) (efer c) (gdtr c) (sel c) (mode c) (memory c).
Definition set_control (c : cpu) (r0 r3 r4 e : Z) : cpu :=
  Cpu (gpr c) (eip c) (eflags c) r0 r3 r4 e (gdtr c) (sel c) (mode c) (memory c).
Definition set_gdtr (c : cpu) (g : Z * Z) : cpu :=
  Cpu (gpr c) (eip c) (eflags c) (cr0 c) (cr3 c) (cr4 c) (efer c) g (sel c) (mode c) (memory c).
Definition set_sel (c : cpu) (s : sreg → Z) (m : cpu_mode) : cpu :=
  Cpu (gpr c) (eip c) (eflags c) (cr0 c) (cr3 c) (cr4 c) (efer c) (gdtr c) s m (memory c).
Definition set_memory (c : cpu) (m : Z → Z) : cpu :=
  Cpu (gpr c) (eip c) (eflags c) (cr0 c) (cr3 c) (cr4 c) (efer c) (gdtr c) (sel c) (mode c) m.

(** ** Memory *)

(** The value of [n] bytes from [a], and memory after they are overwritten. *)
Definition peek (n : nat) (m : Z → Z) (a : Z) : Z := le_value (map (λ i, m (a + Z.of_nat i)) (seq 0 n)).
Fixpoint store_at (m : Z → Z) (ps bs : list Z) : Z → Z :=
  match ps, bs with
  | p :: ps, b :: bs => store_at (λ x, if x =? p then b else m x) ps bs
  | _, _ => m
  end.
Definition poke (n : nat) (m : Z → Z) (a v : Z) : Z → Z := store_at m (map (λ i, a + Z.of_nat i) (seq 0 n)) (le_bytes n v).

(** Bits of EFLAGS, CR0, CR4 and EFER. *)
Definition CF : Z := 0.
Definition ZF : Z := 6.
Definition STATUS_FLAGS : Z := 0x8D5.
(** The status flags without CF and ZF. *)
Definition OPEN_FLAGS : Z := 0x894.
Definition CR0_WP : Z := 16.
Definition CR0_PG : Z := 31.
Definition CR4_PAE : Z := 5.
Definition EFER_MSR : Z := 0xC0000080.
Definition EFER_LME : Z := 8.
Definition EFER_LMA : Z := 10.

(** The four levels of tables of long mode, with 1 GiB and 2 MiB pages; supervisor access.
    [levels] counts the levels below the one whose table is at [table]. *)
Definition ENTRY_ADDRESS : Z := 0x000FFFFFFFFFF000.
Fixpoint walk_tables (m : Z → Z) (checked_write : bool) (levels : nat) (table a : Z) : option Z :=
  let shift := 12 + 9 * Z.of_nat levels in
  let entry := peek 8 m (table + 8 * (Z.shiftr a shift mod 512)) in
  if negb (Z.testbit entry 0) then None
  else if checked_write && negb (Z.testbit entry 1) then None
  else
    let target := Z.land entry ENTRY_ADDRESS in
    match levels with
    | O => Some (target + a mod 2 ^ shift)
    | S levels =>
        if Z.testbit entry 7 then
          if (levels =? 2)%nat then None else Some (Z.land target (Z.lnot (2 ^ shift - 1)) + a mod 2 ^ shift)
        else walk_tables m checked_write levels target a
    end.

(** Paging off, or long mode; 32-bit paging is not used. *)
Definition translate (c : cpu) (write : bool) (a : Z) : option Z :=
  if negb (Z.testbit (cr0 c) CR0_PG) then Some a
  else if negb (Z.testbit (efer c) EFER_LMA) then None
  else walk_tables (memory c) (write && Z.testbit (cr0 c) CR0_WP) 3 (Z.land (cr3 c) ENTRY_ADDRESS) a.

(** ** Instructions *)

Section Machine.
(** CPUID by leaf: eax, ebx, ecx, edx. *)
Context (cpuid : Z → Z * Z * Z * Z).
Context (flags_writable : Z) (undefined_flags : Z → Z).
(** The view of memory that instructions have. *)
Context (mmu : cpu → bool → Z → option Z).

Definition load (c : cpu) (n : nat) (a : Z) : option Z :=
  ps ← mapM (λ i, mmu c false (a + Z.of_nat i)) (seq 0 n); Some (le_value (map (memory c) ps)).
Definition store (c : cpu) (n : nat) (a v : Z) : option cpu :=
  ps ← mapM (λ i, mmu c true (a + Z.of_nat i)) (seq 0 n); Some (set_memory c (store_at (memory c) ps (le_bytes n v))).

Definition word (c : cpu) : width := match mode c with Mode32 => B4 | Mode64 => B8 end.

Definition ea (c : cpu) (a : address) : Z :=
  let '(Addr base index disp) := a in
  wrap (bits (word c))
    ((match base with Some r => gpr c r | None => 0 end)
     + (match index with Some (r, s) => gpr c r * s | None => 0 end) + disp).

Definition value (c : cpu) (w : width) (o : operand) : option Z :=
  match o with
  | R r => Some (wrap (bits w) (gpr c r))
  | I v => Some (wrap (bits w) v)
  | M a => load c (octets w) (ea c a)
  end.

(** Writing a 32-bit register clears the upper half, writing a smaller one keeps the rest. *)
Definition put_reg (c : cpu) (w : width) (r : reg) (v : Z) : cpu :=
  set_gpr c (setr (gpr c) r
    match w with
    | B4 | B8 => wrap (bits w) v
    | _ => Z.lor (Z.ldiff (gpr c r) (2 ^ bits w - 1)) (wrap (bits w) v)
    end).
Definition assign (c : cpu) (w : width) (o : operand) (v : Z) : option cpu :=
  match o with
  | R r => Some (put_reg c w r v)
  | I _ => None
  | M a => store c (octets w) (ea c a) v
  end.

(** PF, AF, SF and OF are not read by any code here; they are left open. *)
Definition status (f : Z) (zf cf : bool) : Z :=
  Z.lor (Z.ldiff f STATUS_FLAGS)
    (Z.lor (Z.land (undefined_flags f) OPEN_FLAGS) (Z.lor (if zf then 2 ^ ZF else 0) (if cf then 2 ^ CF else 0))).
Definition set_status (c : cpu) (zf cf : bool) : cpu := set_eflags c (status (eflags c) zf cf).

(** The result and the carry. *)
Definition alu_result (op : alu) (w : width) (a b : Z) : Z * bool :=
  match op with
  | ADD => (wrap (bits w) (a + b), 2 ^ bits w <=? a + b)
  | SUB | CMP => (wrap (bits w) (a - b), a <? b)
  | AND | TEST => (Z.land a b, false)
  | OR => (Z.lor a b, false)
  | XOR => (Z.lxor a b, false)
  end.
Definition keeps (op : alu) : bool := match op with CMP | TEST => false | _ => true end.

Definition holds_cond (c : cpu) (k : cond) : bool :=
  match k with
  | Equal => Z.testbit (eflags c) ZF
  | NotEqual => negb (Z.testbit (eflags c) ZF)
  | Below => Z.testbit (eflags c) CF
  end.

Definition push_word (c : cpu) (v : Z) : option cpu :=
  let sp := wrap (bits (word c)) (gpr c ESP - Z.of_nat (octets (word c))) in
  store (set_gpr c (setr (gpr c) ESP sp)) (octets (word c)) sp v.
Definition pop_word (c : cpu) : option (Z * cpu) :=
  v ← load c (octets (word c)) (gpr c ESP);
  Some (v, set_gpr c (setr (gpr c) ESP (wrap (bits (word c)) (gpr c ESP + Z.of_nat (octets (word c)))))).

(** VM and RF are not pushed. *)
Definition flags_image (f : Z) : Z := Z.land f 0xFCFFFF.
Definition write_flags (f v : Z) : Z := Z.lor (Z.land v flags_writable) (Z.ldiff f flags_writable).

(** Setting CR0.PG under EFER.LME turns long mode on, for which CR4.PAE must be set. *)
Definition load_cr (c : cpu) (n : creg) (v : Z) : option cpu :=
  match n with
  | CR0 =>
      if Z.testbit v CR0_PG && Z.testbit (efer c) EFER_LME then
        if Z.testbit (cr4 c) CR4_PAE then Some (set_control c v (cr3 c) (cr4 c) (Z.setbit (efer c) EFER_LMA)) else None
      else Some (set_control c v (cr3 c) (cr4 c) (Z.clearbit (efer c) EFER_LMA))
  | CR3 => Some (set_control c (cr0 c) v (cr4 c) (efer c))
  | CR4 => Some (set_control c (cr0 c) (cr3 c) v (efer c))
  end.
Definition read_cr (c : cpu) (n : creg) : Z := match n with CR0 => cr0 c | CR3 => cr3 c | CR4 => cr4 c end.

(** A far jump loads the descriptor: within the limit, present, a code segment; with the L bit
    in long mode the CPU runs 64-bit code. *)
Definition load_code_segment (c : cpu) (s : Z) : option cpu :=
  if snd (gdtr c) <? s + 7 then None
  else
    d ← load c 8 (fst (gdtr c) + s);
    if Z.testbit d 47 && Z.testbit d 44 && Z.testbit d 43 then
      Some (set_sel c (sets (sel c) CS s) (if Z.testbit d 53 && Z.testbit (efer c) EFER_LMA then Mode64 else Mode32))
    else None.

(** Null selectors only: SS takes one in 64-bit mode, the others always. *)
Definition load_segment (c : cpu) (s : sreg) (v : Z) : option cpu :=
  if negb (v =? 0) then None
  else match s, mode c with
       | CS, _ | SS, Mode32 => None
       | _, _ => Some (set_sel c (sets (sel c) s v) (mode c))
       end.

(** The position after a label. *)
Fixpoint find_label (code : list instr) (l : string) : option nat :=
  match code with
  | [] => None
  | Label l' :: code => if String.eqb l l' then Some 1%nat else S <$> find_label code l
  | _ :: code => S <$> find_label code l
  end.

Definition jump_to (code : list instr) (c : cpu) (l : string) : option cpu := set_eip c <$> find_label code l.

(** [c] is already behind the instruction. *)
Definition exec (code : list instr) (i : instr) (c : cpu) : option cpu :=
  match i with
  | Label _ => Some c
  | Mov w d s => v ← value c w s; assign c w d v
  | Movzx w d from s => v ← value c from s; assign c w (R d) v
  | Lea d a => assign c (word c) (R d) (ea c a)
  | Alu op w d s =>
      a ← value c w d; b ← value c w s;
      let '(v, cf) := alu_result op w a b in
      let c := set_status c (v =? 0) cf in
      if keeps op then assign c w d v else Some c
  | Inc r =>
      let v := wrap 32 (wrap 32 (gpr c r) + 1) in
      Some (put_reg (set_status c (v =? 0) (Z.testbit (eflags c) CF)) B4 r v)
  | Mul r =>
      let p := wrap 32 (gpr c EAX) * wrap 32 (gpr c r) in
      let c := set_status c (Z.testbit (undefined_flags (eflags c)) ZF) (negb (p / 2 ^ 32 =? 0)) in
      Some (put_reg (put_reg c B4 EAX p) B4 EDX (p / 2 ^ 32))
  | Jmp l => jump_to code c l
  | J k l => if holds_cond c k then jump_to code c l else Some c
  | Call l => c ← push_word c (Z.of_nat (eip c)); jump_to code c l
  | Ret => '(v, c) ← pop_word c; Some (set_eip c (Z.to_nat v))
  | Push r => push_word c (wrap (bits (word c)) (gpr c r))
  | Pop r => '(v, c) ← pop_word c; Some (put_reg c (word c) r v)
  | Pushf => push_word c (flags_image (eflags c))
  | Popf => '(v, c) ← pop_word c; Some (set_eflags c (write_flags (eflags c) v))
  | Hlt => Some (set_eip c (pred (eip c)))    (* interrupts are masked: it does not go on *)
  | Cpuid =>
      let '(a, b, x, d) := cpuid (wrap 32 (gpr c EAX)) in
      Some (put_reg (put_reg (put_reg (put_reg c B4 EAX a) B4 EBX b) B4 ECX x) B4 EDX d)
  | Rdmsr =>
      if wrap 32 (gpr c ECX) =? EFER_MSR then Some (put_reg (put_reg c B4 EAX (efer c)) B4 EDX (efer c / 2 ^ 32)) else None
  | Wrmsr =>
      if wrap 32 (gpr c ECX) =? EFER_MSR then
        Some (set_control c (cr0 c) (cr3 c) (cr4 c) (wrap 32 (gpr c EAX) + 2 ^ 32 * wrap 32 (gpr c EDX)))
      else None
  | MovFromCr d n => Some (put_reg c (word c) d (read_cr c n))
  | MovToCr n s => load_cr c n (wrap (bits (word c)) (gpr c s))
  | Lgdt a =>
      limit ← load c 2 (ea c a);
      base ← load c (octets (word c)) (ea c a + 2);
      Some (set_gdtr c (base, limit))
  | JmpFar s l => c ← load_code_segment c s; jump_to code c l
  | MovToSeg s r => load_segment c s (wrap 16 (gpr c r))
  | MovFromCs r => Some (put_reg c B2 r (sel c CS))
  | IntN _ => None
  end.

Definition step (code : list instr) (c : cpu) : option cpu :=
  i ← code !! eip c; exec code i (set_eip c (S (eip c))).

Fixpoint run (code : list instr) (n : nat) (c : cpu) : option cpu :=
  match n with O => Some c | S n => c ← step code c; run code n c end.

Lemma machine_run_app code n k c c' : run code n c = Some c' → run code (n + k) c = run code k c'.
Proof. revert c. induction n as [|n IH]; cbn [run Nat.add]; intros c; [by intros [= ->]|]. destruct (step code c); [apply IH | done]. Qed.
End Machine.

(** ** Lemmas on memory *)

Lemma peek_S n m a : peek (S n) m a = m a + 256 * peek n m (a + 1).
Proof.
  unfold peek. cbn [seq map le_value]. rewrite Z.add_0_r. f_equal. f_equal. f_equal.
  rewrite <- seq_shift, map_map. apply map_ext. intros i. f_equal. lia.
Qed.

Lemma peek_ext n m m' a : (∀ x, a ≤ x < a + Z.of_nat n → m' x = m x) → peek n m' a = peek n m a.
Proof.
  revert a. induction n as [|n IH]; intros a Hm; [done|]. rewrite !peek_S, Hm by lia. f_equal. f_equal. apply IH.
  intros x Hx. apply Hm. lia.
Qed.

Lemma peek_bytes n m a bs : length bs = n → (∀ i b, bs !! i = Some b → m (a + Z.of_nat i) = b) → peek n m a = le_value bs.
Proof.
  revert n a. induction bs as [|b bs IH]; intros n a <- Hm; [done|]. cbn [length le_value]. rewrite peek_S. f_equal.
  - by rewrite <- (Hm 0%nat b), Z.add_0_r.
  - f_equal. apply IH; [done|]. intros i b' Hb. rewrite <- (Hm (S i) b') by done. f_equal. lia.
Qed.

Lemma poke_S n m a v x : poke (S n) m a v x = poke n (λ y, if y =? a then v mod 256 else m y) (a + 1) (v / 256) x.
Proof.
  unfold poke. cbn [seq map le_bytes store_at]. rewrite <- seq_shift, map_map, Z.add_0_r.
  by rewrite (map_ext (λ i, a + Z.of_nat (S i)) (λ i, (a + 1) + Z.of_nat i)) by (intros; lia).
Qed.

Lemma poke_outside n m a v x : ¬ (a ≤ x < a + Z.of_nat n) → poke n m a v x = m x.
Proof.
  revert m a v. induction n as [|n IH]; intros m a v Hx; [done|]. rewrite poke_S, IH by lia.
  by destruct (Z.eqb_spec x a); [lia|].
Qed.

Lemma peek_poke n m a v : peek n (poke n m a v) a = v mod 256 ^ Z.of_nat n.
Proof.
  revert m a v. induction n as [|n IH]; intros m a v; [by rewrite Z.mod_1_r|].
  rewrite peek_S, poke_S, poke_outside by lia. rewrite Z.eqb_refl.
  rewrite (peek_ext n (poke n (λ y, if y =? a then v mod 256 else m y) (a + 1) (v / 256))) by (intros; apply poke_S).
  rewrite IH, Nat2Z.inj_succ, Z.pow_succ_r by lia. by rewrite Z.rem_mul_r by lia.
Qed.

Lemma peek4_poke m a v : 0 ≤ v < 2 ^ 32 → peek 4 (poke 4 m a v) a = v.
Proof. intros Hv. rewrite peek_poke. by apply Z.mod_small. Qed.
Lemma peek8_poke m a v : 0 ≤ v < 2 ^ 64 → peek 8 (poke 8 m a v) a = v.
Proof. intros Hv. rewrite peek_poke. by apply Z.mod_small. Qed.

Lemma peek_zero n m a : (∀ x, a ≤ x < a + Z.of_nat n → m x = 0) → peek n m a = 0.
Proof. revert a. induction n as [|n IH]; intros a Hm; [done|]. rewrite peek_S, Hm, IH by (intros; try apply Hm; lia). lia. Qed.

Lemma peek_app n k m a : peek (n + k) m a = peek n m a + 256 ^ Z.of_nat n * peek k m (a + Z.of_nat n).
Proof.
  revert a. induction n as [|n IH]; intros a; [cbn [Nat.add]; change (peek 0 m a) with 0; rewrite Z.add_0_r; lia|].
  cbn [Nat.add]. rewrite !peek_S, IH, Nat2Z.inj_succ, Z.pow_succ_r by lia. replace (a + 1 + Z.of_nat n) with (a + Z.succ (Z.of_nat n)) by lia. lia.
Qed.

Lemma peek_poke_other k n m a b v : a + Z.of_nat k ≤ b ∨ b + Z.of_nat n ≤ a → peek k (poke n m b v) a = peek k m a.
Proof. intros Hd. apply peek_ext. intros x Hx. apply poke_outside. lia. Qed.

(** A 32-bit store into a 64-bit word of zeros. *)
Lemma peek8_poke4 m a v : (∀ x, a ≤ x < a + 8 → m x = 0) → 0 ≤ v < 2 ^ 32 → peek 8 (poke 4 m a v) a = v.
Proof.
  intros Hz Hv. rewrite (peek_app 4 4), peek4_poke, peek_poke_other by (done || lia). rewrite peek_zero by (intros; apply Hz; lia). lia.
Qed.

(** Access through a translation that is the identity on the bytes concerned. *)
Section Identity.
Context (mmu : cpu → bool → Z → option Z).
Implicit Types (c : cpu).

Lemma mapM_identity c w n a : (∀ x, a ≤ x < a + Z.of_nat n → mmu c w x = Some x) →
  mapM (λ i, mmu c w (a + Z.of_nat i)) (seq 0 n) = Some (map (λ i, a + Z.of_nat i) (seq 0 n)).
Proof.
  intros Hm. apply mapM_Some. apply Forall2_fmap_r. apply Forall2_same_length_lookup_2; [done|].
  intros i x y Hx Hy. rewrite Hx in Hy. injection Hy as <-. apply lookup_seq in Hx as [-> Hx]. apply Hm. lia.
Qed.

Lemma load_identity c n a : (∀ x, a ≤ x < a + Z.of_nat n → mmu c false x = Some x) → load mmu c n a = Some (peek n (memory c) a).
Proof. intros Hm. unfold load. rewrite mapM_identity by done. cbn. unfold peek. by rewrite map_map. Qed.

Lemma store_identity c n a v : (∀ x, a ≤ x < a + Z.of_nat n → mmu c true x = Some x) →
  store mmu c n a v = Some (set_memory c (poke n (memory c) a v)).
Proof. intros Hm. unfold store. by rewrite mapM_identity by done. Qed.
End Identity.

(** ** Lemmas on flags *)

Section Flags.
Context (undefined_flags : Z → Z).

Lemma zf_status f zf cf : Z.testbit (status undefined_flags f zf cf) ZF = zf.
Proof. unfold status. rewrite !Z.lor_spec, Z.ldiff_spec, Z.land_spec. destruct zf, cf; cbn; by rewrite !andb_false_r. Qed.

Lemma cf_status f zf cf : Z.testbit (status undefined_flags f zf cf) CF = cf.
Proof. unfold status. rewrite !Z.lor_spec, Z.ldiff_spec, Z.land_spec. destruct zf, cf; cbn; by rewrite !andb_false_r. Qed.

(** The other flags stay. *)
Lemma other_status f zf cf n : 0 ≤ n → Z.testbit STATUS_FLAGS n = false → Z.testbit (status undefined_flags f zf cf) n = Z.testbit f n.
Proof.
  intros Hn Hs. unfold status. rewrite !Z.lor_spec, Z.ldiff_spec, Z.land_spec, Hs, andb_true_r.
  assert (Ho : ∀ k, Z.land k STATUS_FLAGS = k → Z.testbit k n = false) by (intros k <-; by rewrite Z.land_spec, Hs, andb_false_r).
  rewrite (Ho OPEN_FLAGS), andb_false_r by done. destruct zf, cf; rewrite ?(Ho (2 ^ ZF)), ?(Ho (2 ^ CF)), ?Z.bits_0, ?orb_false_r by done; done.
Qed.
End Flags.

(** A partial register reads back what was written to it. *)
Lemma low_part w x v : 0 ≤ w → wrap w (Z.lor (Z.ldiff x (2 ^ w - 1)) (wrap w v)) = wrap w v.
Proof.
  intros Hw. apply Z.bits_inj'. intros n Hn. unfold wrap. destruct (Z.lt_ge_cases n w).
  - rewrite !Z.mod_pow2_bits_low, Z.lor_spec, Z.ldiff_spec, Z.mod_pow2_bits_low by lia.
    replace (2 ^ w - 1) with (Z.ones w) by (rewrite Z.ones_equiv; lia). by rewrite Z.ones_spec_low, andb_false_r by lia.
  - by rewrite !Z.mod_pow2_bits_high by lia.
Qed.
Lemma wrap_wrap w v : wrap w (wrap w v) = wrap w v.
Proof. apply Zmod_mod. Qed.

(** A comparison sets ZF for equal operands. *)
Lemma cmp_zero w a b : 0 ≤ a < 2 ^ w → 0 ≤ b < 2 ^ w → (wrap w (a - b) =? 0) = (a =? b).
Proof.
  intros Ha Hb. unfold wrap. destruct (Z.eqb_spec a b) as [->|Hn]; [by rewrite Z.sub_diag|].
  assert (H2 : 2 ^ w ≠ 0) by lia.
  apply Z.eqb_neq. intros Hm. apply (proj1 (Z.mod_divide _ _ H2)) in Hm as [q Hq].
  generalize dependent (2 ^ w). intros p Ha Hb H2 Hq. assert (q = 0 ∨ q ≤ -1 ∨ 1 ≤ q) as [-> | [?|?]] by lia; nia.
Qed.

(** ** Running *)

Section Run.
Context (cpuid : Z → Z * Z * Z * Z) (flags_writable : Z) (undefined_flags : Z → Z) (mmu : cpu → bool → Z → option Z).
Abbreviation Run := (run cpuid flags_writable undefined_flags mmu).

(** [c] reaches [c']. *)
Definition reaches (code : list instr) (c c' : cpu) : Prop := ∃ n, Run code n c = Some c'.

Lemma reaches_refl code c : reaches code c c.
Proof. by exists 0%nat. Qed.

Lemma reaches_trans code c1 c2 c3 : reaches code c1 c2 → reaches code c2 c3 → reaches code c1 c3.
Proof. intros [n Hn] [k Hk]. exists (n + k)%nat. by rewrite (machine_run_app _ _ _ _ _ _ _ _ _ Hn). Qed.

Lemma reaches_step code i c c' c'' : code !! eip c = Some i →
  exec cpuid flags_writable undefined_flags mmu code i (set_eip c (S (eip c))) = Some c' → reaches code c' c'' → reaches code c c''.
Proof. intros Hi He [n Hn]. exists (S n). cbn [run]. unfold step. rewrite Hi. cbn. by rewrite He. Qed.
End Run.

(** [c] reaches a state with [P]. *)
Definition leads cpuid flags_writable undefined_flags mmu code c (P : cpu → Prop) : Prop :=
  ∃ c', reaches cpuid flags_writable undefined_flags mmu code c c' ∧ P c'.

Section Leads.
Context (cpuid : Z → Z * Z * Z * Z) (flags_writable : Z) (undefined_flags : Z → Z) (mmu : cpu → bool → Z → option Z).
Context (code : list instr).
Abbreviation Leads := (leads cpuid flags_writable undefined_flags mmu code).

Lemma leads_now c (P : cpu → Prop) : P c → Leads c P.
Proof. intros Hp. exists c. split; [apply reaches_refl | done]. Qed.

Lemma leads_step i c c' (P : cpu → Prop) : code !! eip c = Some i →
  exec cpuid flags_writable undefined_flags mmu code i (set_eip c (S (eip c))) = Some c' → Leads c' P → Leads c P.
Proof. intros Hi He (c'' & Hr & Hp). exists c''. split; [by eapply reaches_step | done]. Qed.

Lemma leads_then c (P Q : cpu → Prop) : Leads c P → (∀ c', P c' → Leads c' Q) → Leads c Q.
Proof. intros (c' & Hr & Hp) Hq. destruct (Hq _ Hp) as (c'' & Hr' & Hq'). exists c''. split; [by eapply reaches_trans | done]. Qed.
End Leads.

(** With paging off, addresses are physical. *)
Lemma load_unpaged c n a : Z.testbit (cr0 c) CR0_PG = false → load translate c n a = Some (peek n (memory c) a).
Proof. intros Hp. apply load_identity. intros x _. unfold translate. by rewrite Hp. Qed.
Lemma store_unpaged c n a v : Z.testbit (cr0 c) CR0_PG = false → store translate c n a v = Some (set_memory c (poke n (memory c) a v)).
Proof. intros Hp. apply store_identity. intros x _. unfold translate. by rewrite Hp. Qed.

(** ** Symbolic execution: one instruction of a program at a known place *)

Ltac label_at :=
  repeat match goal with
  | |- context [find_label ?c ?l] => let n := eval vm_compute in (find_label c l) in change (find_label c l) with n
  end.

(** Reads of registers that were written. *)
Ltac regs :=
  repeat match goal with
  | |- context [setr ?g ?r ?v ?r] => change (setr g r v r) with v
  | |- context [setr ?g ?r ?v ?q] => change (setr g r v q) with (g q)
  | |- context [sets ?g ?r ?v ?r] => change (sets g r v r) with v
  | |- context [sets ?g ?r ?v ?q] => change (sets g r v q) with (g q)
  end.

Ltac machine_unfold :=
  cbv [exec value assign put_reg set_gpr set_eip set_eflags set_control set_gdtr set_sel set_memory set_status
       gpr eip eflags cr0 cr3 cr4 efer gdtr sel mode memory word bits octets ea push_word pop_word jump_to
       mbind option_bind fmap option_fmap option_map alu_result keeps holds_cond read_cr load_cr load_segment
       Z.of_nat Pos.of_succ_nat Pos.succ negb andb Nat.pred fst snd];
  regs.

Ltac machine_step tac :=
  eapply leads_step; [reflexivity | machine_unfold; label_at; tac; machine_unfold; reflexivity | ].
