(* ===== verification/BootAsm.v ===== *)
(** * BootAsm: from the boot loader to rust_main (src/src/arch/x86_64/boot)

    boot.s, long_mode.s, kernel_start.asm and header.s as programs of Asm: the checks for the
    loader, CPUID and long mode, the first page tables, the switch to long mode. *)

From Stdlib Require Import String.
From S2P Require Import Prelude Asm.
#[local] Open Scope string_scope.
#[local] Open Scope Z_scope.

(** ** header.s *)

Definition header_length : Z := 24.
Definition multiboot_header : list Z :=
  le_bytes 4 0xe85250d6 ++ le_bytes 4 0 ++ le_bytes 4 header_length
  ++ le_bytes 4 (0x100000000 - (0xe85250d6 + 0 + header_length))
  ++ le_bytes 2 0 ++ le_bytes 2 0 ++ le_bytes 4 0.

(** ** boot.s *)

Definition gdt64_entry : Z := Z.lor (2 ^ 43) (Z.lor (2 ^ 44) (Z.lor (2 ^ 47) (2 ^ 53))).
Definition gdt64_code : Z := 8.

Section Layout.
(** Where the linker puts .bss (from [p4_table]) and the table [gdt64] of .rodata. *)
Context (bss gdt64 : Z).

Definition p4_table : Z := bss.
Definition p3_table : Z := p4_table + 4096.
Definition p2_table : Z := p3_table + 4096.
Definition stack_bottom : Z := p2_table + 4096.
Definition stack_top : Z := stack_bottom + 4096 * 4.

Definition gdt64_pointer : Z := gdt64 + 16.
Definition gdt64_bytes : list Z := le_bytes 8 0 ++ le_bytes 8 gdt64_entry ++ le_bytes 2 (16 - 1) ++ le_bytes 8 gdt64.

Abbreviation at_ d := (M (Addr None None d)).

Definition boot_error : list instr :=
  [Label "error";
   Mov B4 (at_ 0xb8000) (I 0x4f524f45);
   Mov B4 (at_ 0xb8004) (I 0x4f3a4f52);
   Mov B4 (at_ 0xb8008) (I 0x4f204f20);
   Mov B1 (at_ 0xb800a) (R EAX);
   Hlt].

Definition multiboot_check : list instr :=
  [Label "multiboot_check";
   Alu CMP B4 (R EAX) (I 0x36d76289);
   J NotEqual "no_multiboot";
   Ret;
   Label "no_multiboot";
   Mov B1 (R EAX) (I 48);
   Jmp "error";
   Ret].

Definition cpuid_check : list instr :=
  [Label "cpuid_check";
   Pushf; Pop EAX;
   Mov B4 (R ECX) (R EAX);
   Alu XOR B4 (R EAX) (I (Z.shiftl 1 21));
   Push EAX; Popf;
   Pushf; Pop EAX;
   Push ECX; Popf;
   Alu XOR B4 (R EAX) (R ECX);
   J Equal "no_cpuid";
   Ret;
   Label "no_cpuid";
   Mov B1 (R EAX) (I 49);
   Jmp "error"].

Definition longmode_check : list instr :=
  [Label "longmode_check";
   Mov B4 (R EAX) (I 0x80000000);
   Cpuid;
   Alu CMP B4 (R EAX) (I 0x80000001);
   J Below "no_long_mode";
   Mov B4 (R EAX) (I 0x80000001);
   Cpuid;
   Alu TEST B4 (R EDX) (I (Z.shiftl 1 29));
   J Equal "no_long_mode";
   Ret;
   Label "no_long_mode";
   Mov B1 (R EAX) (I 50);
   Jmp "error"].

Definition set_up_page_tables : list instr :=
  [Label "set_up_page_tables";
   Mov B4 (R EAX) (I p4_table);
   Alu OR B4 (R EAX) (I 3);
   Mov B4 (at_ (p4_table + 511 * 8)) (R EAX);
   Mov B4 (R EAX) (I p3_table);
   Alu OR B4 (R EAX) (I 3);
   Mov B4 (at_ p4_table) (R EAX);
   Mov B4 (R EAX) (I p2_table);
   Alu OR B4 (R EAX) (I 3);
   Mov B4 (at_ p3_table) (R EAX);
   Mov B4 (R ECX) (I 0);
   Label "map_p2_table";
   Mov B4 (R EAX) (I 0x200000);
   Mul ECX;
   Alu OR B4 (R EAX) (I 0x83);
   Mov B4 (M (Addr None (Some (ECX, 8)) p2_table)) (R EAX);
   Inc ECX;
   Alu CMP B4 (R ECX) (I 512);
   J NotEqual "map_p2_table";
   Ret].

Definition enable_paging : list instr :=
  [Label "enable_paging";
   Mov B4 (R EAX) (I p4_table);
   MovToCr CR3 EAX;
   MovFromCr EAX CR4;
   Alu OR B4 (R EAX) (I (Z.shiftl 1 5));
   MovToCr CR4 EAX;
   Mov B4 (R ECX) (I 0xC0000080);
   Rdmsr;
   Alu OR B4 (R EAX) (I (Z.shiftl 1 8));
   Wrmsr;
   MovFromCr EAX CR0;
   Alu OR B4 (R EAX) (I (Z.shiftl 1 31));
   MovToCr CR0 EAX;
   Ret].

Definition start : list instr :=
  [Label "start";
   Mov B4 (R ESP) (I stack_top);
   Mov B4 (R EDI) (R EBX);
   Call "multiboot_check";
   Call "cpuid_check";
   Call "longmode_check";
   Call "set_up_page_tables";
   Call "enable_paging";
   Lgdt (Addr None None gdt64_pointer);
   JmpFar gdt64_code "long_mode_start"].

(** ** long_mode.s and kernel_start.asm *)

Definition long_mode_start : list instr :=
  [Label "long_mode_start";
   Mov B2 (R EAX) (I 0);
   MovToSeg SS EAX; MovToSeg DS EAX; MovToSeg ES EAX; MovToSeg FS EAX; MovToSeg GS EAX;
   Jmp "kernel_start"].

(** The Rust code stands at the end as a label. *)
Definition kernel_start : list instr := [Label "kernel_start"; Call "rust_main"; Hlt].

Definition boot_code : list instr :=
  boot_error ++ multiboot_check ++ cpuid_check ++ longmode_check ++ set_up_page_tables ++ enable_paging ++ start
  ++ long_mode_start ++ kernel_start ++ [Label "rust_main"].
End Layout.

(** ** The header *)

(** The words of the header. *)
Definition header_word (k : nat) : Z := le_value (take 4 (drop (4 * k) multiboot_header)).

(** What a loader checks: the length is that of the header, the four words cancel, and the tags
    end. *)
Lemma header_checks : Z.of_nat (length multiboot_header) = header_word 2
  ∧ wrap 32 (header_word 0 + header_word 1 + header_word 2 + header_word 3) = 0
  ∧ drop 16 multiboot_header = repeat 0 8.
Proof. by vm_compute. Qed.
