(* ===== verification/BootAsmSpec.v ===== *)
(** * BootAsmSpec: what the boot code does

    From the state in which a multiboot loader leaves the machine, the code of BootAsm either
    reaches [rust_main] in long mode, with the first GiB mapped to itself, or stops with a
    message.  Each routine has a lemma on its run; [start_runs] puts them together. *)

From Stdlib Require Import String.
From S2P Require Import Prelude Frames Asm BootAsm.
#[local] Open Scope string_scope.
#[local] Open Scope Z_scope.


Section Boot.
Context (cpuid : Z → Z * Z * Z * Z) (flags_writable : Z) (undefined_flags : Z → Z) (bss gdt64 : Z).
Abbreviation code := (boot_code bss gdt64).
Abbreviation Leads := (leads cpuid flags_writable undefined_flags translate code).

Definition label (l : string) : nat := default O (find_label (boot_code 0 0) l).

(** "ERR: " and a character, white on red. *)
Definition error_screen (ch : Z) : list Z := [69; 79; 82; 79; 82; 79; 58; 79; 32; 79; ch; 79].
Definition halted_with (ch : Z) (c : cpu) : Prop :=
  code !! eip c = Some Hlt ∧ map (memory c) (seqZ 0xb8000 12) = error_screen ch.

Lemma error_halts c : eip c = label "error" → mode c = Mode32 → Z.testbit (cr0 c) CR0_PG = false → Leads c (halted_with (wrap 8 (gpr c EAX))).
Proof.
  destruct c as [g k f r0 r3 r4 e gd s md m]. cbn [eip mode cr0]. intros -> -> Hpg.
  do 4 machine_step ltac:(rewrite store_unpaged by done).
  apply leads_now. split; [done|]. unfold halted_with. machine_unfold. set (al := wrap 8 (g EAX)).
  unfold poke at 1. cbn [seq map le_bytes store_at]. rewrite (Z.mod_small al) by (subst al; apply (wrap_bound 8); lia).
  generalize al. intros ch. by vm_compute.
Qed.

Hypothesis bss_low : 0x100000 ≤ bss.
Hypothesis bss_high : stack_top bss ≤ 2 ^ 30.

(** A routine called from [start]: its return address is the only word on the stack. *)
Record called (r : nat) (c : cpu) : Prop := {
  ca_mode : mode c = Mode32;
  ca_unpaged : Z.testbit (cr0 c) CR0_PG = false;
  ca_esp : gpr c ESP = stack_top bss - 4;
  ca_return : peek 4 (memory c) (stack_top bss - 4) = Z.of_nat r;
}.

(** A routine that leaves all but EAX, ECX, EDX, EBX, the flags and memory from [lo] to the top of
    the stack as they were. *)
Record returned (lo : Z) (r : nat) (c c' : cpu) : Prop := {
  rt_eip : eip c' = r;
  rt_mode : mode c' = mode c;
  rt_cr : cr0 c' = cr0 c ∧ cr3 c' = cr3 c ∧ cr4 c' = cr4 c ∧ efer c' = efer c;
  rt_esp : gpr c' ESP = stack_top bss;
  rt_edi : gpr c' EDI = gpr c EDI;
  rt_memory x : ¬ (lo ≤ x < stack_top bss) → memory c' x = memory c x;
}.

Ltac unpaged := rewrite ?load_unpaged, ?store_unpaged by done; machine_unfold.
Ltac layout := unfold stack_top, stack_bottom, p2_table, p3_table, p4_table in *; try lia.

Ltac refuse :=
  eapply leads_then; [apply error_halts; done|]; machine_unfold; intros c'; rewrite low_part by done; rewrite wrap_wrap; apply leads_now.
Ltac layout_split := split; machine_unfold; rewrite ?wrap_id; try done; layout.

Lemma multiboot_check_runs r c : called r c → eip c = label "multiboot_check" →
  Leads c (λ c', if wrap 32 (gpr c EAX) =? 0x36d76289 then returned (stack_bottom bss) r c c' else halted_with 48 c').
Proof.
  destruct c as [g k f r0 r3 r4 e gd s md m]. intros [Hmd Hpg Hsp Hret] Hk. cbn [gpr memory mode eip cr0] in *. subst k md.
  pose proof (wrap_bound 32 (g EAX) ltac:(lia)) as Ha. set (a := wrap 32 (g EAX)) in *.
  assert (Hcmp : (wrap 32 (a - wrap 32 0x36d76289) =? 0) = (a =? 0x36d76289)) by (by apply cmp_zero; [|by compute]).
  destruct (Z.eqb_spec a 0x36d76289).
  - do 3 machine_step ltac:(fold a; rewrite ?Hcmp, ?zf_status, ?Hsp; unpaged).
    apply leads_now. layout_split. 
  - do 2 machine_step ltac:(fold a; rewrite ?Hcmp, ?zf_status). do 2 machine_step idtac.
    refuse.
Qed.

(** The status flags can be written; so can ID on the processors that have CPUID. *)
Hypothesis status_writable : Z.land STATUS_FLAGS flags_writable = STATUS_FLAGS.

(** What [cpuid_check] compares: the flags read back after it flipped ID, and the flags before. *)
Lemma id_probe f zf cf :
  Z.lxor (flags_image (write_flags flags_writable (status undefined_flags f zf cf) (Z.lxor (flags_image f) (2 ^ 21)))) (flags_image f)
  = if Z.testbit flags_writable 21 then 2 ^ 21 else 0.
Proof.
  apply Z.bits_inj'. intros n Hn. unfold flags_image, write_flags.
  rewrite !Z.lxor_spec, !Z.land_spec, Z.lor_spec, Z.land_spec, Z.ldiff_spec, Z.lxor_spec, Z.land_spec.
  assert (Hs : Z.testbit flags_writable n = false → Z.testbit (status undefined_flags f zf cf) n = Z.testbit f n).
  { intros Hw. apply other_status; [done|]. by rewrite <- status_writable, Z.land_spec, Hw, andb_false_r. }
  destruct (decide (n = 21)) as [->|H21].
  - rewrite Z.pow2_bits_true by done. destruct (Z.testbit flags_writable 21).
    + rewrite Z.pow2_bits_true, andb_false_r by done. by destruct (Z.testbit f 21).
    + rewrite Hs by done. by destruct (Z.testbit f 21).
  - rewrite Z.pow2_bits_false by lia. replace (Z.testbit (if Z.testbit flags_writable 21 then 2 ^ 21 else 0) n) with false
      by (destruct (Z.testbit flags_writable 21); [by rewrite Z.pow2_bits_false by lia | by rewrite Z.bits_0]).
    destruct (Z.testbit flags_writable n); [rewrite andb_false_r | rewrite Hs by done]; by destruct (Z.testbit f n), (Z.testbit 0xFCFFFF n).
Qed.

Lemma flags_image_bound f : 0 ≤ flags_image f < 2 ^ 32.
Proof.
  assert (H0 : 0 ≤ flags_image f) by (apply Z.land_nonneg; lia). split; [done|].
  apply (Z.bounded_iff_bits_nonneg 32); [lia | done|]. intros n Hn. unfold flags_image. rewrite Z.land_spec.
  by rewrite (proj1 (Z.bounded_iff_bits_nonneg 32 0xFCFFFF ltac:(lia) ltac:(lia))), andb_false_r by (lia || done).
Qed.

Lemma lxor_bound a b : 0 ≤ a < 2 ^ 32 → 0 ≤ b < 2 ^ 32 → 0 ≤ Z.lxor a b < 2 ^ 32.
Proof.
  intros Ha Hb. assert (H0 : 0 ≤ Z.lxor a b) by (apply Z.lxor_nonneg; lia). split; [done|].
  apply (Z.bounded_iff_bits_nonneg 32); [lia | done|]. intros n Hn. rewrite Z.lxor_spec.
  by rewrite (proj1 (Z.bounded_iff_bits_nonneg 32 a ltac:(lia) ltac:(lia))), (proj1 (Z.bounded_iff_bits_nonneg 32 b ltac:(lia) ltac:(lia)))
    by (lia || done).
Qed.

Lemma cpuid_check_runs r c : called r c → eip c = label "cpuid_check" →
  Leads c (λ c', if Z.testbit flags_writable 21 then returned (stack_bottom bss) r c c' else halted_with 49 c').
Proof.
  destruct c as [g k f r0 r3 r4 e gd s md m]. intros [Hmd Hpg Hsp Hret] Hk. cbn [gpr memory mode eip cr0] in *. subst k md.
  set (T := stack_top bss) in *. assert (HT : 0x100000 + 28672 ≤ T ≤ 2 ^ 30) by (subst T; layout).
  assert (T8 : wrap 32 (T - 4 - 4) = T - 8) by (rewrite wrap_id; lia).
  assert (T4 : wrap 32 (T - 8 + 4) = T - 4) by (rewrite wrap_id; lia).
  assert (T0 : wrap 32 (T - 4 + 4) = T) by (rewrite wrap_id; lia).
  set (x := flags_image f). assert (Hx : 0 ≤ x < 2 ^ 32) by apply flags_image_bound. pose proof (wrap_id 32 x Hx) as Wx.
  set (y := Z.lxor x (wrap 32 (Z.shiftl 1 21))). assert (Hy : 0 ≤ y < 2 ^ 32) by (by apply lxor_bound). pose proof (wrap_id 32 y Hy) as Wy.
  do 6 machine_step ltac:(rewrite ?Hsp, ?T8, ?T4; unpaged; fold x; rewrite ?peek4_poke, ?Wx by done; fold y; rewrite ?Wy by done).
  set (f2 := write_flags _ _ _). set (z := flags_image f2). assert (Hz : 0 ≤ z < 2 ^ 32) by apply flags_image_bound. pose proof (wrap_id 32 z Hz) as Wz.
  do 5 machine_step ltac:(rewrite ?T8, ?T4; unpaged; fold z; rewrite ?peek4_poke, ?Wx, ?Wz by done).
  assert (P : Z.lxor z x = if Z.testbit flags_writable 21 then 2 ^ 21 else 0) by apply id_probe.
  rewrite P. destruct (Z.testbit flags_writable 21).
  - do 2 machine_step ltac:(rewrite ?zf_status, ?T0; unpaged). apply leads_now.
    split; machine_unfold; rewrite ?peek_poke_other, ?Hret, ?Nat2Z.id by lia; try done.
    intros a Ha. rewrite !poke_outside; [done| | | |]; subst T; layout.
  - machine_step ltac:(rewrite zf_status). do 2 machine_step idtac. refuse.
Qed.

(** Long mode, as CPUID reports it. *)
Definition has_long_mode : bool :=
  let '(highest, _, _, _) := cpuid 0x80000000 in
  let '(_, _, _, features) := cpuid 0x80000001 in
  (0x80000001 <=? wrap 32 highest) && Z.testbit features 29.

Lemma test_bit v n : 0 ≤ n < 32 → (Z.land (wrap 32 v) (wrap 32 (Z.shiftl 1 n)) =? 0) = negb (Z.testbit v n).
Proof.
  intros Hn. rewrite (wrap_id 32 (Z.shiftl 1 n)), Z.shiftl_1_l
    by (rewrite Z.shiftl_1_l; split; [lia | apply Z.pow_lt_mono_r; lia]).
  rewrite <- (Z.mod_pow2_bits_low v 32 n) by lia. fold (wrap 32 v). destruct (Z.testbit (wrap 32 v) n) eqn:Hb; cbn [negb].
  - apply Z.eqb_neq. intros H0. apply (f_equal (λ z, Z.testbit z n)) in H0. rewrite Z.land_spec, Hb, Z.pow2_bits_true, Z.bits_0 in H0 by lia. done.
  - apply Z.eqb_eq. apply Z.bits_inj'. intros k Hk. rewrite Z.land_spec, Z.bits_0. destruct (decide (k = n)) as [->|]; [by rewrite Hb|].
    by rewrite Z.pow2_bits_false, andb_false_r by lia.
Qed.

Lemma longmode_check_runs r c : called r c → eip c = label "longmode_check" →
  Leads c (λ c', if has_long_mode then returned (stack_bottom bss) r c c' else halted_with 50 c').
Proof.
  destruct c as [g k f r0 r3 r4 e gd s md m]. intros [Hmd Hpg Hsp Hret] Hk. cbn [gpr memory mode eip cr0] in *. subst k md.
  unfold has_long_mode. destruct (cpuid 0x80000000) as [[[a1 b1] c1] d1] eqn:E1. destruct (cpuid 0x80000001) as [[[a2 b2] c2] d2] eqn:E2.
  change 0x80000001 with (wrap 32 0x80000001) at 1. rewrite Z.leb_antisym.
  do 3 machine_step ltac:(change (wrap 32 (wrap 32 (wrap 32 0x80000000))) with 0x80000000; rewrite ?E1, ?(wrap_wrap 32 a1)).
  destruct (wrap 32 a1 <? wrap 32 0x80000001); cbn [negb andb].
  { machine_step ltac:(rewrite cf_status). do 2 machine_step idtac. refuse. }
  do 4 machine_step ltac:(change (wrap 32 (wrap 32 (wrap 32 0x80000001))) with 0x80000001; rewrite ?cf_status, ?E2, ?(wrap_wrap 32 d2), ?test_bit by done).
  destruct (Z.testbit d2 29); cbn [negb].
  - do 2 machine_step ltac:(rewrite ?zf_status, ?Hsp; unpaged). apply leads_now. layout_split.
  - machine_step ltac:(rewrite zf_status). do 2 machine_step idtac. refuse.
Qed.

Hypothesis bss_aligned : bss mod 4096 = 0.

(** The tables with the first [n] huge pages: every other entry is empty. *)
Record tables (n : Z) (m : Z → Z) : Prop := {
  tb_p4 j : 0 ≤ j < 512 →
    peek 8 m (p4_table bss + 8 * j) = if j =? 0 then p3_table bss + 3 else if j =? 511 then p4_table bss + 3 else 0;
  tb_p3 j : 0 ≤ j < 512 → peek 8 m (p3_table bss + 8 * j) = if j =? 0 then p2_table bss + 3 else 0;
  tb_p2 j : 0 ≤ j < n → peek 8 m (p2_table bss + 8 * j) = j * 2 ^ 21 + 0x83;
  tb_rest x : p2_table bss + 8 * n ≤ x < p2_table bss + 4096 → m x = 0;
}.

Lemma or_low p b n : 0 ≤ n → p mod 2 ^ n = 0 → 0 ≤ b < 2 ^ n → Z.lor p b = p + b.
Proof.
  intros Hn Hp Hb. replace p with (Z.shiftl (p / 2 ^ n) n) by (rewrite Z.shiftl_mul_pow2 by done; pose proof (Z.div_mod p (2 ^ n)); lia).
  rewrite lor_shiftl_low, Z.shiftl_mul_pow2 by done. done.
Qed.

(** The three stores before the loop. *)
Definition first_entries (m : Z → Z) : Z → Z :=
  poke 4 (poke 4 (poke 4 m (p4_table bss + 511 * 8) (p4_table bss + 3)) (p4_table bss) (p3_table bss + 3)) (p3_table bss) (p2_table bss + 3).

Lemma first_entries_tables m : (∀ x, bss ≤ x < stack_bottom bss → m x = 0) → tables 0 (first_entries m).
Proof.
  intros Hz. unfold first_entries. assert (Hw : ∀ a k, bss ≤ a → a + Z.of_nat k ≤ stack_bottom bss → peek k m a = 0)
    by (intros a k Ha Hk; apply peek_zero; intros x Hx; apply Hz; lia).
  split; layout.
  - intros j Hj. rewrite peek_poke_other by lia. destruct (Z.eqb_spec j 0) as [->|Hn0].
    + rewrite Z.add_0_r, peek8_poke4; [lia | | lia]. intros x Hx. rewrite poke_outside by lia. apply Hz. lia.
    + rewrite peek_poke_other by lia. destruct (Z.eqb_spec j 511) as [->|Hn].
      * replace (bss + 511 * 8) with (bss + 8 * 511) by lia. rewrite peek8_poke4; [lia | intros; apply Hz; lia | lia].
      * rewrite peek_poke_other by lia. apply Hw; lia.
  - intros j Hj. destruct (Z.eqb_spec j 0) as [->|Hn0].
    + rewrite Z.add_0_r, peek8_poke4; [lia | | lia]. intros x Hx. rewrite !poke_outside by lia. apply Hz. lia.
    + rewrite !peek_poke_other by lia. apply Hw; lia.
  - intros x Hx. rewrite !poke_outside by lia. apply Hz. lia.
Qed.

(** The store of the loop. *)
Lemma tables_next n m : 0 ≤ n < 512 → tables n m → tables (n + 1) (poke 4 m (p2_table bss + 8 * n) (n * 2 ^ 21 + 0x83)).
Proof.
  intros Hn [H4 H3 H2 Hz]. split; layout.
  - intros j Hj. rewrite peek_poke_other by lia. by apply H4.
  - intros j Hj. rewrite peek_poke_other by lia. by apply H3.
  - intros j Hj. destruct (decide (j = n)) as [->|].
    + rewrite peek8_poke4; [done | intros; apply Hz; lia | lia].
    + rewrite peek_poke_other by lia. apply H2. lia.
  - intros x Hx. rewrite poke_outside by lia. apply Hz. lia.
Qed.

(** In the loop: [n] entries are written. *)
Record looping (n : Z) (r : nat) (c c' : cpu) : Prop := {
  lp_mode : mode c' = Mode32;
  lp_cr : cr0 c' = cr0 c ∧ cr3 c' = cr3 c ∧ cr4 c' = cr4 c ∧ efer c' = efer c;
  lp_esp : gpr c' ESP = stack_top bss - 4;
  lp_edi : gpr c' EDI = gpr c EDI;
  lp_ecx : gpr c' ECX = n;
  lp_return : peek 4 (memory c') (stack_top bss - 4) = Z.of_nat r;
  lp_tables : tables n (memory c');
  lp_memory x : ¬ (bss ≤ x < stack_bottom bss) → memory c' x = memory c x;
}.

(** One round. *)
Lemma map_p2_table_round r c c' n : 0 ≤ n < 512 → Z.testbit (cr0 c) CR0_PG = false → looping n r c c' → eip c' = label "map_p2_table" →
  Leads c' (λ c'', looping (n + 1) r c c'' ∧ eip c'' = if n + 1 =? 512 then (label "enable_paging" - 2)%nat else label "map_p2_table").
Proof.
  destruct c' as [g k f r0 r3 r4 e gd s md m]. intros Hn Hpg [Hmd Hcr Hsp Hdi Hcx Hret Ht Hm] Hk. cbn [gpr memory mode eip cr0 cr3 cr4 efer] in *.
  subst k md. rewrite <- (proj1 Hcr) in Hpg.
  assert (Wn : wrap 32 n = n) by (apply wrap_id; lia).
  assert (W1 : wrap 32 (n + 1) = n + 1) by (apply wrap_id; lia).
  set (a := n * 2 ^ 21). assert (Ha : 0 ≤ a < 2 ^ 30) by (subst a; lia). 
  assert (Wp : wrap 32 (0x200000 * n) = a) by (rewrite wrap_id; subst a; lia).
  assert (Wo : Z.lor a (wrap 32 0x83) = a + 0x83) by (apply (or_low _ _ 21); [lia | apply Z.mod_mul; lia | done]).
  assert (Wa : wrap 32 a = a) by (apply wrap_id; lia).
  assert (Wb : wrap 32 (a + 0x83) = a + 0x83) by (apply wrap_id; lia).
  assert (We : wrap 32 (0 + n * 8 + p2_table bss) = p2_table bss + 8 * n) by (rewrite wrap_id; layout).
  do 2 machine_step ltac:(change (wrap 32 (wrap 32 (wrap 32 0x200000))) with 0x200000; rewrite ?Hcx, ?Wn, ?Wp).
  assert (Wc : (wrap 32 (n + 1 - wrap 32 512) =? 0) = (n + 1 =? 512)) by (apply cmp_zero; [lia | done]).
  do 4 machine_step ltac:(rewrite ?Hcx, ?Wa, ?Wo, ?Wb, ?We, ?Wn, ?W1; unpaged; rewrite ?Wc).
  destruct (n + 1 =? 512); machine_step ltac:(rewrite zf_status); apply leads_now; (split; [|done]); split; machine_unfold; try done.
  all: try (by rewrite peek_poke_other by layout).
  all: try (by apply tables_next).
  all: intros x Hx; rewrite poke_outside by layout; by apply Hm.
Qed.

Lemma map_p2_table_runs r c c' n k : n + Z.of_nat k = 512 → (0 < k)%nat → 0 ≤ n → Z.testbit (cr0 c) CR0_PG = false → looping n r c c' →
  eip c' = label "map_p2_table" → Leads c' (λ c'', looping 512 r c c'' ∧ eip c'' = (label "enable_paging" - 2)%nat).
Proof.
  intros Hk Hpos Hn Hpg Hl He. revert n c' Hk Hn Hl He. induction k as [|k IH]; [lia|]. intros n c' Hk Hn Hl He.
  eapply leads_then; [apply (map_p2_table_round r c c' n); [lia | done..]|]. intros c'' [Hl' He'].
  destruct (Z.eqb_spec (n + 1) 512) as [E|E].
  - apply leads_now. by rewrite E in Hl'.
  - apply (IH ltac:(lia) (n + 1)); [lia | lia | done..].
Qed.

(** Arithmetic on the address of a table. *)
Lemma table_words p : p mod 4096 = 0 → 0 ≤ p < 2 ^ 30 →
  wrap 32 p = p ∧ Z.lor p (wrap 32 3) = p + 3 ∧ wrap 32 (p + 3) = p + 3 ∧ wrap 32 (0 + 0 + p) = p.
Proof. intros Hp Hb. split_and!; rewrite ?wrap_id; try lia. apply (or_low _ _ 12); done. Qed.

Lemma aligned_next p : p mod 4096 = 0 → (p + 4096) mod 4096 = 0.
Proof. intros Hp. by rewrite <- Z.add_mod_idemp_l, Hp by lia. Qed.

(** The [ret] after the loop. *)
Lemma tables_return r c c' : Z.testbit (cr0 c) CR0_PG = false → mode c = Mode32 → looping 512 r c c' → eip c' = (label "enable_paging" - 2)%nat →
  Leads c' (λ c'', returned bss r c c'' ∧ tables 512 (memory c'')).
Proof.
  destruct c' as [g k f r0 r3 r4 e gd s md m]. intros Hpg Hmode [Hmd Hcr Hsp Hdi Hcx Hret Ht Hm] Hk. cbn [gpr memory mode eip cr0 cr3 cr4 efer] in *.
  subst k md. rewrite <- (proj1 Hcr) in Hpg. machine_step ltac:(rewrite Hsp; unpaged). apply leads_now. split; [|done].
  split; machine_unfold; rewrite ?Hret, ?Nat2Z.id, ?wrap_id; try done; try (by layout). intros x Hx. apply Hm. layout.
Qed.

Lemma set_up_page_tables_runs r c : called r c → eip c = label "set_up_page_tables" → (∀ x, bss ≤ x < stack_bottom bss → memory c x = 0) →
  Leads c (λ c', returned bss r c c' ∧ tables 512 (memory c')).
Proof.
  destruct c as [g k f r0 r3 r4 e gd s md m]. intros [Hmd Hpg Hsp Hret] Hk Hz. cbn [gpr memory mode eip cr0] in *. subst k md.
  destruct (table_words (p4_table bss)) as (A1 & A2 & A3 & A4); [done | layout|].
  destruct (table_words (p3_table bss)) as (B1 & B2 & B3 & B4); [by apply aligned_next | layout|].
  destruct (table_words (p2_table bss)) as (C1 & C2 & C3 & _); [by do 2 apply aligned_next | layout|].
  assert (A5 : wrap 32 (0 + 0 + (p4_table bss + 511 * 8)) = p4_table bss + 511 * 8) by (rewrite wrap_id; layout).
  do 10 machine_step ltac:(rewrite ?A5, ?A4, ?B4, ?A1, ?B1, ?C1, ?A2, ?B2, ?C2, ?A3, ?B3, ?C3; unpaged).
  machine_step idtac.
  match goal with |- leads _ _ _ _ _ ?c _ => set (c1 := c) end.
  eapply leads_then; [apply (map_p2_table_runs r (Cpu g (label "set_up_page_tables") f r0 r3 r4 e gd s Mode32 m) c1 0 512); try done; try lia|].
  - split; try done; subst c1; machine_unfold; try done.
    + by rewrite !peek_poke_other by layout.
    + by apply first_entries_tables.
    + intros x Hx. rewrite !poke_outside by layout. done.
  - subst c1. intros c2 [Hl He]. by apply tables_return.
Qed.

(** ** The first GiB is mapped to itself *)

Lemma low_bit v n k i : 0 ≤ i < n → v mod 2 ^ n = k → Z.testbit v i = Z.testbit k i.
Proof. intros Hi <-. by rewrite Z.mod_pow2_bits_low by lia. Qed.

Lemma table_entry p : p mod 4096 = 0 → 0 ≤ p < 2 ^ 30 →
  Z.testbit (p + 3) 0 = true ∧ Z.testbit (p + 3) 1 = true ∧ Z.testbit (p + 3) 7 = false ∧ Z.land (p + 3) ENTRY_ADDRESS = p.
Proof.
  intros Hp Hb. assert (Hm : (p + 3) mod 2 ^ 12 = 3) by (change (2 ^ 12) with 4096; by rewrite <- Z.add_mod_idemp_l, Hp by lia).
  rewrite !(low_bit (p + 3) 12 3) by (lia || done). split_and!; try done.
  change ENTRY_ADDRESS with ADDR_MASK. rewrite land_addr_mask. pose proof (Z.div_mod (p + 3) 4096 ltac:(lia)) as Hd.
  change (2 ^ 12) with 4096 in Hm. rewrite Z.mod_small; lia.
Qed.

Lemma huge_entry j : 0 ≤ j < 512 → let e := j * 2 ^ 21 + 0x83 in
  Z.testbit e 0 = true ∧ Z.testbit e 1 = true ∧ Z.testbit e 7 = true ∧ Z.land (Z.land e ENTRY_ADDRESS) (Z.lnot (2 ^ 21 - 1)) = j * 2 ^ 21.
Proof.
  intros Hj e. assert (Hm : e mod 2 ^ 12 = 0x83).
  { subst e. replace (j * 2 ^ 21) with (j * 2 ^ 9 * 2 ^ 12) by lia. by rewrite Z.add_comm, Z.mod_add by lia. }
  rewrite !(low_bit e 12 0x83) by (lia || done). split_and!; try done.
  change ENTRY_ADDRESS with ADDR_MASK. rewrite land_addr_mask. pose proof (Z.div_mod e 4096 ltac:(lia)) as Hd.
  change (2 ^ 12) with 4096 in Hm. rewrite (Z.mod_small (e / 4096)) by (subst e; lia). 
  replace (e / 4096 * 4096) with (j * 2 ^ 21) by lia.
  rewrite <- Z.ldiff_land. change (2 ^ 21 - 1) with (Z.ones 21). rewrite Z.ldiff_ones_r, Z.shiftr_div_pow2, Z.shiftl_mul_pow2 by lia. by rewrite Z.div_mul by lia.
Qed.

Lemma identity_mapped m w a : tables 512 m → 0 ≤ a < 2 ^ 30 → walk_tables m w 3 bss a = Some a.
Proof.
  intros [H4 H3 H2 _] Ha. set (j := a / 2 ^ 21). assert (Hj : 0 ≤ j < 512) by (subst j; split; [apply Z.div_pos; lia | apply Z.div_lt_upper_bound; lia]).
  specialize (H4 0 ltac:(lia)). specialize (H3 0 ltac:(lia)). specialize (H2 j Hj). rewrite Z.mul_0_r, Z.add_0_r in *.
  destruct (table_entry (p3_table bss)) as (A0 & A1 & A7 & AM); [by apply aligned_next | layout|].
  destruct (table_entry (p2_table bss)) as (B0 & B1 & B7 & BM); [by do 2 apply aligned_next | layout|].
  destruct (huge_entry j Hj) as (C0 & C1 & C7 & CM).
  assert (I3 : Z.shiftr a (12 + 9 * Z.of_nat 3) mod 512 = 0) by (rewrite Z.shiftr_div_pow2 by lia; rewrite Z.div_small; done || lia).
  assert (I2 : Z.shiftr a (12 + 9 * Z.of_nat 2) mod 512 = 0) by (rewrite Z.shiftr_div_pow2 by lia; rewrite Z.div_small; done || lia).
  assert (I1 : Z.shiftr a (12 + 9 * Z.of_nat 1) mod 512 = j) by (rewrite Z.shiftr_div_pow2 by lia; apply Z.mod_small, Hj).
  change bss with (p4_table bss). cbn [walk_tables]. rewrite I3, Z.mul_0_r, Z.add_0_r, H4. cbn [Z.eqb].
  rewrite A0, A1, A7, AM, andb_false_r. cbn [negb]. rewrite I2, Z.mul_0_r, Z.add_0_r, H3. cbn [Z.eqb].
  rewrite B0, B1, B7, BM, andb_false_r. cbn [negb]. rewrite I1, H2, C0, C1, C7, andb_false_r. cbn [negb Nat.eqb].
  change (12 + 9 * Z.of_nat 1) with 21. rewrite CM. f_equal. subst j. pose proof (Z.div_mod a (2 ^ 21) ltac:(lia)). lia.
Qed.

(** Long mode is on, with the tables; [c] is the state before. *)
Record paged (c c' : cpu) : Prop := {
  pg_cr3 : cr3 c' = p4_table bss;
  pg_cr0 : Z.testbit (cr0 c') CR0_PG = true;
  pg_cr4 : Z.testbit (cr4 c') CR4_PAE = true;
  pg_lme : Z.testbit (efer c') EFER_LME = true;
  pg_lma : Z.testbit (efer c') EFER_LMA = true;
  pg_edi : gpr c' EDI = gpr c EDI;
  pg_tables : tables 512 (memory c');
  pg_memory : memory c' = memory c;
}.

Lemma paged_translate c c' w a : paged c c' → 0 ≤ a < 2 ^ 30 → translate c' w a = Some a.
Proof.
  intros [H3 H0 _ _ Ha _ Ht _] Hr. unfold translate. rewrite H0, Ha, H3. cbn [negb].
  replace (Z.land (p4_table bss) ENTRY_ADDRESS) with bss; [by apply identity_mapped|].
  change ENTRY_ADDRESS with ADDR_MASK. rewrite land_addr_mask. pose proof (Z.div_mod bss 4096 ltac:(lia)) as Hd.
  unfold p4_table in *. rewrite Z.mod_small; layout.
Qed.

(** [or eax, 1 << n] sets the bit, whatever the register held. *)
Lemma or_bit v n : 0 ≤ n < 32 → Z.testbit (wrap 32 (wrap 32 (Z.lor (wrap 32 (wrap 32 v)) (wrap 32 (Z.shiftl 1 n))))) n = true.
Proof.
  intros Hn. rewrite wrap_wrap, (wrap_id 32 (Z.shiftl 1 n)), Z.shiftl_1_l
    by (rewrite Z.shiftl_1_l; split; [lia | apply Z.pow_lt_mono_r; lia]).
  unfold wrap. by rewrite Z.mod_pow2_bits_low, Z.lor_spec, Z.pow2_bits_true, orb_true_r by lia.
Qed.

Lemma low_word x y n : 0 ≤ n < 32 → Z.testbit (x + 2 ^ 32 * y) n = Z.testbit x n.
Proof.
  intros Hn. rewrite <- (Z.mod_pow2_bits_low (x + 2 ^ 32 * y) 32 n), <- (Z.mod_pow2_bits_low x 32 n) by lia.
  f_equal. by rewrite (Z.mul_comm (2 ^ 32)), Z.mod_add by lia.
Qed.

Lemma enable_paging_runs r c : called r c → eip c = label "enable_paging" → tables 512 (memory c) →
  Leads c (λ c', paged c c' ∧ eip c' = r ∧ mode c' = Mode32 ∧ gpr c' ESP = stack_top bss).
Proof.
  destruct c as [g k f r0 r3 r4 e gd s md m]. intros [Hmd Hpg Hsp Hret] Hk Ht. cbn [gpr memory mode eip cr0] in *. subst k md.
  pose proof (or_bit r4 CR4_PAE ltac:(done)) as H4. pose proof (or_bit e EFER_LME ltac:(done)) as H8. pose proof (or_bit r0 CR0_PG ltac:(done)) as H0.
  change (Z.shiftl 1 CR4_PAE) with (Z.shiftl 1 5) in H4. change (Z.shiftl 1 CR0_PG) with (Z.shiftl 1 31) in H0.
  change (Z.shiftl 1 EFER_LME) with (Z.shiftl 1 8) in H8.
  set (v4 := wrap 32 (wrap 32 (Z.lor (wrap 32 (wrap 32 r4)) _))) in *. set (v8 := wrap 32 (wrap 32 (Z.lor (wrap 32 (wrap 32 e)) _))) in *.
  set (v0 := wrap 32 (wrap 32 (Z.lor (wrap 32 (wrap 32 r0)) _))) in *.
  assert (W : wrap 32 (wrap 32 (wrap 32 (p4_table bss))) = p4_table bss) by (rewrite !wrap_wrap, wrap_id; layout).
  do 5 machine_step ltac:(rewrite ?W; fold v4).
  do 4 machine_step ltac:(change (wrap 32 (wrap 32 (wrap 32 0xC0000080)) =? EFER_MSR) with true; fold v8).
  set (e1 := v8 + _). assert (He : Z.testbit e1 EFER_LME = true) by (subst e1; by rewrite low_word).
  do 3 machine_step ltac:(fold v0; rewrite ?He, ?H4, ?H0).
  match goal with |- leads _ _ _ _ _ ?c _ => assert (Hp : paged (Cpu g (label "enable_paging") f r0 r3 r4 e gd s Mode32 m) c) end.
  { split; machine_unfold; try done; unfold EFER_LMA, EFER_LME in *; rewrite ?Z.setbit_eqb by lia; [by rewrite He, orb_true_r | done]. }
  machine_step ltac:(rewrite load_identity by (intros x Hx; apply (paged_translate _ _ _ _ Hp); rewrite Hsp in Hx; layout)).
  apply leads_now. destruct Hp. split; [by split|]. machine_unfold. rewrite Hsp, Hret, Nat2Z.id, wrap_id by layout. split_and!; [done..|lia].
Qed.

(** ** From [start] to [rust_main] *)

Hypothesis gdt_place : 0 ≤ gdt64 ∧ gdt64 + 26 ≤ 2 ^ 30 ∧ (gdt64 + 26 ≤ bss ∨ stack_top bss ≤ gdt64).

(** .rodata and .bss as the loader leaves them. *)
Definition image_loaded (m : Z → Z) : Prop :=
  (∀ i b, gdt64_bytes gdt64 !! i = Some b → m (gdt64 + Z.of_nat i) = b) ∧ (∀ x, bss ≤ x < stack_bottom bss → m x = 0).

(** Between the calls of [start]. *)
Record ready (k : nat) (info : Z) (c : cpu) : Prop := {
  rd_eip : eip c = k;
  rd_mode : mode c = Mode32;
  rd_unpaged : Z.testbit (cr0 c) CR0_PG = false;
  rd_esp : gpr c ESP = stack_top bss;
  rd_edi : gpr c EDI = info;
}.
Definition before (k : nat) (info : Z) (m0 : Z → Z) (c : cpu) : Prop :=
  ready k info c ∧ image_loaded (memory c) ∧ ∀ x, ¬ (bss ≤ x < stack_top bss) → memory c x = m0 x.

Lemma call_runs k l n info c : ready k info c → code !! k = Some (Call l) → find_label code l = Some n → Z.of_nat k < 2 ^ 31 →
  Leads c (λ c', called (S k) c' ∧ eip c' = n ∧ gpr c' EAX = gpr c EAX ∧ gpr c' EDI = info
    ∧ ∀ x, ¬ (stack_bottom bss ≤ x < stack_top bss) → memory c' x = memory c x).
Proof.
  destruct c as [g k' f r0 r3 r4 e gd s md m]. intros [Hk Hmd Hpg Hsp Hdi] Hi Hl Hb. cbn [gpr memory mode eip cr0] in *. subst k' md.
  assert (HT : wrap 32 (stack_top bss - 4) = stack_top bss - 4) by (rewrite wrap_id; layout).
  eapply leads_step; [exact Hi | cbn [exec]; cbv [push_word jump_to]; rewrite store_unpaged by done; cbn [mbind option_bind]; rewrite Hl; reflexivity|].
  apply leads_now. machine_unfold. rewrite Hsp, HT. split_and!; [|done..|].
  - split; machine_unfold; try done. rewrite peek4_poke; [done|]. change (0 ≤ Z.of_nat (S k) < 2 ^ 32). lia.
  - intros x Hx. rewrite poke_outside; [done|layout].
Qed.

Lemma image_kept m m' : image_loaded m → (∀ x, ¬ (stack_bottom bss ≤ x < stack_top bss) → m' x = m x) → image_loaded m'.
Proof.
  intros [Hg Hz] Hm. split; intros.
  - rewrite Hm; [by apply Hg|]. pose proof (lookup_lt_Some _ _ _ H) as Hi. change (length (gdt64_bytes gdt64)) with 26%nat in Hi. layout.
  - rewrite Hm; [by apply Hz | layout].
Qed.

(** A call of a routine that returns. *)
Lemma check_returns k info m0 c c1 c2 : before k info m0 c → called (S k) c1 → gpr c1 EDI = info →
  (∀ x, ¬ (stack_bottom bss ≤ x < stack_top bss) → memory c1 x = memory c x) → returned (stack_bottom bss) (S k) c1 c2 → before (S k) info m0 c2.
Proof.
  intros [[Hk Hmd Hpg Hsp Hdi] [Him Hm0]] [Hmd1 Hpg1 Hsp1 _] Hdi1 Hm [Hk2 Hmd2 (H0 & _) Hsp2 Hdi2 Hm2]. split_and!; [split; congruence| |].
  - apply (image_kept (memory c)); [done|]. intros x Hx. by rewrite Hm2, Hm.
  - intros x Hx. rewrite Hm2, Hm by layout. by apply Hm0.
Qed.

(** What the CPU must be for the kernel to be started. *)
Definition refusal (eax : Z) : option Z :=
  if negb (wrap 32 eax =? 0x36d76289) then Some 48
  else if negb (Z.testbit flags_writable 21) then Some 49
  else if negb has_long_mode then Some 50
  else None.

(** The three checks. *)
Lemma checks_run info m0 c : before (label "start" + 2) info m0 c →
  Leads c (λ c', match refusal (gpr c EAX) with Some ch => halted_with ch c' | None => before (label "start" + 5) info m0 c' end).
Proof.
  intros Hc. eapply leads_then; [apply (call_runs _ "multiboot_check" (label "multiboot_check") _ _ (proj1 Hc)); done|]. intros c1 (Hc1 & He1 & Ha1 & Hd1 & Hm1).
  eapply leads_then; [by apply (multiboot_check_runs _ _ Hc1)|]. intros c2. rewrite Ha1. unfold refusal.
  destruct (wrap 32 (gpr c EAX) =? 0x36d76289); cbn [negb]; [|apply leads_now]. intros Hr2.
  pose proof (check_returns _ _ _ _ _ _ Hc Hc1 Hd1 Hm1 Hr2) as Hc2. clear - Hc2 bss_low bss_high status_writable gdt_place.
  eapply leads_then; [apply (call_runs _ "cpuid_check" (label "cpuid_check") _ _ (proj1 Hc2)); done|]. intros c3 (Hc3 & He3 & _ & Hd3 & Hm3).
  eapply leads_then; [by apply (cpuid_check_runs _ _ Hc3)|]. intros c4. destruct (Z.testbit flags_writable 21); cbn [negb]; [|apply leads_now]. intros Hr4.
  pose proof (check_returns _ _ _ _ _ _ Hc2 Hc3 Hd3 Hm3 Hr4) as Hc4. clear - Hc4 bss_low bss_high status_writable gdt_place.
  eapply leads_then; [apply (call_runs _ "longmode_check" (label "longmode_check") _ _ (proj1 Hc4)); done|]. intros c5 (Hc5 & He5 & _ & Hd5 & Hm5).
  eapply leads_then; [by apply (longmode_check_runs _ _ Hc5)|]. intros c6. destruct has_long_mode; cbn [negb]; [|apply leads_now]. intros Hr6.
  apply leads_now. by apply (check_returns _ _ _ _ _ _ Hc4 Hc5 Hd5 Hm5).
Qed.

(** The tables and long mode. *)
Record long_mode (info : Z) (m0 : Z → Z) (c : cpu) : Prop := {
  lm_paged : paged c c;
  lm_edi : gpr c EDI = info;
  lm_esp : gpr c ESP = stack_top bss;
  lm_gdt i b : gdt64_bytes gdt64 !! i = Some b → memory c (gdt64 + Z.of_nat i) = b;
  lm_memory x : ¬ (bss ≤ x < stack_top bss) → memory c x = m0 x;
}.

Lemma gdt_outside i b : gdt64_bytes gdt64 !! i = Some b → ¬ (bss ≤ gdt64 + Z.of_nat i < stack_top bss).
Proof. intros H. pose proof (lookup_lt_Some _ _ _ H) as Hi. change (length (gdt64_bytes gdt64)) with 26%nat in Hi. layout. Qed.

Lemma tables_kept n m m' : tables n m → (∀ x, ¬ (stack_bottom bss ≤ x < stack_top bss) → m' x = m x) → 0 ≤ n ≤ 512 → tables n m'.
Proof.
  intros [H4 H3 H2 Hz] Hm Hn. split; intros; [rewrite <- H4 | rewrite <- H3 | rewrite <- H2 | rewrite <- (Hz x)]; try done.
  1-3: apply peek_ext; intros y Hy; apply Hm; layout. apply Hm. layout.
Qed.

Lemma paging_runs info m0 c : before (label "start" + 5) info m0 c →
  Leads c (λ c', long_mode info m0 c' ∧ eip c' = (label "start" + 7)%nat ∧ mode c' = Mode32).
Proof.
  intros Hc. eapply leads_then; [apply (call_runs _ "set_up_page_tables" (label "set_up_page_tables") _ _ (proj1 Hc)); done|]. intros c1 (Hc1 & He1 & _ & Hd1 & Hm1).
  destruct Hc as (Hc & [Hg Hz] & Hm0).
  eapply leads_then; [apply (set_up_page_tables_runs _ _ Hc1 He1); intros x Hx; rewrite Hm1; [by apply Hz | layout]|].
  intros c2 [[Hk2 Hmd2 (Hr0 & _) Hsp2 Hdi2 Hm2] Ht2]. destruct Hc1 as [Hmd1 Hpg1 _ _].
  assert (Hc2 : ready (label "start" + 6) info c2) by (split; [by rewrite Hk2 | congruence..]).
  eapply leads_then; [apply (call_runs _ "enable_paging" (label "enable_paging") _ _ Hc2); done|]. intros c3 (Hc3 & He3 & _ & Hd3 & Hm3).
  eapply leads_then; [apply (enable_paging_runs _ _ Hc3 He3); by apply (tables_kept _ (memory c2))|]. intros c4 (Hp & He4 & Hmd4 & Hsp4).
  assert (Hm : ∀ x, ¬ (bss ≤ x < stack_top bss) → memory c4 x = memory c x)
    by (intros x Hx; rewrite (pg_memory _ _ Hp), Hm3, Hm2, Hm1 by (done || layout); done).
  apply leads_now. split; [|done]. destruct Hp. split; [by split | congruence | done | |].
  - intros i b Hb. rewrite Hm; [by apply Hg | by apply (gdt_outside i b)].
  - intros x Hx. rewrite Hm by done. by apply Hm0.
Qed.

(** The image of the kernel lies below 1 GiB. *)
Lemma gdt_words m : (∀ i b, gdt64_bytes gdt64 !! i = Some b → m (gdt64 + Z.of_nat i) = b) →
  peek 2 m (gdt64_pointer gdt64) = 15 ∧ peek 4 m (gdt64_pointer gdt64 + 2) = gdt64 ∧ peek 8 m (gdt64 + gdt64_code) = gdt64_entry.
Proof.
  intros Hg. unfold gdt64_pointer, gdt64_code. split_and!.
  - rewrite (peek_bytes 2 m _ (le_bytes 2 15)); [done.. |]. intros i b Hb. rewrite <- (Hg (16 + i)%nat b); [f_equal; lia|]. by do 2 (destruct i as [|i]; [done|]).
  - rewrite (peek_bytes 4 m _ (le_bytes 4 gdt64)); [apply le_value_bytes; lia | done|].
    intros i b Hb. rewrite <- (Hg (18 + i)%nat b); [f_equal; lia|]. by do 4 (destruct i as [|i]; [done|]).
  - rewrite (peek_bytes 8 m _ (le_bytes 8 gdt64_entry)); [done.. |]. intros i b Hb. rewrite <- (Hg (8 + i)%nat b); [f_equal; lia|].
    by do 8 (destruct i as [|i]; [done|]).
Qed.

(** In [rust_main], as the System V calling convention has it: [info] in rdi, the return address on
    an aligned stack, and the machine in 64-bit mode on the tables. *)
Record entered (info : Z) (m0 : Z → Z) (c : cpu) : Prop := {
  en_eip : eip c = label "rust_main";
  en_mode : mode c = Mode64;
  en_edi : gpr c EDI = info;
  en_esp : gpr c ESP = stack_top bss - 8;
  en_aligned : (gpr c ESP + 8) mod 16 = 0;
  en_return : code !! Z.to_nat (peek 8 (memory c) (gpr c ESP)) = Some Hlt;
  en_paged : paged c c;
  en_identity w a : 0 ≤ a < 2 ^ 30 → translate c w a = Some a;
  en_segments : sel c CS = gdt64_code ∧ sel c SS = 0 ∧ sel c DS = 0 ∧ sel c ES = 0 ∧ sel c FS = 0 ∧ sel c GS = 0;
  en_memory x : ¬ (bss ≤ x < stack_top bss) → memory c x = m0 x;
}.

Lemma long_mode_runs info m0 c : long_mode info m0 c → eip c = (label "start" + 7)%nat → mode c = Mode32 → Leads c (entered info m0).
Proof.
  destruct c as [g k f r0 r3 r4 e gd s md m]. intros [Hp Hdi Hsp Hg Hm] Hk Hmd. cbn [gpr memory mode eip] in *. subst k md.
  destruct (gdt_words m Hg) as (G1 & G2 & G3).
  assert (Hload : ∀ g' k' f' gd' s' md' n a, 0 ≤ a → a + Z.of_nat n ≤ 2 ^ 30 →
    load translate (Cpu g' k' f' r0 r3 r4 e gd' s' md' m) n a = Some (peek n m a)).
  { intros. rewrite load_identity; [done|]. intros x Hx. exact (paged_translate _ _ false x Hp ltac:(lia)). }
  assert (Hstore : ∀ g' k' f' gd' s' md' n a v, 0 ≤ a → a + Z.of_nat n ≤ 2 ^ 30 →
    store translate (Cpu g' k' f' r0 r3 r4 e gd' s' md' m) n a v = Some (Cpu g' k' f' r0 r3 r4 e gd' s' md' (poke n m a v))).
  { intros. rewrite store_identity; [done|]. intros x Hx. exact (paged_translate _ _ true x Hp ltac:(lia)). }
  assert (W : wrap 32 (0 + 0 + gdt64_pointer gdt64) = gdt64_pointer gdt64) by (rewrite wrap_id; unfold gdt64_pointer; lia).
  assert (WT : wrap 64 (stack_top bss - 8) = stack_top bss - 8) by (rewrite wrap_id; layout).
  machine_step ltac:(rewrite W, !Hload by (unfold gdt64_pointer; lia); rewrite G1, G2).
  machine_step ltac:(cbv [load_code_segment]; machine_unfold; change (15 <? gdt64_code + 7) with false; cbv iota;
    rewrite Hload by (unfold gdt64_code; lia); rewrite G3; change (Z.testbit gdt64_entry 47) with true; change (Z.testbit gdt64_entry 44) with true;
    change (Z.testbit gdt64_entry 43) with true; change (Z.testbit gdt64_entry 53) with true; machine_unfold;
    rewrite (pg_lma _ _ Hp : Z.testbit e EFER_LMA = true)).
  machine_step idtac. do 5 machine_step ltac:(rewrite low_part by done; change (wrap 16 (wrap 16 0) =? 0) with true). machine_step idtac.
  machine_step ltac:(rewrite Hsp, WT, Hstore by layout).
  apply leads_now. match goal with |- entered _ _ ?c => assert (Hp' : paged c c) end.
  { destruct Hp as [? ? ? ? ? ? Ht ?]. split; try done. machine_unfold. apply (tables_kept 512 m); [done | | lia].
    intros x Hx. apply poke_outside. layout. }
  split; try done.
  - machine_unfold. replace (stack_top bss - 8 + 8) with (bss + 7 * 4096) by layout.
    apply Z.mod_divide; [done|]. apply Z.divide_add_r; [|by exists (7 * 256)].
    apply (Z.divide_trans _ 4096); [by exists 256 | by apply Z.mod_divide].
  - machine_unfold. by rewrite peek8_poke.
  - intros w a Ha. by apply (paged_translate _ _ w a Hp').
  - intros x Hx. machine_unfold. rewrite poke_outside by layout. by apply Hm.
Qed.

(** The machine state in which a multiboot loader starts the kernel. *)
Record loaded (info : Z) (c : cpu) : Prop := {
  ld_eip : eip c = label "start";
  ld_mode : mode c = Mode32;
  ld_unpaged : Z.testbit (cr0 c) CR0_PG = false;
  ld_info : gpr c EBX = info ∧ 0 ≤ info < 2 ^ 32;
  ld_image : image_loaded (memory c);
}.

Lemma start_runs info c : loaded info c →
  Leads c (λ c', match refusal (gpr c EAX) with Some ch => halted_with ch c' | None => entered info (memory c) c' end).
Proof.
  destruct c as [g k f r0 r3 r4 e gd s md m]. intros [Hk Hmd Hpg [Hbx Hi] Him]. cbn [gpr memory mode eip cr0] in *. subst k md.
  assert (W : wrap 32 (wrap 32 (stack_top bss)) = stack_top bss) by (rewrite wrap_wrap, wrap_id; layout).
  do 2 machine_step ltac:(rewrite ?W). eapply leads_then; [apply (checks_run info m)|].
  { split_and!; [|done..]. split; try done. machine_unfold. by rewrite Hbx, wrap_wrap, wrap_id. }
  machine_unfold. intros c'. destruct (refusal (g EAX)); [apply leads_now|]. intros Hc'.
  eapply leads_then; [by apply paging_runs|]. intros c'' (Hl & He & Hm). by apply long_mode_runs.
Qed.

Lemma halted_stays ch c n : halted_with ch c → run cpuid flags_writable undefined_flags translate code n c = Some c.
Proof.
  intros [Hh _]. induction n as [|n IH]; [done|]. cbn [run]. unfold step. rewrite Hh. cbn. by destruct c.
Qed.

(** C11: The boot code starts the kernel.  On a CPU with CPUID and long mode, loaded by a
    multiboot loader, [start] reaches [rust_main] in 64-bit mode with the loader's information
    in rdi, an aligned stack that returns to [hlt], paging on with tables that map the first
    GiB to itself in 2 MiB pages and the last entry of the top table to the table, null data
    segments, and no memory changed outside of .bss. *)
Theorem boot_enters_rust_main info c : loaded info c → refusal (gpr c EAX) = None → Leads c (entered info (memory c)).
Proof. intros Hl Hr. pose proof (start_runs info c Hl) as H. by rewrite Hr in H. Qed.

(** C28: The boot code refuses the rest.  Without the loader's magic number it stops with "ERR: 0"
    on the screen, without CPUID with "ERR: 1" and without long mode with "ERR: 2", and stays
    there. *)
Theorem boot_refuses info c ch : loaded info c → refusal (gpr c EAX) = Some ch →
  Leads c (λ c', halted_with ch c' ∧ ∀ n, run cpuid flags_writable undefined_flags translate code n c' = Some c').
Proof.
  intros Hl Hr. pose proof (start_runs info c Hl) as H. rewrite Hr in H. eapply leads_then; [exact H|].
  intros c' Hh. apply leads_now. split; [done|]. intros n. by eapply halted_stays.
Qed.
End Boot.

(** ** A machine to run it on *)

Definition pc_cpuid (leaf : Z) : Z * Z * Z * Z := if leaf =? 0x80000000 then (0x80000008, 0, 0, 0) else (0, 0, 0, 2 ^ 29).
(** The flags up to AC and ID. *)
Definition pc_flags : Z := 0x247FD5.
Definition pc_memory (a : Z) : Z :=
  if (0x100018 <=? a) && (a <? 0x100032) then nth (Z.to_nat (a - 0x100018)) (gdt64_bytes 0x100018) 0 else 0.
Definition pc (eax : Z) : cpu :=
  Cpu (λ r, match r with EAX => eax | EBX => 0x9500 | _ => 7 end) (label "start") 2 0x11 0 0 0 (0, 0) (λ _, 16) Mode32 pc_memory.

Lemma pc_loaded eax : loaded 0x200000 0x100018 0x9500 (pc eax).
Proof.
  split; try done. split.
  - intros i b Hb. pose proof (lookup_lt_Some _ _ _ Hb) as Hi. change (length (gdt64_bytes 0x100018)) with 26%nat in Hi.
    cbn [memory pc]. unfold pc_memory. rewrite (proj2 (Z.leb_le _ _)), (proj2 (Z.ltb_lt _ _)) by lia. cbn [andb].
    rewrite nth_lookup. replace (Z.to_nat (0x100018 + Z.of_nat i - 0x100018)) with i by lia. by rewrite Hb.
  - intros x Hx. cbn [memory pc]. unfold pc_memory. destruct (Z.leb_spec 0x100018 x), (Z.ltb_spec x 0x100032); cbn [andb]; try done.
    cbv [stack_bottom p2_table p3_table p4_table] in Hx. lia.
Qed.

Lemma boot_enters_rust_main_witness : ∃ c', reaches pc_cpuid pc_flags (λ _, 0) translate (boot_code 0x200000 0x100018) (pc 0x36d76289) c'
  ∧ gpr c' EDI = 0x9500 ∧ mode c' = Mode64 ∧ translate c' true 0x3FFFFFFF = Some 0x3FFFFFFF.
Proof.
  destruct (boot_enters_rust_main pc_cpuid pc_flags (λ _, 0) 0x200000 0x100018 ltac:(done) ltac:(done) eq_refl eq_refl ltac:(vm_compute; intuition done)
    0x9500 (pc 0x36d76289) (pc_loaded _) eq_refl) as (c' & Hr & He).
  exists c'. split; [exact Hr|]. split; [apply (en_edi _ _ _ _ _ He)|]. split; [apply (en_mode _ _ _ _ _ He)|]. by apply (en_identity _ _ _ _ _ He).
Defined.

(** An old CPU: ID cannot be changed. *)
Lemma boot_refuses_witness : ∃ c', reaches pc_cpuid 0x47FD5 (λ _, 0) translate (boot_code 0x200000 0x100018) (pc 0x36d76289) c'
  ∧ map (memory c') (seqZ 0xb8000 12) = error_screen 49.
Proof.
  destruct (boot_refuses pc_cpuid 0x47FD5 (λ _, 0) 0x200000 0x100018 ltac:(done) ltac:(done) eq_refl eq_refl ltac:(vm_compute; intuition done)
    0x9500 (pc 0x36d76289) 49 (pc_loaded _) eq_refl) as (c' & Hr & [He _]).
  exists c'. split; [exact Hr | apply He].
Defined.
