(* ===== verification/UserAsm.v ===== *)
(** * UserAsm: the assembly of the user programs

    [_start] of cat and edit (src/userspace/cat/main.rs, edit/main.rs), which takes the argument
    frame off the stack, and of ls and shell, which brings a stack of its own; the two samples
    written in assembly (src/userspace/sample/main.s, sample2/main.s).  They run on the machine of
    Asm with the program's own view of memory; [int 0x80] is the trap of Ulib. *)

From Stdlib Require Import String.
From S2P Require Import Prelude Text Asm MemCtl Elf ElfLoad Ulib UlibSpec.
#[local] Open Scope string_scope.
#[local] Open Scope Z_scope.

(** ** Entry points *)

(** After [rust_main] the program exits; the Rust code stands at the end as a label. *)
Definition start_tail : list instr :=
  [Call "rust_main"; Mov B8 (R EAX) (I 1); IntN 0x80; Label "1"; Jmp "1"; Label "rust_main"].

(** cat and edit. *)
Definition start_args : list instr :=
  Label "_start" :: Mov B8 (R EDI) (M (Addr (Some ESP) None 0)) :: Lea ESI (Addr (Some ESP) None 8) :: start_tail.

(** ls and shell; [stack_top] is the end of [stack_bottom: .skip 4096] in .bss. *)
Definition start_stack (stack_top : Z) : list instr :=
  Label "_start" :: Lea ESP (Addr None None stack_top) :: start_tail.

(** ** Samples *)

(** "Hello Ring 3!" and "Not running in Ring 3 :(". *)
Definition success_text : list Z := [72; 101; 108; 108; 111; 32; 82; 105; 110; 103; 32; 51; 33; 0xA].
Definition failure_text : list Z :=
  [78; 111; 116; 32; 114; 117; 110; 110; 105; 110; 103; 32; 105; 110; 32; 82; 105; 110; 103; 32; 51; 32; 58; 40; 0xA].

(** [data] is the address of .data. *)
Definition sample (data : Z) : list instr :=
  let success_msg := data in
  let failure_msg := data + len success_text in
  [Label "_start";
   MovFromCs EAX;
   Alu AND B2 (R EAX) (I 3);
   Alu CMP B2 (R EAX) (I 3);
   J Equal "success";
   Mov B8 (R EAX) (I 2); Mov B8 (R EDI) (I 1); Mov B8 (R ESI) (I failure_msg); Mov B8 (R EDX) (I (len failure_text)); IntN 0x80;
   Jmp "exit";
   Label "success";
   Mov B8 (R EAX) (I 2); Mov B8 (R EDI) (I 1); Mov B8 (R ESI) (I success_msg); Mov B8 (R EDX) (I (len success_text)); IntN 0x80;
   Label "exit";
   Mov B8 (R EAX) (I 1); IntN 0x80;
   Label "$"; Jmp "$"].

(** "Hello, from Sample 2" and "sample.elf". *)
Definition sample2_text : list Z := [72; 101; 108; 108; 111; 44; 32; 102; 114; 111; 109; 32; 83; 97; 109; 112; 108; 101; 32; 50; 0xA].
Definition sample2_elf : list Z := [115; 97; 109; 112; 108; 101; 46; 101; 108; 102].

Definition sample2 (data : Z) : list instr :=
  let msg := data in
  let elf := data + len sample2_text in
  [Label "_start";
   Mov B8 (R EAX) (I 2); Mov B8 (R EDI) (I 1); Lea ESI (Addr None None msg); Mov B8 (R EDX) (I (len sample2_text)); IntN 0x80;
   Mov B8 (R EAX) (I 4); Mov B8 (R EDI) (I elf); Mov B8 (R ESI) (I (len sample2_elf)); IntN 0x80;
   Mov B8 (R EAX) (I 1); IntN 0x80;
   Label "$"; Jmp "$"].

(** ** Running a program *)

(** Code of ring 3: it sees its address space, and no instruction of the system. *)
Definition flat (c : cpu) (w : bool) (a : Z) : option Z := Some a.

Section User.
Context {W : Type} `{Int80 W} (cpuid : Z → Z * Z * Z * Z) (flags_writable : Z) (undefined_flags : Z → Z).

(** The trap preserves all registers but rax. *)
Definition user_step (code : list instr) (c : cpu) : kst W cpu :=
  match code !! eip c with
  | Some (IntN 0x80) =>
      let* v := int80 (gpr c EAX) [gpr c EDI; gpr c ESI; gpr c EDX; gpr c R10] in
      kret (put_reg (set_eip c (S (eip c))) B8 EAX v)
  | _ =>
      match step cpuid flags_writable undefined_flags flat code c with
      | Some c => kret c
      | None => kfault Undefined
      end
  end.

Fixpoint user_run (code : list instr) (n : nat) (c : cpu) : kst W cpu :=
  match n with O => kret c | S n => let* c := user_step code c in user_run code n c end.

Lemma user_run_step code n c c' i w : code !! eip c = Some i →
  exec cpuid flags_writable undefined_flags flat code i (set_eip c (S (eip c))) = Some c' →
  user_run code (S n) c w = user_run code n c' w.
Proof.
  intros Hi He. cbn [user_run]. unfold user_step, step. rewrite Hi. cbn [mbind option_bind]. rewrite He. by destruct i.
Qed.

Lemma user_run_trap code n c w : code !! eip c = Some (IntN 0x80) →
  user_run code (S n) c w
  = (let* v := int80 (gpr c EAX) [gpr c EDI; gpr c ESI; gpr c EDX; gpr c R10] in
     user_run code n (put_reg (set_eip c (S (eip c))) B8 EAX v)) w.
Proof. intros Hi. cbn [user_run]. unfold user_step. rewrite Hi. cbn. unfold kbind, kret. by destruct (int80 _ _ w) as [[v w']|]. Qed.

(** A program that has come to [jmp] to itself stays there. *)
Lemma user_run_spin code l n c w : code !! eip c = Some (Jmp l) → find_label code l = Some (eip c) →
  user_run code n c w = Done (c, w).
Proof.
  intros Hj Hl. induction n as [|n IH]; [done|]. rewrite (user_run_step _ _ _ c (Jmp l)); [done..|].
  cbn [exec]. unfold jump_to. rewrite Hl. by destruct c.
Qed.
End User.

Lemma load_flat c n a : load flat c n a = Some (peek n (memory c) a).
Proof. by apply load_identity. Qed.
Lemma store_flat c n a v : store flat c n a v = Some (set_memory c (poke n (memory c) a v)).
Proof. by apply store_identity. Qed.

Ltac user_step_tac tac :=
  erewrite user_run_step; [ | reflexivity | machine_unfold; label_at; tac; machine_unfold; reflexivity].

(** A trap whose effect is known. *)
Ltac user_trap_tac tac Hcall :=
  rewrite user_run_trap by reflexivity; machine_unfold; tac; rewrite (kbind_done _ _ _ _ _ Hcall); machine_unfold.

(** The second sample writes its line, starts the first and exits; the registers that it leaves
    alone go with the calls: rdx still holds the length of the line when it asks for the program,
    so the call takes it for the address of the arguments, whose length is in r10. *)
Lemma sample2_calls {W} `{Int80 W} cpuid flags_writable undefined_flags data c (w w1 w2 w3 : W) v1 v2 v3 n :
  eip c = 1%nat → mode c = Mode64 → 0 ≤ data < 2 ^ 47 →
  let elf := data + len sample2_text in
  int80 SYS_WRITE [STDOUT; data; len sample2_text; gpr c R10] w = Done (v1, w1) →
  int80 SYS_EXECUTE [elf; len sample2_elf; len sample2_text; gpr c R10] w1 = Done (v2, w2) →
  int80 SYS_EXIT [elf; len sample2_elf; len sample2_text; gpr c R10] w2 = Done (v3, w3) →
  ∃ c', user_run cpuid flags_writable undefined_flags (sample2 data) (12 + n) c w = Done (c', w3).
Proof.
  destruct c as [g k f r0 r3 r4 e gd s md m]. cbn [eip mode gpr]. intros -> -> Hd E1 E2 E3.
  set (elf := data + len sample2_text) in *. cbn [Nat.add].
  assert (Wd : wrap 64 (0 + 0 + data) = data) by (apply wrap_id; lia).
  assert (Wd' : wrap 64 data = data) by (apply wrap_id; lia).
  assert (We : wrap 64 (wrap 64 elf) = elf) by (rewrite wrap_wrap; apply wrap_id; subst elf; change (len sample2_text) with 21; lia).
  do 4 user_step_tac ltac:(rewrite ?Wd, ?Wd'). user_trap_tac idtac E1.
  do 3 user_step_tac ltac:(fold elf; rewrite ?We). user_trap_tac idtac E2.
  user_step_tac idtac. user_trap_tac idtac E3. user_step_tac idtac.
  eexists. by apply (user_run_spin _ _ _ _ "$").
Qed.

(** ** What the entry points do *)

#[local] Existing Instance flat_bytes.

Section Entry.
Context (cpuid : Z → Z * Z * Z * Z) (flags_writable : Z) (undefined_flags : Z → Z).
Abbreviation Leads := (leads cpuid flags_writable undefined_flags flat).

(** In [rust_main]: the arguments in rdi and rsi, and the stack as at a call. *)
Record main_entered (code : list instr) (rdi rsi rsp : Z) (m : Z → Z) (c : cpu) : Prop := {
  me_eip : find_label code "rust_main" = Some (eip c);
  me_rdi : gpr c EDI = rdi;
  me_rsi : gpr c ESI = rsi;
  me_rsp : gpr c ESP = rsp - 8;
  me_memory x : ¬ (rsp - 8 ≤ x < rsp) → memory c x = m x;
}.

Lemma start_args_runs c rsp : eip c = 1%nat → mode c = Mode64 → gpr c ESP = rsp → 8 ≤ rsp → rsp + 8 < 2 ^ 64 →
  0 ≤ peek 8 (memory c) rsp < 2 ^ 64 →
  Leads start_args c (main_entered start_args (peek 8 (memory c) rsp) (rsp + 8) rsp (memory c)).
Proof.
  destruct c as [g k f r0 r3 r4 e gd s md m]. cbn [eip mode gpr memory]. intros -> -> Hsp Hlo Hhi Hw.
  assert (W0 : wrap 64 (rsp + 0 + 0) = rsp) by (rewrite wrap_id; lia).
  assert (W8 : wrap 64 (rsp + 0 + 8) = rsp + 8) by (rewrite wrap_id; lia).
  assert (Wm : wrap 64 (rsp - 8) = rsp - 8) by (rewrite wrap_id; lia).
  do 2 machine_step ltac:(rewrite ?Hsp, ?W0, ?W8, ?load_flat; machine_unfold; rewrite ?(wrap_id 64 (rsp + 8)), ?(wrap_id 64 (peek 8 m rsp)) by lia).
  machine_step ltac:(rewrite ?Hsp, ?Wm, ?store_flat).
  apply leads_now. split; try done. intros x Hx. machine_unfold. apply poke_outside. lia.
Qed.

(** ls and shell run on their own stack, aligned to 16 bytes as .bss is. *)
Lemma start_stack_runs c stack_top : eip c = 1%nat → mode c = Mode64 → 8 ≤ stack_top < 2 ^ 64 →
  Leads (start_stack stack_top) c (main_entered (start_stack stack_top) (gpr c EDI) (gpr c ESI) stack_top (memory c)).
Proof.
  destruct c as [g k f r0 r3 r4 e gd s md m]. cbn [eip mode gpr memory]. intros -> -> Hs.
  assert (W0 : wrap 64 (wrap 64 (0 + 0 + stack_top)) = stack_top) by (rewrite !wrap_id; rewrite ?wrap_id; lia).
  assert (Wm : wrap 64 (stack_top - 8) = stack_top - 8) by (rewrite wrap_id; lia).
  machine_step ltac:(rewrite ?W0). machine_step ltac:(rewrite ?Wm, ?store_flat).
  apply leads_now. split; try done. intros x Hx. machine_unfold. apply poke_outside. lia.
Qed.

(** C26: Arguments arrive: for every argument vector without NUL bytes, either the frame does not
    fit - nothing is written and the load fails - or the program that starts at [_start] on the
    memory and stack pointer of the loader reaches [rust_main] with a stack aligned as the calling
    convention asks, and iterating over [Args::new] of the two parameters gives exactly the
    arguments, in order; memory outside of the frame and the word below it is untouched. *)
Theorem args_reach_main stack argv (m : Z → Z) fuel :
  8 ≤ bottom stack → top stack ≤ usize_max → string_size argv ≤ usize_max → 8 * (Z.of_nat (length argv) + 3) ≤ usize_max →
  Forall no_nul argv → Forall (λ arg, (length arg < fuel)%nat) argv →
  match write_args_frame stack argv m with
  | Done (None, m') => m' = m ∧ top stack - string_size argv - 8 * (Z.of_nat (length argv) + 3) < bottom stack + 16
  | Done (Some rsp, m') =>
      bottom stack ≤ rsp < top stack ∧ ∀ c, eip c = 1%nat → mode c = Mode64 → gpr c ESP = rsp → memory c = m' →
      Leads start_args c (λ c', find_label start_args "rust_main" = Some (eip c') ∧ (gpr c' ESP + 8) mod 16 = 0
        ∧ args_len (args_new (gpr c' EDI) (gpr c' ESI)) = Z.of_nat (length argv)
        ∧ args_collect (memory c') fuel (args_new (gpr c' EDI) (gpr c' ESI)) (S (length argv)) tt = Done (argv, tt)
        ∧ ∀ x, ¬ (rsp - 8 ≤ x < top stack) → memory c' x = m x)
  | Fault _ => False
  end.
Proof.
  intros Hb Ht Hs Hw Hn Hf. pose proof (args_frame_spec stack argv m ltac:(lia) Ht Hs Hw) as Hspec. cbv zeta in Hspec.
  set (base := top stack - string_size argv - 8 * (Z.of_nat (length argv) + 3)) in *.
  pose proof (Z.div_mod base 16 ltac:(lia)). pose proof (Z.mod_pos_bound base 16 ltac:(lia)). pose proof (string_size_nonneg argv).
  destruct (decide _) as [[Hb0 Hb1]|Hno]; [|rewrite Hspec; split; [done | lia]].
  destruct Hspec as (m' & E & Hc & Ha & _ & _ & Ho). rewrite E. set (rsp := base / 16 * 16) in *. unfold usize_max in *.
  split; [lia|]. intros c Hip Hmd Hsp <-. change (load_word (memory c) rsp) with (peek 8 (memory c) rsp) in Hc.
  eapply leads_then; [apply (start_args_runs c rsp); rewrite ?Hc; try done; lia|]. rewrite Hc. intros c' [Hip' Hdi Hsi Hsp' Hm'].
  apply leads_now. rewrite Hdi, Hsi. split_and!; [done | | done | |].
  - rewrite Hsp', Z.sub_add. by apply Z_mod_mult.
  - apply (args_collect_from (memory c') rsp (top stack - string_size argv) (top stack) argv) with (i := 0%nat); [|lia | done | done | lia].
    apply (args_at_ext (memory c)); [done | |]; intros x Hx; apply Hm'; lia.
  - intros x Hx. rewrite Hm' by lia. apply Ho. lia.
Qed.
End Entry.

Lemma args_reach_main_witness : Forall no_nul [[108; 115]; [47]] ∧ ∃ rsp m', write_args_frame demo_stack [[108; 115]; [47]] (λ _, 7) = Done (Some rsp, m')
  ∧ ∀ c, eip c = 1%nat → mode c = Mode64 → gpr c ESP = rsp → memory c = m' →
    ∃ c', reaches (λ _, (0, 0, 0, 0)) 0 (λ _, 0) flat start_args c c'
      ∧ args_collect (memory c') 9 (args_new (gpr c' EDI) (gpr c' ESI)) 3 tt = Done ([[108; 115]; [47]], tt).
Proof.
  assert (Hn : Forall no_nul [[108; 115]; [47]]) by (repeat constructor; discriminate). split; [exact Hn|].
  assert (Hf : Forall (λ arg : list Z, (List.length arg < 9)%nat) [[108; 115]; [47]]) by (repeat constructor; cbn; lia).
  pose proof (args_reach_main (λ _, (0, 0, 0, 0)) 0 (λ _, 0) demo_stack [[108; 115]; [47]] (λ _, 7) 9
    ltac:(by vm_compute) ltac:(by vm_compute) ltac:(by vm_compute) ltac:(by vm_compute) Hn Hf) as Hr.
  destruct (write_args_frame demo_stack [[108; 115]; [47]] (λ _, 7)) as [[[rsp|] m']|f].
  - exists rsp, m'. split; [done|]. intros c H1 H2 H3 H4. destruct Hr as [_ Hr]. destruct (Hr c H1 H2 H3 H4) as (c' & Hc & _ & _ & _ & Ha & _).
    exists c'. split; [exact Hc | exact Ha].
  - exfalso. destruct Hr as [_ Hr]. revert Hr. by vm_compute.
  - destruct Hr.
Defined.
