(* ===== verification/SampleOs.v ===== *)
(** * SampleOs: the assembly samples on the kernel

    sample/main.s prints which ring it runs in; sample2/main.s prints a line and starts the
    first.  Their traps are the calls of the kernel's model. *)

From Stdlib Require Import String.
From S2P Require Import Prelude Text Context Time BlockDev FatFs FatVolume FatFile FatTruncate Descriptors Paths FatFileApi.
From S2P Require Import Frames Paging PageWalk PageExample Stacks MemCtl Elf Sched Syscalls SyscallSafe SyscallFile KernelMem UserBytes Ulib Programs KernelOs.
From S2P Require Import Asm UserAsm.
#[local] Open Scope list_scope.

Section Samples.
Context {M FS D F G K T : Type} `{ProcMemory M G K T, UserSpec M G K T, FileSpec FS F, DirOps FS D F}.
Context (root : D) (padding : list Z) (user_code user_data buffer room : Z).
Abbreviation sys := (system M FS D F G K T).
Implicit Types (s : sys) (c : cpu).
#[local] Existing Instance kernel_int80.
Context (cpuid : Z → Z * Z * Z * Z) (flags_writable : Z) (undefined_flags : Z → Z).
#[local] Instance os : Int80 sys := kernel_int80 root padding user_code user_data buffer room.
Abbreviation Run := (user_run cpuid flags_writable undefined_flags).

(** The write call, from the registers of a program. *)
Lemma trap_write s p t w d a r10 : runs s p t → get_fd 1 (proc_fds p) = Some Stdout → ascii_text d →
  user_has (MEM (kern s)) t a w d →
  ∃ s', int80 2 [1; a; len d; r10] s = Done (len d, s') ∧ serial_line s' = serial_line s ++ d ∧ runs s' p t
    ∧ ∀ b w' ds, user_has (MEM (kern s)) t b w' ds → user_has (MEM (kern s')) t b w' ds.
Proof.
  intros Hr Ho Ha Hu. destruct (trap_registers 2 [1; a; len d; r10]) as (Hrax & Hrdi & Hrsi & Hrdx & _). cbn [nth] in Hrdi, Hrsi, Hrdx.
  set (fr := trap_frame 2 [1; a; len d; r10]) in *.
  destruct (console_run fr s p t w d) as (s1 & E1 & Hcon & Hr1 & Hf1 & K1); rewrite ?Hrdi, ?Hrsi, ?Hrdx; try done.
  rewrite utf8_decode_ascii in E1, Hcon by done. exists s1. split_and!; try done.
  - cbn [int80 os kernel_int80]. apply trap_returns. unfold syscall. fold fr. rewrite Hrax. exact E1.
  - unfold serial_line. rewrite Hcon. cbn [option_list]. rewrite List.map_app, List.concat_app. f_equal. cbn. by rewrite app_nil_r, ascii_wrap.
Qed.

(** Where the program is before its exit: the next instruction is [int 0x80] with 1 in rax. *)
Definition about_to_exit (code : list instr) c : Prop := code !! eip c = Some (IntN 0x80) ∧ gpr c EAX = SYS_EXIT.

(** C40: The sample on the kernel: with its messages in its memory and the console as its standard
    output, the program prints "Hello Ring 3!" if the requested privilege level of its code
    segment is 3 and the other message if not, once, and then makes the exit call. *)
Theorem sample_on_kernel s p t w data c : 
  runs s p t → get_fd 1 (proc_fds p) = Some Stdout → 0 ≤ data < 2 ^ 47 →
  user_has (MEM (kern s)) t data w success_text → user_has (MEM (kern s)) t (data + len success_text) w failure_text →
  eip c = 1%nat → mode c = Mode64 → 0 ≤ sel c CS < 2 ^ 16 →
  ∃ n c' s', Run (sample data) n c s = Done (c', s') ∧ about_to_exit (sample data) c'
    ∧ serial_line s' = serial_line s ++ (if Z.land (sel c CS) 3 =? 3 then success_text else failure_text).
Proof.
  intros Hr Ho Hd Hs Hf. destruct c as [g k f r0 r3 r4 e gd sg md m]. cbn [eip mode sel]. intros -> -> Hcs.
  exists 11%nat. set (x := Z.land (sg CS) 3).
  assert (Hx : 0 ≤ x < 4) by (subst x; change 3 with (Z.ones 2); rewrite Z.land_ones by lia; apply Z.mod_pos_bound; lia).
  assert (Wc : Z.land (wrap 16 (sg CS)) 3 = x) by (by rewrite wrap_id).
  assert (Wx : wrap 16 x = x) by (apply wrap_id; lia).
  assert (Hz : (wrap 16 (x - 3) =? 0) = (x =? 3)) by (apply cmp_zero; lia).
  do 2 user_step_tac ltac:(rewrite ?low_part by done; change (wrap 16 3) with 3; rewrite ?Wc).
  user_step_tac ltac:(rewrite low_part by done; change (wrap 16 3) with 3; rewrite Wx, Hz).
  assert (Wd : wrap 64 (wrap 64 data) = data) by (rewrite wrap_wrap; apply wrap_id; lia).
  assert (Wf : wrap 64 (wrap 64 (data + len success_text)) = data + len success_text)
    by (rewrite wrap_wrap; apply wrap_id; change (len success_text) with 14; lia).
  destruct (x =? 3).
  - do 5 user_step_tac ltac:(rewrite ?zf_status).
    destruct (trap_write s p t w success_text data (g R10)) as (s1 & E1 & Hs1 & _); [done | done | by repeat constructor | done|]. user_trap_tac ltac:(rewrite Wd) E1.
    do 2 user_step_tac idtac. by eexists _, s1.
  - do 5 user_step_tac ltac:(rewrite ?zf_status).
    destruct (trap_write s p t w failure_text (data + len success_text) (g R10)) as (s1 & E1 & Hs1 & _); [done | done | by repeat constructor | done|]. user_trap_tac ltac:(rewrite Wf) E1.
    do 2 user_step_tac idtac. by eexists _, s1.
Qed.
End Samples.

(** ** A run *)

Definition ring3 : cpu := Cpu (λ _, 0) 1 2 0x80010011 0 0x20 0x500 (0, 0) (λ _, 0x1B) Mode64 (λ _, 0).

Lemma sample_on_kernel_witness :
  let _ := kernel_int80 (H := controller_memory) (H0 := controller_user) (H2 := fat_file_ops 3) (H4 := @fat_dir_ops RamDisk _ ascii_case 3)
             sample_root [0; 0; 0] 0x1B 0x23 0x1100 512 in
  ∃ s n c' s', user_run (λ _, (0, 0, 0, 0)) 0 (λ _, 0) (sample 0x1100) n ring3 s = Done (c', s')
    ∧ serial_line s' = serial_line s ++ success_text.
Proof.
  cbv zeta.
  destruct (us_store (UserSpec := controller_spec 25 2 3 4 1 4 3) _ _ _ _ success_text (sample_has 0x1100 14 ltac:(lia) ltac:(lia)))
    as (m1 & _ & H1 & K1); [by apply ascii_bytes; repeat constructor | done|].
  assert (Hz : user_has (UserSpec := controller_spec 25 2 3 4 1 4 3) m1 (slot_addr 5) 0x110E true (replicate 25 0))
    by (apply K1; [apply sample_has; lia | unfold apart_from; cbn; lia]).
  destruct (us_store (UserSpec := controller_spec 25 2 3 4 1 4 3) _ _ _ _ failure_text Hz) as (m2 & _ & H2 & K2);
    [by apply ascii_bytes; repeat constructor | done|].
  exists (with_memory m2 sample_system).
  destruct (sample_on_kernel (H1 := controller_spec 25 2 3 4 1 4 3) (H2 := fat_file_ops 3) (H4 := @fat_dir_ops RamDisk _ ascii_case 3)
    sample_root [0; 0; 0] 0x1B 0x23 0x1100 512 (λ _, (0, 0, 0, 0)) 0 (λ _, 0) (with_memory m2 sample_system) sample_process (slot_addr 5) true 0x1100 ring3)
    as (n & c' & s' & E & _ & Hs).
  - apply running_memory. exact sample_runs.
  - reflexivity.
  - lia.
  - apply K2; [exact H1 | unfold apart_from; cbn; lia].
  - exact H2.
  - reflexivity.
  - reflexivity.
  - cbn. lia.
  - exists n, c', s'. split; [exact E | exact Hs].
Defined.
