(* ===== verification/RustMain.v ===== *)
(** * RustMain: the whole boot sequence (src/src/lib.rs, [init_ahci] of src/src/ahci/mod.rs)

    [rust_main] from the loader's record to the shell, with its messages.  The computer (ports,
    processor, memory controller, clock), the heap, the PCI bus and the running system are one
    state; the steps of Boot, Heap, Pci, Ahci, FatMount and Sched act on their part of it.  The
    stages that depend on the devices found - memory, ports, mounting - are [Stages];
    [kernel_stages] are those of the kernel. *)

From S2P Require Import Prelude Text Context Time Devices DevicesSpec BlockDev FatNames FatFs FatMount Descriptors Paths FatFileApi Frames Paging MemCtl Stacks.
From S2P Require Import PageExample Heap Sched Interrupts Rtc Syscalls SyscallFile Boot Ahci Pci.
From Stdlib Require Import Ascii String.

(** ** [init_ahci] *)

Section InitAhci.
Context {N C Dv : Type} `{PciBus N, HbaDevice Dv, DmaMemory C}.
(** The registers of the port at an address, and the memory it works on, as a part of the machine. *)
Context (port_view : Z → N → hba C Dv) (port_put : Z → hba C Dv → N → N).
Context (fuel : nat).

(** [PciDeviceHeaderType0] and [HBAMemory]: where the fields lie. *)
Definition BAR5_OFFSET : Z := 0x24.
Definition HBA_CAP : Z := 0x00.
Definition HBA_PI : Z := 0x0C.
Definition HBA_PORTS : Z := 0x100.
Definition HBA_PORT_SIZE : Z := 0x80.
Definition PORT_SIG : Z := 0x24.
Definition PORT_SSTS : Z := 0x28.
Definition hba_port_address (abar i : Z) : Z := abar + HBA_PORTS + HBA_PORT_SIZE * i.

(** The signature is read of a drive that is there. *)
Definition port_type (abar i : Z) : kst N AHCIDeviceType :=
  let* status := bus_load 4 (hba_port_address abar i + PORT_SSTS) in
  match check_port_type status 0 with
  | Null => kret Null
  | _ => let* sig := bus_load 4 (hba_port_address abar i + PORT_SIG) in kret (check_port_type status sig)
  end.

(** [AHCIPort::new], [init] and [ahci_identify]. *)
Definition open_port (abar i max_slots : Z) : kst N AHCIPort :=
  let addr := hba_port_address abar i in
  zoom (port_view addr) (port_put addr)
    (let* port := new addr max_slots in
     port_init fuel ;;*
     let* r := ahci_identify fuel port in
     kret r.2).

Definition init_ahci (controller : PciDevice) : kst N (list AHCIPort) :=
  let* bar5 := bus_load 4 (pci_base_addr controller + BAR5_OFFSET) in
  acpi_mapping bar5 PCI_PAGE_SIZE ;;*
  let* pi := bus_load 4 (bar5 + HBA_PI) in
  let* cap := bus_load 4 (bar5 + HBA_CAP) in
  probe_ports (port_type bar5) (open_port bar5) cap pi.
End InitAhci.

(** ** The stages *)

(** What the multiboot2 crate makes of the address: the record, or an error as it is printed; and
    the RSDT address of a valid RSDP tag. *)
Class Multiboot := {
  multiboot_load : Z → BootInformation + list Z;
  rsdt_address : BootInformation → option Z;
}.

(** The memory, the ports of the disk controller, the mounted volume with its root directory, and
    the view of memory that processes get. *)
Class Stages (A N M FS D : Type) := {
  stage_memory : BootInformation → kst (MemoryController A) unit;
  stage_ports : BootInformation → kst N (list AHCIPort);
  stage_mount : AHCIPort → N → outcome (D * FS);
  stage_view : MemoryController A → M;
}.

Section Kernel.
Context `{Multiboot} {N C Dv P : Type} `{PciBus N, HbaDevice Dv, DmaMemory C, Platform P, UnicodeCase}.
Context (port_view : Z → N → hba C Dv) (port_put : Z → hba C Dv → N → N) (fuel : nat).
(** The port and the heap as the file system sees them. *)
Context (attach : AHCIPort → N → P).

(** [mem::init]; the controller becomes the static one. *)
Definition memory_stage (boot_info : BootInformation) : kst (MemoryController SimplePageFrameAllocator) unit := λ mc,
  match mem_init boot_info (kernel_machine mc) with
  | Done (mc', _) => Done (tt, mc')
  | Fault f => Fault f
  end.

(** [init_acpi], [get_device(...).unwrap()] and [init_ahci]. *)
Definition ports_stage (boot_info : BootInformation) : kst N (list AHCIPort) :=
  let* devices := init_acpi (rsdt_address boot_info) in
  let* sata_controller := or_panic (get_device devices SATAController) in
  init_ahci port_view port_put fuel sata_controller.

(** [fs::init]: no file object exists yet. *)
Definition mount_stage (port : AHCIPort) (n : N) : outcome (FATDirectory * FatFileApi.mounted (P := P)) :=
  match fs_init (attach port n) with
  | Done (root, fs) => Done (root, (fs, ∅))
  | Fault f => Fault f
  end.

#[global] Instance kernel_stages :
  Stages SimplePageFrameAllocator N (MemoryController SimplePageFrameAllocator) (FatFileApi.mounted (P := P)) FATDirectory := {
  stage_memory := memory_stage;
  stage_ports := ports_stage;
  stage_mount := mount_stage;
  stage_view mc := mc;
}.
End Kernel.

(** ** [rust_main] *)

Section Main.
Context `{Multiboot} {S A N M FS D F G K T : Type} `{PortIo S} `{PageFrameAllocator A} `{Stages A N M FS D}.
Context `{ProcMemory M G K T, UserMem M G K T, FileOps FS F, DirOps FS D F}.
Context (fuel : nat) (user_code user_data : Z).

Record world := World {
  w_pc : computer S A;
  w_heap : LinkedListHeap;
  w_bus : N;
  (** [GLOBAL_ROOT_DIR] and the system: [None] before [fs::init] *)
  w_sys : option (D * system M FS D F G K T);
}.
Abbreviation wm := (kst world).

Definition in_pc {B} (m : kst (computer S A) B) : wm B :=
  zoom w_pc (λ c w, World c (w_heap w) (w_bus w) (w_sys w)) m.
Definition in_heap {B} (m : kst LinkedListHeap B) : wm B :=
  zoom w_heap (λ h w, World (w_pc w) h (w_bus w) (w_sys w)) m.
Definition in_bus {B} (m : kst N B) : wm B :=
  zoom w_bus (λ n w, World (w_pc w) (w_heap w) n (w_sys w)) m.
(** [with_root_dir!]: it panics before the volume is mounted. *)
Definition with_root_dir {B} (body : D → kst (system M FS D F G K T) B) : wm B := λ w,
  match w_sys w with
  | None => Fault Panic
  | Some (root, s) =>
      match body root s with
      | Done (b, s) => Done (b, World (w_pc w) (w_heap w) (w_bus w) (Some (root, s)))
      | Fault f => Fault f
      end
  end.

Definition say (t : Log.LogType) (message : list Z) : wm unit := in_pc (log fuel t message).
Definition say_plain (message : list Z) : wm unit := in_pc (at_ports (serial_write_str fuel message)).

Definition root_entry (name : list Z) (dir : bool) : list Z :=
  text "Root dir entry: " ++ name ++ text ", dir: " ++ (if dir then text "true" else text "false").
Definition subfile_line (name : list Z) : list Z := text "           Subfile: " ++ name ++ [10].

Fixpoint show_files (l : list F) : wm unit :=
  match l with
  | [] => kret tt
  | f :: l => let* name := with_root_dir (λ _, in_files (f_name f)) in say Log.OK (root_entry name false) ;;* show_files l
  end.
Fixpoint show_subfiles (l : list F) : wm unit :=
  match l with
  | [] => kret tt
  | f :: l => let* name := with_root_dir (λ _, in_files (f_name f)) in say_plain (subfile_line name) ;;* show_subfiles l
  end.
Fixpoint show_directories (l : list D) : wm unit :=
  match l with
  | [] => kret tt
  | d :: l =>
      let* name := with_root_dir (λ _, in_files (d_name d)) in
      say Log.OK (root_entry name true) ;;*
      let* subentries := with_root_dir (λ _, in_files (d_list d)) in
      show_subfiles subentries.2 ;;*
      show_directories l
  end.

(** The block of [shell_binary]. *)
Definition read_shell : wm Region :=
  let* root_entries := with_root_dir (λ root, in_files (d_list root)) in
  show_files root_entries.2 ;;*
  show_directories root_entries.1 ;;*
  let* shell_elf := with_root_dir (λ root, in_files (find_file_recursive root shell_path)) in
  let* shell_elf := or_panic shell_elf in
  let* shell_binary := with_root_dir (λ _, in_files (f_read shell_elf)) in
  or_panic shell_binary.

(** The processes, the clock and memory from here on are those of the system. *)
Definition run_shell (shell_binary : Region) : wm unit :=
  say Log.OK (text "Read Shell ELF binary") ;;*
  let* shell_entry := with_root_dir (λ _, in_memory (um_elf_load shell_binary [shell_arg])) in
  let* shell_entry := or_panic shell_entry in
  in_pc (at_core (set_interrupts true)) ;;*
  with_root_dir (λ root, in_kernel (deploy root user_code user_data shell_entry false)) ;;*
  with_root_dir (λ _, in_kernel enable).

(** [fs::init(port)]. *)
Definition mount_port (port : AHCIPort) : wm unit := λ w,
  match stage_mount port (w_bus w) with
  | Done (root, fs) =>
      Done (tt, World (w_pc w) (w_heap w) (w_bus w)
        (Some (root, {| kern := initial (wall (w_pc w)) (stage_view (memory (w_pc w))); files := fs; console := [] |})))
  | Fault f => Fault f
  end.

Definition loaded_message (addr : Z) : list Z := text "Successfully loaded boot info at addr: 0x" ++ Log.hex false addr.
Definition not_loaded_message (addr : Z) (e : list Z) : list Z :=
  text "Couldn't load boot info at addr: 0x" ++ Log.hex false addr ++ [10] ++ text "Err: " ++ e.

(** Whether the kernel came to its final [loop], or returned to [hlt]. *)
Definition rust_main (boot_info_addr : Z) : wm bool :=
  match multiboot_load boot_info_addr with
  | inr e => say Log.ERR (not_loaded_message boot_info_addr e) ;;* kret false
  | inl boot_info =>
      say Log.OK (loaded_message boot_info_addr) ;;*
      in_pc (boot_cpu fuel) ;;*
      in_pc (at_memory (stage_memory boot_info)) ;;*
      in_heap init_heap ;;*
      in_pc (boot_interrupts fuel) ;;*
      let* ports := in_bus (stage_ports boot_info) in
      let* port := or_panic (hd_error ports) in
      mount_port port ;;*
      let* shell_binary := read_shell in
      run_shell shell_binary ;;*
      kret true
  end.
End Main.

(** ** What it does *)

Section MainProps.
Context `{Multiboot} {S A N M FS D F G K T : Type} `{Board S} `{PageFrameAllocator A} `{Stages A N M FS D}.
Context `{ProcMemory M G K T, UserMem M G K T, FileOps FS F, DirOps FS D F}.
Context (fuel : nat) (user_code user_data : Z).
Abbreviation sys := (system M FS D F G K T).
Abbreviation W := (world (S := S) (A := A) (N := N) (M := M) (FS := FS) (D := D) (F := F) (G := G) (K := K) (T := T)).
Implicit Types (w : W) (c : computer S A).

Lemma in_pc_done {B} (m : kst (computer S A) B) c h n sy b c' : m c = Done (b, c') → in_pc m (World c h n sy : W) = Done (b, World c' h n sy).
Proof. intros E. unfold in_pc, zoom. cbn [w_pc]. by rewrite E. Qed.
Lemma in_bus_done {B} (m : kst N B) c h n sy b n' : m n = Done (b, n') → in_bus m (World c h n sy : W) = Done (b, World c h n' sy).
Proof. intros E. unfold in_bus, zoom. cbn [w_bus]. by rewrite E. Qed.
Lemma with_root_done {B} (body : D → kst sys B) c h n root s b s' : body root s = Done (b, s') →
  with_root_dir body (World c h n (Some (root, s)) : W) = Done (b, World c h n (Some (root, s'))).
Proof. intros E. unfold with_root_dir. cbn [w_sys]. by rewrite E. Qed.

(** The line of a computer. *)
Definition pc_line (sent : list Z) (ma sl : pic) (ti : pit) (cl : cmos) c : Prop := line_at fuel sent ma sl ti cl (ports c).
(** Nothing but the line of [c] changed. *)
Definition line_only c c' : Prop := core c' = core c ∧ memory c' = memory c ∧ wall c' = wall c.

Lemma line_only_trans c1 c2 c3 : line_only c1 c2 → line_only c2 c3 → line_only c1 c3.
Proof. unfold line_only. intuition congruence. Qed.

(** Some text is put on the line. *)
Definition talks {B} (m : kst W B) (b : B) (h : LinkedListHeap) (n : N) (sy sy' : option (D * sys)) : Prop :=
  ∀ c sent ma sl ti cl, pc_line sent ma sl ti cl c →
  ∃ c' more, m (World c h n sy) = Done (b, World c' h n sy') ∧ pc_line (sent ++ more) ma sl ti cl c' ∧ line_only c c'.

Lemma talks_bind {B B'} (m : kst W B) (k : B → kst W B') b b' h n sy sy1 sy2 :
  talks m b h n sy sy1 → talks (k b) b' h n sy1 sy2 → talks (kbind m k) b' h n sy sy2.
Proof.
  intros Hm Hk c sent ma sl ti cl Hc. destruct (Hm c sent ma sl ti cl Hc) as (c1 & m1 & E1 & L1 & O1).
  destruct (Hk c1 _ ma sl ti cl L1) as (c2 & m2 & E2 & L2 & O2). exists c2, (m1 ++ m2)%list. split_and!.
  - by rewrite (kbind_done _ _ _ _ _ E1).
  - by rewrite app_assoc.
  - by eapply line_only_trans.
Qed.

Lemma talks_ret {B} (b : B) h n sy : talks (kret b) b h n sy sy.
Proof. intros c sent ma sl ti cl Hc. exists c, []. split_and!; [done | by rewrite app_nil_r | done]. Qed.

Lemma talks_root {B} (body : D → kst sys B) b h n root s s' : body root s = Done (b, s') →
  talks (with_root_dir body) b h n (Some (root, s)) (Some (root, s')).
Proof.
  intros E c sent ma sl ti cl Hc. exists c, []. split_and!; [by apply with_root_done | by rewrite app_nil_r | done].
Qed.

Lemma talks_plain message h n sy : talks (say_plain fuel message) tt h n sy sy.
Proof.
  intros [s co m w] sent ma sl ti cl [Hr Hs Hc]. cbn [ports] in *. destruct (serial_write_str_sends fuel message s Hr) as (s' & E & S' & R' & u & C).
  eexists _, (List.map (wrap 8) message). split_and!; [apply in_pc_done, at_ports_done; exact E | | done].
  split; [done | by cbn [ports]; rewrite S', Hs | cbn [ports]; rewrite C; exact Hc].
Qed.
Lemma talks_say t message h n sy : talks (say fuel t message) tt h n sy sy.
Proof.
  intros [s co m w] sent ma sl ti cl [Hr Hs Hc]. cbn [ports] in *. destruct (log_write_sends fuel t message s Hr) as (s' & E & S' & R' & u & C).
  eexists _, (List.map (wrap 8) (Log.line t message)). split_and!; [apply in_pc_done, at_ports_done; exact E | | done].
  split; [done | by cbn [ports]; rewrite S', Hs | cbn [ports]; rewrite C; exact Hc].
Qed.

(** ** Listing the root *)

Definition sys_with (k : kernel M D F G K T) (con : list (list Z)) (root : D) (fs : FS) : option (D * sys) :=
  Some (root, {| kern := k; files := fs; console := con |}).

Lemma talks_files {B} (m : kst FS B) b h n k con root fs fs' : m fs = Done (b, fs') →
  talks (with_root_dir (λ _, in_files m)) b h n (sys_with k con root fs) (sys_with k con root fs').
Proof. intros E. apply talks_root. by apply (in_files_done m {| kern := k; files := fs; console := con |}). Qed.

Lemma show_files_talks l h n k con root fs fs' : name_files l fs = Done (tt, fs') →
  talks (show_files fuel l) tt h n (sys_with k con root fs) (sys_with k con root fs').
Proof.
  revert fs. induction l as [|f l IH]; cbn [name_files show_files]; intros fs E; [injection E as <-; apply talks_ret|].
  apply kbind_inv in E as (name & fs1 & E1 & E2). eapply talks_bind; [by apply talks_files|].
  eapply talks_bind; [apply talks_say | by apply IH].
Qed.
Lemma show_subfiles_talks l h n k con root fs fs' : name_files l fs = Done (tt, fs') →
  talks (show_subfiles fuel l) tt h n (sys_with k con root fs) (sys_with k con root fs').
Proof.
  revert fs. induction l as [|f l IH]; cbn [name_files show_subfiles]; intros fs E; [injection E as <-; apply talks_ret|].
  apply kbind_inv in E as (name & fs1 & E1 & E2). eapply talks_bind; [by apply talks_files|].
  eapply talks_bind; [apply talks_plain | by apply IH].
Qed.
Lemma show_directories_talks l h n k con root fs fs' : name_directories l fs = Done (tt, fs') →
  talks (show_directories fuel l) tt h n (sys_with k con root fs) (sys_with k con root fs').
Proof.
  revert fs. induction l as [|d l IH]; cbn [name_directories show_directories]; intros fs E; [injection E as <-; apply talks_ret|].
  apply kbind_inv in E as (name & fs1 & E1 & E). apply kbind_inv in E as (sub & fs2 & E2 & E). apply kbind_inv in E as ([] & fs3 & E3 & E).
  eapply talks_bind; [by apply talks_files|]. eapply talks_bind; [apply talks_say|].
  eapply talks_bind; [by apply talks_files|]. eapply talks_bind; [by apply show_subfiles_talks | by apply IH].
Qed.

(** A volume with the shell on it: listing the root, finding the file and reading it work, and leave
    the file objects as they are then. *)
Definition has_shell (root : D) (fs fs' : FS) (r : Region) : Prop := ∃ fs1 f fs2,
  (let* entries := d_list root in name_files entries.2 ;;* name_directories entries.1) fs = Done (tt, fs1)
  ∧ find_file_recursive root shell_path fs1 = Done (Some f, fs2) ∧ f_read f fs2 = Done (Some r, fs').

Lemma read_shell_talks h n k con root fs fs' r : has_shell root fs fs' r →
  talks (read_shell fuel) r h n (sys_with k con root fs) (sys_with k con root fs').
Proof.
  intros (fs1 & f & fs2 & E & Ef & Er). apply kbind_inv in E as (entries & fa & Ea & E). apply kbind_inv in E as ([] & fb & Eb & Ec).
  unfold read_shell. eapply talks_bind; [apply talks_root; by apply (in_files_done _ {| kern := k; files := fs; console := con |})|].
  eapply talks_bind; [by apply show_files_talks|]. eapply talks_bind; [by apply show_directories_talks|].
  eapply talks_bind; [apply talks_root; by apply (in_files_done _ {| kern := k; files := fs1; console := con |})|].
  eapply talks_bind; [apply talks_ret|]. eapply talks_bind; [by apply talks_files | apply talks_ret].
Qed.

(** ** Starting the shell *)

(** A program that can be run first: the loader takes it, and its tables can be switched to. *)
Definition runnable (r : Region) (m m1 : M) (e : ProcessEntry G K T) (st : K) : Prop := ∃ t m2,
  um_elf_load r [shell_arg] m = Done (Some e, m1) ∧ entry_stack e = Some st ∧ entry_page_table e = Some t
  ∧ mem_ready m1 = true ∧ switch_table t m1 = Done (Some tt, m2).

Lemma run_shell_runs c h (n : N) cl0 m con root fs r m1 e st sent ma sl ti cl :
  pc_line sent ma sl ti cl c → runnable r m m1 e st →
  ∃ c' more, run_shell fuel user_code user_data r (World c h n (sys_with (initial cl0 m) con root fs))
      = Done (tt, World c' h n (sys_with (shell_kernel root user_code user_data e st cl0 m1) con root fs))
    ∧ pc_line (sent ++ more) ma sl ti cl c' ∧ core c' = set_interrupts true (core c) ∧ memory c' = memory c ∧ wall c' = wall c.
Proof.
  intros Hc (t & m2 & El & Es & Et & Hm & Hs). destruct (talks_say Log.OK (text "Read Shell ELF binary") h n (sys_with (initial cl0 m) con root fs)
    c sent ma sl ti cl Hc) as (c1 & more & E1 & L1 & O1 & O2 & O3).
  unfold run_shell. rewrite (kbind_done _ _ _ _ _ E1).
  rewrite (kbind_done _ _ _ (Some e) (World c1 h n (sys_with (set_mem m1 (initial cl0 m)) con root fs))).
  2: { apply with_root_done. by apply (in_memory_done _ {| kern := initial cl0 m; files := fs; console := con |}). }
  cbn [or_panic]. rewrite kret_bind. set (c2 := {| ports := ports c1; core := set_interrupts true (core c1); memory := memory c1; wall := wall c1 |}).
  rewrite (kbind_done _ _ _ tt (World c2 h n (sys_with (set_mem m1 (initial cl0 m)) con root fs))) by (by apply in_pc_done).
  rewrite (kbind_done _ _ _ 0 (World c2 h n (sys_with (set_mem m1 (set_processes [shell_process root user_code user_data e st] (set_counter 1 (initial cl0 m)))) con root fs))).
  2: { apply with_root_done. apply (in_kernel_done _ {| kern := set_mem m1 (initial cl0 m); files := fs; console := con |}).
       cbn [kern]. unfold deploy. kunfold. cbn. rewrite uadd_ok by (unfold usize_max; lia). cbn. unfold process_from. rewrite Es, Et. cbn.
       unfold shell_process. by rewrite Et. }
  exists c2, more. split_and!; [done | exact L1 | | done | done]. cbn [core c2]. by rewrite O1.
Qed.

(** From the loader's record to open interrupts: the part of [rust_main] before the disk. *)
Lemma early_boot c n bi tss mc mc' sent ma sl ti cl k hh mi sec {B} (rest : kst W B) :
  pc_line sent ma sl ti cl c → stage_memory bi (memory c) = Done (tt, mc) → init_tss mc = Done (tss, mc') →
  displays (ports c) (Nat.iter k next_day epoch) hh mi sec → (updating (ports c) < fuel)%nat →
  let u := Z.of_nat k * 86400 + hh * 3600 + mi * 60 + sec in
  ∃ c' h', (in_pc (boot_cpu fuel) ;;* in_pc (at_memory (stage_memory bi)) ;;* in_heap init_heap ;;* in_pc (boot_interrupts fuel) ;;* rest)
        (World c empty_heap n None) = rest (World c' h' n None)
    ∧ heap_history h' ∅
    ∧ core c' = set_interrupts true (load_tables (init_idt ∅) (Some tss) (enable_write_protect_bit (enable_nxe_bit (core c))))
    ∧ memory c' = mc' ∧ wall c' = {| TICKS := TICKS (wall c); BOOT_UNIX_SECONDS := u |}
    ∧ (∃ cl', pc_line (sent ++ List.map (wrap 8) (boot_log u)) (master (chips (ports c'))) (slave (chips (ports c')))
        {| t_mode := 3; t_low := None; t_reload := 11931 |} cl' c')
    ∧ p_offset (master (chips (ports c'))) = 0x20 ∧ Z.testbit (p_mask (master (chips (ports c')))) 0 = false.
Proof.
  intros Hl Em Et Hd Hu u. destruct c as [s co m w]. cbn [ports memory core wall] in *. destruct Hl as [Hr Hs Hc]. cbn [ports] in Hr, Hs, Hc.
  destruct (serial_init_ready fuel s (lr_busy _ _ Hr) (lr_delays _ _ Hr)) as (s1 & E1 & R1 & _ & S1 & _ & K1).
  set (co1 := enable_write_protect_bit (enable_nxe_bit co)).
  destruct (boot_interrupts_run fuel s1 co1 mc w tss mc' sent (master (chips s1)) (slave (chips s1)) (timer (chips s1)) (clock (chips s1)) k hh mi sec)
    as (s2 & cl2 & E2 & L2 & O2 & M2).
  - split; [done | by rewrite S1 | done].
  - done.
  - by apply (displays_same s).
  - unfold updating. by rewrite K1.
  - eexists _, heap0. split.
    + rewrite (kbind_done _ _ _ tt (World {| ports := s1; core := co1; memory := m; wall := w |} empty_heap n None)).
      2: { apply in_pc_done. unfold boot_cpu. rewrite (kbind_done _ _ _ _ _ (at_ports_done _ {| ports := s; core := co; memory := m; wall := w |} _ _ E1)). done. }
      rewrite (kbind_done _ _ _ tt (World {| ports := s1; core := co1; memory := mc; wall := w |} empty_heap n None)).
      2: { apply in_pc_done. by apply (at_memory_done _ {| ports := s1; core := co1; memory := m; wall := w |}). }
      rewrite (kbind_done _ _ _ tt (World {| ports := s1; core := co1; memory := mc; wall := w |} heap0 n None)).
      2: { unfold in_heap, zoom. cbn [w_heap]. change (init_heap empty_heap) with (Done (tt, heap0)). done. }
      rewrite (kbind_done _ _ _ _ _ (in_pc_done _ _ heap0 n None _ _ E2)). reflexivity.
    + split_and!; try done; [by apply history_init|]. by exists cl2.
Qed.


(** Without a record [rust_main] says so and returns, to the [hlt] behind its call. *)
Lemma rust_main_refuses addr err c n : multiboot_load addr = inr err → line_ready fuel (serial (chips (ports c))) →
  ∃ c', rust_main fuel user_code user_data addr (World c empty_heap n None : W) = Done (false, World c' empty_heap n None)
    ∧ u_sent (serial (chips (ports c'))) = u_sent (serial (chips (ports c))) ++ List.map (wrap 8) (Log.line Log.ERR (not_loaded_message addr err)).
Proof.
  intros Hl Hr. destruct c as [sp co m w]. cbn [ports] in *. unfold rust_main. rewrite Hl.
  destruct (log_write_sends fuel Log.ERR (not_loaded_message addr err) sp Hr) as (s1 & E1 & S1 & _).
  exists {| ports := s1; core := co; memory := m; wall := w |}.
  rewrite (kbind_done _ _ _ tt (World {| ports := s1; core := co; memory := m; wall := w |} empty_heap n None)) by
    (by apply in_pc_done, (at_ports_done _ {| ports := sp; core := co; memory := m; wall := w |})). done.
Qed.
End MainProps.

(** ** A run *)

(** A machine whose stages are done: the memory of PageExample, one port, and a volume with the one
    file "bin/shell.elf". *)
#[local] Existing Instances one_file one_directory one_program.
#[local] Instance sample_multiboot : Multiboot := {
  multiboot_load addr :=
    if addr =? 0x9500 then inl {| boot_start := 0x100000; boot_end := 0x200000; elf_sections := []; memory_area_ends := [] |} else inr (text "Magic");
  rsdt_address _ := Some 0x1000;
}.
Definition sample_port : AHCIPort := {| port_address := 0xFEBF0100; max_slots := 32; block_count := 4096 |}.
#[local] Instance sample_stages : Stages SimplePageFrameAllocator unit unit unit bool := {
  stage_memory _ := kret tt;
  stage_ports _ := kret [sample_port];
  stage_mount _ _ := Done (true, tt);
  stage_view _ := tt;
}.
